(** * build_kg: the asynchronous LLM-enrichment pipeline of [llm_generate_json.py]

    A shallow embedding of [JSONStorage] and [AsyncLLMGenerator] and the
    properties of the durable store, the retrying client, the batch parser
    and the orchestrator loops; then of the reading of the spreadsheets,
    the sessions and [main], the prompts and the tree of
    [tech_domains.py].

    Conventions of the embedding.
    - A Python [str] is the list of its Unicode code points ([pystr]);
      literals are written in UTF-8 and decoded by [u].
    - A Python [int] is a [Z]; list lengths and indices are [nat] where the
      source cannot make them negative.
    - A value produced by [json.loads] is a [json]; a [dict] keeps its
      insertion order, as Python's does.
    - Effects are explicit: the generator's fields, the files of the
      session and a trace of the observable events are threaded through
      every operation. *)

From Stdlib Require Import String Ascii List NArith ZArith QArith Bool Lia Lqa.
From Stdlib Require Import Sorting.Permutation Sorting.Sorted.
Import ListNotations.

Set Implicit Arguments.
Close Scope Q_scope.
Set Warnings "-register-all".

(* ===================================================================== *)
(** * Python strings *)
(* ===================================================================== *)

Module PyStr.

Definition pystr := list N.

Definition cp (a : ascii) : N := N_of_ascii a.

(** UTF-8 decoding of a byte sequence, used only to write literals. *)
Fixpoint utf8_decode (bs : list N) : pystr :=
  match bs with
  | [] => []
  | b0 :: r0 =>
    if (b0 <? 128)%N then b0 :: utf8_decode r0
    else if (b0 <? 224)%N then
      match r0 with
      | b1 :: r1 => ((b0 - 192) * 64 + (b1 - 128))%N :: utf8_decode r1
      | _ => []
      end
    else if (b0 <? 240)%N then
      match r0 with
      | b1 :: b2 :: r2 =>
        ((b0 - 224) * 4096 + (b1 - 128) * 64 + (b2 - 128))%N :: utf8_decode r2
      | _ => []
      end
    else
      match r0 with
      | b1 :: b2 :: b3 :: r3 =>
        ((b0 - 240) * 262144 + (b1 - 128) * 4096 + (b2 - 128) * 64 + (b3 - 128))%N
          :: utf8_decode r3
      | _ => []
      end
  end.

Definition u (s : string) : pystr :=
  utf8_decode (map N_of_ascii (list_ascii_of_string s)).

Fixpoint str_eqb (a b : pystr) : bool :=
  match a, b with
  | [], [] => true
  | x :: a', y :: b' => (x =? y)%N && str_eqb a' b'
  | _, _ => false
  end.

(** [s.startswith(p)] *)
Fixpoint startswith (p s : pystr) : bool :=
  match p, s with
  | [], _ => true
  | x :: p', y :: s' => (x =? y)%N && startswith p' s'
  | _ :: _, [] => false
  end.

(** [s.endswith(p)] *)
Definition endswith (p s : pystr) : bool :=
  startswith (rev p) (rev s).

(** [s.find(sub)] counted from offset [i]: the lowest index at which [sub]
    occurs, [-1] when it does not occur. *)
Fixpoint find_from (sub s : pystr) (i : Z) : Z :=
  match s with
  | [] => if startswith sub [] then i else (-1)%Z
  | _ :: s' => if startswith sub s then i else find_from sub s' (i + 1)%Z
  end.

Definition str_find (sub s : pystr) : Z := find_from sub s 0%Z.

(** [s.rfind(sub)]: the highest index at which [sub] occurs, [-1] when it
    does not occur. *)
Fixpoint rfind_from (sub s : pystr) (i : Z) : Z :=
  match s with
  | [] => if startswith sub [] then i else (-1)%Z
  | _ :: s' =>
    let r := rfind_from sub s' (i + 1)%Z in
    if (0 <=? r)%Z then r else if startswith sub s then i else (-1)%Z
  end.

Definition str_rfind (sub s : pystr) : Z := rfind_from sub s 0%Z.

(** [sub in s] *)
Definition contains (sub s : pystr) : bool := (0 <=? str_find sub s)%Z.

(** [s[a:b]] for [0 <= a <= b], the only form the source uses with two
    bounds. *)
Definition slice (s : pystr) (a b : Z) : pystr :=
  firstn (Z.to_nat (b - a)) (skipn (Z.to_nat a) s).

(** [str.isspace] on one code point; it is also what [\s] matches in a
    [str] pattern of [re]. *)
Definition isspace (c : N) : bool :=
  ((9 <=? c) && (c <=? 13) || (28 <=? c) && (c <=? 32) || (c =? 133)
   || (c =? 160) || (c =? 5760) || (8192 <=? c) && (c <=? 8202)
   || (c =? 8232) || (c =? 8233) || (c =? 8239) || (c =? 8287)
   || (c =? 12288))%N.

Fixpoint lstrip (s : pystr) : pystr :=
  match s with
  | c :: s' => if isspace c then lstrip s' else s
  | [] => []
  end.

(** [s.strip()] *)
Definition strip (s : pystr) : pystr := rev (lstrip (rev (lstrip s))).

(** [re.sub(r'[...]', '', s)] for a character class given as a predicate;
    with the class [\s] it is also [re.sub(r'\s+', '', s)]. *)
Definition remove_chars (cls : N -> bool) (s : pystr) : pystr :=
  filter (fun c => negb (cls c)) s.

(** The decimal digits of a natural number, as [str(n)] prints them. *)
Fixpoint digits_fuel (fuel : nat) (n : N) (acc : pystr) : pystr :=
  match fuel with
  | O => acc
  | S f =>
    let acc' := (48 + n mod 10)%N :: acc in
    if (n <? 10)%N then acc' else digits_fuel f (n / 10)%N acc'
  end.

Definition str_of_N (n : N) : pystr := digits_fuel (S (N.to_nat (N.log2 n))) n [].

Definition str_of_Z (z : Z) : pystr :=
  if (z <? 0)%Z then cp "-" :: str_of_N (Z.to_N (- z)) else str_of_N (Z.to_N z).

End PyStr.
Export PyStr.

(* ===================================================================== *)
(** * JSON values and [json.loads] *)
(* ===================================================================== *)

Module Json.

(** The values [json.loads] builds.  A [float] keeps the text handed to
    [float()]; a [dict] is the list of its items in insertion order. *)
Inductive json : Type :=
| JNull
| JBool (b : bool)
| JInt (z : Z)
| JFloat (lexeme : pystr)
| JString (s : pystr)
| JArray (items : list json)
| JObject (pairs : list (pystr * json)).

(** [d[k] = v] on a dict: an existing key keeps its place. *)
Fixpoint dict_set (k : pystr) (v : json) (d : list (pystr * json))
  : list (pystr * json) :=
  match d with
  | [] => [(k, v)]
  | (k', v') :: d' =>
    if str_eqb k k' then (k, v) :: d' else (k', v') :: dict_set k v d'
  end.

(** [dict(pairs)] *)
Definition dict_of_pairs (pairs : list (pystr * json)) : list (pystr * json) :=
  fold_left (fun d kv => dict_set (fst kv) (snd kv) d) pairs [].

(** [d.get(k)] *)
Fixpoint dict_get (k : pystr) (d : list (pystr * json)) : option json :=
  match d with
  | [] => None
  | (k', v) :: d' => if str_eqb k k' then Some v else dict_get k d'
  end.

(** Result of scanning a prefix of the input: the value and the unread
    rest, a [JSONDecodeError], or the recursion budget of the model used
    up (shown below not to happen with the budget [json_loads] gives). *)
Inductive scanned (A : Type) : Type :=
| Scanned (a : A) (rest : pystr)
| DecodeError
| Exhausted.
Arguments DecodeError {A}.
Arguments Exhausted {A}.

(** [WHITESPACE = [ \t\n\r]*] *)
Definition is_ws (c : N) : bool :=
  ((c =? 32) || (c =? 9) || (c =? 10) || (c =? 13))%N.

Fixpoint skip_ws (s : pystr) : pystr :=
  match s with
  | c :: s' => if is_ws c then skip_ws s' else s
  | [] => []
  end.

Definition is_digit (c : N) : bool := ((48 <=? c) && (c <=? 57))%N.

Definition hexval (c : N) : option N :=
  if is_digit c then Some (c - 48)%N
  else if ((65 <=? c) && (c <=? 70))%N then Some (c - 55)%N
  else if ((97 <=? c) && (c <=? 102))%N then Some (c - 87)%N
  else None.

(** [int(s[pos+1:pos+5], 16)] of [_decode_uXXXX]. *)
Definition hex4 (a b c d : N) : option N :=
  match hexval a, hexval b, hexval c, hexval d with
  | Some x, Some y, Some z, Some w => Some (((x * 16 + y) * 16 + z) * 16 + w)%N
  | _, _, _, _ => None
  end.

(** [BACKSLASH]: the one-letter escapes. *)
Definition backslash (esc : N) : option N :=
  if (esc =? 34)%N then Some 34%N          (* quote *)
  else if (esc =? 92)%N then Some 92%N     (* backslash *)
  else if (esc =? 47)%N then Some 47%N     (* slash *)
  else if (esc =? 98)%N then Some 8%N      (* b *)
  else if (esc =? 102)%N then Some 12%N    (* f *)
  else if (esc =? 110)%N then Some 10%N    (* n *)
  else if (esc =? 114)%N then Some 13%N    (* r *)
  else if (esc =? 116)%N then Some 9%N     (* t *)
  else None.

Definition is_high_surrogate (c : N) : bool := ((55296 <=? c) && (c <=? 56319))%N.
Definition is_low_surrogate (c : N) : bool := ((56320 <=? c) && (c <=? 57343))%N.

(** [py_scanstring] in strict mode, entered after the opening quote;
    [acc] holds the decoded characters so far, last first. *)
Fixpoint scanstring (s : pystr) (acc : pystr) : scanned pystr :=
  match s with
  | [] => DecodeError
  | c :: rest =>
    if (c =? 34)%N then Scanned (rev acc) rest
    else if (c <? 32)%N then DecodeError
    else if (c =? 92)%N then
      match rest with
      | [] => DecodeError
      | esc :: rest1 =>
        if (esc =? 117)%N then
          match rest1 with
          | h1 :: h2 :: h3 :: h4 :: rest2 =>
            match hex4 h1 h2 h3 h4 with
            | None => DecodeError
            | Some uni =>
              match rest2 with
              | b :: e :: rest3 =>
                if is_high_surrogate uni && (b =? 92)%N && (e =? 117)%N then
                  match rest3 with
                  | l1 :: l2 :: l3 :: l4 :: rest4 =>
                    match hex4 l1 l2 l3 l4 with
                    | None => DecodeError
                    | Some uni2 =>
                      if is_low_surrogate uni2
                      then scanstring rest4
                             ((65536 + ((uni - 55296) * 1024 + (uni2 - 56320)))%N :: acc)
                      else scanstring rest2 (uni :: acc)
                    end
                  | _ => DecodeError
                  end
                else scanstring rest2 (uni :: acc)
              | _ => scanstring rest2 (uni :: acc)
              end
            end
          | _ => DecodeError
          end
        else
          match backslash esc with
          | Some ch => scanstring rest1 (ch :: acc)
          | None => DecodeError
          end
      end
    else scanstring rest (c :: acc)
  end.

Fixpoint span_digits (s : pystr) : pystr * pystr :=
  match s with
  | c :: s' =>
    if is_digit c then let (ds, r) := span_digits s' in (c :: ds, r) else ([], s)
  | [] => ([], [])
  end.

(** [int(digits)] *)
Definition nat_of_digits (ds : pystr) : N :=
  fold_left (fun n c => (n * 10 + (c - 48))%N) ds 0%N.

(** The groups of [NUMBER_RE], each matched at the head of a text and
    returned with the unread rest: an optional minus sign ... *)
Definition match_sign (s : pystr) : pystr * pystr :=
  match s with
  | c :: t => if (c =? 45)%N then ([c], t) else ([], s)
  | [] => ([], s)
  end.

(** ... a single zero, or a non-zero digit followed by digits ... *)
Definition match_int (s : pystr) : option (pystr * pystr) :=
  match s with
  | c :: t =>
    if is_digit c then
      Some (if (c =? 48)%N then ([c], t)
            else let (ds, r) := span_digits t in (c :: ds, r))
    else None
  | [] => None
  end.

(** ... an optional fraction: a dot and at least one digit ... *)
Definition match_frac (s : pystr) : pystr * pystr :=
  match s with
  | dot :: t =>
    if (dot =? 46)%N then
      match span_digits t with
      | ([], _) => ([], s)
      | (ds, r) => (dot :: ds, r)
      end
    else ([], s)
  | [] => ([], s)
  end.

(** ... and an optional exponent: e or E, an optional sign, at least one
    digit. *)
Definition match_exp (s : pystr) : pystr * pystr :=
  match s with
  | e :: t =>
    if ((e =? 101) || (e =? 69))%N then
      let '(sg, t') :=
        match t with
        | x :: t'' => if ((x =? 45) || (x =? 43))%N then ([x], t'') else ([], t)
        | [] => ([], t)
        end in
      match span_digits t' with
      | ([], _) => ([], s)
      | (ds, r) => (e :: sg ++ ds, r)
      end
    else ([], s)
  | [] => ([], s)
  end.

(** [NUMBER_RE] matched at the head of [s]: the three groups (the first
    with its sign) and the unread rest. *)
Definition match_number (s : pystr) : option (pystr * pystr * pystr * pystr) :=
  let '(sign, s1) := match_sign s in
  match match_int s1 with
  | Some (int_ds, r1) =>
    let '(frac, r2) := match_frac r1 in
    let '(exp, r3) := match_exp r2 in
    Some (sign ++ int_ds, frac, exp, r3)
  | None => None
  end.

(** [int(integer)] for a text matched by the first group. *)
Definition int_of_text (t : pystr) : Z :=
  match t with
  | c :: ds => if (c =? 45)%N then (- Z.of_N (nat_of_digits ds))%Z
               else Z.of_N (nat_of_digits t)
  | [] => 0%Z
  end.

(** The branches of [_scan_once] that read no nested value: the three
    literals, a number, and the constants [NaN], [Infinity], [-Infinity]. *)
Definition scan_atom (s : pystr) : scanned json :=
  if startswith (u "null") s then Scanned JNull (skipn 4 s)
  else if startswith (u "true") s then Scanned (JBool true) (skipn 4 s)
  else if startswith (u "false") s then Scanned (JBool false) (skipn 5 s)
  else
    match match_number s with
    | Some (integer, frac, exp, rest) =>
      match frac, exp with
      | [], [] => Scanned (JInt (int_of_text integer)) rest
      | _, _ => Scanned (JFloat (integer ++ frac ++ exp)) rest
      end
    | None =>
      if startswith (u "NaN") s then Scanned (JFloat (u "NaN")) (skipn 3 s)
      else if startswith (u "Infinity") s then Scanned (JFloat (u "Infinity")) (skipn 8 s)
      else if startswith (u "-Infinity") s then Scanned (JFloat (u "-Infinity")) (skipn 9 s)
      else DecodeError
    end.

(** [_scan_once], [JSONArray] and [JSONObject].  The [while True] loops of
    the two containers are [array_items] and [object_items]; every call
    spends one unit of [fuel]. *)
Fixpoint scan_once (fuel : nat) (s : pystr) : scanned json :=
  match fuel with
  | O => Exhausted
  | S fuel' =>
    match s with
    | [] => DecodeError
    | c :: rest =>
      if (c =? 34)%N then
        match scanstring rest [] with
        | Scanned str r => Scanned (JString str) r
        | DecodeError => DecodeError
        | Exhausted => Exhausted
        end
      else if (c =? 123)%N then JSONObject fuel' rest
      else if (c =? 91)%N then JSONArray fuel' rest
      else scan_atom s
    end
  end

with JSONArray (fuel : nat) (s : pystr) : scanned json :=
  match fuel with
  | O => Exhausted
  | S fuel' =>
    match skip_ws s with
    | c :: r =>
      if (c =? 93)%N then Scanned (JArray []) r
      else array_items fuel' (c :: r) []
    | [] => DecodeError
    end
  end

with array_items (fuel : nat) (s : pystr) (values : list json) : scanned json :=
  match fuel with
  | O => Exhausted
  | S fuel' =>
    match scan_once fuel' s with
    | Scanned value r =>
      match skip_ws r with
      | c :: r' =>
        if (c =? 93)%N then Scanned (JArray (rev (value :: values))) r'
        else if (c =? 44)%N then array_items fuel' (skip_ws r') (value :: values)
        else DecodeError
      | [] => DecodeError
      end
    | DecodeError => DecodeError
    | Exhausted => Exhausted
    end
  end

with JSONObject (fuel : nat) (s : pystr) : scanned json :=
  match fuel with
  | O => Exhausted
  | S fuel' =>
    match skip_ws s with
    | c :: r =>
      if (c =? 125)%N then Scanned (JObject []) r
      else if (c =? 34)%N then object_items fuel' r []
      else DecodeError
    | [] => DecodeError
    end
  end

(** Entered after the opening quote of a key. *)
with object_items (fuel : nat) (s : pystr) (pairs : list (pystr * json))
  : scanned json :=
  match fuel with
  | O => Exhausted
  | S fuel' =>
    match scanstring s [] with
    | Scanned key r =>
      match skip_ws r with
      | colon :: r1 =>
        if (colon =? 58)%N then
          match scan_once fuel' (skip_ws r1) with
          | Scanned value r2 =>
            match skip_ws r2 with
            | c :: r3 =>
              if (c =? 125)%N
              then Scanned (JObject (dict_of_pairs (rev ((key, value) :: pairs)))) r3
              else if (c =? 44)%N then
                match skip_ws r3 with
                | q :: r4 =>
                  if (q =? 34)%N then object_items fuel' r4 ((key, value) :: pairs)
                  else DecodeError
                | [] => DecodeError
                end
              else DecodeError
            | [] => DecodeError
            end
          | DecodeError => DecodeError
          | Exhausted => Exhausted
          end
        else DecodeError
      | [] => DecodeError
      end
    | DecodeError => DecodeError
    | Exhausted => Exhausted
    end
  end.

(** [json.loads(s)] for a [str]: [None] stands for a raised
    [JSONDecodeError].  The interpreter's own limits (recursion depth, the
    digit limit of [int]) are outside the model. *)
Definition json_loads (s : pystr) : option json :=
  if startswith [65279%N] s then None
  else
    match scan_once (3 * length s + 3) (skip_ws s) with
    | Scanned obj rest =>
      match skip_ws rest with
      | [] => Some obj
      | _ :: _ => None
      end
    | DecodeError => None
    | Exhausted => None
    end.

End Json.
Export Json.

(* ===================================================================== *)
(** * What the process observes and emits *)
(* ===================================================================== *)

Module World.

(** The keys of [JSONStorage.files] and [JSONStorage.data]. *)
Inductive data_type : Type :=
| green_classifications
| tech_classifications
| entity_locations
| progress.

Definition data_type_eqb (a b : data_type) : bool :=
  match a, b with
  | green_classifications, green_classifications
  | tech_classifications, tech_classifications
  | entity_locations, entity_locations
  | progress, progress => true
  | _, _ => false
  end.

(** The three values of [task_type] the callers pass. *)
Inductive task_type : Type := green | tech | location.

Inductive level : Type := INFO | WARNING | ERROR.

(** The lines logged by the modelled functions, with the values
    interpolated in them.  The banners and the closing report of
    [__init__] and [generate_all_async] are left out. *)
Inductive message : Type :=
| MsgProgressLoaded (patents : nat)
| MsgDataLoaded (dt : data_type) (records : option nat)
| MsgLoadFailed (dt : data_type)
| MsgApiFailed (status : Z) (error_text : pystr)
| MsgTimeout (retry_count : nat)
| MsgLLMException
| MsgParseFailed (t : task_type)
| MsgAllPatentsDone
| MsgPatentsFetched (n : nat)
| MsgSaved (t : task_type) (n : nat)
| MsgAllEntitiesDone
| MsgEntitiesFetched (n : nat)
| MsgSignal.

(** Durations are exact rationals, in seconds. *)
Inductive event : Type :=
| EvLog (l : level) (m : message)
| EvPost (prompt : pystr)          (* [session.post] is entered *)
| EvSleep (seconds : Q).           (* [asyncio.sleep] *)

(** A file of the session: [files[dt]] or [files[dt] + '.tmp']. *)
Inductive path : Type :=
| File (dt : data_type)
| Temp (dt : data_type).

Definition path_eqb (p q : path) : bool :=
  match p, q with
  | File a, File b => data_type_eqb a b
  | Temp a, Temp b => data_type_eqb a b
  | _, _ => false
  end.

(** What a file holds: the text [json.dump] writes for a document, which
    [json.load] reads back as that document, or a text on which
    [json.load] raises (an empty or partly written file, or anything that
    is not JSON). *)
Inductive content : Type :=
| Text (doc : json)
| Garbled.

Definition filesystem := path -> option content.

Definition fs_write (p : path) (c : content) (fs : filesystem) : filesystem :=
  fun q => if path_eqb q p then Some c else fs q.

Definition fs_remove (p : path) (fs : filesystem) : filesystem :=
  fun q => if path_eqb q p then None else fs q.

(** [os.rename(src, dst)] with [dst] absent. *)
Definition fs_rename (src dst : path) (fs : filesystem) : filesystem :=
  fun q => if path_eqb q dst then fs src
           else if path_eqb q src then None else fs q.

Definition fs_exists (p : path) (fs : filesystem) : bool :=
  match fs p with Some _ => true | None => false end.

End World.
Export World.

(* ===================================================================== *)
(** * [class JSONStorage] *)
(* ===================================================================== *)

Module Storage.

(** [data['progress']].  The two ledgers hold whatever was appended to
    them; [session_id] and [last_update] are absent until written. *)
Record Progress : Type := mkProgress {
  processed_patents : list json;
  processed_entities : list json;
  progress_session_id : option json;
  last_update : option json
}.

(** [self.data] and [self.session_id]. *)
Record JSONStorage : Type := mkStorage {
  session_id : pystr;
  data_green : list json;
  data_tech : list json;
  data_entity : list json;
  data_progress : Progress
}.

Definition default_progress (sid : pystr) : Progress :=
  mkProgress [] [] (Some (JString sid)) None.

(** The document [json.dump] writes for the progress dict. *)
Definition dump_progress (p : Progress) : json :=
  JObject
    ([(u "processed_patents", JArray (processed_patents p));
      (u "processed_entities", JArray (processed_entities p))]
       ++ match progress_session_id p with
          | Some s => [(u "session_id", s)]
          | None => []
          end
       ++ match last_update p with
          | Some t => [(u "last_update", t)]
          | None => []
          end).

(** The document [json.dump(self.data[data_type], ...)] writes. *)
Definition dump (self : JSONStorage) (dt : data_type) : json :=
  match dt with
  | green_classifications => JArray (data_green self)
  | tech_classifications => JArray (data_tech self)
  | entity_locations => JArray (data_entity self)
  | progress => dump_progress (data_progress self)
  end.

Definition progress_keys : list pystr :=
  [u "processed_patents"; u "processed_entities"; u "session_id"; u "last_update"].

(** The progress dict read back from a document.  [None]: the document is
    not one this program writes (a ledger is missing or is not a list, or
    there is a foreign key), and the accesses of the source to it raise. *)
Definition as_progress (doc : json) : option Progress :=
  match doc with
  | JObject d =>
    if forallb (fun kv => existsb (str_eqb (fst kv)) progress_keys) d then
      match dict_get (u "processed_patents") d, dict_get (u "processed_entities") d with
      | Some (JArray ps), Some (JArray es) =>
        Some (mkProgress ps es (dict_get (u "session_id") d) (dict_get (u "last_update") d))
      | _, _ => None
      end
    else None
  | _ => None
  end.

Definition as_records (doc : json) : option (list json) :=
  match doc with
  | JArray l => Some l
  | _ => None
  end.

(** [len(x)] is defined. *)
Definition has_len (j : json) : bool :=
  match j with
  | JString _ | JArray _ | JObject _ => true
  | _ => false
  end.

Definition py_len (j : json) : nat :=
  match j with
  | JString s => length s
  | JArray l => length l
  | JObject d => length d
  | _ => 0
  end.

(** The empty default [_load_json] falls back to. *)
Definition default_doc (sid : pystr) (dt : data_type) : json :=
  match dt with
  | progress => dump_progress (default_progress sid)
  | _ => JArray []
  end.

(** [_load_json]: the loaded value and the lines logged.  For the progress
    file the [logger.info] line sits inside the [try]: it raises, and the
    default is returned, when the document is not a dict or its
    [processed_patents] has no [len]. *)
Definition _load_json (sid : pystr) (fs : filesystem) (dt : data_type)
  : json * list event :=
  match fs (File dt) with
  | Some (Text doc) =>
    match dt with
    | progress =>
      match doc with
      | JObject d =>
        match dict_get (u "processed_patents") d with
        | None => (doc, [EvLog INFO (MsgProgressLoaded 0)])
        | Some v =>
          if has_len v then (doc, [EvLog INFO (MsgProgressLoaded (py_len v))])
          else (default_doc sid dt, [EvLog WARNING (MsgLoadFailed dt)])
        end
      | _ => (default_doc sid dt, [EvLog WARNING (MsgLoadFailed dt)])
      end
    | _ =>
      (doc, [EvLog INFO (MsgDataLoaded dt
                           (match doc with
                            | JArray l => Some (length l)
                            | _ => None
                            end))])
    end
  | Some Garbled => (default_doc sid dt, [EvLog WARNING (MsgLoadFailed dt)])
  | None => (default_doc sid dt, [])
  end.

(** [JSONStorage.__init__]: the store and the lines logged, in the order
    of the four loads.  [None] when a loaded document has a shape this
    program never writes.  [_load_json('progress') or {...}] replaces an
    empty dict by the default. *)
Definition JSONStorage_init (sid : pystr) (fs : filesystem)
  : option (JSONStorage * list event) :=
  let '(g, lg) := _load_json sid fs green_classifications in
  let '(t, lt) := _load_json sid fs tech_classifications in
  let '(e, le) := _load_json sid fs entity_locations in
  let '(p, lp) := _load_json sid fs progress in
  match as_records g, as_records t, as_records e,
        (match p with
         | JObject [] => Some (default_progress sid)
         | _ => as_progress p
         end) with
  | Some g', Some t', Some e', Some p' =>
    Some (mkStorage sid g' t' e' p', lg ++ lt ++ le ++ lp)
  | _, _, _, _ => None
  end.

Definition set_progress (self : JSONStorage) (p : Progress) : JSONStorage :=
  mkStorage (session_id self) (data_green self) (data_tech self) (data_entity self) p.

(** The in-memory collection of a result kind. *)
Definition records (self : JSONStorage) (dt : data_type) : list json :=
  match dt with
  | green_classifications => data_green self
  | tech_classifications => data_tech self
  | entity_locations => data_entity self
  | progress => []
  end.

End Storage.
Export Storage.

(* ===================================================================== *)
(** * The environment of a run *)
(* ===================================================================== *)

Module Environment.

(** What reading the body of a response gives. *)
Inductive body : Type :=
| Body (text : pystr)     (* the body arrives, declared as JSON:
                             [response.text()] returns it and
                             [response.json()] decodes it *)
| BodyTimeout             (* reading it raises [asyncio.TimeoutError] *)
| BodyError.              (* reading or decoding it raises another
                             exception: a broken connection, a content
                             type that is not JSON, a limit of the
                             decoder *)

(** What one [session.post] gives. *)
Inductive attempt : Type :=
| Response (elapsed : Q) (status : Z) (payload : body)
| PostTimeout             (* [asyncio.TimeoutError] before any response *)
| PostError.              (* another exception before any response *)

(** [LLM_ENHANCE_CONFIG].  [batch_size] is the step of a [range]: zero
    makes [range] raise before any call is made, so the type excludes
    it. *)
Record Config : Type := mkConfig {
  batch_size : positive;
  enable_tech_classification : bool;
  enable_green_classification : bool;
  enable_location_extraction : bool;
  max_concurrent_requests : nat;
  max_retries : nat;
  retry_delay : Q
}.

(** Everything the process takes from outside.  The oracles are indexed by
    the number of events the process has emitted so far, so that two
    requests never share an index. *)
Record Env : Type := mkEnv {
  (* the outcome of the [session.post] entered at that point *)
  llm : nat -> attempt;
  (* [datetime.now().isoformat()] *)
  now : nat -> pystr;
  (* whether SIGINT or SIGTERM is delivered during the loop iteration
     that ends at that point *)
  signal : nat -> bool;
  (* the order in which [list(set(l))] enumerates the distinct elements *)
  set_order : list pystr -> list pystr;
  (* [str.isprintable] on the code points above 127 *)
  isprintable : N -> bool;
  (* [repr] of the [float] read from a text *)
  float_repr : pystr -> pystr;
  (* whether [json.dump] raises [RecursionError] on that document: it
     nests deeper than the interpreter lets the encoder recurse *)
  dump_overflows : json -> bool;
  (* which of the coroutines of an [asyncio.gather] that can go on does
     so: the gather entered after that many events, at that step *)
  schedule : nat -> nat -> nat
}.

(** [list(set(l))] has the elements of [l], each once. *)
Definition set_order_ok (env : Env) : Prop :=
  forall l, NoDup (set_order env l) /\ (forall x, In x (set_order env l) <-> In x l).

End Environment.
Export Environment.

(* ===================================================================== *)
(** * [str(items)] and [JSONStorage]'s mutators *)
(* ===================================================================== *)

Module Mutators.

Definition hex_digit (n : N) : N := if (n <? 10)%N then (48 + n)%N else (87 + n)%N.

(** [width] lowercase hexadecimal digits of [n]. *)
Fixpoint hex (width : nat) (n : N) : pystr :=
  match width with
  | O => []
  | S w => hex w (n / 16)%N ++ [hex_digit (n mod 16)%N]
  end.

(** One character inside [repr] of a [str] quoted by [quote]. *)
Definition repr_char (env : Env) (quote : N) (c : N) : pystr :=
  if ((c =? quote) || (c =? 92))%N then [92%N; c]
  else if (c =? 9)%N then u "\t"
  else if (c =? 10)%N then u "\n"
  else if (c =? 13)%N then u "\r"
  else if ((c <? 32) || (c =? 127))%N then u "\x" ++ hex 2 c
  else if (c <? 127)%N then [c]
  else if isprintable env c then [c]
  else if (c <=? 255)%N then u "\x" ++ hex 2 c
  else if (c <=? 65535)%N then u "\u" ++ hex 4 c
  else u "\U" ++ hex 8 c.

(** [repr(s)] for a [str]: double quotes only when [s] has a single quote
    and no double quote. *)
Definition repr_str (env : Env) (s : pystr) : pystr :=
  let quote :=
    if existsb (N.eqb 39) s && negb (existsb (N.eqb 34) s) then 34%N else 39%N in
  quote :: flat_map (repr_char env quote) s ++ [quote].

(** [sep.join(parts)] *)
Fixpoint join (sep : pystr) (parts : list pystr) : pystr :=
  match parts with
  | [] => []
  | [p] => p
  | p :: ps => p ++ sep ++ join sep ps
  end.

(** [repr(x)] for a value built by [json.loads]. *)
Fixpoint py_repr (env : Env) (j : json) : pystr :=
  match j with
  | JNull => u "None"
  | JBool true => u "True"
  | JBool false => u "False"
  | JInt z => str_of_Z z
  | JFloat lexeme => float_repr env lexeme
  | JString s => repr_str env s
  | JArray l => u "[" ++ join (u ", ") (map (py_repr env) l) ++ u "]"
  | JObject d =>
    u "{" ++ join (u ", ")
               (map (fun '(k, v) => repr_str env k ++ u ": " ++ py_repr env v) d)
      ++ u "}"
  end.

(** [str(items)] for a list. *)
Definition py_str (env : Env) (items : list json) : pystr :=
  py_repr env (JArray items).

(** A code point that UTF-8 does not encode: writing it to a file opened
    with [encoding='utf-8'] raises [UnicodeEncodeError]. *)
Definition is_surrogate (c : N) : bool := ((55296 <=? c) && (c <=? 57343))%N.

(** A document with a lone surrogate in one of its strings or keys;
    [json.loads] makes such strings from escapes like [\ud83d]. *)
Fixpoint has_surrogate (j : json) : bool :=
  match j with
  | JString s => existsb is_surrogate s
  | JArray l => existsb has_surrogate l
  | JObject d =>
    existsb (fun kv => existsb is_surrogate (fst kv) || has_surrogate (snd kv)) d
  | _ => false
  end.

(** [json.dump(doc, f, ensure_ascii=False, indent=2)] into a file opened
    with [encoding='utf-8'] returns: every string can be encoded and the
    encoder stays within the recursion limit. *)
Definition dumpable (env : Env) (doc : json) : bool :=
  negb (has_surrogate doc) && negb (dump_overflows env doc).

(** The file operations of [_save_json], in order.  The [exists] test and
    the [remove] it guards count as one operation: the test changes
    nothing.  When [json.dump] raises, the [with] block closes the
    temporary file with part of the text at most, and the handler, which
    only logs, is entered: nothing else is done. *)
Definition save_steps (env : Env) (self : JSONStorage) (dt : data_type)
  : list (filesystem -> filesystem) :=
  if dumpable env (dump self dt) then
    [ (* open(temp_filepath, 'w') creates or truncates the file *)
      fs_write (Temp dt) Garbled;
      (* json.dump(...) and the close at the end of the with block *)
      fs_write (Temp dt) (Text (dump self dt));
      (* if os.path.exists(filepath): os.remove(filepath) *)
      (fun fs => if fs_exists (File dt) fs then fs_remove (File dt) fs else fs);
      (* os.rename(temp_filepath, filepath) *)
      fs_rename (Temp dt) (File dt) ]
  else
    [ (* open(temp_filepath, 'w'), and json.dump raising in the with block *)
      fs_write (Temp dt) Garbled ].

(** [_save_json] in which only the first [n] file operations take effect:
    the process is killed after them, or the next one raises and the
    handler, which only logs, is entered. *)
Definition _save_json_upto (env : Env) (n : nat) (self : JSONStorage) (dt : data_type)
  (fs : filesystem) : filesystem :=
  fold_left (fun f step => step f) (firstn n (save_steps env self dt)) fs.

(** [_save_json] running to its end. *)
Definition _save_json (env : Env) (self : JSONStorage) (dt : data_type)
  (fs : filesystem) : filesystem :=
  fold_left (fun f step => step f) (save_steps env self dt) fs.

(** [append_data].  [self.lock] guards nothing here: a single thread runs
    the event loop and the body has no suspension point. *)
Definition append_data (env : Env) (dt : data_type) (items : list json)
  (self : JSONStorage) (fs : filesystem) : JSONStorage * filesystem :=
  let self' :=
    match dt with
    | progress =>
      let p := data_progress self in
      if contains (u "patents") (py_str env items) then
        set_progress self
          (mkProgress (processed_patents p ++ items) (processed_entities p)
                      (progress_session_id p) (last_update p))
      else if contains (u "entities") (py_str env items) then
        set_progress self
          (mkProgress (processed_patents p) (processed_entities p ++ items)
                      (progress_session_id p) (last_update p))
      else self
    | green_classifications =>
      mkStorage (session_id self) (data_green self ++ items) (data_tech self)
                (data_entity self) (data_progress self)
    | tech_classifications =>
      mkStorage (session_id self) (data_green self) (data_tech self ++ items)
                (data_entity self) (data_progress self)
    | entity_locations =>
      mkStorage (session_id self) (data_green self) (data_tech self)
                (data_entity self ++ items) (data_progress self)
    end in
  (self', _save_json env self' dt fs).

(** [append_data] cut short inside [_save_json] after [n] file operations
    (see [_save_json_upto]). *)
Definition append_data_upto (n : nat) (env : Env) (dt : data_type)
  (items : list json) (self : JSONStorage) (fs : filesystem)
  : JSONStorage * filesystem :=
  (fst (append_data env dt items self fs),
   _save_json_upto env n (fst (append_data env dt items self fs)) dt fs).

(** [mark_processed_patents], with the time read from the clock. *)
Definition mark_processed_patents (env : Env) (timestamp : pystr)
  (patent_ids : list pystr) (self : JSONStorage) (fs : filesystem)
  : JSONStorage * filesystem :=
  let p := data_progress self in
  let self' :=
    set_progress self
      (mkProgress (processed_patents p ++ map JString patent_ids)
                  (processed_entities p) (progress_session_id p)
                  (Some (JString timestamp))) in
  (self', _save_json env self' progress fs).

(** [mark_processed_entities] *)
Definition mark_processed_entities (env : Env) (timestamp : pystr)
  (entity_names : list pystr) (self : JSONStorage) (fs : filesystem)
  : JSONStorage * filesystem :=
  let p := data_progress self in
  let self' :=
    set_progress self
      (mkProgress (processed_patents p)
                  (processed_entities p ++ map JString entity_names)
                  (progress_session_id p) (Some (JString timestamp))) in
  (self', _save_json env self' progress fs).

(** [x == j] for a [str] [x]. *)
Definition str_equals (x : pystr) (j : json) : bool :=
  match j with
  | JString s => str_eqb x s
  | _ => false
  end.

(** [is_patent_processed] *)
Definition is_patent_processed (self : JSONStorage) (patent_id : pystr) : bool :=
  existsb (str_equals patent_id) (processed_patents (data_progress self)).

(** [is_entity_processed] *)
Definition is_entity_processed (self : JSONStorage) (entity_name : pystr) : bool :=
  existsb (str_equals entity_name) (processed_entities (data_progress self)).

(** [get_stats], without the session id: the five lengths. *)
Definition get_stats (self : JSONStorage) : nat * nat * nat * nat * nat :=
  (length (processed_patents (data_progress self)),
   length (processed_entities (data_progress self)),
   length (data_green self),
   length (data_tech self),
   length (data_entity self)).

End Mutators.
Export Mutators.

(* ===================================================================== *)
(** * [class AsyncLLMGenerator]: state and client *)
(* ===================================================================== *)

Module Generator.

(** The fields of a patent dict that the modelled code reads. *)
Record Patent : Type := mkPatent {
  patentId : pystr;
  titleZh : pystr;
  abstractZh : pystr;
  ipcMainClass : option pystr;
  applicants : list pystr;
  currentOwners : list pystr
}.

Record Entity : Type := mkEntity {
  normalizedName : pystr;
  name : pystr;
  type : pystr
}.

(** The three prompt builders.  Their texts are sent and never read back
    by the program, so they are left open. *)
Record Prompts : Type := mkPrompts {
  build_green_classification_prompt : list Patent -> pystr;
  build_tech_classification_prompt : list Patent -> pystr;
  build_location_extraction_prompt : list Entity -> pystr
}.

(** [self.stats] *)
Record Stats : Type := mkStats {
  total_requests : N;
  successful_requests : N;
  failed_requests : N;
  retries : N;
  total_time : Q
}.

(** The generator, the files of its session and the events so far (most
    recent first).  [semaphore] is the value of the [asyncio.Semaphore]. *)
Record AsyncLLMGenerator : Type := mkGenerator {
  storage : JSONStorage;
  semaphore : nat;
  should_stop : bool;
  stats : Stats;
  all_patents : list Patent;
  all_entities : list Entity;
  disk : filesystem;
  trace : list event
}.

Definition set_storage (s : JSONStorage) (d : filesystem) (g : AsyncLLMGenerator) :=
  mkGenerator s (semaphore g) (should_stop g) (stats g) (all_patents g)
              (all_entities g) d (trace g).

Definition set_semaphore (n : nat) (g : AsyncLLMGenerator) :=
  mkGenerator (storage g) n (should_stop g) (stats g) (all_patents g)
              (all_entities g) (disk g) (trace g).

Definition set_should_stop (b : bool) (g : AsyncLLMGenerator) :=
  mkGenerator (storage g) (semaphore g) b (stats g) (all_patents g)
              (all_entities g) (disk g) (trace g).

Definition set_stats (s : Stats) (g : AsyncLLMGenerator) :=
  mkGenerator (storage g) (semaphore g) (should_stop g) s (all_patents g)
              (all_entities g) (disk g) (trace g).

Definition set_trace (t : list event) (g : AsyncLLMGenerator) :=
  mkGenerator (storage g) (semaphore g) (should_stop g) (stats g) (all_patents g)
              (all_entities g) (disk g) t.

(** How a coroutine of the model ends. *)
Inductive outcome (A : Type) : Type :=
| Done (a : A) (g : AsyncLLMGenerator)   (* it returns [a] *)
| Blocked (g : AsyncLLMGenerator)        (* it waits for a slot of the
                                            semaphore that nothing running
                                            will release *)
| Running (g : AsyncLLMGenerator).       (* the iteration budget of the
                                            model is spent and it has not
                                            returned *)
Arguments Blocked {A}.
Arguments Running {A}.

Definition M (A : Type) : Type := AsyncLLMGenerator -> outcome A.

Definition ret {A : Type} (a : A) : M A := fun g => Done a g.

Definition bind {A B : Type} (m : M A) (k : A -> M B) : M B :=
  fun g =>
    match m g with
    | Done a g' => k a g'
    | Blocked g' => Blocked g'
    | Running g' => Running g'
    end.

Declare Scope gen_scope.
Delimit Scope gen_scope with gen.
Notation "x <- m ;; k" := (bind m (fun x => k))
  (at level 61, m at next level, right associativity) : gen_scope.
Notation "m ;; k" := (bind m (fun _ => k))
  (at level 61, right associativity) : gen_scope.
Open Scope gen_scope.

Definition emit (e : event) : M unit :=
  fun g => Done tt (set_trace (e :: trace g) g).

Definition logger (l : level) (m : message) : M unit := emit (EvLog l m).

(** [await asyncio.sleep(seconds)] *)
Definition sleep (seconds : Q) : M unit := emit (EvSleep seconds).

(** Entering [async with self.semaphore]. *)
Definition acquire : M unit :=
  fun g =>
    match semaphore g with
    | O => Blocked g
    | S n => Done tt (set_semaphore n g)
    end.

(** Leaving [async with self.semaphore]. *)
Definition release : M unit :=
  fun g => Done tt (set_semaphore (S (semaphore g)) g).

Definition update_stats (f : Stats -> Stats) : M unit :=
  fun g => Done tt (set_stats (f (stats g)) g).

Definition incr_total (s : Stats) : Stats :=
  mkStats (total_requests s + 1) (successful_requests s) (failed_requests s)
          (retries s) (total_time s).

Definition incr_successful (s : Stats) : Stats :=
  mkStats (total_requests s) (successful_requests s + 1) (failed_requests s)
          (retries s) (total_time s).

Definition incr_failed (s : Stats) : Stats :=
  mkStats (total_requests s) (successful_requests s) (failed_requests s + 1)
          (retries s) (total_time s).

Definition incr_retries (s : Stats) : Stats :=
  mkStats (total_requests s) (successful_requests s) (failed_requests s)
          (retries s + 1) (total_time s).

Definition add_time (elapsed : Q) (s : Stats) : Stats :=
  mkStats (total_requests s) (successful_requests s) (failed_requests s)
          (retries s) (total_time s + elapsed).

(** [session.post(...)]: the request leaves and the environment answers. *)
Definition post (env : Env) (prompt : pystr) : M attempt :=
  fun g => Done (llm env (length (trace g))) (set_trace (EvPost prompt :: trace g) g).

(** [result['choices'][0]['message']['content']] for a decoded body;
    [None] when a subscript raises or the content is not a [str], on which
    [.strip()] raises. *)
Definition message_content (result : json) : option pystr :=
  match result with
  | JObject d =>
    match dict_get (u "choices") d with
    | Some (JArray (JObject c :: _)) =>
      match dict_get (u "message") c with
      | Some (JObject m) =>
        match dict_get (u "content") m with
        | Some (JString s) => Some s
        | _ => None
        end
      | _ => None
      end
    | _ => None
    end
  | _ => None
  end.

(** The retry logic, written three times in the source: after a status
    other than 200 and in the two [except] clauses.  [again] is the
    recursive call. *)
Definition retry_or_fail (cfg : Config) (retry_count : nat)
  (again : M (option pystr)) : M (option pystr) :=
  if retry_count <? max_retries cfg then
    update_stats incr_retries ;;
    sleep (retry_delay cfg * inject_Z (Z.of_nat (retry_count + 1))) ;;
    again
  else
    update_stats incr_failed ;;
    ret None.

(** [except asyncio.TimeoutError] *)
Definition on_timeout (cfg : Config) (retry_count : nat)
  (again : M (option pystr)) : M (option pystr) :=
  logger ERROR (MsgTimeout retry_count) ;;
  retry_or_fail cfg retry_count again.

(** [except Exception] *)
Definition on_exception (cfg : Config) (retry_count : nat)
  (again : M (option pystr)) : M (option pystr) :=
  logger ERROR MsgLLMException ;;
  retry_or_fail cfg retry_count again.

(** [call_llm_async].  The recursive call sits inside the
    [async with self.semaphore] block, so the slot taken on entry is still
    held while the retry takes another.  [fuel] bounds the recursion
    depth. *)
Fixpoint call_llm_async_rec (fuel : nat) (cfg : Config) (env : Env)
  (prompt : pystr) (retry_count : nat) : M (option pystr) :=
  match fuel with
  | O => fun g => Running g
  | S fuel' =>
    let again := call_llm_async_rec fuel' cfg env prompt (retry_count + 1) in
    acquire ;;
    update_stats incr_total ;;
    a <- post env prompt ;;
    r <- match a with
         | Response elapsed status payload =>
           update_stats (add_time elapsed) ;;
           if (status =? 200)%Z then
             match payload with
             | Body text =>
               match json_loads text with
               | Some result =>
                 (* the success is counted as soon as [response.json()]
                    has returned, before the subscripts *)
                 update_stats incr_successful ;;
                 match message_content result with
                 | Some content => ret (Some (strip content))
                 | None => on_exception cfg retry_count again
                 end
               | None => on_exception cfg retry_count again
               end
             | BodyTimeout => on_timeout cfg retry_count again
             | BodyError => on_exception cfg retry_count again
             end
           else
             match payload with
             | Body error_text =>
               logger ERROR (MsgApiFailed status error_text) ;;
               retry_or_fail cfg retry_count again
             | BodyTimeout => on_timeout cfg retry_count again
             | BodyError => on_exception cfg retry_count again
             end
         | PostTimeout => on_timeout cfg retry_count again
         | PostError => on_exception cfg retry_count again
         end ;;
    release ;;
    ret r
  end.

(** [call_llm_async(session, prompt, retry_count)]: the depth never
    exceeds [max_retries - retry_count + 1]. *)
Definition call_llm_async (cfg : Config) (env : Env) (prompt : pystr)
  (retry_count : nat) : M (option pystr) :=
  call_llm_async_rec (S (max_retries cfg - retry_count)) cfg env prompt retry_count.

(** How [call_llm_async] treats the answer to one attempt: it returns the
    content, or it logs a line and enters the retry logic. *)
Inductive verdict : Type :=
| Success (content : pystr)
| Failure (m : message).

Definition classify (retry_count : nat) (a : attempt) : verdict :=
  match a with
  | Response _ status payload =>
    match payload with
    | Body text =>
      if (status =? 200)%Z then
        match json_loads text with
        | Some result =>
          match message_content result with
          | Some content => Success content
          | None => Failure MsgLLMException
          end
        | None => Failure MsgLLMException
        end
      else Failure (MsgApiFailed status text)
    | BodyTimeout => Failure (MsgTimeout retry_count)
    | BodyError => Failure MsgLLMException
    end
  | PostTimeout => Failure (MsgTimeout retry_count)
  | PostError => Failure MsgLLMException
  end.

(** Whether [response.json()] returns on the answer: the status is 200
    and the body decodes. *)
Definition decoded (a : attempt) : bool :=
  match a with
  | Response _ status (Body text) =>
    (status =? 200)%Z && match json_loads text with
                         | Some _ => true
                         | None => false
                         end
  | _ => false
  end.

(** The generator once an attempt has entered [session.post]: one slot is
    taken, the request is counted and traced. *)
Definition entered (prompt : pystr) (g : AsyncLLMGenerator) : AsyncLLMGenerator :=
  mkGenerator (storage g) (pred (semaphore g)) (should_stop g)
              (incr_total (stats g))
              (all_patents g) (all_entities g) (disk g)
              (EvPost prompt :: trace g).

(** The counters once the request has been answered by [a]: the response
    time, if a response came, is added, and a success is counted if the
    body was decoded. *)
Definition respond (a : attempt) (s : Stats) : Stats :=
  let s1 := match a with
            | Response elapsed _ _ => add_time elapsed s
            | _ => s
            end in
  if decoded a then incr_successful s1 else s1.

Definition responded (a : attempt) (g : AsyncLLMGenerator) : AsyncLLMGenerator :=
  set_stats (respond a (stats g)) g.

(** The generator once the request of an attempt has been made and
    answered by [a]. *)
Definition answered (prompt : pystr) (a : attempt) (g : AsyncLLMGenerator)
  : AsyncLLMGenerator :=
  responded a (entered prompt g).

(** The generator when a failed attempt goes to sleep before its retry. *)
Definition backing_off (cfg : Config) (retry_count : nat) (m : message)
  (g : AsyncLLMGenerator) : AsyncLLMGenerator :=
  set_trace (EvSleep (retry_delay cfg * inject_Z (Z.of_nat (retry_count + 1)))
                     :: EvLog ERROR m :: trace g)
            (set_stats (incr_retries (stats g)) g).

(** The generator when a failed attempt gives up and leaves its
    [async with] block. *)
Definition given_up (m : message) (g : AsyncLLMGenerator) : AsyncLLMGenerator :=
  set_semaphore (S (semaphore g))
    (set_trace (EvLog ERROR m :: trace g) (set_stats (incr_failed (stats g)) g)).

(** The generator when an attempt returns the content and leaves its
    [async with] block. *)
Definition succeeded (g : AsyncLLMGenerator) : AsyncLLMGenerator :=
  set_semaphore (S (semaphore g)) g.

(** The [async with] blocks of the [n] earlier attempts of a call are left
    as the recursion returns. *)
Definition released (n : nat) (g : AsyncLLMGenerator) : AsyncLLMGenerator :=
  set_semaphore (n + semaphore g) g.

End Generator.
Export Generator.

(* ===================================================================== *)
(** * [class AsyncLLMGenerator]: work catalog, batch parser, orchestrator *)
(* ===================================================================== *)

Module Orchestrator.

(** [common_suffixes] of [_normalize_entity_name], in the order tried. *)
Definition common_suffixes : list pystr :=
  [u "有限责任公司"; u "股份有限公司"; u "有限公司";
   u "Co.,Ltd."; u "Co., Ltd."; u "Co.,Ltd"; u "Co., Ltd";
   u "Ltd."; u "Ltd"; u "Inc."; u "Inc"; u "Corp."; u "Corp";
   u "LIMITED"; u "CORPORATION"; u "INCORPORATED"].

(** The class of the second [re.sub]: the bracket characters. *)
Definition is_bracket (c : N) : bool :=
  existsb (N.eqb c) (u "（）()【】[]《》<>").

(** [_normalize_entity_name] on a [str]; [None] is Python's [None]. *)
Definition _normalize_entity_name (name_str : pystr) : option pystr :=
  match name_str with
  | [] => None
  | _ =>
    let name := strip name_str in
    if length name <? 2 then None
    else
      let original_name := name in
      let name :=
        match find (fun suffix => endswith suffix name) common_suffixes with
        | Some suffix => strip (firstn (length name - length suffix) name)
        | None => name
        end in
      if length name <? 2 then Some original_name
      else
        let name := remove_chars isspace name in
        let name := remove_chars is_bracket name in
        if 2 <=? length name then Some name else Some original_name
  end.

(** The [type] given to an entity. *)
Definition entity_type (raw : pystr) : pystr :=
  if existsb (fun x => contains x raw) [u "公司"; u "Corp"; u "Ltd"; u "Inc"]
  then u "企业" else u "个人/其他".

(** [key in entities_dict] *)
Definition dict_has (key : pystr) (entities_dict : list (pystr * Entity)) : bool :=
  existsb (fun kv => str_eqb key (fst kv)) entities_dict.

(** The body shared by the two inner loops of
    [_extract_entities_from_patents]; [entities_dict] keeps insertion
    order. *)
Definition add_entity (entities_dict : list (pystr * Entity)) (raw : pystr)
  : list (pystr * Entity) :=
  match _normalize_entity_name raw with
  | Some normalized =>
    match normalized with
    | [] => entities_dict
    | _ =>
      if dict_has normalized entities_dict then entities_dict
      else entities_dict ++ [(normalized, mkEntity normalized raw (entity_type raw))]
    end
  | None => entities_dict
  end.

(** [_extract_entities_from_patents] *)
Definition _extract_entities_from_patents (patents : list Patent) : list Entity :=
  map snd
    (fold_left
       (fun entities_dict patent =>
          fold_left add_entity (currentOwners patent)
            (fold_left add_entity (applicants patent) entities_dict))
       patents []).

(** The loop of [get_unprocessed_patents] and [get_unprocessed_entities]. *)
Fixpoint scan_unprocessed {A : Type} (processed : A -> bool) (limit : nat)
  (all unprocessed : list A) : list A :=
  match all with
  | [] => unprocessed
  | x :: rest =>
    if processed x then scan_unprocessed processed limit rest unprocessed
    else
      let unprocessed' := unprocessed ++ [x] in
      if limit <=? length unprocessed' then unprocessed'
      else scan_unprocessed processed limit rest unprocessed'
  end.

Definition get_unprocessed_patents (g : AsyncLLMGenerator) (limit : nat)
  : list Patent :=
  scan_unprocessed (fun patent => is_patent_processed (storage g) (patentId patent))
                   limit (all_patents g) [].

Definition get_unprocessed_entities (g : AsyncLLMGenerator) (limit : nat)
  : list Entity :=
  scan_unprocessed (fun entity => is_entity_processed (storage g) (normalizedName entity))
                   limit (all_entities g) [].

(** [items] and [task_type] of [process_batch_async], which the callers
    always pass in one of three combinations. *)
Inductive batch : Type :=
| GreenBatch (items : list Patent)
| TechBatch (items : list Patent)
| LocationBatch (items : list Entity).

Definition task_of (b : batch) : task_type :=
  match b with
  | GreenBatch _ => green
  | TechBatch _ => tech
  | LocationBatch _ => location
  end.

Definition prompt_of (pr : Prompts) (b : batch) : pystr :=
  match b with
  | GreenBatch items => build_green_classification_prompt pr items
  | TechBatch items => build_tech_classification_prompt pr items
  | LocationBatch items => build_location_extraction_prompt pr items
  end.

(** The [try] block of [process_batch_async]: the text from the first
    opening bracket to the last closing bracket is decoded.  Without such
    a text the function falls off its end and returns [None].  The only
    exception caught is [JSONDecodeError], the only one [json_loads]
    models. *)
Definition extract_results (t : task_type) (response : pystr)
  : M (option (list json)) :=
  let json_start := str_find (u "[") response in
  let json_end := (str_rfind (u "]") response + 1)%Z in
  if ((0 <=? json_start) && (json_start <? json_end))%Z then
    match json_loads (slice response json_start json_end) with
    | Some results =>
      ret (Some (match results with
                 | JArray l => l
                 | _ => []
                 end))
    | None =>
      logger WARNING (MsgParseFailed t) ;;
      ret None
    end
  else ret None.

(** [process_batch_async] after its call of the client has returned
    [response]. *)
Definition batch_results (t : task_type) (response : option pystr)
  : M (option (list json)) :=
  match response with
  | None => ret None
  | Some [] => ret None
  | Some text => extract_results t text
  end.

(** [process_batch_async], awaited alone. *)
Definition process_batch_async (cfg : Config) (env : Env) (pr : Prompts)
  (b : batch) : M (option (list json)) :=
  response <- call_llm_async cfg env (prompt_of pr b) 0 ;;
  batch_results (task_of b) response.

(** [items[i:i + size] for i in range(0, len(items), size)] *)
Fixpoint chunks_upto {A : Type} (fuel size : nat) (items : list A)
  : list (list A) :=
  match fuel with
  | O => []
  | S fuel' =>
    match items with
    | [] => []
    | _ => firstn size items :: chunks_upto fuel' size (skipn size items)
    end
  end.

Definition chunks {A : Type} (size : positive) (items : list A) : list (list A) :=
  chunks_upto (length items) (Pos.to_nat size) items.

(** The list [tasks] built by the first [for] loop of
    [process_patents_async]. *)
Definition patent_tasks (cfg : Config) (patents : list Patent)
  : list (task_type * list pystr * batch) :=
  flat_map
    (fun b =>
       let patent_ids := map patentId b in
       (if enable_green_classification cfg
        then [(green, patent_ids, GreenBatch b)] else [])
       ++ (if enable_tech_classification cfg
           then [(tech, patent_ids, TechBatch b)] else []))
    (chunks (batch_size cfg) patents).

(** Where a coroutine [process_batch_async] run by [asyncio.gather]
    stands while it is suspended. *)
Inductive task : Type :=
| Waiting (retry_count : nat)
    (* before the [async with self.semaphore] of that attempt (asleep
       before a retry, or waiting for a slot), holding the slot of each
       earlier attempt *)
| Posted (retry_count : nat) (a : attempt)
    (* in the [session.post] of that attempt, which [a] answers *)
| Returned (result : option (list json)).

(** Whether the coroutine can go on: a response always arrives in the
    end, and a slot is taken only when one is free. *)
Definition runnable (g : AsyncLLMGenerator) (t : task) : bool :=
  match t with
  | Waiting _ => 0 <? semaphore g
  | Posted _ _ => true
  | Returned _ => false
  end.

(** The coroutine runs from one suspension point to the next: it takes a
    slot and makes its request; or it meets the answer and returns, or
    goes to sleep with its slots held. *)
Definition resume (cfg : Config) (env : Env) (pr : Prompts) (b : batch) (t : task)
  : M task :=
  match t with
  | Waiting k =>
    fun g => Done (Posted k (llm env (length (trace g)))) (entered (prompt_of pr b) g)
  | Posted k a =>
    fun g =>
      let g1 := responded a g in
      match classify k a with
      | Success content =>
        (r <- batch_results (task_of b) (Some (strip content)) ;;
         ret (Returned r)) (released k (succeeded g1))
      | Failure m =>
        if k <? max_retries cfg then Done (Waiting (k + 1)) (backing_off cfg k m g1)
        else Done (Returned None) (released k (given_up m g1))
      end
  | Returned r => ret (Returned r)
  end.

(** The results, in the order of the coroutines, once all have
    returned. *)
Fixpoint results_of (tasks : list (batch * task)) : option (list (option (list json))) :=
  match tasks with
  | [] => Some []
  | (_, Returned r) :: rest =>
    match results_of rest with
    | Some rs => Some (r :: rs)
    | None => None
    end
  | _ :: _ => None
  end.

(** The positions, from [i] on, of the coroutines that can go on. *)
Fixpoint runnable_from (g : AsyncLLMGenerator) (i : nat) (tasks : list (batch * task))
  : list nat :=
  match tasks with
  | [] => []
  | (_, t) :: rest =>
    (if runnable g t then [i] else []) ++ runnable_from g (S i) rest
  end.

(** The coroutine at position [i] goes on. *)
Fixpoint resume_nth (cfg : Config) (env : Env) (pr : Prompts) (i : nat)
  (tasks : list (batch * task)) : M (list (batch * task)) :=
  match tasks, i with
  | [], _ => ret []
  | (b, t) :: rest, O => t' <- resume cfg env pr b t ;; ret ((b, t') :: rest)
  | bt :: rest, S j => rest' <- resume_nth cfg env pr j rest ;; ret (bt :: rest')
  end.

(** The event loop while [asyncio.gather] is awaited: as long as a
    coroutine has not returned, one of those that can go on does so; when
    none can, all wait for a slot that nothing will release. *)
Fixpoint gather_loop (fuel : nat) (cfg : Config) (env : Env) (pr : Prompts)
  (origin step : nat) (tasks : list (batch * task))
  : M (list (option (list json))) :=
  match results_of tasks with
  | Some results => ret results
  | None =>
    match fuel with
    | O => fun g => Running g
    | S fuel' =>
      fun g =>
        match runnable_from g 0 tasks with
        | [] => Blocked g
        | i :: others =>
          let chosen :=
            nth (schedule env origin step mod length (i :: others)) (i :: others) i in
          (tasks' <- resume_nth cfg env pr chosen tasks ;;
           gather_loop fuel' cfg env pr origin (S step) tasks') g
        end
    end
  end.

(** [asyncio.gather] with [return_exceptions=True] on coroutines
    [process_batch_async]: they run interleaved at their suspension
    points, in an order the environment decides, each holding the slots of
    its failed attempts while it sleeps and retries.  A coroutine makes at
    most [max_retries + 1] requests and meets as many answers, which
    bounds the number of steps. *)
Definition gather (cfg : Config) (env : Env) (pr : Prompts) (batches : list batch)
  : M (list (option (list json))) :=
  fun g =>
    gather_loop (length batches * (2 * max_retries cfg + 2)) cfg env pr
                (length (trace g)) 0 (map (fun b => (b, Waiting 0)) batches) g.

Definition store_append (env : Env) (dt : data_type) (items : list json) : M unit :=
  fun g =>
    let '(s, d) := append_data env dt items (storage g) (disk g) in
    Done tt (set_storage s d g).

Definition store_mark_patents (env : Env) (patent_ids : list pystr) : M unit :=
  fun g =>
    let '(s, d) := mark_processed_patents env (now env (length (trace g))) patent_ids
                                          (storage g) (disk g) in
    Done tt (set_storage s d g).

Definition store_mark_entities (env : Env) (entity_names : list pystr) : M unit :=
  fun g =>
    let '(s, d) := mark_processed_entities env (now env (length (trace g))) entity_names
                                           (storage g) (disk g) in
    Done tt (set_storage s d g).

(** The second [for] loop of [process_patents_async]: a result is saved
    when it is a non-empty list. *)
Fixpoint save_results (env : Env) (tasks : list (task_type * list pystr * batch))
  (results : list (option (list json))) : M unit :=
  match tasks, results with
  | (t, _, _) :: tasks', result :: results' =>
    match result with
    | Some (r :: rs) =>
      match t with
      | green =>
        store_append env green_classifications (r :: rs) ;;
        logger INFO (MsgSaved green (length (r :: rs)))
      | tech =>
        store_append env tech_classifications (r :: rs) ;;
        logger INFO (MsgSaved tech (length (r :: rs)))
      | location => ret tt
      end
    | _ => ret tt
    end ;;
    save_results env tasks' results'
  | _, _ => ret tt
  end.

(** [[pid for _, pids, _ in tasks for pid in pids]] *)
Definition all_patent_ids (tasks : list (task_type * list pystr * batch))
  : list pystr :=
  flat_map (fun t => snd (fst t)) tasks.

(** One iteration of the [while] loop of [process_patents_async] after a
    non-empty fetch. *)
Definition patents_cycle (cfg : Config) (env : Env) (pr : Prompts)
  (patents : list Patent) : M unit :=
  logger INFO (MsgPatentsFetched (length patents)) ;;
  let tasks := patent_tasks cfg patents in
  results <- gather cfg env pr (map snd tasks) ;;
  save_results env tasks results ;;
  store_mark_patents env (set_order env (all_patent_ids tasks)) ;;
  sleep (1 # 10).

(** [signal_handler] *)
Definition signal_handler (g : AsyncLLMGenerator) : AsyncLLMGenerator :=
  set_should_stop true (set_trace (EvLog INFO MsgSignal :: trace g) g).

(** A signal delivered during the iteration that just ended.  The handler
    only sets the flag, and the flag is only read by the loop tests, so
    the place of the delivery inside the iteration does not matter. *)
Definition deliver_signal (env : Env) : M unit :=
  fun g =>
    if signal env (length (trace g)) then Done tt (signal_handler g) else Done tt g.

(** [process_patents_async]; [fuel] bounds the number of iterations. *)
Fixpoint process_patents_async (fuel : nat) (cfg : Config) (env : Env)
  (pr : Prompts) : M unit :=
  match fuel with
  | O => fun g => Running g
  | S fuel' =>
    fun g =>
      if should_stop g then Done tt g
      else
        match get_unprocessed_patents g
                (Pos.to_nat (batch_size cfg) * max_concurrent_requests cfg) with
        | [] => logger INFO MsgAllPatentsDone g
        | patents =>
          (patents_cycle cfg env pr patents ;;
           deliver_signal env ;;
           process_patents_async fuel' cfg env pr) g
        end
  end.

(** The [for] loop of [process_entities_async]. *)
Fixpoint entity_batches (cfg : Config) (env : Env) (pr : Prompts)
  (batches : list (list Entity)) : M unit :=
  match batches with
  | [] => ret tt
  | b :: rest =>
    let entity_names := map normalizedName b in
    result <- process_batch_async cfg env pr (LocationBatch b) ;;
    match result with
    | Some (r :: rs) =>
      store_append env entity_locations (r :: rs) ;;
      logger INFO (MsgSaved location (length (r :: rs)))
    | _ => ret tt
    end ;;
    store_mark_entities env entity_names ;;
    sleep (1 # 2) ;;
    entity_batches cfg env pr rest
  end.

(** The [while] loop of [process_entities_async]. *)
Fixpoint entities_loop (fuel : nat) (cfg : Config) (env : Env) (pr : Prompts)
  : M unit :=
  match fuel with
  | O => fun g => Running g
  | S fuel' =>
    fun g =>
      if should_stop g then Done tt g
      else
        match get_unprocessed_entities g (10 * 10) with
        | [] => logger INFO MsgAllEntitiesDone g
        | entities =>
          (logger INFO (MsgEntitiesFetched (length entities)) ;;
           entity_batches cfg env pr (chunks 10 entities) ;;
           deliver_signal env ;;
           entities_loop fuel' cfg env pr) g
        end
  end.

(** [process_entities_async] *)
Definition process_entities_async (fuel : nat) (cfg : Config) (env : Env)
  (pr : Prompts) : M unit :=
  if negb (enable_location_extraction cfg) then ret tt
  else entities_loop fuel cfg env pr.

(** [generate_all_async], without its report lines: the semaphore is
    created, then the two loops run in turn. *)
Definition generate_all_async (fuel : nat) (cfg : Config) (env : Env)
  (pr : Prompts) : M unit :=
  (fun g => Done tt (set_semaphore (max_concurrent_requests cfg) g)) ;;
  process_patents_async fuel cfg env pr ;;
  process_entities_async fuel cfg env pr.

(** The average response time [generate_all_async] reports at its end:
    [total_time] divided by [successful_requests], when there was a
    success. *)
Definition avg_time (s : Stats) : option Q :=
  if (0 <? successful_requests s)%N
  then Some (total_time s / inject_Z (Z.of_N (successful_requests s)))%Q
  else None.

Definition zero_stats : Stats := mkStats 0 0 0 0 0.

(** [AsyncLLMGenerator.__init__] on the patents read from the
    spreadsheets; [files_of sid] are the files of the output directory
    named after the session [sid].  An empty or missing session id makes
    a new one from the clock.  The semaphore does not exist until
    [generate_all_async] creates it.  [None] as for [JSONStorage_init]. *)
Definition AsyncLLMGenerator_init (env : Env) (session_id : option pystr)
  (patents : list Patent) (files_of : pystr -> filesystem)
  : option AsyncLLMGenerator :=
  let sid :=
    match session_id with
    | Some (c :: s) => c :: s
    | _ => now env 0
    end in
  match JSONStorage_init sid (files_of sid) with
  | Some (st, logs) =>
    Some (mkGenerator st 0 false zero_stats patents
                      (_extract_entities_from_patents patents)
                      (files_of sid) (rev logs))
  | None => None
  end.

End Orchestrator.
Export Orchestrator.

(* ===================================================================== *)
(** * Vocabulary of the statements *)
(* ===================================================================== *)

Module Spec.

(** What a scanner does on its way through a text: when it returns it
    has read at least one character, and it never runs out of budget. *)
Definition consumes {A : Type} (s : pystr) (r : scanned A) : Prop :=
  match r with
  | Scanned _ rest => length rest < length s
  | DecodeError => True
  | Exhausted => False
  end.

(** That a budget is enough for the five scanners, each on the texts it
    may be given with that budget. *)
Definition budget_enough (fuel : nat) : Prop :=
  (forall s, 3 * length s < fuel -> consumes s (scan_once fuel s))
  /\ (forall s, 3 * length s + 2 < fuel -> consumes s (JSONArray fuel s))
  /\ (forall s values, 3 * length s + 1 < fuel -> consumes s (array_items fuel s values))
  /\ (forall s, 3 * length s + 2 < fuel -> consumes s (JSONObject fuel s))
  /\ (forall s pairs, 3 * length s < fuel -> consumes s (object_items fuel s pairs)).

(** The generator in which a coroutine leaves the process, however it
    ends. *)
Definition state_of {A : Type} (o : outcome A) : AsyncLLMGenerator :=
  match o with
  | Done _ g => g
  | Blocked g => g
  | Running g => g
  end.

(** The text between the first opening bracket and the last closing
    bracket of a response, both included, when the first comes before the
    second. *)
Definition bracket_span (response : pystr) : option pystr :=
  let json_start := str_find (u "[") response in
  let json_end := (str_rfind (u "]") response + 1)%Z in
  if ((0 <=? json_start) && (json_start <? json_end))%Z
  then Some (slice response json_start json_end) else None.

(** The number of requests in a trace. *)
Fixpoint posts (tr : list event) : N :=
  match tr with
  | [] => 0
  | EvPost _ :: rest => (posts rest + 1)%N
  | _ :: rest => posts rest
  end.

(** The delays slept in a trace, most recent first. *)
Fixpoint sleeps (tr : list event) : list Q :=
  match tr with
  | [] => []
  | EvSleep d :: rest => d :: sleeps rest
  | _ :: rest => sleeps rest
  end.

(** The time until the response of an attempt, when there is one. *)
Definition elapsed_of (a : attempt) : Q :=
  match a with
  | Response elapsed _ _ => elapsed
  | _ => 0
  end.

(** The summed response times of the requests in a trace: the request
    entered when [n] events had been emitted is answered by [llm env n]. *)
Fixpoint response_time (env : Env) (tr : list event) : Q :=
  match tr with
  | [] => 0
  | EvPost _ :: rest => response_time env rest + elapsed_of (llm env (length rest))
  | _ :: rest => response_time env rest
  end.

(** An attempt that fails at the transport or HTTP level: no response, a
    status other than 200, or a body that cannot be read. *)
Definition transport_failure (a : attempt) : bool :=
  match a with
  | Response _ status (Body _) => negb (status =? 200)%Z
  | _ => true
  end.

(** The applicant and owner strings of the patents, in the order
    [_extract_entities_from_patents] visits them. *)
Definition raw_names (patents : list Patent) : list pystr :=
  flat_map (fun patent => applicants patent ++ currentOwners patent) patents.

(** What [entities_dict] satisfies once the strings [raws] have been
    visited: its keys are distinct; each entry is filed under its
    normalized name and was made from the first string with that name;
    and every name met has an entry. *)
Definition dict_invariant (raws : list pystr) (d : list (pystr * Entity)) : Prop :=
  NoDup (map fst d)
  /\ (forall k e, In (k, e) d ->
        normalizedName e = k
        /\ exists before after,
             raws = before ++ name e :: after
             /\ _normalize_entity_name (name e) = Some k
             /\ forall x, In x before -> _normalize_entity_name x <> Some k)
  /\ (forall x k, In x raws -> _normalize_entity_name x = Some k -> k <> [] ->
                  In k (map fst d)).

(** The files of a session are those the store [st] has written: the file
    of each kind holds the whole collection, or is missing while the
    collection is still the empty default. *)
Definition persisted (st : JSONStorage) (fs : filesystem) : Prop :=
  forall dt,
    fs (File dt) = Some (Text (dump st dt))
    \/ (fs (File dt) = None /\ dump st dt = default_doc (session_id st) dt).

(** The patents of the catalog that the ledger does not hold yet. *)
Definition pending (g : AsyncLLMGenerator) : list Patent :=
  filter (fun p => negb (is_patent_processed (storage g) (patentId p)))
         (all_patents g).

(** The ledger of processed patents holds the key. *)
Definition marked (g : AsyncLLMGenerator) (patent_id : pystr) : Prop :=
  In (JString patent_id) (processed_patents (data_progress (storage g))).

(** A text with the apostrophes read as double quotes, to write JSON
    literals. *)
Definition dq (s : string) : pystr :=
  map (fun c => if (c =? 39)%N then 34%N else c) (u s).

(** The events of a call whose attempts all fail, oldest first: the
    request and the error line of attempt [k], then, while retries remain,
    the pause [retry_delay * (k + 1)] and the next attempt. *)
Fixpoint failing_call_events (cfg : Config) (env : Env) (prompt : pystr)
  (remaining k offset : nat) : list event :=
  let m := match classify k (llm env offset) with
           | Failure m => m
           | Success _ => MsgLLMException
           end in
  match remaining with
  | O => [EvPost prompt; EvLog ERROR m]
  | S remaining' =>
    [EvPost prompt; EvLog ERROR m;
     EvSleep (retry_delay cfg * inject_Z (Z.of_nat (k + 1)))]
      ++ failing_call_events cfg env prompt remaining' (k + 1) (offset + 3)
  end.

(** What a call of the client leaves as it found it: everything but the
    counters and the trace. *)
Definition client_frame (g g' : AsyncLLMGenerator) : Prop :=
  storage g' = storage g /\ disk g' = disk g /\ should_stop g' = should_stop g
  /\ all_patents g' = all_patents g /\ all_entities g' = all_entities g
  /\ semaphore g' = semaphore g.

(** Whether [call_llm_async] enters its retry logic on the answer to an
    attempt; the retry count only shows in the line logged. *)
Definition attempt_fails (a : attempt) : bool :=
  match classify 0 a with
  | Failure _ => true
  | Success _ => false
  end.

(** The slots a suspended coroutine holds. *)
Definition held (t : task) : nat :=
  match t with
  | Waiting k => k
  | Posted k _ => S k
  | Returned _ => 0
  end.

Definition slots_held (tasks : list (batch * task)) : nat :=
  list_sum (map (fun bt => held (snd bt)) tasks).

(** A bound on the steps a suspended coroutine still makes. *)
Definition steps_left (cfg : Config) (t : task) : nat :=
  match t with
  | Waiting k => 2 * (max_retries cfg - k) + 2
  | Posted k _ => 2 * (max_retries cfg - k) + 1
  | Returned _ => 0
  end.

Definition all_steps_left (cfg : Config) (tasks : list (batch * task)) : nat :=
  list_sum (map (fun bt => steps_left cfg (snd bt)) tasks).

(** A coroutine is at an attempt the retry logic allows. *)
Definition within_retries (cfg : Config) (t : task) : Prop :=
  match t with
  | Waiting k => k <= max_retries cfg
  | Posted k _ => k <= max_retries cfg
  | Returned _ => True
  end.

Definition task_type_eqb (a b : task_type) : bool :=
  match a, b with
  | green, green | tech, tech | location, location => true
  | _, _ => false
  end.

(** The records the second loop of [process_patents_async] appends to
    the collection of a task type: the results of its tasks, in order. *)
Fixpoint kept (t : task_type) (tasks : list (task_type * list pystr * batch))
  (results : list (option (list json))) : list json :=
  match tasks, results with
  | (t', _, _) :: tasks', result :: results' =>
    match result with
    | Some l => if task_type_eqb t t' then l else []
    | None => []
    end ++ kept t tasks' results'
  | _, _ => []
  end.

(** The file of each kind holds the whole collection whenever [json.dump]
    can write it (or is missing while the collection is still the empty
    default). *)
Definition in_sync (env : Env) (st : JSONStorage) (fs : filesystem) : Prop :=
  forall dt,
    dumpable env (dump st dt) = true ->
    fs (File dt) = Some (Text (dump st dt))
    \/ (fs (File dt) = None /\ dump st dt = default_doc (session_id st) dt).

(** What the coroutines of the generator leave as they found it. *)
Definition run_frame (g g' : AsyncLLMGenerator) : Prop :=
  storage g' = storage g /\ disk g' = disk g /\ should_stop g' = should_stop g
  /\ all_patents g' = all_patents g /\ all_entities g' = all_entities g.

(** What holds of the coroutines of a gather entered in [g0] at every
    suspension point: the slots they hold and the free slots add up to the
    slots free at the start, and each is within the retries allowed. *)
Definition accounted (cfg : Config) (batches : list batch) (g0 : AsyncLLMGenerator)
  (tasks : list (batch * task)) (g : AsyncLLMGenerator) : Prop :=
  run_frame g0 g
  /\ slots_held tasks + semaphore g = semaphore g0
  /\ Forall (fun bt => within_retries cfg (snd bt)) tasks
  /\ map fst tasks = batches.

(** No coroutine has met a failure, or is about to. *)
Definition unfailing (tasks : list (batch * task)) : Prop :=
  Forall (fun bt => match snd bt with
                    | Waiting k => k = 0
                    | Posted k a => k = 0 /\ attempt_fails a = false
                    | Returned _ => True
                    end) tasks.

(** An operation that does not write the stop flag, however it ends. *)
Definition leaves_flag {A : Type} (op : M A) : Prop :=
  forall g, should_stop (state_of (op g)) = should_stop g.

(** An operation that does not clear the stop flag, however it ends. *)
Definition keeps_flag {A : Type} (op : M A) : Prop :=
  forall g, should_stop g = true -> should_stop (state_of (op g)) = true.

(** The in-memory collection of a kind; for the progress kind, the two
    ledgers. *)
Definition collection (self : JSONStorage) (dt : data_type) : list json :=
  match dt with
  | progress =>
    processed_patents (data_progress self) ++ processed_entities (data_progress self)
  | _ => records self dt
  end.

(** The requests of a trace whose answer [response.json()] decoded: the
    request entered when [n] events had been emitted is answered by
    [llm env n]. *)
Fixpoint decoded_posts (env : Env) (tr : list event) : N :=
  match tr with
  | [] => 0
  | EvPost _ :: rest =>
    (decoded_posts env rest + if decoded (llm env (length rest)) then 1 else 0)%N
  | _ :: rest => decoded_posts env rest
  end.

End Spec.
Export Spec.

(* ===================================================================== *)
(** * Concrete inputs used in the examples *)
(* ===================================================================== *)

Module Scenarios.

(** The response of scenario C: two lines of prose around one array. *)
Definition scenario_C : pystr :=
  u "Here is the result:" ++ [10%N]
    ++ dq "[{'patent_id':'CN123','category_code':'GT1'}]" ++ [10%N] ++ u "Done.".

(** [LLM_ENHANCE_CONFIG] as [config.py] sets it. *)
Definition default_config : Config := mkConfig 10 true true true 5 3 3.

(** An API that is down: every request is answered by status 500. *)
Definition env_down : Env :=
  mkEnv (fun _ => Response 1 500 (Body (u "Internal Server Error")))
        (fun _ => u "2025-01-01T00:00:00") (fun _ => false)
        (nodup (list_eq_dec N.eq_dec)) (fun _ => true) (fun lexeme => lexeme)
        (fun _ => false) (fun _ step => step).

Definition some_prompts : Prompts :=
  mkPrompts (fun _ => u "green") (fun _ => u "tech") (fun _ => u "location").

Definition empty_store : JSONStorage :=
  mkStorage (u "s1") [] [] [] (default_progress (u "s1")).

Definition no_files : filesystem := fun _ => None.

(** A generator at rest with [slots] free slots and nothing on disk. *)
Definition idle (slots : nat) (patents : list Patent) : AsyncLLMGenerator :=
  mkGenerator empty_store slots false zero_stats patents
              (_extract_entities_from_patents patents) no_files [].

(** The configuration of [config.py] with a single concurrent request. *)
Definition one_slot_config : Config := mkConfig 10 true true true 1 3 3.

(** The configuration of [config.py] without retries. *)
Definition no_retry_config : Config := mkConfig 10 true true true 5 0 3.

(** The configuration of [config.py] with both classifications switched
    off, as for a run that only extracts locations. *)
Definition locations_only_config : Config := mkConfig 10 false false true 5 3 3.

Definition patent_1 : Patent :=
  mkPatent (u "CN1") (u "一种电解槽") (u "本发明公开了一种电解槽") None
           [u "北京氢能有限公司"] [u "北京氢能 有限公司"].


(** The body of a completion whose text is prose without any array. *)
Definition prose_body : pystr :=
  dq "{'choices':[{'message':{'content':'I cannot classify these patents.'}}]}".


(** The body of a completion with one green classification; a bar stands
    for an escaped double quote. *)
Definition green_body : pystr :=
  flat_map (fun c => if (c =? 124)%N then [92%N; 34%N] else [c])
    (dq "{'choices':[{'message':{'content':'[{|patent_id|:|CN1|,|category_code|:|GT1|}]'}}]}").

(** An endpoint that answers every request with [green_body], in a run
    that receives a signal during every iteration. *)
Definition env_interrupted : Env :=
  mkEnv (fun _ => Response 1 200
                    (Body green_body))
        (fun _ => u "2025-01-01T00:00:00") (fun _ => true)
        (nodup (list_eq_dec N.eq_dec)) (fun _ => true) (fun lexeme => lexeme)
        (fun _ => false) (fun _ step => step).

(** Scenario B: the first two requests of a call are answered by status
    500, the third by a completion.  A failed attempt leaves three events
    (the request, the error line, the pause), so the third request is the
    one entered after six events. *)
Definition env_two_failures : Env :=
  mkEnv (fun n => if n <? 6 then Response 1 500 (Body (u "busy"))
                  else Response 1 200 (Body prose_body))
        (fun _ => u "2025-01-01T00:00:00") (fun _ => false)
        (nodup (list_eq_dec N.eq_dec)) (fun _ => true) (fun lexeme => lexeme)
        (fun _ => false) (fun _ step => step).

Definition record_1 : json := JObject [(u "patent_id", JString (u "CN1"))].
Definition record_2 : json := JObject [(u "patent_id", JString (u "CN2"))].

(** The store of a session that has processed [patent_1] and its one
    entity. *)
Definition finished_store : JSONStorage :=
  mkStorage (u "s1") [record_1] [] []
            (mkProgress [JString (u "CN1")] [JString (u "北京氢能")]
                        (Some (JString (u "s1")))
                        (Some (JString (u "2025-01-01T00:00:00")))).

(** The files a store has written: the progress file, and the file of
    each result kind that has records. *)
Definition files_written (st : JSONStorage) : filesystem :=
  fun p =>
    match p with
    | File progress => Some (Text (dump st progress))
    | File dt =>
      match records st dt with
      | [] => None
      | _ => Some (Text (dump st dt))
      end
    | Temp _ => None
    end.

(** An endpoint that answers 200 with an empty JSON object: the body
    decodes and has no completion. *)
Definition env_empty_object : Env :=
  mkEnv (fun _ => Response 1 200 (Body (u "{}")))
        (fun _ => u "2025-01-01T00:00:00") (fun _ => false)
        (nodup (list_eq_dec N.eq_dec)) (fun _ => true) (fun lexeme => lexeme)
        (fun _ => false) (fun _ step => step).

(** The configuration of [config.py] with eight concurrent requests: a
    slot for each of the four attempts of two calls. *)
Definition eight_slot_config : Config := mkConfig 10 true true true 8 3 3.

(** An endpoint no request reaches in time: every [session.post] raises
    [asyncio.TimeoutError]. *)
Definition env_timeout : Env :=
  mkEnv (fun _ => PostTimeout)
        (fun _ => u "2025-01-01T00:00:00") (fun _ => false)
        (nodup (list_eq_dec N.eq_dec)) (fun _ => true) (fun lexeme => lexeme)
        (fun _ => false) (fun _ step => step).

End Scenarios.
Export Scenarios.

(* ===================================================================== *)
(** * Histories of the store *)
(* ===================================================================== *)

Module Histories.

(** A call of one of the three mutators of [JSONStorage]. *)
Inductive mutation : Type :=
| AppendData (dt : data_type) (items : list json)
| MarkPatents (timestamp : pystr) (patent_ids : list pystr)
| MarkEntities (timestamp : pystr) (entity_names : list pystr).

Definition mutate (env : Env) (m : mutation) (self : JSONStorage) (fs : filesystem)
  : JSONStorage * filesystem :=
  match m with
  | AppendData dt items => append_data env dt items self fs
  | MarkPatents timestamp patent_ids =>
    mark_processed_patents env timestamp patent_ids self fs
  | MarkEntities timestamp entity_names =>
    mark_processed_entities env timestamp entity_names self fs
  end.

(** The calls of a history made in turn, each running to its end. *)
Definition mutate_all (env : Env) (history : list mutation) (self : JSONStorage)
  (fs : filesystem) : JSONStorage * filesystem :=
  fold_left (fun sf m => mutate env m (fst sf) (snd sf)) history (self, fs).

(** The store [JSONStorage.__init__] makes in an empty output directory. *)
Definition new_store (sid : pystr) : JSONStorage :=
  mkStorage sid [] [] [] (default_progress sid).

(** The entities of the catalog that the ledger does not hold yet. *)
Definition pending_entities (g : AsyncLLMGenerator) : list Entity :=
  filter (fun e => negb (is_entity_processed (storage g) (normalizedName e)))
         (all_entities g).

(** No temporary file is left for a kind whose document [json.dump] can
    write. *)
Definition tidy (env : Env) (st : JSONStorage) (fs : filesystem) : Prop :=
  forall dt, dumpable env (dump st dt) = true -> fs (Temp dt) = None.

End Histories.
Export Histories.

(* ===================================================================== *)
(** * The verdict on an attempt and the pauses between retries *)
(* ===================================================================== *)

Module Verdicts.

(** The pauses before the retries [k + 1], ..., [k + m] of a call, most
    recent first. *)
Definition backoff (cfg : Config) (k m : nat) : list Q :=
  rev (map (fun j => retry_delay cfg * inject_Z (Z.of_nat j))%Q (seq (k + 1) m)).

End Verdicts.
Export Verdicts.

(* ===================================================================== *)
(** * Reading the spreadsheets *)
(* ===================================================================== *)

Module Intake.

(** A value found in a row of a data frame, as far as the loader looks at
    it: whether [pd.isna] holds of it, its truth value and its [str]. *)
Inductive value : Type :=
| NA (text : pystr)                  (* [pd.isna] holds: [None], [nan], [NaT];
                                        [text] is its [str] *)
| Str (s : pystr)
| Int (z : Z)
| Obj (truth : bool) (text : pystr). (* any other value *)

(** [None] and the [nan] of an empty cell. *)
Definition PyNone : value := NA (u "None").
Definition NaN : value := NA (u "nan").

(** [pd.isna(x) or not x] *)
Definition missing (x : value) : bool :=
  match x with
  | NA _ => true
  | Str s => match s with [] => true | _ => false end
  | Int z => (z =? 0)%Z
  | Obj truth _ => negb truth
  end.

(** [str(x)] *)
Definition str_of (x : value) : pystr :=
  match x with
  | NA text => text
  | Str s => s
  | Int z => str_of_Z z
  | Obj _ text => text
  end.

(** [s.replace(old, new)] for a non-empty [old], the only kind the source
    passes: the occurrences are replaced from the left and do not overlap.
    [skip] counts the characters of an occurrence still to be passed. *)
Fixpoint replace_from (old new : pystr) (skip : nat) (s : pystr) : pystr :=
  match s with
  | [] => []
  | c :: s' =>
    match skip with
    | S k => replace_from old new k s'
    | O =>
      if startswith old s then new ++ replace_from old new (length old - 1) s'
      else c :: replace_from old new 0 s'
    end
  end.

Definition str_replace (old new s : pystr) : pystr := replace_from old new 0 s.

(** [_normalize_patent_number] *)
Definition _normalize_patent_number (number_str : value) : option pystr :=
  if missing number_str then None
  else
    let normalized :=
      str_replace [10%N] [] (str_replace (u " ") [] (strip (str_of number_str))) in
    match normalized with
    | [] => None
    | _ => Some normalized
    end.

(** The class of [re.split(r'[;,...]', ...)]: the two semicolons, the comma
    and the ideographic comma. *)
Definition is_separator (c : N) : bool :=
  existsb (N.eqb c) (u ";,、；").

(** [re.split] on a class of single characters: the texts between the
    separators, empty ones included. *)
Fixpoint re_split (cls : N -> bool) (s : pystr) : list pystr :=
  match s with
  | [] => [[]]
  | c :: s' =>
    if cls c then [] :: re_split cls s'
    else
      match re_split cls s' with
      | w :: ws => (c :: w) :: ws
      | [] => [[c]]
      end
  end.

(** [_split_entities] *)
Definition _split_entities (entity_str : value) : list pystr :=
  if missing entity_str then []
  else
    let entity_str := strip (str_of entity_str) in
    let entities := re_split is_separator entity_str in
    map strip
        (filter (fun e => match strip e with
                          | [] => false
                          | _ => 2 <=? length (strip e)
                          end)
                entities).

(** A row of a data frame: its cells by column name.  [read_excel] makes
    the column names distinct. *)
Definition row : Type := list (pystr * value).

(** [row.get(key, default)] *)
Definition row_get (r : row) (key : pystr) (default : value) : value :=
  match find (fun kv => str_eqb key (fst kv)) r with
  | Some kv => snd kv
  | None => default
  end.

(** [str(x).strip() or None] *)
Definition text_or_none (x : value) : option pystr :=
  match strip (str_of x) with
  | [] => None
  | s => Some s
  end.

(** A patent dict: the fields the generator reads, and the others. *)
Record PatentData : Type := mkPatentData {
  patent : Patent;
  pubNumber : option pystr;
  appNumber : option pystr;
  titleEn : option pystr;
  abstractEn : option pystr;
  patentType : option pystr;
  techDomainCode : pystr
}.

(** The body of the loop over the rows: the dict to append, or [None]
    when the row is passed over. *)
Definition patent_of_row (tech_code : pystr) (r : row) : option PatentData :=
  let pub_number := _normalize_patent_number (row_get r (u "公开(公告)号") PyNone) in
  let app_number := _normalize_patent_number (row_get r (u "申请号") PyNone) in
  match pub_number, app_number with
  | None, None => None
  | _, _ =>
    let patent_id :=
      match pub_number with
      | Some n => n
      | None => match app_number with Some n => n | None => [] end
      end in
    match text_or_none (row_get r (u "标题 (中文)") (Str [])),
          text_or_none (row_get r (u "摘要 (中文)") (Str [])) with
    | Some title, Some abstract =>
      Some (mkPatentData
              (mkPatent patent_id title abstract
                        (text_or_none (row_get r (u "IPC主分类") (Str [])))
                        (_split_entities (row_get r (u "申请人") PyNone))
                        (_split_entities (row_get r (u "当前权利人") PyNone)))
              pub_number app_number
              (text_or_none (row_get r (u "标题 (英文)") (Str [])))
              (text_or_none (row_get r (u "摘要 (英文)") (Str [])))
              (text_or_none (row_get r (u "专利类型") (Str [])))
              tech_code)
    | _, _ => None
    end
  end.

(** What the data directory holds under a file name. *)
Inductive workbook : Type :=
| Absent                      (* [os.path.exists] is false *)
| Unreadable                  (* [pd.read_excel] raises *)
| Sheet (rows : list row).

(** The lines the loader logs. *)
Inductive load_message : Type :=
| MsgLoading
| MsgFileMissing (filename : pystr)
| MsgFileRead (filename : pystr) (records : nat)
| MsgFileFailed (filename : pystr).

(** [DATA_CONFIG['file_mapping']] *)
Definition file_mapping : list (pystr * pystr) :=
  [(u "2.6.1制氢技术-1.xlsx", u "H1.1");
   (u "2.6.1制氢技术-2.xlsx", u "H1.1");
   (u "2.6.2.1 物理储氢.xlsx", u "H2.1");
   (u "2.6.2.2合金储氢.xlsx", u "H2.3");
   (u "2.6.2.3无机储氢-1.xlsx", u "H2.3");
   (u "2.6.2.3无机储氢-2.xlsx", u "H2.3");
   (u "2.6.2.4有机储氢.xlsx", u "H2.4");
   (u "2.6.3氢燃料电池.xlsx", u "H3.1");
   (u "2.6.4氢制冷.xlsx", u "H3.4")].

(** [_load_patents_from_excel] on the files of a mapping: the patents and
    the lines logged, oldest first. *)
Definition _load_patents_from_excel (data_dir : pystr -> workbook)
  (mapping : list (pystr * pystr)) : list PatentData * list (level * load_message) :=
  fold_left
    (fun state entry =>
       let '(all_patents, log) := state in
       let '(filename, tech_code) := entry in
       match data_dir filename with
       | Absent => (all_patents, log ++ [(WARNING, MsgFileMissing filename)])
       | Unreadable => (all_patents, log ++ [(ERROR, MsgFileFailed filename)])
       | Sheet rows =>
         (fold_left
            (fun all_patents r =>
               match patent_of_row tech_code r with
               | Some patent_data => all_patents ++ [patent_data]
               | None => all_patents
               end)
            rows all_patents,
          log ++ [(INFO, MsgFileRead filename (length rows))])
       end)
    mapping ([], [(INFO, MsgLoading)]).

(** The patents kept from the rows of one sheet. *)
Definition kept_rows (tech_code : pystr) (rows : list row) : list PatentData :=
  flat_map (fun r => match patent_of_row tech_code r with
                     | Some patent_data => [patent_data]
                     | None => []
                     end) rows.

(** A text is stripped when neither end is a space. *)
Definition stripped (s : pystr) : Prop :=
  match s with
  | [] => True
  | c :: _ => isspace c = false /\ isspace (last s 0%N) = false
  end.

(** A data directory with one sheet of two rows under the first name of
    the mapping, and one unreadable file; the other files are missing.
    The first row has its numbers typed with blanks and an empty title
    cell; the second has neither number. *)
Definition sample_row_1 : row :=
  [(u "公开(公告)号", Str (u " CN 1234567 A "));
   (u "申请号", Int 2020101234567);
   (u "标题 (中文)", NaN);
   (u "摘要 (中文)", Str (u "本发明公开了一种电解槽"));
   (u "申请人", Str (u "北京氢能有限公司; 张三;李"));
   (u "当前权利人", NaN)].

Definition sample_row_2 : row :=
  [(u "标题 (中文)", Str (u "一种储氢罐"));
   (u "摘要 (中文)", Str (u "本发明公开了一种储氢罐"))].

Definition sample_dir (filename : pystr) : workbook :=
  if str_eqb filename (u "2.6.1制氢技术-1.xlsx") then Sheet [sample_row_1; sample_row_2]
  else if str_eqb filename (u "2.6.1制氢技术-2.xlsx") then Unreadable
  else Absent.

End Intake.
Export Intake.

(* ===================================================================== *)
(** * The sessions of the output directory and [main] *)
(* ===================================================================== *)

Module Sessions.

(** The output directory: [None] when it does not exist, else the names
    [os.listdir] gives, in its order, each with what opening and decoding
    the entry gives ([Garbled] also stands for an entry that cannot be
    opened). *)
Definition directory : Type := option (list (pystr * content)).

(** [a < b] on [str]: the order of the code points. *)
Fixpoint str_ltb (a b : pystr) : bool :=
  match a, b with
  | _, [] => false
  | [], _ :: _ => true
  | x :: a', y :: b' => (x <? y)%N || ((x =? y)%N && str_ltb a' b')
  end.

(** [sorted(l, key=key, reverse=True)]: the sort is stable, so elements
    with equal keys keep their order. *)
Fixpoint insert_desc {A : Type} (key : A -> pystr) (x : A) (l : list A) : list A :=
  match l with
  | [] => [x]
  | y :: l' => if str_ltb (key x) (key y) then y :: insert_desc key x l' else x :: l
  end.

Definition sorted_reverse {A : Type} (key : A -> pystr) (l : list A) : list A :=
  fold_right (insert_desc key) [] l.

(** [x['session_id']] on the dicts [list_available_sessions] builds. *)
Definition session_key (x : json) : pystr :=
  match x with
  | JObject d =>
    match dict_get (u "session_id") d with
    | Some (JString s) => s
    | _ => []
    end
  | _ => []
  end.

(** [progress.get(key, default)] *)
Definition get_or (key : pystr) (default : json) (d : list (pystr * json)) : json :=
  match dict_get key d with
  | Some v => v
  | None => default
  end.

(** The body of the loop of [list_available_sessions] for a name that
    ends in [_progress.json]: the dict appended, or [None] when anything
    in the [try] block raises. *)
Definition session_of_file (filename : pystr) (c : content) : option json :=
  let session_id := str_replace (u "_progress.json") [] filename in
  match c with
  | Text (JObject progress_dict) =>
    let patents := get_or (u "processed_patents") (JArray []) progress_dict in
    let entities := get_or (u "processed_entities") (JArray []) progress_dict in
    if has_len patents && has_len entities then
      Some (JObject [(u "session_id", JString session_id);
                     (u "processed_patents", JInt (Z.of_nat (py_len patents)));
                     (u "processed_entities", JInt (Z.of_nat (py_len entities)));
                     (u "last_update",
                      get_or (u "last_update") (JString (u "Unknown")) progress_dict)])
    else None
  | _ => None
  end.

(** The list [sessions] before it is sorted. *)
Definition found_sessions (entries : list (pystr * content)) : list json :=
  flat_map (fun entry =>
              if endswith (u "_progress.json") (fst entry) then
                match session_of_file (fst entry) (snd entry) with
                | Some session => [session]
                | None => []
                end
              else [])
           entries.

(** [list_available_sessions] *)
Definition list_available_sessions (output_dir : directory) : list json :=
  match output_dir with
  | None => []
  | Some entries => sorted_reverse session_key (found_sessions entries)
  end.

(** What [main] goes on to do. *)
Inductive plan : Type :=
| ShowHelp
| ShowSessions (sessions : list json)
| Generate (session_id : option pystr).   (* [AsyncLLMGenerator(session_id)]
                                             and the run *)

(** [main], up to the construction of the generator; [argv] is
    [sys.argv]. *)
Definition main (argv : list pystr) (output_dir : directory) : plan :=
  let '(session_id, list_sessions_flag, help) :=
    match nth_error argv 1 with
    | Some arg =>
      if str_eqb arg (u "--session") then (nth_error argv 2, false, false)
      else if str_eqb arg (u "--list") then (None, true, false)
      else if str_eqb arg (u "--new") then (None, false, false)
      else if str_eqb arg (u "--help") then (None, false, true)
      else (None, false, false)
    | None => (None, false, false)
    end in
  if help then ShowHelp
  else if list_sessions_flag then ShowSessions (list_available_sessions output_dir)
  else
    match session_id with
    | Some s => Generate (Some s)
    | None =>
      if existsb (str_eqb (u "--new")) argv then Generate None
      else
        match list_available_sessions output_dir with
        | s :: _ => Generate (Some (session_key s))
        | [] => Generate None
        end
    end.

(** The names [JSONStorage.__init__] gives the files of a session. *)
Definition file_suffix (dt : data_type) : pystr :=
  match dt with
  | green_classifications => u "_green_classifications.json"
  | tech_classifications => u "_tech_classifications.json"
  | entity_locations => u "_entity_locations.json"
  | progress => u "_progress.json"
  end.

Definition file_name (sid : pystr) (p : path) : pystr :=
  match p with
  | File dt => sid ++ file_suffix dt
  | Temp dt => sid ++ file_suffix dt ++ u ".tmp"
  end.

(** The dict [list_available_sessions] makes for the progress file a
    store has written. *)
Definition listed_session (st : JSONStorage) : json :=
  JObject
    [(u "session_id", JString (session_id st));
     (u "processed_patents",
      JInt (Z.of_nat (length (processed_patents (data_progress st)))));
     (u "processed_entities",
      JInt (Z.of_nat (length (processed_entities (data_progress st)))));
     (u "last_update",
      match last_update (data_progress st) with
      | Some t => t
      | None => JString (u "Unknown")
      end)].

End Sessions.
Export Sessions.

(* ===================================================================== *)
(** * [tech_domains.py]: the tree of technical domains *)
(* ===================================================================== *)

Module TechDomains.

(** The dict of a node of [TECH_TREE]; [children] is [None] when the dict
    has no such key. *)
Inductive node : Type :=
| Node (nameZh nameEn : pystr) (level : Z) (children : option (list (pystr * node))).

(** [TECH_TREE] *)
Definition TECH_TREE : list (pystr * node) :=
  [(u "H1",
    Node (u "制氢(上游)") (u "Hydrogen Production") 1
      (Some
        [(u "H1.1",
          Node (u "电解水制氢") (u "Water Electrolysis") 2
            (Some
              [(u "H1.1.1",
                Node (u "碱性电解(AEL)") (u "Alkaline Electrolysis (AEL)") 3 None);
               (u "H1.1.2",
                Node (u "质子交换膜电解(PEMEL)") (u "Proton Exchange Membrane Electrolysis (PEMEL)") 3 None);
               (u "H1.1.3",
                Node (u "固体氧化物电解(SOEC)") (u "Solid Oxide Electrolysis Cell (SOEC)") 3 None);
               (u "H1.1.4",
                Node (u "阴离子交换膜电解(AEMEL)") (u "Anion Exchange Membrane Electrolysis (AEMEL)") 3 None);
               (u "H1.1.5",
                Node (u "其他电解水制氢技术") (u "Other Water Electrolysis") 3 None)]));
         (u "H1.2",
          Node (u "化石能源制氢") (u "Fossil-based Reforming") 2
            (Some
              [(u "H1.2.1",
                Node (u "天然气重整(SMR)") (u "Steam Methane Reforming (SMR)") 3 None);
               (u "H1.2.2",
                Node (u "煤制氢(煤气化)") (u "Coal Gasification") 3 None);
               (u "H1.2.3",
                Node (u "甲醇裂解制氢") (u "Methanol Reforming") 3 None);
               (u "H1.2.4",
                Node (u "其他化石能源制氢技术") (u "Other Fossil-based Reforming") 3 None)]));
         (u "H1.3",
          Node (u "可再生能源耦合制氢") (u "Renewable-integrated Production") 2
            (Some
              [(u "H1.3.1",
                Node (u "风光电制氢系统集成") (u "Wind-Solar-H2 System Integration") 3 None);
               (u "H1.3.2",
                Node (u "离网/微网制氢") (u "Off-grid/Microgrid H2 Production") 3 None);
               (u "H1.3.3",
                Node (u "电解槽与可再生能源协同控制") (u "Electrolyzer-Renewable Energy Co-control") 3 None);
               (u "H1.3.4",
                Node (u "其他可再生能源耦合制氢技术") (u "Other Renewable-integrated Production") 3 None)]));
         (u "H1.4",
          Node (u "光/热/生物制氢") (u "Alternative (Photo/Thermo/Bio) Methods") 2
            (Some
              [(u "H1.4.1",
                Node (u "光催化/光电化学制氢") (u "Photo-catalytic/Photoelectrochemical H2") 3 None);
               (u "H1.4.2",
                Node (u "太阳能热化学循环制氢") (u "Solar Thermochemical Cycles") 3 None);
               (u "H1.4.3",
                Node (u "生物质气化/发酵制氢") (u "Biomass Gasification/Fermentation") 3 None);
               (u "H1.4.4",
                Node (u "其他光/热/生物制氢技术") (u "Other Alternative Methods") 3 None)]));
         (u "H1.5",
          Node (u "其他制氢技术") (u "Other Hydrogen Production") 2 (Some []))]));
   (u "H2",
    Node (u "储运氢(中游)") (u "Hydrogen Storage & Transportation") 1
      (Some
        [(u "H2.1",
          Node (u "高压气态储运") (u "High-pressure Gaseous") 2
            (Some
              [(u "H2.1.1",
                Node (u "35 MPa 储氢容器") (u "35 MPa H2 Containers") 3 None);
               (u "H2.1.2",
                Node (u "70 MPa 储氢容器") (u "70 MPa H2 Containers") 3 None);
               (u "H2.1.3",
                Node (u "高压管束车/长管拖车") (u "High-pressure Tube Trailers") 3 None);
               (u "H2.1.4",
                Node (u "其他高压气态储运技术") (u "Other High-pressure Gaseous") 3 None)]));
         (u "H2.2",
          Node (u "低温液态储运") (u "Cryogenic Liquid") 2
            (Some
              [(u "H2.2.1",
                Node (u "液氢储罐(车载/固定)") (u "Liquid H2 Tanks (Mobile/Stationary)") 3 None);
               (u "H2.2.2",
                Node (u "液氢加注与转注技术") (u "Liquid H2 Transfer Technology") 3 None);
               (u "H2.2.3",
                Node (u "液氢蒸发损失控制") (u "Liquid H2 Boil-off Control") 3 None);
               (u "H2.2.4",
                Node (u "其他低温液态储运技术") (u "Other Cryogenic Liquid") 3 None)]));
         (u "H2.3",
          Node (u "固态/材料储氢") (u "Solid-state / Material-based") 2
            (Some
              [(u "H2.3.1",
                Node (u "金属/合金氢化物") (u "Metal/Alloy Hydrides") 3 None);
               (u "H2.3.2",
                Node (u "化学氢化物(NaBH₄, NH₃BH₃ 等)") (u "Chemical Hydrides") 3 None);
               (u "H2.3.3",
                Node (u "多孔材料吸附储氢(MOFs, 碳材料)") (u "Porous Materials (MOFs, Carbon)") 3 None);
               (u "H2.3.4",
                Node (u "其他固态/材料储氢技术") (u "Other Solid-state Storage") 3 None)]));
         (u "H2.4",
          Node (u "有机载体储运(LOHC等)") (u "Liquid Organic Carriers") 2
            (Some
              [(u "H2.4.1",
                Node (u "甲苯/甲基环己烷体系") (u "Toluene/Methylcyclohexane System") 3 None);
               (u "H2.4.2",
                Node (u "N-乙基咔唑等杂环体系") (u "N-Ethylcarbazole Systems") 3 None);
               (u "H2.4.3",
                Node (u "载体加氢/脱氢催化剂") (u "Hydrogenation/Dehydrogenation Catalysts") 3 None);
               (u "H2.4.4",
                Node (u "其他有机载体储运技术") (u "Other Liquid Organic Carriers") 3 None)]));
         (u "H2.5",
          Node (u "氢输配基础设施") (u "Distribution Infrastructure") 2
            (Some
              [(u "H2.5.1",
                Node (u "氢气管道(纯氢/掺氢)") (u "H2 Pipelines (Pure/Blended)") 3 None);
               (u "H2.5.2",
                Node (u "加氢站关键设备") (u "H2 Refueling Station Equipment") 3 None);
               (u "H2.5.3",
                Node (u "氢气压缩与纯化") (u "H2 Compression & Purification") 3 None);
               (u "H2.5.4",
                Node (u "其他氢输配基础设施技术") (u "Other Distribution Infrastructure") 3 None)]));
         (u "H2.6",
          Node (u "其他储运氢技术") (u "Other Storage & Transportation") 2 (Some []))]));
   (u "H3",
    Node (u "用氢(下游)") (u "Hydrogen Utilization") 1
      (Some
        [(u "H3.1",
          Node (u "燃料电池") (u "Fuel Cells") 2
            (Some
              [(u "H3.1.1",
                Node (u "质子交换膜燃料电池(PEMFC)") (u "Proton Exchange Membrane Fuel Cell (PEMFC)") 3 None);
               (u "H3.1.2",
                Node (u "固体氧化物燃料电池(SOFC)") (u "Solid Oxide Fuel Cell (SOFC)") 3 None);
               (u "H3.1.3",
                Node (u "碱性燃料电池(AFC)等其他类型") (u "Alkaline Fuel Cell (AFC) & Others") 3 None);
               (u "H3.1.4",
                Node (u "其他燃料电池技术") (u "Other Fuel Cells") 3 None)]));
         (u "H3.2",
          Node (u "氢能交通") (u "Hydrogen Mobility") 2
            (Some
              [(u "H3.2.1",
                Node (u "氢燃料电池汽车") (u "Fuel Cell Electric Vehicles") 3 None);
               (u "H3.2.2",
                Node (u "氢动力轨道交通/船舶/航空") (u "H2 Rail/Marine/Aviation") 3 None);
               (u "H3.2.3",
                Node (u "车载供氢系统") (u "On-board H2 Supply Systems") 3 None);
               (u "H3.2.4",
                Node (u "其他氢能交通技术") (u "Other Hydrogen Mobility") 3 None)]));
         (u "H3.3",
          Node (u "工业用氢") (u "Industrial Applications") 2
            (Some
              [(u "H3.3.1",
                Node (u "氢冶金(直接还原铁等)") (u "H2 Metallurgy (DRI, etc.)") 3 None);
               (u "H3.3.2",
                Node (u "石化/合成氨/甲醇用氢") (u "Petrochemical/Ammonia/Methanol") 3 None);
               (u "H3.3.3",
                Node (u "电子级高纯氢应用") (u "Electronics-grade H2") 3 None);
               (u "H3.3.4",
                Node (u "其他工业用氢技术") (u "Other Industrial Applications") 3 None)]));
         (u "H3.4",
          Node (u "氢能发电与储能") (u "Power Generation & Grid Storage") 2
            (Some
              [(u "H3.4.1",
                Node (u "氢燃气轮机发电") (u "H2 Gas Turbine Power") 3 None);
               (u "H3.4.2",
                Node (u "氢-电双向储能系统") (u "H2-Electricity Bidirectional Storage") 3 None);
               (u "H3.4.3",
                Node (u "氢参与电网调峰") (u "H2 Grid Balancing") 3 None);
               (u "H3.4.4",
                Node (u "其他氢能发电与储能技术") (u "Other Power Generation & Storage") 3 None)]));
         (u "H3.5",
          Node (u "氢基燃料合成") (u "Hydrogen-derived Fuels") 2
            (Some
              [(u "H3.5.1",
                Node (u "绿氨合成") (u "Green Ammonia Synthesis") 3 None);
               (u "H3.5.2",
                Node (u "电子甲醇/e-Fuels") (u "e-Methanol/e-Fuels") 3 None);
               (u "H3.5.3",
                Node (u "合成航空煤油(e-Kerosene)") (u "e-Kerosene") 3 None);
               (u "H3.5.4",
                Node (u "其他氢基燃料合成技术") (u "Other Hydrogen-derived Fuels") 3 None)]));
         (u "H3.6",
          Node (u "其他用氢技术") (u "Other Hydrogen Utilization") 2 (Some []))]));
   (u "H4",
    Node (u "其他(不在制、储运、用之中)") (u "Other (Not in Production/Storage/Utilization)") 1 (Some []))].

(** A dict of the list [get_all_tech_domains] returns. *)
Record domain : Type := mkDomain {
  code : pystr;
  nameZh : pystr;
  nameEn : pystr;
  level : Z;
  parent_code : option pystr
}.

(** The body of the loop of [traverse] for one item of [node_dict]: the
    domain of the node, then those of its children when it has any. *)
Fixpoint traverse_item (parent_code : option pystr) (code : pystr) (data : node)
  : list domain :=
  match data with
  | Node zh en lv children =>
    mkDomain code zh en lv parent_code
      :: match children with
         | Some node_dict =>
           (fix traverse (node_dict : list (pystr * node)) : list domain :=
              match node_dict with
              | [] => []
              | (c, d) :: rest => traverse_item (Some code) c d ++ traverse rest
              end) node_dict
         | None => []
         end
  end.

(** [traverse(node_dict, parent_code)] *)
Definition traverse (node_dict : list (pystr * node)) (parent_code : option pystr)
  : list domain :=
  flat_map (fun item => traverse_item parent_code (fst item) (snd item)) node_dict.

(** [get_all_tech_domains()] on a tree, and on [TECH_TREE]. *)
Definition all_tech_domains (tree : list (pystr * node)) : list domain :=
  traverse tree None.

Definition get_all_tech_domains : list domain := all_tech_domains TECH_TREE.

(** The lines [get_tech_tree_text] makes for the third level ... *)
Definition l3_lines (children : option (list (pystr * node))) : list pystr :=
  match children with
  | Some node_dict =>
    map (fun item =>
           match item with
           | (l3_code, Node zh _ _ _) => u "    - " ++ l3_code ++ u ": " ++ zh
           end) node_dict
  | None => []
  end.

(** ... for the second level, each node followed by its children and an
    empty line ... *)
Definition l2_lines (node_dict : list (pystr * node)) : list pystr :=
  flat_map (fun item =>
              match item with
              | (l2_code, Node zh en _ children) =>
                [u "  **" ++ l2_code ++ u "** " ++ zh ++ u " (" ++ en ++ u ")"]
                  ++ l3_lines children ++ [[]]
              end) node_dict.

(** ... and for the first level: a node without children is followed by
    an empty line. *)
Definition l1_lines (tree : list (pystr * node)) : list pystr :=
  flat_map (fun item =>
              match item with
              | (l1_code, Node zh en _ children) =>
                [u "### " ++ l1_code ++ u " " ++ zh ++ u " (" ++ en ++ u ")"]
                  ++ match children with
                     | Some (c :: cs) => l2_lines (c :: cs)
                     | _ => [[]]
                     end
              end) tree.

(** The list [text_lines] at the end of [get_tech_tree_text]. *)
Definition text_lines (tree : list (pystr * node)) : list pystr :=
  [u "## 氢能技术领域分类体系"; []] ++ l1_lines tree.

(** [get_tech_tree_text()] on a tree, and on [TECH_TREE]. *)
Definition tech_tree_text (tree : list (pystr * node)) : pystr :=
  join [10%N] (text_lines tree).

Definition get_tech_tree_text : pystr := tech_tree_text TECH_TREE.

(** The line of the text that names a domain, by its level. *)
Definition domain_line (d : domain) : pystr :=
  if (level d =? 1)%Z then
    u "### " ++ code d ++ u " " ++ nameZh d ++ u " (" ++ nameEn d ++ u ")"
  else if (level d =? 2)%Z then
    u "  **" ++ code d ++ u "** " ++ nameZh d ++ u " (" ++ nameEn d ++ u ")"
  else u "    - " ++ code d ++ u ": " ++ nameZh d.

(** A tree of three levels at most, whose nodes carry their depth as
    [level]. *)
Definition leaf_level (lv : Z) (item : pystr * node) : bool :=
  match item with
  | (_, Node _ _ l children) =>
    (l =? lv)%Z && match children with
                   | Some (_ :: _) => false
                   | _ => true
                   end
  end.

Definition three_levels (tree : list (pystr * node)) : bool :=
  forallb
    (fun item1 =>
       match item1 with
       | (_, Node _ _ lv1 children1) =>
         (lv1 =? 1)%Z
         && match children1 with
            | Some dict2 =>
              forallb
                (fun item2 =>
                   match item2 with
                   | (_, Node _ _ lv2 children2) =>
                     (lv2 =? 2)%Z
                     && match children2 with
                        | Some dict3 => forallb (leaf_level 3) dict3
                        | None => true
                        end
                   end) dict2
            | None => true
            end
       end) tree.

(** A line that is not empty. *)
Definition nonblank (line : pystr) : bool :=
  match line with
  | [] => false
  | _ :: _ => true
  end.

(** Every domain with a parent comes after a domain with that code. *)
Definition parents_first (domains : list domain) : Prop :=
  forall before d after,
    domains = before ++ d :: after ->
    match parent_code d with
    | Some p => In p (map code before)
    | None => True
    end.

End TechDomains.

(* ===================================================================== *)
(** * The three prompt builders *)
(* ===================================================================== *)

Module PromptText.

(** A text given by its lines. *)
Definition lines (ls : list pystr) : pystr := join [10%N] ls.

(** A value of [GREEN_TECH_CATEGORIES]. *)
Record category : Type := mkCategory {
  code : pystr;
  categoryType : pystr;
  definition : pystr;
  typicalExamples : list pystr
}.

(** [GREEN_TECH_CATEGORIES] of [config.py] *)
Definition GREEN_TECH_CATEGORIES : list (pystr * category) :=
  [(u "零碳使能型",
    mkCategory (u "GT1") (u "零碳使能型")
               (u "直接支撑绿氢经济的核心技术，必须或显著提升可再生能源制氢的可行性，降低绿氢成本、能耗或间歇性障碍，实现全流程近零碳排放。")
               [u "PEM电解槽优化";
                u "风光氢离网耦合控制系统";
                u "低能耗有机液体储氢（LOHC）脱氢技术";
                u "绿氢燃料电池重卡"]);
   (u "低碳过渡型",
    mkCategory (u "GT2") (u "低碳过渡型")
               (u "支持蓝氢或显著减碳的过渡性技术，依赖碳捕集与封存（CCS/CCUS）实现大幅减排（建议捕集率≥85%），或用于替代高碳终端应用（如煤制氨转为氢制氨）。")
               [u "蒸汽甲烷重整（SMR）+高效CCS系统";
                u "蓝氢专用输氢管道";
                u "氢基直接还原铁（H₂-DRI）炼钢工艺"]);
   (u "绿氢兼容型",
    mkCategory (u "GT3") (u "绿氢兼容型")
               (u "技术本身不产生碳排放，可用于绿氢也可用于灰氢，无化石能源依赖，不锁定高碳路径，但也不专属促进零碳转型。")
               [u "高压IV型储氢瓶";
                u "标准加氢站设备";
                u "通用质子交换膜（PEM）";
                u "氢气压缩机"]);
   (u "碳锁定型",
    mkCategory (u "GT4") (u "碳锁定型")
               (u "强化高碳制氢路径，仅优化灰氢或棕氢工艺，延长化石能源制氢寿命，且未集成CCS或可再生电力接口,阻碍系统脱碳。")
               [u "无CCS的SMR催化剂效率提升";
                u "炼油厂专用灰氢提纯装置";
                u "基于天然气管网的高比例灰氢输配系统"]);
   (u "中性模糊型",
    mkCategory (u "GT5") (u "中性模糊型")
               (u "无法明确判断其绿色贡献的技术，通常为通用基础部件、安全装置或未限定应用场景/能源来源的模块。")
               [u "氢气泄漏传感器";
                u "密封材料改进";
                u "未限定电源类型的电解电源管理模块";
                u "通用阀门或连接件"])].

(** The text of the green prompt before the patents ... *)
Definition green_head : pystr :=
  lines [u "请对以下氢能专利进行绿色技术五分类。";
         [];
         []].

(** ... between the patents and the categories ... *)
Definition green_middle : pystr :=
  lines [[];
         [];
         u "## 分类标准";
         [];
         []].

(** ... and after the categories. *)
Definition green_tail : pystr :=
  lines [[];
         [];
         u "## 分析要点";
         [];
         u "1. 识别核心技术路径(电解制氢/化石能源制氢/储运/应用)";
         u "2. 判断能源来源依赖(可再生能源/化石能源/通用)";
         u "3. 评估碳排放特征(零碳/低碳/高碳/中性)";
         u "4. 确定是否锁定特定路径";
         u "5. 综合判断所属类别";
         [];
         u "## 输出格式";
         [];
         u "返回JSON数组,每个专利一个对象:";
         u "```json";
         u "[";
         u "  {";
         dq "    'patent_id': '专利ID',";
         dq "    'category_code': 'GT1',";
         dq "    'category_type': '零碳使能型',";
         dq "    'confidence': 0.9,";
         dq "    'reasoning': '详细的分类理由'";
         u "  }";
         u "]";
         u "```";
         [];
         u "只返回JSON,不要其他内容。"].

(** The text of the domain prompt before the patents ... *)
Definition tech_head : pystr :=
  lines [u "请为以下氢能专利识别其所属的技术领域。";
         [];
         []].

(** ... between the patents and the tree ... *)
Definition tech_middle : pystr :=
  lines [[];
         [];
         u "## 技术领域分类体系";
         [];
         []].

(** ... and after the tree. *)
Definition tech_tail : pystr :=
  lines [[];
         [];
         u "## 分类原则";
         [];
         u "1. **优先三级分类**：尽可能识别到L3（三级）具体技术";
         u "2. **二级分类作为备选**：如果无法明确到L3，则分类到L2（二级）";
         u "3. **一级分类仅作兜底**：只有在完全无法判断具体技术时，才使用L1";
         u "4. **H4为其他类别**：如果专利明确不属于制、储运、用任何一类，归入H4";
         u "5. **可多分类**：一个专利可以属于多个技术领域";
         [];
         u "## 输出格式";
         [];
         u "返回JSON数组,每个专利一个对象:";
         u "```json";
         u "[";
         u "  {";
         dq "    'patent_id': '专利ID',";
         dq "    'tech_domains': [";
         u "      {";
         dq "        'code': 'H1.1.2',";
         dq "        'level': 3,";
         dq "        'confidence': 0.95,";
         dq "        'reasoning': '专利描述了质子交换膜电解槽的优化技术'";
         u "      }";
         u "    ]";
         u "  }";
         u "]";
         u "```";
         [];
         u "只返回JSON,不要其他内容。"].

(** The text of the location prompt before the entities ... *)
Definition location_head : pystr :=
  lines [u "请查询以下实体（公司/组织）的注册地址信息。这些都是氢能领域的相关实体。";
         [];
         []].

(** ... and after them. *)
Definition location_tail : pystr :=
  lines [[];
         [];
         u "## 要求";
         [];
         u "1. **必须进行联网查询**：使用搜索引擎查询每个实体的官方注册地址";
         u "2. **返回标准化地址**：省份、城市、区县（如有）";
         u "3. **准确性优先**：如果查不到准确信息，confidence设为0，不要猜测";
         [];
         u "## 输出格式";
         [];
         u "返回JSON数组:";
         u "```json";
         u "[";
         u "  {";
         dq "    'normalized_name': '实体标准化名称',";
         dq "    'province': 'XX省/市/自治区',";
         dq "    'city': 'XX市',";
         dq "    'district': 'XX区/县',";
         dq "    'confidence': 0.95,";
         dq "    'source': '查询来源说明'";
         u "  }";
         u "]";
         u "```";
         [];
         u "只返回JSON,不要其他内容。"].

(** [enumerate(l)] *)
Definition enumerate {A : Type} (l : list A) : list (nat * A) :=
  combine (seq 0 (length l)) l.

(** An element of [patents_info]: the abstract is cut at 300 characters
    and always followed by three dots.  Every patent dict has the key
    [ipcMainClass], so a missing class is written as [None]. *)
Definition patent_info (i : nat) (p : Patent) : pystr :=
  lines [u "### 专利" ++ str_of_N (N.of_nat (i + 1));
         u "ID: " ++ patentId p;
         u "标题: " ++ titleZh p;
         u "摘要: " ++ firstn 300 (abstractZh p) ++ u "...";
         u "IPC: " ++ match ipcMainClass p with
                      | Some ipc => ipc
                      | None => u "None"
                      end].

Definition patents_info (patents : list Patent) : list pystr :=
  map (fun ip => patent_info (fst ip) (snd ip)) (enumerate patents).

(** An element of [categories_desc]. *)
Definition category_desc (data : category) : pystr :=
  let examples_str :=
    join ([10%N] ++ u "      ") (map (fun ex => u "• " ++ ex) (typicalExamples data)) in
  lines [u "**" ++ categoryType data ++ u "** (代码: " ++ code data ++ u ")";
         u "  定义: " ++ definition data;
         u "  典型示例:";
         u "      " ++ examples_str].

Definition categories_text : pystr :=
  join [10%N; 10%N] (map (fun item => category_desc (snd item)) GREEN_TECH_CATEGORIES).

(** [build_green_classification_prompt] *)
Definition build_green_classification_prompt (patents : list Patent) : pystr :=
  green_head ++ join [10%N] (patents_info patents) ++ green_middle
    ++ categories_text ++ green_tail.

(** [build_tech_classification_prompt]; [self.tech_tree_text] is set once,
    from [get_tech_tree_text()]. *)
Definition build_tech_classification_prompt (patents : list Patent) : pystr :=
  tech_head ++ join [10%N] (patents_info patents) ++ tech_middle
    ++ TechDomains.get_tech_tree_text ++ tech_tail.

(** An element of [entities_info]. *)
Definition entity_info (i : nat) (e : Entity) : pystr :=
  str_of_N (N.of_nat (i + 1)) ++ u ". " ++ name e ++ u " (标准化名称: "
    ++ normalizedName e ++ u ", 类型: " ++ type e ++ u ")".

Definition entities_info (entities : list Entity) : list pystr :=
  map (fun ie => entity_info (fst ie) (snd ie)) (enumerate entities).

(** [build_location_extraction_prompt] *)
Definition build_location_extraction_prompt (entities : list Entity) : pystr :=
  location_head ++ join [10%N] (entities_info entities) ++ location_tail.

(** The builders of the source, for the generator. *)
Definition prompts : Prompts :=
  mkPrompts build_green_classification_prompt build_tech_classification_prompt
            build_location_extraction_prompt.

End PromptText.

(* ===================================================================== *)
(** * Facts about strings *)
(* ===================================================================== *)

Unset Implicit Arguments.

Module StringFacts.

Lemma str_eqb_refl (a : pystr) : str_eqb a a = true.
Proof.
  induction a as [|x a IH]; simpl; [reflexivity|].
  rewrite N.eqb_refl. exact IH.
Qed.

Lemma str_eqb_eq (a b : pystr) : str_eqb a b = true <-> a = b.
Proof.
  split.
  - revert b. induction a as [|x a IH]; intros [|y b]; simpl; try discriminate; auto.
    intros H. apply andb_true_iff in H. destruct H as [Hx Hr].
    apply N.eqb_eq in Hx. subst y. f_equal. apply IH. exact Hr.
  - intros ->. apply str_eqb_refl.
Qed.

Lemma str_eqb_neq (a b : pystr) : str_eqb a b = false <-> a <> b.
Proof.
  split.
  - intros H E. apply str_eqb_eq in E. congruence.
  - intros H. destruct (str_eqb a b) eqn:E; [|reflexivity].
    apply str_eqb_eq in E. contradiction.
Qed.

Lemma existsb_eqb_In (c : N) (s : pystr) : existsb (N.eqb c) s = true <-> In c s.
Proof.
  rewrite existsb_exists. split.
  - intros [x [Hin Heq]]. apply N.eqb_eq in Heq. subst. exact Hin.
  - intros H. exists c. split; [exact H | apply N.eqb_refl].
Qed.

(** [s.find(c)] is the length of the longest prefix of [s] without [c]. *)
Lemma find_from_first (c : N) (pre rest : pystr) (i : Z) :
  ~ In c pre ->
  find_from [c] (pre ++ c :: rest) i = (i + Z.of_nat (length pre))%Z.
Proof.
  revert i. induction pre as [|x pre IH]; intros i Hnot; simpl.
  - rewrite N.eqb_refl. simpl. lia.
  - destruct (N.eqb_spec c x) as [->|Hne].
    + exfalso. apply Hnot. left. reflexivity.
    + simpl. rewrite IH by (intros H; apply Hnot; right; exact H). lia.
Qed.

Lemma find_from_absent (c : N) (s : pystr) (i : Z) :
  ~ In c s -> find_from [c] s i = (-1)%Z.
Proof.
  revert i. induction s as [|x s IH]; intros i Hnot; simpl; [reflexivity|].
  destruct (N.eqb_spec c x) as [->|Hne].
  - exfalso. apply Hnot. left. reflexivity.
  - simpl. apply IH. intros H. apply Hnot. right. exact H.
Qed.

Lemma rfind_from_absent (c : N) (s : pystr) (i : Z) :
  ~ In c s -> rfind_from [c] s i = (-1)%Z.
Proof.
  revert i. induction s as [|x s IH]; intros i Hnot; simpl; [reflexivity|].
  rewrite IH by (intros H; apply Hnot; right; exact H). simpl.
  destruct (N.eqb_spec c x) as [->|Hne]; [|reflexivity].
  exfalso. apply Hnot. left. reflexivity.
Qed.

(** [s.rfind(c)] is the position before the longest suffix without [c]. *)
Lemma rfind_from_last (c : N) (pre post : pystr) (i : Z) :
  (0 <= i)%Z -> ~ In c post ->
  rfind_from [c] (pre ++ c :: post) i = (i + Z.of_nat (length pre))%Z.
Proof.
  revert i. induction pre as [|x pre IH]; intros i Hi Hnot.
  - simpl. rewrite rfind_from_absent by exact Hnot. simpl.
    rewrite N.eqb_refl. simpl. lia.
  - change ((x :: pre) ++ c :: post) with (x :: (pre ++ c :: post)).
    cbn [rfind_from]. rewrite IH by (try lia; exact Hnot).
    replace (0 <=? i + 1 + Z.of_nat (length pre))%Z with true
      by (symmetry; apply Z.leb_le; lia).
    cbn [length]. lia.
Qed.

Lemma slice_span (pre mid post : pystr) :
  slice (pre ++ mid ++ post) (Z.of_nat (length pre))
        (Z.of_nat (length pre) + Z.of_nat (length mid)) = mid.
Proof.
  unfold slice.
  replace (Z.to_nat (Z.of_nat (length pre) + Z.of_nat (length mid) - Z.of_nat (length pre)))
    with (length mid) by lia.
  rewrite Nat2Z.id.
  rewrite skipn_app, skipn_all, Nat.sub_diag. simpl.
  rewrite firstn_app, firstn_all, Nat.sub_diag. simpl. apply app_nil_r.
Qed.

(** The span the batch parser decodes: from the first opening bracket to
    the last closing bracket. *)
Lemma bracket_span_first_last (pre mid post : pystr) :
  ~ In 91%N pre -> ~ In 93%N post ->
  bracket_span (pre ++ 91%N :: mid ++ 93%N :: post) = Some (91%N :: mid ++ [93%N]).
Proof.
  intros Hpre Hpost. unfold bracket_span, str_find, str_rfind.
  change (u "[") with [91%N]. change (u "]") with [93%N].
  rewrite find_from_first by exact Hpre.
  replace (pre ++ 91%N :: mid ++ 93%N :: post)
    with ((pre ++ 91%N :: mid) ++ 93%N :: post)
    by (rewrite <- app_assoc; reflexivity).
  rewrite rfind_from_last by (try lia; exact Hpost).
  rewrite length_app. cbn [length].
  replace ((0 <=? 0 + Z.of_nat (length pre))
           && (0 + Z.of_nat (length pre) <? 0 + Z.of_nat (length pre + S (length mid)) + 1))%Z
    with true by (symmetry; apply andb_true_iff; split;
                  [apply Z.leb_le | apply Z.ltb_lt]; lia).
  f_equal.
  replace ((pre ++ 91%N :: mid) ++ 93%N :: post)
    with (pre ++ (91%N :: mid ++ [93%N]) ++ post)
    by (rewrite <- !app_assoc; simpl; rewrite <- app_assoc; reflexivity).
  replace (0 + Z.of_nat (length pre + S (length mid)) + 1)%Z
    with (Z.of_nat (length pre) + Z.of_nat (length (91%N :: mid ++ [93%N])))%Z
    by (cbn [length]; rewrite length_app; cbn [length]; lia).
  replace (0 + Z.of_nat (length pre))%Z with (Z.of_nat (length pre)) by lia.
  apply slice_span.
Qed.

End StringFacts.
Export StringFacts.

(* ===================================================================== *)
(** * The decoder always has budget enough *)
(* ===================================================================== *)

Module JsonFacts.

(** Skipping white space does not lengthen a text. *)
Lemma skip_ws_length (s : pystr) : length (skip_ws s) <= length s.
Proof.
  induction s as [|c s IH]; cbn; [lia|].
  destruct (is_ws c); cbn; lia.
Qed.

(** Nor does reading digits ... *)
Lemma span_digits_length (s : pystr) : length (snd (span_digits s)) <= length s.
Proof.
  induction s as [|c s IH]; cbn; [lia|].
  destruct (is_digit c); cbn; [|lia].
  destruct (span_digits s) as [ds r]. cbn in *. lia.
Qed.

(** A text is at least as long as a prefix of it. *)
Lemma startswith_length (p s : pystr) :
  startswith p s = true -> length p <= length s.
Proof.
  revert s. induction p as [|x p IH]; intros [|y s]; cbn; try lia; try discriminate.
  intros H. apply andb_true_iff in H. destruct H as [_ H]. apply IH in H. lia.
Qed.

(** ... nor matching a group of [NUMBER_RE]; the integer part reads at
    least one digit. *)
Lemma match_sign_length (s : pystr) : length (snd (match_sign s)) <= length s.
Proof. destruct s as [|c t]; cbn; [lia|]. destruct (c =? 45)%N; cbn; lia. Qed.

Lemma match_int_length (s ds r : pystr) :
  match_int s = Some (ds, r) -> length r < length s.
Proof.
  destruct s as [|c t]; cbn; [discriminate|].
  destruct (is_digit c); [|discriminate].
  pose proof (span_digits_length t) as H.
  destruct (c =? 48)%N; [|destruct (span_digits t) as [ds' r']];
    intros E; inversion E; subst; cbn in *; lia.
Qed.

Lemma match_frac_length (s : pystr) : length (snd (match_frac s)) <= length s.
Proof.
  destruct s as [|c t]; cbn; [lia|].
  destruct (c =? 46)%N; cbn; [|lia].
  pose proof (span_digits_length t) as H.
  destruct (span_digits t) as [[|d ds] r]; cbn in *; lia.
Qed.

Lemma match_exp_length (s : pystr) : length (snd (match_exp s)) <= length s.
Proof.
  destruct s as [|c t]; cbn; [lia|].
  destruct ((c =? 101) || (c =? 69))%N; cbn; [|lia].
  destruct t as [|x t'].
  - cbn. lia.
  - destruct ((x =? 45) || (x =? 43))%N.
    + pose proof (span_digits_length t') as H.
      destruct (span_digits t') as [[|d ds] r]; cbn in *; lia.
    + pose proof (span_digits_length (x :: t')) as H.
      destruct (span_digits (x :: t')) as [[|d ds] r]; cbn in *; lia.
Qed.

Lemma match_number_length (s i f e r : pystr) :
  match_number s = Some (i, f, e, r) -> length r < length s.
Proof.
  unfold match_number.
  pose proof (match_sign_length s) as Hs.
  destruct (match_sign s) as [sign s1]. cbn [snd] in Hs.
  destruct (match_int s1) as [[ds r1]|] eqn:Ei; [|discriminate].
  apply match_int_length in Ei.
  pose proof (match_frac_length r1) as Hf.
  destruct (match_frac r1) as [frac r2]. cbn [snd] in Hf.
  pose proof (match_exp_length r2) as He.
  destruct (match_exp r2) as [exp r3]. cbn [snd] in He.
  intros E. inversion E. subst. lia.
Qed.

Lemma scan_atom_consumes (s : pystr) : consumes s (scan_atom s).
Proof.
  unfold scan_atom.
  destruct (startswith (u "null") s) eqn:E1.
  { apply startswith_length in E1. change (4 <= length s) in E1.
    cbn [consumes]. rewrite length_skipn. lia. }
  destruct (startswith (u "true") s) eqn:E2.
  { apply startswith_length in E2. change (4 <= length s) in E2.
    cbn [consumes]. rewrite length_skipn. lia. }
  destruct (startswith (u "false") s) eqn:E3.
  { apply startswith_length in E3. change (5 <= length s) in E3.
    cbn [consumes]. rewrite length_skipn. lia. }
  destruct (match_number s) as [[[[i f] e] r]|] eqn:En.
  { apply match_number_length in En. destruct f, e; cbn; exact En. }
  destruct (startswith (u "NaN") s) eqn:E4.
  { apply startswith_length in E4. change (3 <= length s) in E4.
    cbn [consumes]. rewrite length_skipn. lia. }
  destruct (startswith (u "Infinity") s) eqn:E5.
  { apply startswith_length in E5. change (8 <= length s) in E5.
    cbn [consumes]. rewrite length_skipn. lia. }
  destruct (startswith (u "-Infinity") s) eqn:E6.
  { apply startswith_length in E6. change (9 <= length s) in E6.
    cbn [consumes]. rewrite length_skipn. lia. }
  exact I.
Qed.

(** A recursive call of [scanstring] on a shorter text. *)
Ltac scanstring_rec IH :=
  match goal with
  | |- consumes _ (scanstring ?r ?a) =>
    let H := fresh in
    assert (H : consumes r (scanstring r a)) by (apply IH; cbn [length] in *; lia);
    destruct (scanstring r a); cbn [consumes length] in *; try exact I; lia
  end.

(** A string ends with its closing quote. *)
Lemma scanstring_consumes :
  forall (n : nat) (s acc : pystr), length s <= n -> consumes s (scanstring s acc).
Proof.
  induction n as [|n IH]; intros s acc Hlen.
  - destruct s; [exact I|cbn in Hlen; lia].
  - destruct s as [|c rest]; [exact I|]. cbn [scanstring].
    destruct (c =? 34)%N; [cbn; lia|].
    destruct (c <? 32)%N; [exact I|].
    destruct (c =? 92)%N; [|scanstring_rec IH].
    destruct rest as [|esc rest1]; [exact I|].
    destruct (esc =? 117)%N.
    + destruct rest1 as [|h1 [|h2 [|h3 [|h4 rest2]]]]; try exact I.
      destruct (hex4 h1 h2 h3 h4) as [uni|]; [|exact I].
      destruct rest2 as [|b [|e rest3]]; try scanstring_rec IH.
      destruct (is_high_surrogate uni && (b =? 92)%N && (e =? 117)%N);
        [|scanstring_rec IH].
      destruct rest3 as [|l1 [|l2 [|l3 [|l4 rest4]]]]; try exact I.
      destruct (hex4 l1 l2 l3 l4) as [uni2|]; [|exact I].
      destruct (is_low_surrogate uni2); scanstring_rec IH.
    + destruct (backslash esc); [scanstring_rec IH|exact I].
Qed.

(** Splits [skip_ws r] into its head and tail, remembering that it is no
    longer than [r]. *)
Tactic Notation "split_ws" constr(r) "as" ident(c) ident(t) :=
  let H := fresh "Hws" in
  pose proof (skip_ws_length r) as H;
  destruct (skip_ws r) as [|c t]; cbn [length] in H; [exact I|].

(** Uses a fact [consumes _ call] on the call that the goal returns. *)
Ltac by_call H :=
  match type of H with
  | consumes _ ?call => destruct call; cbn [consumes length] in *; try exact H; lia
  end.

(** Three units of budget for each character are enough. *)
Lemma budget_enough_all (fuel : nat) : budget_enough fuel.
Proof.
  induction fuel as [|fuel (IHs & IHa & IHi & IHo & IHp)].
  - unfold budget_enough. repeat split; intros; lia.
  - unfold budget_enough. repeat split.
    + intros s Hb. destruct s as [|c rest]; [exact I|]. cbn [scan_once length] in *.
      destruct (c =? 34)%N.
      { pose proof (scanstring_consumes (length rest) rest [] (le_n _)) as H.
        by_call H. }
      destruct (c =? 123)%N.
      { assert (H : consumes rest (JSONObject fuel rest)) by (apply IHo; lia).
        by_call H. }
      destruct (c =? 91)%N.
      { assert (H : consumes rest (JSONArray fuel rest)) by (apply IHa; lia).
        by_call H. }
      apply (scan_atom_consumes (c :: rest)).
    + intros s Hb. cbn [JSONArray]. split_ws s as c r.
      destruct (c =? 93)%N; [cbn [consumes]; lia|].
      assert (H : consumes (c :: r) (array_items fuel (c :: r) []))
        by (apply IHi; cbn [length]; lia).
      by_call H.
    + intros s values Hb. cbn [array_items].
      assert (H : consumes s (scan_once fuel s)) by (apply IHs; lia).
      destruct (scan_once fuel s) as [value r| |]; cbn [consumes] in H; try exact H.
      split_ws r as c r'.
      destruct (c =? 93)%N; [cbn [consumes]; lia|].
      destruct (c =? 44)%N; [|exact I].
      pose proof (skip_ws_length r') as Hl.
      assert (H2 : consumes (skip_ws r') (array_items fuel (skip_ws r') (value :: values)))
        by (apply IHi; lia).
      by_call H2.
    + intros s Hb. cbn [JSONObject]. split_ws s as c r.
      destruct (c =? 125)%N; [cbn [consumes]; lia|].
      destruct (c =? 34)%N; [|exact I].
      assert (H : consumes r (object_items fuel r [])) by (apply IHp; lia).
      by_call H.
    + intros s pairs Hb. cbn [object_items].
      pose proof (scanstring_consumes (length s) s [] (le_n _)) as H.
      destruct (scanstring s []) as [key r| |]; cbn [consumes] in H; try exact H.
      split_ws r as colon r1.
      destruct (colon =? 58)%N; [|exact I].
      pose proof (skip_ws_length r1) as Hl.
      assert (H2 : consumes (skip_ws r1) (scan_once fuel (skip_ws r1)))
        by (apply IHs; lia).
      destruct (scan_once fuel (skip_ws r1)) as [value r2| |]; cbn [consumes] in H2;
        try exact H2.
      split_ws r2 as c r3.
      destruct (c =? 125)%N; [cbn [consumes]; lia|].
      destruct (c =? 44)%N; [|exact I].
      split_ws r3 as q r4.
      destruct (q =? 34)%N; [|exact I].
      assert (H3 : consumes r4 (object_items fuel r4 ((key, value) :: pairs)))
        by (apply IHp; lia).
      by_call H3.
Qed.

(** The budget [json_loads] gives is never used up: a [None] of
    [json_loads] is a decoding error. *)
Lemma json_loads_budget (s : pystr) :
  scan_once (3 * length s + 3) (skip_ws s) <> Exhausted.
Proof.
  pose proof (skip_ws_length s) as Hws.
  pose proof (proj1 (budget_enough_all (3 * length s + 3)) (skip_ws s)) as H.
  intros E. rewrite E in H. apply H. lia.
Qed.

End JsonFacts.
Export JsonFacts.

(* ===================================================================== *)
(** * The batch parser *)
(* ===================================================================== *)

Module ParserFacts.

Lemma array_items_JArray (fuel : nat) :
  forall s values v rest,
    array_items fuel s values = Scanned v rest -> exists l, v = JArray l.
Proof.
  induction fuel as [|fuel IH]; intros s values v rest; simpl; [discriminate|].
  destruct (scan_once fuel s) as [value r| |]; try discriminate.
  destruct (skip_ws r) as [|c r']; [discriminate|].
  destruct (c =? 93)%N.
  - intros H. inversion H. eauto.
  - destruct (c =? 44)%N; [|discriminate]. apply IH.
Qed.

Lemma JSONArray_JArray (fuel : nat) (s : pystr) (v : json) (rest : pystr) :
  JSONArray fuel s = Scanned v rest -> exists l, v = JArray l.
Proof.
  destruct fuel as [|fuel]; simpl; [discriminate|].
  destruct (skip_ws s) as [|c r]; [discriminate|].
  destruct (c =? 93)%N.
  - intros H. inversion H. eauto.
  - apply array_items_JArray.
Qed.

(** A text that opens with a bracket decodes to a list or not at all. *)
Lemma json_loads_bracket (s : pystr) (v : json) :
  json_loads (91%N :: s) = Some v -> exists l, v = JArray l.
Proof.
  unfold json_loads.
  change (startswith [65279%N] (91%N :: s)) with false. cbv iota.
  change (skip_ws (91%N :: s)) with (91%N :: s).
  replace (3 * length (91%N :: s) + 3) with (S (3 * length s + 5))
    by (cbn [length]; lia).
  change (scan_once (S (3 * length s + 5)) (91%N :: s))
    with (JSONArray (3 * length s + 5) s).
  destruct (JSONArray (3 * length s + 5) s) as [obj rest| |] eqn:E; try discriminate.
  destruct (skip_ws rest); [|discriminate].
  intros H. inversion H. subst. eapply JSONArray_JArray. exact E.
Qed.

(** [extract_results] in terms of the span it decodes. *)
Lemma extract_results_span (t : task_type) (response : pystr) (g : AsyncLLMGenerator) :
  extract_results t response g =
  match bracket_span response with
  | Some text =>
    match json_loads text with
    | Some results =>
      Done (Some (match results with JArray l => l | _ => [] end)) g
    | None => Done None (set_trace (EvLog WARNING (MsgParseFailed t) :: trace g) g)
    end
  | None => Done None g
  end.
Proof.
  unfold extract_results, bracket_span.
  destruct ((0 <=? str_find (u "[") response)
            && (str_find (u "[") response <? str_rfind (u "]") response + 1))%Z;
    [|reflexivity].
  destruct (json_loads _); reflexivity.
Qed.

End ParserFacts.
Export ParserFacts.

Module BatchParser.

Lemma scenario_C_span :
  bracket_span scenario_C = Some (dq "[{'patent_id':'CN123','category_code':'GT1'}]").
Proof. vm_compute. reflexivity. Qed.

Lemma scenario_C_decodes :
  json_loads (dq "[{'patent_id':'CN123','category_code':'GT1'}]")
  = Some (JArray [JObject [(u "patent_id", JString (u "CN123"));
                           (u "category_code", JString (u "GT1"))]]).
Proof. vm_compute. reflexivity. Qed.

(** C6.  Whatever surrounds them, the batch parser decodes exactly the text
    from the first opening bracket to the last closing bracket of the
    response, and decodes it as a JSON array: either the text decodes to a
    list, which is the result, or decoding fails, which is logged and
    gives no records.  On the response of scenario C the result is one
    record whose [category_code] is GT1. *)
Theorem C6_parser_decodes_first_to_last_bracket :
  (forall (t : task_type) (pre mid post : pystr) (g : AsyncLLMGenerator),
      ~ In 91%N pre -> ~ In 93%N post ->
      let span := 91%N :: mid ++ [93%N] in
      (exists records,
          json_loads span = Some (JArray records)
          /\ extract_results t (pre ++ 91%N :: mid ++ 93%N :: post) g
             = Done (Some records) g)
      \/ (json_loads span = None
          /\ extract_results t (pre ++ 91%N :: mid ++ 93%N :: post) g
             = Done None (set_trace (EvLog WARNING (MsgParseFailed t) :: trace g) g)))
  /\ (forall (t : task_type) (g : AsyncLLMGenerator),
         exists record,
           extract_results t scenario_C g = Done (Some [record]) g
           /\ record = JObject [(u "patent_id", JString (u "CN123"));
                                (u "category_code", JString (u "GT1"))]
           /\ match record with
              | JObject d => dict_get (u "category_code") d = Some (JString (u "GT1"))
              | _ => False
              end).
Proof.
  split.
  - intros t pre mid post g Hpre Hpost span.
    rewrite extract_results_span, (bracket_span_first_last pre mid post Hpre Hpost).
    fold span. destruct (json_loads span) as [results|] eqn:E.
    + left. destruct (json_loads_bracket _ _ E) as [l ->]. exists l. split; reflexivity.
    + right. split; reflexivity.
  - intros t g. eexists. rewrite extract_results_span.
    rewrite scenario_C_span, scenario_C_decodes.
    split; [reflexivity|]. split; reflexivity.
Qed.

(** The response of scenario C split at its first opening and last closing
    bracket. *)
Lemma C6_witness :
  ~ In 91%N (u "Here is the result:" ++ [10%N])
  /\ ~ In 93%N (10%N :: u "Done.")
  /\ exists records,
       json_loads (91%N :: dq "{'patent_id':'CN123','category_code':'GT1'}" ++ [93%N])
       = Some (JArray records)
       /\ length records = 1.
Proof.
  assert (Hpre : ~ In 91%N (u "Here is the result:" ++ [10%N])).
  { rewrite <- existsb_eqb_In. vm_compute. discriminate. }
  assert (Hpost : ~ In 93%N (10%N :: u "Done.")).
  { rewrite <- existsb_eqb_In. vm_compute. discriminate. }
  split; [exact Hpre|]. split; [exact Hpost|].
  destruct (proj1 C6_parser_decodes_first_to_last_bracket green _
                  (dq "{'patent_id':'CN123','category_code':'GT1'}") _
                  (mkGenerator (mkStorage [] [] [] [] (default_progress []))
                               0 false zero_stats [] [] (fun _ => None) [])
                  Hpre Hpost) as [[records [E _]]|[E _]].
  - exists records. split; [exact E|].
    vm_compute in E. inversion E. reflexivity.
  - vm_compute in E. discriminate.
Defined.

End BatchParser.

(* ===================================================================== *)
(** * The durable store *)
(* ===================================================================== *)

Module StorageFacts.

Lemma data_type_eqb_refl (dt : data_type) : data_type_eqb dt dt = true.
Proof. destruct dt; reflexivity. Qed.

Lemma path_eqb_refl (p : path) : path_eqb p p = true.
Proof. destruct p; apply data_type_eqb_refl. Qed.

Lemma data_type_eqb_eq (a b : data_type) : data_type_eqb a b = true <-> a = b.
Proof. destruct a, b; simpl; split; intros H; try reflexivity; discriminate. Qed.

(** The file of a kind after the four file operations of [_save_json],
    when [json.dump] returns. *)
Lemma save_json_file (env : Env) (self : JSONStorage) (dt : data_type)
  (fs : filesystem) :
  dumpable env (dump self dt) = true ->
  _save_json env self dt fs (File dt) = Some (Text (dump self dt))
  /\ _save_json env self dt fs (Temp dt) = None.
Proof.
  intros Hd. unfold _save_json, save_steps. rewrite Hd. cbn [fold_left].
  unfold fs_rename, fs_exists, fs_remove, fs_write.
  cbn [path_eqb]. rewrite !data_type_eqb_refl.
  destruct (fs (File dt)); cbn [path_eqb]; rewrite ?data_type_eqb_refl; split; reflexivity.
Qed.

(** When [json.dump] raises, the file is left as it was and the temporary
    file stays, with part of the text at most. *)
Lemma save_json_failed (env : Env) (self : JSONStorage) (dt : data_type)
  (fs : filesystem) :
  dumpable env (dump self dt) = false ->
  _save_json env self dt fs (File dt) = fs (File dt)
  /\ _save_json env self dt fs (Temp dt) = Some Garbled.
Proof.
  intros Hd. unfold _save_json, save_steps. rewrite Hd. cbn [fold_left].
  unfold fs_write. cbn [path_eqb]. rewrite data_type_eqb_refl. split; reflexivity.
Qed.

(** The files of the other kinds are not touched, wherever [_save_json]
    is cut short. *)
Lemma save_json_upto_other (env : Env) (n : nat) (self : JSONStorage)
  (dt dt' : data_type) (fs : filesystem) :
  dt' <> dt ->
  _save_json_upto env n self dt fs (File dt') = fs (File dt')
  /\ _save_json_upto env n self dt fs (Temp dt') = fs (Temp dt').
Proof.
  intros Hne.
  assert (E : data_type_eqb dt' dt = false).
  { destruct (data_type_eqb dt' dt) eqn:E; [|reflexivity].
    apply data_type_eqb_eq in E. contradiction. }
  unfold _save_json_upto, save_steps.
  destruct (dumpable env (dump self dt));
    destruct (fs (File dt)) as [c|] eqn:Ef;
    destruct n as [|[|[|[|n]]]]; cbn [firstn fold_left];
    rewrite ?firstn_nil; cbn [fold_left];
    unfold fs_rename, fs_exists, fs_remove, fs_write; cbn [path_eqb];
    rewrite ?Ef; cbn [path_eqb]; rewrite ?E; split; reflexivity.
Qed.

(** [_save_json] is [_save_json_upto] with all its operations. *)
Lemma save_json_upto_all (env : Env) (m : nat) (self : JSONStorage) (dt : data_type)
  (fs : filesystem) :
  _save_json_upto env (4 + m) self dt fs = _save_json env self dt fs.
Proof.
  unfold _save_json_upto, _save_json. rewrite firstn_all2; [reflexivity|].
  unfold save_steps. destruct (dumpable env (dump self dt)); cbn; lia.
Qed.

Lemma save_json_other (env : Env) (self : JSONStorage) (dt dt' : data_type)
  (fs : filesystem) :
  dt' <> dt -> _save_json env self dt fs (File dt') = fs (File dt').
Proof.
  intros Hne. rewrite <- (save_json_upto_all env 0).
  apply save_json_upto_other. exact Hne.
Qed.

(** Wherever [_save_json] is cut short, the file of the kind is what it
    was, or holds the whole new document, or is absent: it never holds a
    part of a document. *)
Lemma save_json_upto_states (env : Env) (n : nat) (self : JSONStorage)
  (dt : data_type) (fs : filesystem) :
  _save_json_upto env n self dt fs (File dt) = fs (File dt)
  \/ _save_json_upto env n self dt fs (File dt) = Some (Text (dump self dt))
  \/ _save_json_upto env n self dt fs (File dt) = None.
Proof.
  unfold _save_json_upto, save_steps.
  destruct (dumpable env (dump self dt));
    destruct (fs (File dt)) as [c|] eqn:E;
    destruct n as [|[|[|[|n]]]]; cbn [firstn fold_left];
    rewrite ?firstn_nil; cbn [fold_left];
    unfold fs_rename, fs_exists, fs_remove, fs_write; cbn [path_eqb];
    rewrite ?E; cbn [path_eqb]; rewrite ?data_type_eqb_refl; rewrite ?E; auto.
Qed.

(** C1.  [_save_json] does not replace the file atomically: the old file
    is removed before the temporary one is renamed.  Whenever the file
    of the kind exists and [json.dump] can write the collection, an
    [append_data] cut short after its third file operation (the process
    is killed there, or [os.rename] raises and the handler only logs)
    leaves no file of that kind at all; the new document then sits in the
    temporary file.  Run to its end, the same call leaves the new
    document in the file. *)
Theorem C1_file_absent_between_remove_and_rename :
  forall (env : Env) (dt : data_type) (items : list json) (self : JSONStorage)
         (fs0 : filesystem) (old : content),
    let fs := fs_write (File dt) old fs0 in
    let self' := fst (append_data env dt items self fs) in
    dumpable env (dump self' dt) = true ->
    fs (File dt) = Some old
    /\ snd (append_data_upto 3 env dt items self fs) (File dt) = None
    /\ snd (append_data_upto 3 env dt items self fs) (Temp dt)
       = Some (Text (dump self' dt))
    /\ snd (append_data env dt items self fs) (File dt) = Some (Text (dump self' dt)).
Proof.
  intros env dt items self fs0 old fs self' Hd.
  assert (Hfs : fs (File dt) = Some old).
  { unfold fs, fs_write. rewrite path_eqb_refl. reflexivity. }
  split; [exact Hfs|].
  unfold append_data_upto. cbn [snd]. fold self'.
  unfold _save_json_upto, save_steps. rewrite Hd. cbn [firstn fold_left].
  assert (Hex : fs_exists (File dt)
                  (fs_write (Temp dt) (Text (dump self' dt))
                            (fs_write (Temp dt) Garbled fs)) = true).
  { unfold fs_exists, fs_write at 1 2. cbn [path_eqb]. rewrite Hfs. reflexivity. }
  rewrite Hex. unfold fs_remove, fs_write. cbn [path_eqb].
  rewrite !data_type_eqb_refl.
  split; [reflexivity|]. split; [reflexivity|].
  unfold append_data. cbn [snd]. apply save_json_file. exact Hd.
Qed.

(** The theorem on a second record appended to the green
    classifications of a finished session. *)
Lemma C1_witness :
  let fs := fs_write (File green_classifications) (Text (JArray [record_1]))
                     (files_written finished_store) in
  fs (File green_classifications) = Some (Text (JArray [record_1]))
  /\ snd (append_data_upto 3 env_down green_classifications [record_2] finished_store fs)
         (File green_classifications) = None
  /\ snd (append_data_upto 3 env_down green_classifications [record_2] finished_store fs)
         (Temp green_classifications) = Some (Text (JArray [record_1; record_2]))
  /\ snd (append_data env_down green_classifications [record_2] finished_store fs)
         (File green_classifications) = Some (Text (JArray [record_1; record_2])).
Proof.
  cbv zeta.
  destruct (C1_file_absent_between_remove_and_rename
              env_down green_classifications [record_2] finished_store
              (files_written finished_store) (Text (JArray [record_1])) eq_refl)
    as (H1 & H2 & H3 & H4).
  split; [exact H1|]. split; [exact H2|]. split; [exact H3|exact H4].
Defined.

(** C7, the claim as stated fails: appended to the progress kind, a
    list whose text names neither ledger is added to nothing. *)
Lemma C7_progress_items_dropped :
  ~ (forall (env : Env) (dt : data_type) (items : list json) (self : JSONStorage)
            (fs : filesystem) (x : json),
        In x items ->
        In x (collection (fst (append_data env dt items self fs)) dt)).
Proof.
  intros H.
  specialize (H env_down progress [JString (u "CN123")] empty_store no_files
                (JString (u "CN123")) (or_introl eq_refl)).
  vm_compute in H. exact H.
Qed.

(** A record that [json.loads] decodes and [json.dump] cannot write: its
    string is a lone surrogate.  Appended to a finished session, it is in
    the collection and not in the file, which stays as it was. *)
Example append_data_record_not_written :
  json_loads (dq "[{'patent_id':'\ud83d'}]")
  = Some (JArray [JObject [(u "patent_id", JString [55357%N])]])
  /\ let '(st, fs) :=
         append_data env_down green_classifications
                     [JObject [(u "patent_id", JString [55357%N])]]
                     finished_store (files_written finished_store) in
     records st green_classifications
     = [record_1; JObject [(u "patent_id", JString [55357%N])]]
     /\ fs (File green_classifications) = Some (Text (JArray [record_1]))
     /\ fs (Temp green_classifications) = Some Garbled.
Proof. split; [vm_compute; reflexivity|]. vm_compute. repeat split; reflexivity. Qed.

(** C7, amended.  For each of the three result kinds and every list of
    items, [append_data] puts all the items at the end of the in-memory
    collection of the kind.  For the progress kind the items go to the end
    of the patent ledger when the text of the list contains "patents",
    else to the end of the entity ledger when it contains "entities", and
    nowhere otherwise.  In every case the collections of the other kinds
    are unchanged.  The file of the kind then holds the entire updated
    collection when [json.dump] can write it; when [json.dump] raises (a
    string with a lone surrogate, or a nesting beyond the recursion limit)
    the file is left as it was and the temporary file stays behind.  The
    files of the other kinds are not touched. *)
Theorem C7_append_data :
  forall (env : Env) (dt : data_type) (items : list json) (self : JSONStorage)
         (fs : filesystem),
    let self' := fst (append_data env dt items self fs) in
    let fs' := snd (append_data env dt items self fs) in
    match dt with
    | progress =>
      let p := data_progress self in
      (processed_patents (data_progress self'),
       processed_entities (data_progress self'))
      = (if contains (u "patents") (py_str env items)
         then (processed_patents p ++ items, processed_entities p)
         else if contains (u "entities") (py_str env items)
              then (processed_patents p, processed_entities p ++ items)
              else (processed_patents p, processed_entities p))
    | _ => records self' dt = records self dt ++ items
    end
    /\ (forall dt', dt' <> dt -> collection self' dt' = collection self dt')
    /\ (if dumpable env (dump self' dt)
        then fs' (File dt) = Some (Text (dump self' dt)) /\ fs' (Temp dt) = None
        else fs' (File dt) = fs (File dt) /\ fs' (Temp dt) = Some Garbled)
    /\ (forall dt', dt' <> dt ->
          fs' (File dt') = fs (File dt') /\ fs' (Temp dt') = fs (Temp dt')).
Proof.
  intros env dt items self fs self' fs'.
  assert (Hfs : fs' = _save_json env self' dt fs) by reflexivity.
  split; [|split; [|split]].
  - subst self'. unfold append_data. cbn [fst].
    destruct dt; try reflexivity.
    destruct (contains (u "patents") (py_str env items)); [reflexivity|].
    destruct (contains (u "entities") (py_str env items)); reflexivity.
  - intros dt' Hne. subst self'. unfold append_data. cbn [fst].
    destruct dt, dt'; try reflexivity; try (exfalso; apply Hne; reflexivity);
      destruct (contains (u "patents") (py_str env items)); try reflexivity;
      destruct (contains (u "entities") (py_str env items)); reflexivity.
  - rewrite Hfs. destruct (dumpable env (dump self' dt)) eqn:Hd.
    + apply save_json_file. exact Hd.
    + apply save_json_failed. exact Hd.
  - intros dt' Hne. rewrite Hfs, <- (save_json_upto_all env 0).
    apply save_json_upto_other. exact Hne.
Qed.

(** A save keeps the files in step with the store. *)
Lemma in_sync_save (env : Env) (self st : JSONStorage) (dt : data_type)
  (fs : filesystem) :
  in_sync env st fs ->
  session_id self = session_id st ->
  (forall dt', dt' <> dt -> dump self dt' = dump st dt') ->
  in_sync env self (_save_json env self dt fs).
Proof.
  intros H Hsid Hother dt' Hd.
  destruct (data_type_eqb dt' dt) eqn:E.
  - apply data_type_eqb_eq in E. subst dt'. left. apply save_json_file. exact Hd.
  - assert (Hne : dt' <> dt).
    { intros ->. rewrite data_type_eqb_refl in E. discriminate. }
    rewrite (save_json_other env self dt dt' fs Hne), (Hother dt' Hne), Hsid.
    apply H. rewrite <- (Hother dt' Hne). exact Hd.
Qed.

Lemma in_sync_append_data (env : Env) (dt : data_type) (items : list json)
  (st : JSONStorage) (fs : filesystem) :
  in_sync env st fs ->
  in_sync env (fst (append_data env dt items st fs)) (snd (append_data env dt items st fs)).
Proof.
  intros H. unfold append_data. cbn [fst snd].
  apply (in_sync_save env _ st); [exact H| |].
  - destruct dt; try reflexivity.
    destruct (contains (u "patents") (py_str env items)); [reflexivity|].
    destruct (contains (u "entities") (py_str env items)); reflexivity.
  - intros dt' Hne.
    destruct dt, dt'; try reflexivity; try (exfalso; apply Hne; reflexivity);
      destruct (contains (u "patents") (py_str env items)); try reflexivity;
      destruct (contains (u "entities") (py_str env items)); reflexivity.
Qed.

Lemma in_sync_mark_patents (env : Env) (timestamp : pystr) (patent_ids : list pystr)
  (st : JSONStorage) (fs : filesystem) :
  in_sync env st fs ->
  in_sync env (fst (mark_processed_patents env timestamp patent_ids st fs))
          (snd (mark_processed_patents env timestamp patent_ids st fs)).
Proof.
  intros H. unfold mark_processed_patents. cbn [fst snd].
  apply (in_sync_save env _ st); [exact H|reflexivity|].
  intros dt' Hne. destruct dt'; try reflexivity. exfalso. apply Hne. reflexivity.
Qed.

Lemma in_sync_mark_entities (env : Env) (timestamp : pystr) (entity_names : list pystr)
  (st : JSONStorage) (fs : filesystem) :
  in_sync env st fs ->
  in_sync env (fst (mark_processed_entities env timestamp entity_names st fs))
          (snd (mark_processed_entities env timestamp entity_names st fs)).
Proof.
  intros H. unfold mark_processed_entities. cbn [fst snd].
  apply (in_sync_save env _ st); [exact H|reflexivity|].
  intros dt' Hne. destruct dt'; try reflexivity. exfalso. apply Hne. reflexivity.
Qed.

(** Files that hold every collection are in step with the store, and
    files in step with a store that [json.dump] can write hold every
    collection. *)
Lemma persisted_in_sync (env : Env) (st : JSONStorage) (fs : filesystem) :
  (persisted st fs -> in_sync env st fs)
  /\ (in_sync env st fs -> (forall dt, dumpable env (dump st dt) = true) ->
      persisted st fs).
Proof.
  split.
  - intros H dt _. apply H.
  - intros H Hd dt. apply H, Hd.
Qed.

End StorageFacts.
Export StorageFacts.

(* ===================================================================== *)
(** * The retrying client *)
(* ===================================================================== *)

Module ClientFacts.

(** The three copies of the retry logic, after the line they log. *)
Ltac retry_case fuel cfg env prompt k :=
  unfold on_timeout, on_exception, retry_or_fail;
  (destruct (k <? max_retries cfg); [|reflexivity]);
  unfold bind, update_stats, logger, sleep, emit, release, ret, backing_off;
  cbn [set_semaphore set_stats set_trace trace stats storage semaphore
       should_stop all_patents all_entities disk];
  destruct (call_llm_async_rec fuel cfg env prompt (k + 1) _); reflexivity.

(** One attempt of [call_llm_async]: without a free slot it blocks;
    otherwise the request is made and, by the verdict on its answer, the
    call returns the content, gives up, or sleeps and calls itself with the
    slot still held. *)
Lemma call_llm_async_step (fuel : nat) (cfg : Config) (env : Env) (prompt : pystr)
  (k : nat) (g : AsyncLLMGenerator) :
  call_llm_async_rec (S fuel) cfg env prompt k g =
  match semaphore g with
  | O => Blocked g
  | S _ =>
    let a := llm env (length (trace g)) in
    let g1 := answered prompt a g in
    match classify k a with
    | Success content => Done (Some (strip content)) (succeeded g1)
    | Failure m =>
      if k <? max_retries cfg then
        match call_llm_async_rec fuel cfg env prompt (k + 1) (backing_off cfg k m g1) with
        | Done r g3 => Done r (set_semaphore (S (semaphore g3)) g3)
        | Blocked g3 => Blocked g3
        | Running g3 => Running g3
        end
      else Done None (given_up m g1)
    end
  end.
Proof.
  cbn [call_llm_async_rec]. unfold bind at 1. unfold acquire.
  destruct (semaphore g) as [|n] eqn:Hsem; [reflexivity|].
  unfold bind at 1. unfold update_stats at 1. unfold bind at 1. unfold post.
  cbn [set_semaphore set_stats set_trace trace stats storage semaphore should_stop
       all_patents all_entities disk].
  unfold classify, answered, responded, respond, decoded, entered, succeeded.
  rewrite Hsem. cbn [pred].
  destruct (llm env (length (trace g))) as [elapsed status [text| |]| |];
    [destruct (status =? 200)%Z;
       [destruct (json_loads text) as [result|];
          [destruct (message_content result) as [content|]; [reflexivity|]|]|]
    |destruct (status =? 200)%Z|destruct (status =? 200)%Z| |];
    retry_case fuel cfg env prompt k.
Qed.

(** A call changes the counters, the trace and the semaphore only. *)
Lemma call_llm_async_frame (cfg : Config) (env : Env) (prompt : pystr) (fuel : nat) :
  forall (k : nat) (g : AsyncLLMGenerator),
    let g' := state_of (call_llm_async_rec fuel cfg env prompt k g) in
    storage g' = storage g /\ disk g' = disk g /\ should_stop g' = should_stop g
    /\ all_patents g' = all_patents g /\ all_entities g' = all_entities g.
Proof.
  induction fuel as [|fuel IH]; intros k g; [cbn; tauto|].
  rewrite call_llm_async_step.
  destruct (semaphore g) as [|n]; [cbn; tauto|]. cbv zeta.
  destruct (classify k (llm env (length (trace g)))) as [content|m]; [cbn; tauto|].
  destruct (k <? max_retries cfg); [|cbn; tauto].
  specialize (IH (k + 1)
                 (backing_off cfg k m (answered prompt (llm env (length (trace g))) g))).
  destruct (call_llm_async_rec fuel cfg env prompt (k + 1) _); cbn in *; tauto.
Qed.

(** With a free slot for each attempt that may follow, a call returns,
    and the semaphore is then what it was. *)
Lemma call_llm_async_returns (cfg : Config) (env : Env) (prompt : pystr) (fuel : nat) :
  forall (k : nat) (g : AsyncLLMGenerator),
    max_retries cfg - k < fuel ->
    max_retries cfg - k < semaphore g ->
    exists r g',
      call_llm_async_rec fuel cfg env prompt k g = Done r g'
      /\ semaphore g' = semaphore g.
Proof.
  induction fuel as [|fuel IH]; intros k g Hfuel Hsem; [lia|].
  rewrite call_llm_async_step.
  destruct (semaphore g) as [|n] eqn:En; [lia|]. cbv zeta.
  destruct (classify k (llm env (length (trace g)))) as [content|m].
  - eexists. eexists. split; [reflexivity|]. cbn. rewrite En. reflexivity.
  - destruct (Nat.ltb_spec k (max_retries cfg)) as [Hlt|Hge].
    + destruct (IH (k + 1)
                   (backing_off cfg k m (answered prompt (llm env (length (trace g))) g)))
        as [r [g3 [E3 S3]]].
      * lia.
      * cbn. rewrite En. cbn. lia.
      * rewrite E3. eexists. eexists. split; [reflexivity|].
        cbn. rewrite S3. cbn. rewrite En. reflexivity.
    + eexists. eexists. split; [reflexivity|]. cbn. rewrite En. reflexivity.
Qed.

(** What the answer to an attempt does to the counters. *)
Lemma respond_counters (a : attempt) (s : Stats) :
  total_requests (respond a s) = total_requests s
  /\ failed_requests (respond a s) = failed_requests s
  /\ retries (respond a s) = retries s
  /\ successful_requests (respond a s)
     = (successful_requests s + if decoded a then 1 else 0)%N
  /\ (total_time (respond a s) == total_time s + elapsed_of a)%Q.
Proof.
  unfold respond. destruct (decoded a); destruct a; cbn; repeat split; try lia; lra.
Qed.

(** C5.  The response time of an attempt is added to [total_time] as
    soon as [session.post] yields a response, before the status is looked
    at, so the time of an HTTP failure is accumulated too, although the
    attempt is no success: one request answered by status 500 after one
    second, without retries, leaves no success and one second.  The time
    of an attempt that times out is not added.  The average response
    time of the report divides [total_time] by [successful_requests]: in
    scenario B (two answers of status 500, then a completion, one second
    each) it is three seconds for one success that took one. *)
Theorem C5_time_added_for_http_failure :
  (exists g',
      call_llm_async no_retry_config env_down (u "prompt") 0 (idle 5 []) = Done None g'
      /\ posts (trace g') = 1%N
      /\ successful_requests (stats g') = 0%N
      /\ (total_time (stats (idle 5 [])) == 0)%Q
      /\ (total_time (stats g') == 1)%Q)
  /\ (exists g',
         call_llm_async no_retry_config env_timeout (u "prompt") 0 (idle 5 [])
         = Done None g'
         /\ posts (trace g') = 1%N
         /\ successful_requests (stats g') = 0%N
         /\ (total_time (stats g') == 0)%Q)
  /\ (exists g' average,
         call_llm_async default_config env_two_failures (u "prompt") 0 (idle 5 [])
         = Done (Some (u "I cannot classify these patents.")) g'
         /\ successful_requests (stats g') = 1%N
         /\ (elapsed_of (llm env_two_failures 6) == 1)%Q
         /\ (total_time (stats g') == 3)%Q
         /\ avg_time (stats g') = Some average
         /\ (average == 3)%Q).
Proof.
  split; [|split].
  - eexists. split; [vm_compute; reflexivity|].
    split; [reflexivity|]. split; [reflexivity|]. split; reflexivity.
  - eexists. split; [vm_compute; reflexivity|].
    split; [reflexivity|]. split; reflexivity.
  - eexists. eexists. split; [vm_compute; reflexivity|].
    split; [reflexivity|]. split; [reflexivity|]. split; [reflexivity|].
    split; [vm_compute; reflexivity|reflexivity].
Qed.

(** What the client does accumulate.  Over a call, however it ends and
    whatever its attempts meet, [total_requests] grows by exactly one for
    each request made, and [total_time] grows by the response time of each
    attempt that received a response, whatever the status of that response
    (so also for an HTTP failure), and by nothing for an attempt that
    raised before any response. *)
Lemma C5_counters_per_attempt :
  forall (cfg : Config) (env : Env) (prompt : pystr) (fuel k : nat)
         (g : AsyncLLMGenerator),
    let g' := state_of (call_llm_async_rec fuel cfg env prompt k g) in
    (total_requests (stats g') + posts (trace g)
     = total_requests (stats g) + posts (trace g'))%N
    /\ (total_time (stats g') + response_time env (trace g)
        == total_time (stats g) + response_time env (trace g'))%Q.
Proof.
  intros cfg env prompt fuel.
  induction fuel as [|fuel IH]; intros k g; [cbn; split; [lia|lra]|].
  rewrite call_llm_async_step.
  destruct (semaphore g) as [|n]; [cbn; split; [lia|lra]|]. cbv zeta.
  set (a := llm env (length (trace g))).
  assert (Ha : (total_time (stats (answered prompt a g)) + response_time env (trace g)
                == total_time (stats g) + response_time env (trace (answered prompt a g)))%Q).
  { clear IH. destruct (respond_counters a (incr_total (stats g))) as (_ & _ & _ & _ & T).
    cbn [answered responded entered set_stats stats trace response_time].
    fold a. rewrite T. cbn. lra. }
  assert (Hn : (total_requests (stats (answered prompt a g))
                = total_requests (stats g) + 1)%N).
  { destruct (respond_counters a (incr_total (stats g))) as (T & _).
    cbn [answered responded entered set_stats stats]. rewrite T. reflexivity. }
  assert (Hp : posts (trace (answered prompt a g)) = (posts (trace g) + 1)%N)
    by reflexivity.
  destruct (classify k a) as [content|m].
  - cbn [state_of]. split; [|exact Ha].
    change (total_requests (stats (succeeded (answered prompt a g))))
      with (total_requests (stats (answered prompt a g))).
    change (trace (succeeded (answered prompt a g))) with (trace (answered prompt a g)).
    rewrite Hn, Hp. lia.
  - destruct (k <? max_retries cfg).
    + specialize (IH (k + 1) (backing_off cfg k m (answered prompt a g))).
      destruct IH as [IHn IHt].
      assert (E : forall o : outcome (option pystr),
                 stats (state_of match o with
                                 | Done r g3 => Done r (set_semaphore (S (semaphore g3)) g3)
                                 | Blocked g3 => Blocked g3
                                 | Running g3 => Running g3
                                 end) = stats (state_of o)
                 /\ trace (state_of match o with
                                    | Done r g3 => Done r (set_semaphore (S (semaphore g3)) g3)
                                    | Blocked g3 => Blocked g3
                                    | Running g3 => Running g3
                                    end) = trace (state_of o)).
      { intros [r g3|g3|g3]; split; reflexivity. }
      destruct (E (call_llm_async_rec fuel cfg env prompt (k + 1)
                     (backing_off cfg k m (answered prompt a g)))) as [Es Et].
      rewrite Es, Et.
      change (total_requests (stats (backing_off cfg k m (answered prompt a g))))
        with (total_requests (stats (answered prompt a g))) in IHn.
      change (posts (trace (backing_off cfg k m (answered prompt a g))))
        with (posts (trace (answered prompt a g))) in IHn.
      change (total_time (stats (backing_off cfg k m (answered prompt a g))))
        with (total_time (stats (answered prompt a g))) in IHt.
      change (response_time env (trace (backing_off cfg k m (answered prompt a g))))
        with (response_time env (trace (answered prompt a g))) in IHt.
      rewrite Hn, Hp in IHn. split; [lia|lra].
    + cbn [state_of]. split; [|exact Ha].
      change (total_requests (stats (given_up m (answered prompt a g))))
        with (total_requests (stats (answered prompt a g))).
      change (posts (trace (given_up m (answered prompt a g))))
        with (posts (trace (answered prompt a g))).
      rewrite Hn, Hp. lia.
Qed.

Lemma transport_failure_classify (k : nat) (a : attempt) :
  transport_failure a = true -> exists m, classify k a = Failure m.
Proof.
  destruct a as [elapsed status [text| |]| |]; cbn; intros H; eauto.
  destruct (status =? 200)%Z; [discriminate|eauto].
Qed.

(** With a free slot for each attempt, a call whose attempts all fail makes
    the events of [failing_call_events] and returns [None]. *)
Lemma call_llm_async_all_fail (cfg : Config) (env : Env) (prompt : pystr) (fuel : nat) :
  (forall n, transport_failure (llm env n) = true) ->
  forall (k : nat) (g : AsyncLLMGenerator),
    max_retries cfg - k < fuel ->
    max_retries cfg - k < semaphore g ->
    exists g',
      call_llm_async_rec fuel cfg env prompt k g = Done None g'
      /\ trace g'
         = rev (failing_call_events cfg env prompt (max_retries cfg - k) k
                                    (length (trace g))) ++ trace g
      /\ semaphore g' = semaphore g.
Proof.
  intros Hfail.
  induction fuel as [|fuel IH]; intros k g Hfuel Hsem; [lia|].
  rewrite call_llm_async_step.
  destruct (semaphore g) as [|n] eqn:En; [lia|]. cbv zeta.
  destruct (transport_failure_classify k _ (Hfail (length (trace g)))) as [m Em].
  rewrite Em.
  destruct (Nat.ltb_spec k (max_retries cfg)) as [Hlt|Hge].
  - destruct (IH (k + 1)
                 (backing_off cfg k m (answered prompt (llm env (length (trace g))) g)))
      as [g3 [E3 [T3 S3]]].
    + lia.
    + cbn. rewrite En. cbn. lia.
    + rewrite E3. eexists. split; [reflexivity|]. split.
      * cbn [trace set_semaphore]. rewrite T3.
        replace (max_retries cfg - k) with (S (max_retries cfg - (k + 1))) by lia.
        cbn [failing_call_events]. rewrite Em.
        cbn [trace backing_off answered set_trace set_stats length].
        rewrite rev_app_distr, <- app_assoc.
        replace (length (trace g) + 3) with (S (S (S (length (trace g))))) by lia.
        reflexivity.
      * cbn. rewrite S3. cbn. rewrite En. reflexivity.
  - eexists. split; [reflexivity|]. split.
    + replace (max_retries cfg - k) with 0 by lia.
      cbn [failing_call_events]. rewrite Em. reflexivity.
    + cbn. rewrite En. reflexivity.
Qed.

(** Such a call makes [remaining + 1] requests ... *)
Lemma failing_call_events_posts (cfg : Config) (env : Env) (prompt : pystr) :
  forall (remaining k offset : nat) (tr : list event),
    posts (rev (failing_call_events cfg env prompt remaining k offset) ++ tr)
    = (posts tr + N.of_nat (remaining + 1))%N.
Proof.
  induction remaining as [|r IH]; intros k offset tr.
  - cbn. lia.
  - cbn [failing_call_events]. rewrite rev_app_distr, <- app_assoc, IH.
    cbn. lia.
Qed.

(** ... and the pauses between them are [retry_delay * 1],
    [retry_delay * 2], and so on. *)
Lemma failing_call_events_sleeps (cfg : Config) (env : Env) (prompt : pystr) :
  forall (remaining k offset : nat) (tr : list event),
    sleeps (rev (failing_call_events cfg env prompt remaining k offset) ++ tr)
    = rev (map (fun i => (retry_delay cfg * inject_Z (Z.of_nat i))%Q)
               (seq (k + 1) remaining)) ++ sleeps tr.
Proof.
  induction remaining as [|r IH]; intros k offset tr.
  - reflexivity.
  - cbn [failing_call_events]. rewrite rev_app_distr, <- app_assoc, IH.
    cbn [seq map rev app sleeps]. rewrite <- app_assoc. cbn [app].
    replace (k + 1 + 1) with (S (k + 1)) by lia. reflexivity.
Qed.

(** The depth [call_llm_async] allows is never used up: a call returns or
    waits for a slot. *)
Lemma call_llm_async_not_running (cfg : Config) (env : Env) (prompt : pystr)
  (fuel : nat) :
  forall (k : nat) (g g' : AsyncLLMGenerator),
    max_retries cfg - k < fuel ->
    call_llm_async_rec fuel cfg env prompt k g <> Running g'.
Proof.
  induction fuel as [|fuel IH]; intros k g g' Hfuel; [lia|].
  rewrite call_llm_async_step.
  destruct (semaphore g); [discriminate|]. cbv zeta.
  destruct (classify k (llm env (length (trace g)))) as [content|m]; [discriminate|].
  destruct (Nat.ltb_spec k (max_retries cfg)) as [Hlt|Hge]; [|discriminate].
  destruct (call_llm_async_rec fuel cfg env prompt (k + 1) _) as [r g3|g3|g3] eqn:E;
    try discriminate.
  exfalso. apply (IH (k + 1) _ g3) in E; [exact E|lia].
Qed.

(** The retry bound, when no other call holds a slot the retries need:
    a call whose attempts all fail makes [max_retries + 1] requests, sleeps
    [retry_delay * k] before its [k]-th retry, and returns [None]. *)
Lemma call_llm_async_retry_bound (cfg : Config) (env : Env) (prompt : pystr)
  (g : AsyncLLMGenerator) :
  (forall n, transport_failure (llm env n) = true) ->
  max_retries cfg < semaphore g ->
  exists g',
    call_llm_async cfg env prompt 0 g = Done None g'
    /\ posts (trace g') = (posts (trace g) + N.of_nat (max_retries cfg + 1))%N
    /\ sleeps (trace g')
       = rev (map (fun k => (retry_delay cfg * inject_Z (Z.of_nat k))%Q)
                  (seq 1 (max_retries cfg))) ++ sleeps (trace g).
Proof.
  intros Hfail Hsem. unfold call_llm_async.
  destruct (call_llm_async_all_fail cfg env prompt (S (max_retries cfg - 0)) Hfail 0 g)
    as [g' [E [T _]]]; [lia|lia|].
  exists g'. split; [exact E|]. rewrite T.
  replace (max_retries cfg - 0) with (max_retries cfg) by lia.
  split; [apply failing_call_events_posts|apply failing_call_events_sleeps].
Qed.

(** Scenario B: two HTTP errors, then a success, with [max_retries = 3]:
    three requests, one success, two retries, and the text of the
    completion as the result. *)
Example scenario_B :
  exists g',
    call_llm_async default_config env_two_failures (u "prompt") 0 (idle 5 [])
    = Done (Some (u "I cannot classify these patents.")) g'
    /\ total_requests (stats g') = 3%N
    /\ successful_requests (stats g') = 1%N
    /\ retries (stats g') = 2%N
    /\ failed_requests (stats g') = 0%N
    /\ sleeps (trace g') = [(3 * 2)%Q; (3 * 1)%Q].
Proof.
  eexists. split; [vm_compute; reflexivity|]. repeat split; reflexivity.
Qed.

(** C3.  The retry is a recursive call made inside the
    [async with self.semaphore] block of the failed attempt, so it asks
    for a second slot while the first is still held.  With
    [max_concurrent_requests = 1] and the API answering 500, a single call
    makes its first request, sleeps [retry_delay * 1] and then waits for
    ever for the slot it holds itself: one attempt instead of
    [max_retries + 1 = 4], and no return. *)
Theorem C3_retry_waits_for_the_slot_it_holds :
  exists g',
    call_llm_async one_slot_config env_down (u "prompt") 0
                   (idle (max_concurrent_requests one_slot_config) [])
    = Blocked g'
    /\ posts (trace g') = 1%N
    /\ sleeps (trace g') = [(3 * 1)%Q]
    /\ semaphore g' = 0
    /\ failed_requests (stats g') = 0%N.
Proof.
  eexists. split; [vm_compute; reflexivity|].
  repeat split; reflexivity.
Qed.

End ClientFacts.
Export ClientFacts.

(* ===================================================================== *)
(** * The orchestrator *)
(* ===================================================================== *)

Module OrchestratorFacts.

Lemma client_frame_refl (g : AsyncLLMGenerator) : client_frame g g.
Proof. unfold client_frame. tauto. Qed.

Lemma client_frame_trans (g1 g2 g3 : AsyncLLMGenerator) :
  client_frame g1 g2 -> client_frame g2 g3 -> client_frame g1 g3.
Proof. unfold client_frame. intuition congruence. Qed.

Lemma extract_results_returns (t : task_type) (response : pystr) (g : AsyncLLMGenerator) :
  exists r g', extract_results t response g = Done r g' /\ client_frame g g'
               /\ stats g' = stats g /\ posts (trace g') = posts (trace g).
Proof.
  rewrite extract_results_span.
  destruct (bracket_span response) as [text|].
  - destruct (json_loads text) as [results|]; eexists; eexists;
      (split; [reflexivity|]); (split; [unfold client_frame; cbn; tauto|]);
      split; reflexivity.
  - eexists. eexists. split; [reflexivity|]. split; [apply client_frame_refl|].
    split; reflexivity.
Qed.

(** With a free slot for each attempt of a call, a batch returns. *)
Lemma process_batch_async_returns (cfg : Config) (env : Env) (pr : Prompts)
  (b : batch) (g : AsyncLLMGenerator) :
  max_retries cfg < semaphore g ->
  exists r g', process_batch_async cfg env pr b g = Done r g' /\ client_frame g g'.
Proof.
  intros Hsem. unfold process_batch_async, bind, call_llm_async.
  destruct (call_llm_async_returns cfg env (prompt_of pr b) (S (max_retries cfg - 0)) 0 g)
    as [r [g1 [E S1]]]; [lia|lia|].
  rewrite E.
  pose proof (call_llm_async_frame cfg env (prompt_of pr b) (S (max_retries cfg - 0)) 0 g)
    as F. rewrite E in F. cbn in F.
  assert (F1 : client_frame g g1) by (unfold client_frame; tauto).
  unfold batch_results. destruct r as [[|c text]|].
  - eexists. eexists. split; [reflexivity|exact F1].
  - destruct (extract_results_returns (task_of b) (c :: text) g1) as [r [g2 [E2 [F2 _]]]].
    rewrite E2. eexists. eexists. split; [reflexivity|].
    eapply client_frame_trans; eassumption.
  - eexists. eexists. split; [reflexivity|exact F1].
Qed.

Lemma batch_results_returns (t : task_type) (response : option pystr)
  (g : AsyncLLMGenerator) :
  exists r g', batch_results t response g = Done r g' /\ client_frame g g'
               /\ stats g' = stats g /\ posts (trace g') = posts (trace g).
Proof.
  unfold batch_results. destruct response as [[|c text]|].
  - exists None, g. split; [reflexivity|]. split; [apply client_frame_refl|]. split; reflexivity.
  - apply extract_results_returns.
  - exists None, g. split; [reflexivity|]. split; [apply client_frame_refl|]. split; reflexivity.
Qed.

(** A coroutine that can go on reaches its next suspension point: the
    slots it holds and the free slots still add up, and it is nearer to
    its end. *)
Lemma resume_step (cfg : Config) (env : Env) (pr : Prompts) (b : batch) (t : task)
  (g : AsyncLLMGenerator) :
  runnable g t = true ->
  exists t' g',
    resume cfg env pr b t g = Done t' g'
    /\ run_frame g g'
    /\ held t' + semaphore g' = held t + semaphore g
    /\ steps_left cfg t' < steps_left cfg t
    /\ (within_retries cfg t -> within_retries cfg t').
Proof.
  intros Hrun. destruct t as [k|k a|r]; cbn [runnable] in Hrun; [| |discriminate].
  - apply Nat.ltb_lt in Hrun. eexists. eexists. split; [reflexivity|].
    split; [unfold run_frame; cbn; tauto|].
    cbn [held steps_left within_retries entered semaphore] in *.
    split; [lia|]. split; [lia|tauto].
  - cbn [resume within_retries] in *.
    destruct (classify k a) as [content|m].
    + unfold bind.
      destruct (batch_results_returns (task_of b) (Some (strip content))
                  (released k (succeeded (responded a g)))) as [r [g2 [E [F _]]]].
      rewrite E. eexists. eexists. split; [reflexivity|].
      destruct F as (F1 & F2 & F3 & F4 & F5 & F6).
      split; [unfold run_frame; cbn in *; tauto|].
      cbn [held steps_left within_retries]. rewrite F6. cbn. split; [lia|]. split; [lia|tauto].
    + destruct (Nat.ltb_spec k (max_retries cfg)) as [Hlt|Hge].
      * eexists. eexists. split; [reflexivity|].
        split; [unfold run_frame; cbn; tauto|].
        cbn [held steps_left within_retries]. cbn. split; [lia|]. split; [lia|lia].
      * eexists. eexists. split; [reflexivity|].
        split; [unfold run_frame; cbn; tauto|].
        cbn [held steps_left within_retries]. cbn. split; [lia|]. split; [lia|tauto].
Qed.

(** The positions listed are those of the coroutines that can go on. *)
Lemma runnable_from_In (g : AsyncLLMGenerator) (tasks : list (batch * task)) :
  forall (s i : nat),
    In i (runnable_from g s tasks) ->
    exists pre b t post,
      tasks = pre ++ (b, t) :: post /\ i = s + length pre /\ runnable g t = true.
Proof.
  induction tasks as [|[b t] tasks IH]; intros s i H; [destruct H|].
  cbn [runnable_from] in H. apply in_app_or in H. destruct H as [H|H].
  - destruct (runnable g t) eqn:E; [|destruct H]. destruct H as [<-|[]].
    exists [], b, t, tasks. split; [reflexivity|]. split; [cbn; lia|exact E].
  - destruct (IH (S s) i H) as (pre & b' & t' & post & -> & -> & E).
    exists ((b, t) :: pre), b', t', post. split; [reflexivity|]. split; [cbn; lia|exact E].
Qed.

(** When no coroutine can go on, none is in a request, and those that
    have not returned wait while no slot is free. *)
Lemma runnable_from_nil (g : AsyncLLMGenerator) (tasks : list (batch * task)) :
  forall s,
    runnable_from g s tasks = [] ->
    Forall (fun bt => runnable g (snd bt) = false) tasks.
Proof.
  induction tasks as [|[b t] tasks IH]; intros s H; [constructor|].
  cbn [runnable_from] in H. apply app_eq_nil in H. destruct H as [H1 H2].
  constructor; [|apply (IH (S s)); exact H2].
  cbn [snd]. destruct (runnable g t); [discriminate|reflexivity].
Qed.

Lemma resume_nth_at (cfg : Config) (env : Env) (pr : Prompts)
  (pre post : list (batch * task)) (b : batch) (t : task) (g : AsyncLLMGenerator) :
  resume_nth cfg env pr (length pre) (pre ++ (b, t) :: post) g
  = match resume cfg env pr b t g with
    | Done t' g' => Done (pre ++ (b, t') :: post) g'
    | Blocked g' => Blocked g'
    | Running g' => Running g'
    end.
Proof.
  induction pre as [|[b0 t0] pre IH]; cbn [length app resume_nth].
  - unfold bind. destruct (resume cfg env pr b t g); reflexivity.
  - unfold bind at 1. rewrite IH. destruct (resume cfg env pr b t g); reflexivity.
Qed.

Lemma slots_held_app (a b : list (batch * task)) :
  slots_held (a ++ b) = slots_held a + slots_held b.
Proof. unfold slots_held. rewrite map_app, list_sum_app. reflexivity. Qed.

Lemma all_steps_left_app (cfg : Config) (a b : list (batch * task)) :
  all_steps_left cfg (a ++ b) = all_steps_left cfg a + all_steps_left cfg b.
Proof. unfold all_steps_left. rewrite map_app, list_sum_app. reflexivity. Qed.

Lemma slots_held_cons (b : batch) (t : task) (l : list (batch * task)) :
  slots_held ((b, t) :: l) = held t + slots_held l.
Proof. reflexivity. Qed.

Lemma all_steps_left_cons (cfg : Config) (b : batch) (t : task) (l : list (batch * task)) :
  all_steps_left cfg ((b, t) :: l) = steps_left cfg t + all_steps_left cfg l.
Proof. reflexivity. Qed.

Lemma results_of_some (tasks : list (batch * task)) (results : list (option (list json))) :
  results_of tasks = Some results ->
  map snd tasks = map Returned results.
Proof.
  revert results. induction tasks as [|[b t] tasks IH]; intros results H.
  - inversion H. reflexivity.
  - cbn [results_of] in H. destruct t as [k|k a|r]; try discriminate.
    destruct (results_of tasks) as [rs|]; [|discriminate]. inversion H. subst.
    cbn. rewrite (IH rs eq_refl). reflexivity.
Qed.

Lemma results_of_none (tasks : list (batch * task)) :
  results_of tasks = None ->
  exists pre b t post,
    tasks = pre ++ (b, t) :: post /\ (forall r, t <> Returned r).
Proof.
  induction tasks as [|[b t] tasks IH]; intros H; [discriminate|].
  cbn [results_of] in H. destruct t as [k|k a|r].
  - exists [], b, (Waiting k), tasks. split; [reflexivity|]. intros r; discriminate.
  - exists [], b, (Posted k a), tasks. split; [reflexivity|]. intros r; discriminate.
  - destruct (results_of tasks) as [rs|]; [discriminate|].
    destruct (IH eq_refl) as (pre & b' & t' & post & -> & Hn).
    exists ((b, Returned r) :: pre), b', t', post. split; [reflexivity|exact Hn].
Qed.

(** The position the schedule chooses is one of those offered. *)
Lemma chosen_In (n i : nat) (others : list nat) :
  In (nth (n mod length (i :: others)) (i :: others) i) (i :: others).
Proof.
  apply nth_In. apply Nat.mod_upper_bound. cbn. lia.
Qed.

(** Whatever the schedule, [asyncio.gather] ends within the steps it is
    given, returning or with every coroutine waiting, and what holds of
    the coroutines at their suspension points holds at the end. *)
Lemma gather_loop_inv (cfg : Config) (env : Env) (pr : Prompts)
  (Inv : list (batch * task) -> AsyncLLMGenerator -> Prop) :
  (forall pre b t post g t' g',
      Inv (pre ++ (b, t) :: post) g ->
      runnable g t = true ->
      resume cfg env pr b t g = Done t' g' ->
      Inv (pre ++ (b, t') :: post) g') ->
  forall (fuel origin step : nat) (tasks : list (batch * task)) (g : AsyncLLMGenerator),
    all_steps_left cfg tasks <= fuel ->
    Inv tasks g ->
    match gather_loop fuel cfg env pr origin step tasks g with
    | Done results g' =>
      exists tasks', Inv tasks' g' /\ results_of tasks' = Some results
    | Blocked g' =>
      exists tasks', Inv tasks' g' /\ results_of tasks' = None
                     /\ runnable_from g' 0 tasks' = []
    | Running _ => False
    end.
Proof.
  intros Hstep.
  induction fuel as [|fuel IH]; intros origin step tasks g Hfuel HI.
  - cbn [gather_loop]. destruct (results_of tasks) as [results|] eqn:Er.
    + exists tasks. split; [exact HI|exact Er].
    + exfalso. destruct (results_of_none tasks Er) as (pre & b & t & post & -> & Hn).
      rewrite all_steps_left_app, all_steps_left_cons in Hfuel.
      destruct t as [k|k a|r]; cbn [steps_left] in Hfuel;
        [lia|lia|apply (Hn r); reflexivity].
  - cbn [gather_loop]. destruct (results_of tasks) as [results|] eqn:Er.
    + exists tasks. split; [exact HI|exact Er].
    + destruct (runnable_from g 0 tasks) as [|i others] eqn:Erun.
      * exists tasks. split; [exact HI|]. split; [exact Er|exact Erun].
      * pose proof (chosen_In (schedule env origin step) i others) as Hin.
        set (chosen := nth (schedule env origin step mod length (i :: others))
                           (i :: others) i) in *.
        rewrite <- Erun in Hin.
        destruct (runnable_from_In g tasks 0 chosen Hin)
          as (pre & b & t & post & -> & Ec & Hrun).
        cbn [Nat.add] in Ec. rewrite Ec. unfold bind. rewrite resume_nth_at.
        destruct (resume_step cfg env pr b t g Hrun) as (t' & g' & E & _ & _ & Hlt & _).
        rewrite E. apply IH.
        -- rewrite all_steps_left_app, all_steps_left_cons in *. lia.
        -- eapply Hstep; eassumption.
Qed.

Lemma run_frame_refl (g : AsyncLLMGenerator) : run_frame g g.
Proof. unfold run_frame. tauto. Qed.

Lemma run_frame_trans (g1 g2 g3 : AsyncLLMGenerator) :
  run_frame g1 g2 -> run_frame g2 g3 -> run_frame g1 g3.
Proof. unfold run_frame. intuition congruence. Qed.

Lemma gather_accounts (cfg : Config) (env : Env) (pr : Prompts)
  (batches : list batch) (g0 : AsyncLLMGenerator) :
  forall pre b t post g t' g',
    accounted cfg batches g0 (pre ++ (b, t) :: post) g ->
    runnable g t = true ->
    resume cfg env pr b t g = Done t' g' ->
    accounted cfg batches g0 (pre ++ (b, t') :: post) g'.
Proof.
  intros pre b t post g t' g' (F & A & W & B) Hrun E.
  destruct (resume_step cfg env pr b t g Hrun) as (t2 & g2 & E2 & F2 & A2 & _ & W2).
  rewrite E in E2. inversion E2. subst t2 g2. clear E2.
  split; [eapply run_frame_trans; eassumption|].
  rewrite slots_held_app, slots_held_cons in *.
  split; [lia|]. split.
  - apply Forall_app in W. destruct W as [W1 W3]. inversion W3; subst.
    apply Forall_app. split; [exact W1|]. constructor; [apply W2; assumption|assumption].
  - rewrite map_app in *. exact B.
Qed.

Lemma accounted_start (cfg : Config) (batches : list batch) (g : AsyncLLMGenerator) :
  accounted cfg batches g (map (fun b => (b, Waiting 0)) batches) g
  /\ all_steps_left cfg (map (fun b => (b, Waiting 0)) batches)
     <= length batches * (2 * max_retries cfg + 2).
Proof.
  split; [split; [apply run_frame_refl|split; [|split]]|].
  - induction batches as [|b batches IH]; [reflexivity|].
    cbn [map]. rewrite slots_held_cons. cbn [held]. exact IH.
  - apply Forall_forall. intros bt Hin. apply in_map_iff in Hin.
    destruct Hin as [b [<- _]]. cbn. lia.
  - rewrite map_map. cbn. apply map_id.
  - induction batches as [|b batches IH]; [cbn; lia|].
    cbn [map length]. rewrite all_steps_left_cons. cbn [steps_left]. lia.
Qed.

Lemma slots_held_returned (tasks : list (batch * task))
  (results : list (option (list json))) :
  results_of tasks = Some results ->
  slots_held tasks = 0 /\ length results = length tasks.
Proof.
  revert results. induction tasks as [|[b t] tasks IH]; intros results H.
  - inversion H. split; reflexivity.
  - cbn [results_of] in H. destruct t as [k|k a|r]; try discriminate.
    destruct (results_of tasks) as [rs|]; [|discriminate]. inversion H. subst.
    destruct (IH rs eq_refl) as [I1 I2]. rewrite slots_held_cons. cbn. split; lia.
Qed.

(** When coroutines wait and none can go on, no slot is free, and each of
    them holds as many slots as it has made attempts. *)
Lemma all_waiting (cfg : Config) (g : AsyncLLMGenerator) (tasks : list (batch * task)) :
  runnable_from g 0 tasks = [] ->
  results_of tasks = None ->
  Forall (fun bt => within_retries cfg (snd bt)) tasks ->
  semaphore g = 0
  /\ slots_held tasks <= length tasks * max_retries cfg
  /\ Forall (fun bt => match snd bt with
                       | Posted _ _ => False
                       | _ => True
                       end) tasks.
Proof.
  intros Hrun Hres Hw. apply runnable_from_nil in Hrun.
  split; [|split].
  - destruct (results_of_none tasks Hres) as (pre & b & t & post & -> & Hn).
    apply Forall_app in Hrun. destruct Hrun as [_ Hrun]. inversion Hrun; subst.
    cbn [snd] in *. destruct t as [k|k a|r]; cbn [runnable] in *.
    + destruct (semaphore g); [reflexivity|discriminate].
    + discriminate.
    + exfalso. apply (Hn r). reflexivity.
  - clear Hres. induction tasks as [|[b t] tasks IH]; [cbn; lia|].
    inversion Hrun; subst. inversion Hw; subst. rewrite slots_held_cons.
    specialize (IH H2 H4). cbn [length snd] in *.
    destruct t as [k|k a|r]; cbn [held within_retries runnable] in *;
      [|discriminate|]; lia.
  - eapply Forall_impl; [|exact Hrun]. intros [b t]. cbn [snd].
    destruct t; cbn [runnable]; [tauto|discriminate|tauto].
Qed.

(** [asyncio.gather] ends, whatever the schedule: it returns one result
    for each coroutine with every slot free again, or every coroutine that
    has not returned waits for a slot while they hold them all. *)
Lemma gather_ends (cfg : Config) (env : Env) (pr : Prompts) (batches : list batch)
  (g : AsyncLLMGenerator) :
  match gather cfg env pr batches g with
  | Done results g' =>
    length results = length batches /\ run_frame g g' /\ semaphore g' = semaphore g
  | Blocked g' =>
    run_frame g g' /\ semaphore g' = 0
    /\ semaphore g <= length batches * max_retries cfg
  | Running _ => False
  end.
Proof.
  unfold gather. destruct (accounted_start cfg batches g) as [H0 H1].
  pose proof (gather_loop_inv cfg env pr (accounted cfg batches g)
                (gather_accounts cfg env pr batches g)
                (length batches * (2 * max_retries cfg + 2)) (length (trace g)) 0
                (map (fun b => (b, Waiting 0)) batches) g H1 H0) as H.
  destruct (gather_loop _ _ _ _ _ _ _ _) as [results g'|g'|g']; [| |exact H].
  - destruct H as [tasks' [(F & A & W & B) Er]].
    destruct (slots_held_returned tasks' results Er) as [S0 L].
    split; [|split; [exact F|lia]].
    rewrite L, <- (length_map fst), B. reflexivity.
  - destruct H as [tasks' [(F & A & W & B) [Er Erun]]].
    destruct (all_waiting cfg g' tasks' Erun Er W) as (Z & Hle & _).
    split; [exact F|]. split; [exact Z|].
    rewrite <- B, length_map. lia.
Qed.

Lemma classify_succeeds (k : nat) (a : attempt) :
  attempt_fails a = false -> exists content, classify k a = Success content.
Proof.
  unfold attempt_fails, classify.
  destruct a as [elapsed status [text| |]| |]; try discriminate.
  destruct (status =? 200)%Z; [|discriminate].
  destruct (json_loads text) as [result|]; [|discriminate].
  destruct (message_content result) as [content|]; [eauto|discriminate].
Qed.

Lemma gather_unfailing (cfg : Config) (env : Env) (pr : Prompts)
  (batches : list batch) (g0 : AsyncLLMGenerator) :
  (forall n, attempt_fails (llm env n) = false) ->
  forall pre b t post g t' g',
    accounted cfg batches g0 (pre ++ (b, t) :: post) g
    /\ unfailing (pre ++ (b, t) :: post) ->
    runnable g t = true ->
    resume cfg env pr b t g = Done t' g' ->
    accounted cfg batches g0 (pre ++ (b, t') :: post) g'
    /\ unfailing (pre ++ (b, t') :: post).
Proof.
  intros Hok pre b t post g t' g' [HA HU] Hrun E.
  split; [eapply gather_accounts; eassumption|].
  unfold unfailing in *. apply Forall_app in HU. destruct HU as [U1 U2].
  inversion U2 as [|? ? Ut U3]; subst. apply Forall_app. split; [exact U1|].
  constructor; [|exact U3]. cbn [snd] in *.
  destruct t as [k|k a|r]; cbn [resume] in E.
  - inversion E. subst. split; [reflexivity|apply Hok].
  - destruct Ut as [-> Ha]. destruct (classify_succeeds 0 a Ha) as [content Ec].
    rewrite Ec in E. unfold bind in E.
    destruct (batch_results _ _ _) as [r g2|g2|g2]; inversion E. exact I.
  - cbn [runnable] in Hrun. discriminate.
Qed.

(** [asyncio.gather] returns, whatever the schedule, when the slots are
    enough for every coroutine to make all its attempts, or when no
    attempt fails and there is a slot. *)
Lemma gather_returns (cfg : Config) (env : Env) (pr : Prompts) (batches : list batch)
  (g : AsyncLLMGenerator) :
  length batches * S (max_retries cfg) <= semaphore g
  \/ (0 < semaphore g /\ forall n, attempt_fails (llm env n) = false) ->
  exists results g',
    gather cfg env pr batches g = Done results g'
    /\ length results = length batches /\ run_frame g g'
    /\ semaphore g' = semaphore g.
Proof.
  intros H. pose proof (gather_ends cfg env pr batches g) as Hend.
  destruct (gather cfg env pr batches g) as [results g'|g'|g'] eqn:E;
    [eauto| |destruct Hend].
  exfalso. destruct H as [H|[Hpos Hok]].
  - destruct Hend as (_ & _ & Hle).
    destruct batches as [|b batches]; [|cbn [length] in *; nia].
    vm_compute in E. discriminate.
  - clear Hend. unfold gather in E. destruct (accounted_start cfg batches g) as [H0 H1].
    assert (U0 : unfailing (map (fun b => (b, Waiting 0)) batches)).
    { apply Forall_forall. intros bt Hin. apply in_map_iff in Hin.
      destruct Hin as [b [<- _]]. reflexivity. }
    pose proof (gather_loop_inv cfg env pr
                  (fun tasks g1 => accounted cfg batches g tasks g1 /\ unfailing tasks)
                  (gather_unfailing cfg env pr batches g Hok)
                  (length batches * (2 * max_retries cfg + 2)) (length (trace g)) 0
                  (map (fun b => (b, Waiting 0)) batches) g H1 (conj H0 U0)) as H.
    rewrite E in H. destruct H as [tasks' [[(F & A & W & B) U] [Er Erun]]].
    destruct (all_waiting cfg g' tasks' Erun Er W) as (Z & _ & NP).
    assert (S0 : slots_held tasks' = 0).
    { clear - U NP. induction tasks' as [|[b t] tasks IH]; [reflexivity|].
      inversion U; subst. inversion NP; subst. rewrite slots_held_cons, IH by assumption.
      cbn [snd] in *. destruct t as [k|k a|r]; cbn [held]; [lia|contradiction|reflexivity]. }
    lia.
Qed.

(** What the saving of the results leaves as it found it: everything but
    the two collections of classifications, their files and the trace.  The
    records of the tasks of each type are added to its collection, and the
    files stay in step with the store. *)
Lemma save_results_returns (env : Env) :
  forall (tasks : list (task_type * list pystr * batch))
         (results : list (option (list json))) (g : AsyncLLMGenerator),
    exists g',
      save_results env tasks results g = Done tt g'
      /\ data_progress (storage g') = data_progress (storage g)
      /\ data_entity (storage g') = data_entity (storage g)
      /\ should_stop g' = should_stop g /\ all_patents g' = all_patents g
      /\ all_entities g' = all_entities g /\ semaphore g' = semaphore g
      /\ stats g' = stats g /\ posts (trace g') = posts (trace g)
      /\ data_green (storage g') = data_green (storage g) ++ kept green tasks results
      /\ data_tech (storage g') = data_tech (storage g) ++ kept tech tasks results
      /\ session_id (storage g') = session_id (storage g)
      /\ (in_sync env (storage g) (disk g) -> in_sync env (storage g') (disk g')).
Proof.
  induction tasks as [|[[t ids] b] tasks IH]; intros results g.
  - exists g. cbn. rewrite !app_nil_r. tauto.
  - destruct results as [|result results];
      [exists g; cbn; rewrite !app_nil_r; tauto|].
    cbn [save_results kept]. unfold bind at 1.
    destruct result as [[|r rs]|].
    + cbn [ret]. destruct (IH results g) as [g' H]. exists g'.
      destruct (task_type_eqb green t), (task_type_eqb tech t); exact H.
    + destruct t.
      * unfold bind at 1. unfold store_append, logger, emit.
        pose proof (in_sync_append_data env green_classifications (r :: rs)
                      (storage g) (disk g)) as Hsync.
        destruct (append_data env green_classifications (r :: rs) (storage g) (disk g))
          as [st1 fs1] eqn:Ea.
        assert (Est : st1 = mkStorage (session_id (storage g))
                                      (data_green (storage g) ++ r :: rs)
                                      (data_tech (storage g)) (data_entity (storage g))
                                      (data_progress (storage g))).
        { unfold append_data in Ea. inversion Ea. reflexivity. }
        match goal with |- context [save_results env tasks results ?g1] =>
          destruct (IH results g1) as [g' H] end.
        exists g'. cbn [fst snd] in Hsync. subst st1. cbn in H. cbn [task_type_eqb].
        destruct H as (H1 & H2 & H3 & H4 & H5 & H6 & H7 & H8 & H9 & H10 & H11 & H12 & H13).
        rewrite <- !app_assoc in H10. cbn [app] in *.
        repeat (split; [assumption|]). tauto.
      * unfold bind at 1. unfold store_append, logger, emit.
        pose proof (in_sync_append_data env tech_classifications (r :: rs)
                      (storage g) (disk g)) as Hsync.
        destruct (append_data env tech_classifications (r :: rs) (storage g) (disk g))
          as [st1 fs1] eqn:Ea.
        assert (Est : st1 = mkStorage (session_id (storage g))
                                      (data_green (storage g))
                                      (data_tech (storage g) ++ r :: rs)
                                      (data_entity (storage g))
                                      (data_progress (storage g))).
        { unfold append_data in Ea. inversion Ea. reflexivity. }
        match goal with |- context [save_results env tasks results ?g1] =>
          destruct (IH results g1) as [g' H] end.
        exists g'. cbn [fst snd] in Hsync. subst st1. cbn in H. cbn [task_type_eqb].
        destruct H as (H1 & H2 & H3 & H4 & H5 & H6 & H7 & H8 & H9 & H10 & H11 & H12 & H13).
        rewrite <- !app_assoc in H11. cbn [app] in *.
        repeat (split; [assumption|]). tauto.
      * cbn [ret]. destruct (IH results g) as [g' H]. exists g'. exact H.
    + cbn [ret]. destruct (IH results g) as [g' H]. exists g'. exact H.
Qed.

Lemma str_equals_In (x : pystr) (l : list json) :
  existsb (str_equals x) l = true <-> In (JString x) l.
Proof.
  rewrite existsb_exists. split.
  - intros [j [Hin Heq]]. destruct j; try discriminate.
    apply str_eqb_eq in Heq. subst. exact Hin.
  - intros H. exists (JString x). split; [exact H|apply str_eqb_refl].
Qed.

Lemma is_patent_processed_marked (g : AsyncLLMGenerator) (patent_id : pystr) :
  is_patent_processed (storage g) patent_id = true <-> marked g patent_id.
Proof. apply str_equals_In. Qed.

Lemma chunks_upto_concat {A : Type} (size : nat) :
  0 < size ->
  forall (fuel : nat) (items : list A),
    length items <= fuel -> concat (chunks_upto fuel size items) = items.
Proof.
  intros Hsize. induction fuel as [|fuel IH]; intros items Hlen.
  - destruct items; [reflexivity|cbn in Hlen; lia].
  - destruct items as [|x items]; [reflexivity|].
    cbn [chunks_upto concat]. rewrite IH.
    + apply firstn_skipn.
    + rewrite length_skipn. cbn [length] in *. lia.
Qed.

Lemma chunks_concat {A : Type} (size : positive) (items : list A) :
  concat (chunks size items) = items.
Proof. apply chunks_upto_concat; lia. Qed.

(** Every fetched patent is in a chunk, so its key is among those of the
    tasks as soon as one task type is enabled. *)
Lemma all_patent_ids_complete (cfg : Config) (patents : list Patent) :
  enable_green_classification cfg || enable_tech_classification cfg = true ->
  forall p, In p patents -> In (patentId p) (all_patent_ids (patent_tasks cfg patents)).
Proof.
  intros Hen p Hp. unfold all_patent_ids, patent_tasks.
  rewrite <- (chunks_concat (batch_size cfg) patents) in Hp.
  apply in_concat in Hp. destruct Hp as [b [Hb Hpb]].
  apply in_flat_map.
  destruct (enable_green_classification cfg) eqn:Eg.
  - exists (green, map patentId b, GreenBatch b). split.
    + apply in_flat_map. exists b. split; [exact Hb|]. left. reflexivity.
    + cbn. apply in_map. exact Hpb.
  - destruct (enable_tech_classification cfg) eqn:Et; [|discriminate].
    exists (tech, map patentId b, TechBatch b). split.
    + apply in_flat_map. exists b. split; [exact Hb|]. left. reflexivity.
    + cbn. apply in_map. exact Hpb.
Qed.

(** Without an enabled task type there is no task at all. *)
Lemma patent_tasks_disabled (cfg : Config) (patents : list Patent) :
  enable_green_classification cfg = false ->
  enable_tech_classification cfg = false ->
  patent_tasks cfg patents = [].
Proof.
  intros Eg Et. unfold patent_tasks. rewrite Eg, Et.
  induction (chunks (batch_size cfg) patents) as [|b bs IH]; [reflexivity|exact IH].
Qed.

Lemma scan_unprocessed_In {A : Type} (processed : A -> bool) (limit : nat) :
  forall (all unprocessed : list A) (x : A),
    In x (scan_unprocessed processed limit all unprocessed) ->
    In x unprocessed \/ (In x all /\ processed x = false).
Proof.
  induction all as [|y all IH]; intros unprocessed x; cbn [scan_unprocessed].
  - auto.
  - destruct (processed y) eqn:Ey.
    + intros H. destruct (IH _ _ H) as [H1|[H1 H2]]; [auto|]. right. split; [right|]; assumption.
    + destruct (limit <=? length (unprocessed ++ [y])).
      * intros H. apply in_app_or in H. destruct H as [H|[H|[]]]; [auto|].
        subst. right. split; [left; reflexivity|exact Ey].
      * intros H. destruct (IH _ _ H) as [H1|[H1 H2]].
        -- apply in_app_or in H1. destruct H1 as [H1|[H1|[]]]; [auto|].
           subst. right. split; [left; reflexivity|exact Ey].
        -- right. split; [right|]; assumption.
Qed.

Lemma scan_unprocessed_none {A : Type} (processed : A -> bool) (limit : nat) :
  forall (all unprocessed : list A),
    (forall x, In x all -> processed x = true) ->
    scan_unprocessed processed limit all unprocessed = unprocessed.
Proof.
  induction all as [|y all IH]; intros unprocessed H; cbn [scan_unprocessed]; [reflexivity|].
  rewrite (H y (or_introl eq_refl)). apply IH. intros x Hx. apply H. right. exact Hx.
Qed.

(** The fetched patents are patents of the catalog that the ledger does
    not hold. *)
Lemma get_unprocessed_patents_fresh (g : AsyncLLMGenerator) (limit : nat) (p : Patent) :
  In p (get_unprocessed_patents g limit) ->
  In p (all_patents g) /\ ~ marked g (patentId p).
Proof.
  intros H. apply scan_unprocessed_In in H. destruct H as [[]|[H1 H2]].
  split; [exact H1|]. intros Hm. apply is_patent_processed_marked in Hm. congruence.
Qed.

(** A cycle whose gather returns runs to its end: the records of the
    results are appended to the collections of their task types, the keys
    of the tasks are added to the ledger and written to the progress
    file, and the slots are free again. *)
Lemma patents_cycle_done (cfg : Config) (env : Env) (pr : Prompts)
  (patents : list Patent) (g : AsyncLLMGenerator)
  (results : list (option (list json))) (g2 : AsyncLLMGenerator) :
  gather cfg env pr (map snd (patent_tasks cfg patents))
         (set_trace (EvLog INFO (MsgPatentsFetched (length patents)) :: trace g) g)
  = Done results g2 ->
  exists g1,
    patents_cycle cfg env pr patents g = Done tt g1
    /\ processed_patents (data_progress (storage g1))
       = processed_patents (data_progress (storage g))
           ++ map JString (set_order env (all_patent_ids (patent_tasks cfg patents)))
    /\ processed_entities (data_progress (storage g1))
       = processed_entities (data_progress (storage g))
    /\ should_stop g1 = should_stop g /\ all_patents g1 = all_patents g
    /\ all_entities g1 = all_entities g /\ semaphore g1 = semaphore g
    /\ data_green (storage g1)
       = data_green (storage g) ++ kept green (patent_tasks cfg patents) results
    /\ data_tech (storage g1)
       = data_tech (storage g) ++ kept tech (patent_tasks cfg patents) results
    /\ data_entity (storage g1) = data_entity (storage g)
    /\ (in_sync env (storage g) (disk g) -> in_sync env (storage g1) (disk g1))
    /\ (dumpable env (dump (storage g1) progress) = true ->
        disk g1 (File progress) = Some (Text (dump (storage g1) progress))).
Proof.
  intros E2. unfold patents_cycle. unfold bind at 1. unfold logger, emit.
  pose proof (gather_ends cfg env pr (map snd (patent_tasks cfg patents))
                (set_trace (EvLog INFO (MsgPatentsFetched (length patents)) :: trace g) g))
    as Hend.
  rewrite E2 in Hend. destruct Hend as (_ & F2 & S2).
  unfold bind at 1. rewrite E2. unfold bind at 1.
  destruct (save_results_returns env (patent_tasks cfg patents) results g2)
    as [g3 [E3 F3]].
  rewrite E3. unfold bind at 1. unfold store_mark_patents.
  pose proof (in_sync_mark_patents env (now env (length (trace g3)))
                (set_order env (all_patent_ids (patent_tasks cfg patents)))
                (storage g3) (disk g3)) as Hsync.
  pose proof (save_json_file env
                (fst (mark_processed_patents env (now env (length (trace g3)))
                        (set_order env (all_patent_ids (patent_tasks cfg patents)))
                        (storage g3) (disk g3))) progress (disk g3)) as Hfile.
  unfold mark_processed_patents in *. cbn [fst snd] in *.
  unfold sleep, emit. eexists.
  split; [reflexivity|].
  destruct F2 as (Fs & Fd & Fst & Fp & Fe).
  destruct F3 as (Gp & Ge & Gst & Gap & Gae & Gsem & _ & _ & Gg & Gt & Gsid & Gsync).
  cbn [storage set_storage set_trace data_progress processed_patents processed_entities
       should_stop all_patents all_entities semaphore data_green data_tech data_entity
       set_progress disk] in *.
  split; [rewrite Gp, Fs; reflexivity|]. split; [rewrite Gp, Fs; reflexivity|].
  split; [rewrite Gst, Fst; reflexivity|]. split; [rewrite Gap, Fp; reflexivity|].
  split; [rewrite Gae, Fe; reflexivity|]. split; [rewrite Gsem, S2; reflexivity|].
  split; [rewrite Gg, Fs; reflexivity|]. split; [rewrite Gt, Fs; reflexivity|].
  split; [rewrite Ge, Fs; reflexivity|]. split.
  - intros H0. apply Hsync, Gsync. rewrite Fs, Fd. exact H0.
  - intros Hd. apply Hfile. exact Hd.
Qed.


(** With slots enough, or answers that do not fail, a cycle runs to its
    end. *)
Lemma patents_cycle_returns (cfg : Config) (env : Env) (pr : Prompts)
  (patents : list Patent) (g : AsyncLLMGenerator) :
  length (patent_tasks cfg patents) * S (max_retries cfg) <= semaphore g
  \/ (0 < semaphore g /\ forall n, attempt_fails (llm env n) = false) ->
  exists results g2 g1,
    gather cfg env pr (map snd (patent_tasks cfg patents))
           (set_trace (EvLog INFO (MsgPatentsFetched (length patents)) :: trace g) g)
    = Done results g2
    /\ patents_cycle cfg env pr patents g = Done tt g1
    /\ processed_patents (data_progress (storage g1))
       = processed_patents (data_progress (storage g))
           ++ map JString (set_order env (all_patent_ids (patent_tasks cfg patents)))
    /\ processed_entities (data_progress (storage g1))
       = processed_entities (data_progress (storage g))
    /\ should_stop g1 = should_stop g /\ all_patents g1 = all_patents g
    /\ all_entities g1 = all_entities g /\ semaphore g1 = semaphore g
    /\ data_green (storage g1)
       = data_green (storage g) ++ kept green (patent_tasks cfg patents) results
    /\ data_tech (storage g1)
       = data_tech (storage g) ++ kept tech (patent_tasks cfg patents) results
    /\ data_entity (storage g1) = data_entity (storage g)
    /\ (in_sync env (storage g) (disk g) -> in_sync env (storage g1) (disk g1))
    /\ (dumpable env (dump (storage g1) progress) = true ->
        disk g1 (File progress) = Some (Text (dump (storage g1) progress))).
Proof.
  intros Hsem.
  destruct (gather_returns cfg env pr (map snd (patent_tasks cfg patents))
              (set_trace (EvLog INFO (MsgPatentsFetched (length patents)) :: trace g) g))
    as [results [g2 [E2 _]]].
  { rewrite length_map. exact Hsem. }
  destruct (patents_cycle_done cfg env pr patents g results g2 E2) as [g1 H].
  exists results, g2, g1. split; [exact E2|exact H].
Qed.

(** When a task type is enabled, a cycle that returns has added the key of
    every fetched patent to the ledger exactly once, and no later fetch
    returns a patent with such a key. *)
Lemma patents_cycle_marks_once (cfg : Config) (env : Env) (pr : Prompts)
  (g : AsyncLLMGenerator) (limit : nat) :
  set_order_ok env ->
  enable_green_classification cfg || enable_tech_classification cfg = true ->
  length (patent_tasks cfg (get_unprocessed_patents g limit)) * S (max_retries cfg)
  <= semaphore g
  \/ (0 < semaphore g /\ forall n, attempt_fails (llm env n) = false) ->
  exists g1 news,
    patents_cycle cfg env pr (get_unprocessed_patents g limit) g = Done tt g1
    /\ processed_patents (data_progress (storage g1))
       = processed_patents (data_progress (storage g)) ++ map JString news
    /\ NoDup news
    /\ (forall p, In p (get_unprocessed_patents g limit) ->
                  In (patentId p) news /\ ~ marked g (patentId p))
    /\ (forall p p' limit',
           In p (get_unprocessed_patents g limit) ->
           In p' (get_unprocessed_patents g1 limit') ->
           patentId p' <> patentId p).
Proof.
  intros Hset Hen Hsem.
  destruct (patents_cycle_returns cfg env pr (get_unprocessed_patents g limit) g Hsem)
    as [results [g2 [g1 [_ [E [L _]]]]]].
  exists g1, (set_order env (all_patent_ids (patent_tasks cfg (get_unprocessed_patents g limit)))).
  destruct (Hset (all_patent_ids (patent_tasks cfg (get_unprocessed_patents g limit))))
    as [Hnd Hin].
  split; [exact E|]. split; [exact L|]. split; [exact Hnd|]. split.
  - intros p Hp. split.
    + apply Hin. apply all_patent_ids_complete; assumption.
    + apply (get_unprocessed_patents_fresh g limit p Hp).
  - intros p p' limit' Hp Hp' Heq.
    apply get_unprocessed_patents_fresh in Hp'. destruct Hp' as [_ Hnot].
    apply Hnot. unfold marked. rewrite L. apply in_or_app. right.
    apply in_map. rewrite Heq. apply Hin. apply all_patent_ids_complete; assumption.
Qed.

(** A filter that lets through less, and stops one element more, keeps
    strictly fewer elements. *)
Lemma filter_length_lt {A : Type} (f f1 : A -> bool) (l : list A) (x : A) :
  (forall y, f1 y = true -> f y = true) ->
  In x l -> f x = true -> f1 x = false ->
  length (filter f1 l) < length (filter f l).
Proof.
  intros Hsub. induction l as [|y l IH]; intros Hin Hx Hx1; [destruct Hin|].
  assert (Hle : forall l', length (filter f1 l') <= length (filter f l')).
  { induction l' as [|z l' IH']; [cbn; lia|]. cbn.
    destruct (f1 z) eqn:E1.
    - rewrite (Hsub z E1). cbn. lia.
    - destruct (f z); cbn; lia. }
  cbn. destruct Hin as [->|Hin].
  - rewrite Hx, Hx1. cbn. specialize (Hle l). lia.
  - specialize (IH Hin Hx Hx1). destruct (f1 y) eqn:E1.
    + rewrite (Hsub y E1). cbn. lia.
    + destruct (f y); cbn; lia.
Qed.

(** A fetch from a catalog with a pending patent is not empty. *)
Lemma scan_unprocessed_nonempty {A : Type} (processed : A -> bool) (limit : nat) :
  forall (all unprocessed : list A),
    scan_unprocessed processed limit all unprocessed = [] ->
    unprocessed = [] /\ forall x, In x all -> processed x = true.
Proof.
  induction all as [|y all IH]; intros unprocessed; cbn [scan_unprocessed].
  - intros ->. split; [reflexivity|intros x []].
  - destruct (processed y) eqn:Ey.
    + intros H. destruct (IH _ H) as [H1 H2]. split; [exact H1|].
      intros x [<-|Hx]; [exact Ey|apply H2; exact Hx].
    + destruct (limit <=? length (unprocessed ++ [y])).
      * intros H. destruct unprocessed; discriminate.
      * intros H. destruct (IH _ H) as [H1 _]. destruct unprocessed; discriminate.
Qed.

(** The patent loop ends: when a task type is enabled, no attempt fails
    and there is a slot, one iteration for each pending patent, and one
    more, are enough for it to return, whatever the schedule. *)
Lemma process_patents_async_returns (cfg : Config) (env : Env) (pr : Prompts) :
  set_order_ok env ->
  enable_green_classification cfg || enable_tech_classification cfg = true ->
  (forall n, attempt_fails (llm env n) = false) ->
  forall (n : nat) (g : AsyncLLMGenerator),
    0 < semaphore g ->
    length (pending g) <= n ->
    exists g', process_patents_async (S n) cfg env pr g = Done tt g'.
Proof.
  intros Hset Hen Hok. induction n as [|n IH]; intros g Hsem Hpend.
  - cbn [process_patents_async]. destruct (should_stop g); [eauto|].
    destruct (get_unprocessed_patents g _) as [|p ps] eqn:Ef; [unfold logger, emit; eauto|].
    exfalso.
    assert (Hp : In p (get_unprocessed_patents g
                         (Pos.to_nat (batch_size cfg) * max_concurrent_requests cfg)))
      by (rewrite Ef; left; reflexivity).
    apply scan_unprocessed_In in Hp. destruct Hp as [[]|[Hin Hnp]].
    assert (Hf : In p (pending g)).
    { unfold pending. apply filter_In. split; [exact Hin|]. rewrite Hnp. reflexivity. }
    destruct (pending g); [destruct Hf|cbn in Hpend; lia].
  - cbn [process_patents_async]. destruct (should_stop g); [eauto|].
    destruct (get_unprocessed_patents g _) as [|p ps] eqn:Ef; [unfold logger, emit; eauto|].
    rewrite <- Ef. unfold bind at 1.
    destruct (patents_cycle_returns cfg env pr
                (get_unprocessed_patents g
                   (Pos.to_nat (batch_size cfg) * max_concurrent_requests cfg)) g
                (or_intror (conj Hsem Hok)))
      as [results [g2 [g1 [_ [E [L [_ [_ [Hall [_ [Hs1 _]]]]]]]]]]].
    rewrite E. unfold bind at 1. unfold deliver_signal.
    assert (Hp : In p (get_unprocessed_patents g
                         (Pos.to_nat (batch_size cfg) * max_concurrent_requests cfg)))
      by (rewrite Ef; left; reflexivity).
    assert (Hlt : length (pending g1) < length (pending g)).
    { pose proof Hp as Hp'. apply scan_unprocessed_In in Hp'.
      destruct Hp' as [[]|[Hin Hnp]].
      unfold pending. rewrite Hall.
      apply (filter_length_lt _ _ _ p).
      - intros y Hy. apply negb_true_iff in Hy. apply negb_true_iff.
        destruct (is_patent_processed (storage g) (patentId y)) eqn:Ey; [|reflexivity].
        apply str_equals_In in Ey.
        assert (Hy1 : is_patent_processed (storage g1) (patentId y) = true).
        { apply str_equals_In. rewrite L. apply in_or_app. left. exact Ey. }
        congruence.
      - exact Hin.
      - rewrite Hnp. reflexivity.
      - apply negb_false_iff. apply str_equals_In. rewrite L. apply in_or_app. right.
        apply in_map. apply (Hset _). apply all_patent_ids_complete; assumption. }
    destruct (signal env (length (trace g1))).
    + destruct (IH (signal_handler g1)) as [g' E'].
      * cbn. rewrite Hs1. exact Hsem.
      * change (pending (signal_handler g1)) with (pending g1). lia.
      * exists g'. exact E'.
    + destruct (IH g1) as [g' E'].
      * rewrite Hs1. exact Hsem.
      * lia.
      * exists g'. exact E'.
Qed.

(** With both classifications off, however long the patent loop runs it
    is still running, with an empty ledger and no request made. *)
Lemma disabled_cycle_loops :
  forall (fuel : nat) (g : AsyncLLMGenerator),
    should_stop g = false ->
    all_patents g = [patent_1] ->
    processed_patents (data_progress (storage g)) = [] ->
    posts (trace g) = 0%N ->
    exists g',
      process_patents_async fuel locations_only_config env_down some_prompts g
      = Running g'
      /\ processed_patents (data_progress (storage g')) = []
      /\ posts (trace g') = 0%N.
Proof.
  induction fuel as [|fuel IH]; intros g Hstop Hall Hled Hposts.
  - exists g. cbn. tauto.
  - cbn [process_patents_async]. rewrite Hstop.
    assert (Hfetch : get_unprocessed_patents g
                       (Pos.to_nat (batch_size locations_only_config)
                        * max_concurrent_requests locations_only_config) = [patent_1]).
    { unfold get_unprocessed_patents. rewrite Hall. cbn [scan_unprocessed].
      unfold is_patent_processed. rewrite Hled. reflexivity. }
    rewrite Hfetch. unfold bind at 1.
    unfold patents_cycle.
    rewrite (patent_tasks_disabled locations_only_config [patent_1] eq_refl eq_refl).
    cbn [map gather all_patent_ids flat_map save_results].
    unfold bind, logger, emit, ret, store_mark_patents, mark_processed_patents, sleep,
      emit, deliver_signal.
    cbn [fst snd env_down signal set_order nodup map trace set_trace set_storage
           length].
    apply IH.
    + exact Hstop.
    + exact Hall.
    + cbn. rewrite Hled. reflexivity.
    + cbn. exact Hposts.
Qed.

(** C2.  The keys marked at the end of a cycle are collected from the
    tasks, not from the fetched patents.  With both classifications
    switched off no task is built: the cycle ends with the ledger as
    empty as before, the next fetch returns the same patent again, and the
    loop never ends (and never reaches the entity loop, whose own
    disabled case [process_entities_async] handles by returning at
    once). *)
Theorem C2_no_task_enabled_nothing_marked :
  (exists g1,
      get_unprocessed_patents (idle 5 [patent_1]) 50 = [patent_1]
      /\ patents_cycle locations_only_config env_down some_prompts [patent_1]
                       (idle 5 [patent_1]) = Done tt g1
      /\ processed_patents (data_progress (storage g1)) = []
      /\ get_unprocessed_patents g1 50 = [patent_1])
  /\ (forall fuel, exists g',
         process_patents_async fuel locations_only_config env_down some_prompts
                               (idle 5 [patent_1]) = Running g'
         /\ processed_patents (data_progress (storage g')) = []
         /\ posts (trace g') = 0%N).
Proof.
  split.
  - eexists. split; [vm_compute; reflexivity|].
    split; [vm_compute; reflexivity|]. split; vm_compute; reflexivity.
  - intros fuel. apply disabled_cycle_loops; reflexivity.
Qed.






Lemma keeps_flag_bind {A B : Type} (m : M A) (k : A -> M B) :
  keeps_flag m -> (forall a, keeps_flag (k a)) -> keeps_flag (bind m k).
Proof.
  intros Hm Hk g H. unfold bind. specialize (Hm g H).
  destruct (m g) as [a g1|g1|g1]; cbn [state_of] in *; [|exact Hm|exact Hm].
  apply (Hk a g1). exact Hm.
Qed.

Lemma leaves_keeps_flag {A : Type} (op : M A) : leaves_flag op -> keeps_flag op.
Proof. intros H g Hg. rewrite (H g). exact Hg. Qed.





















(** The API that is down, the configuration of [config.py] and one
    patent: the two calls of the cycle take the five slots between them
    (two each for their first two attempts, the fifth for one third
    attempt) and then wait for each other for ever. *)
Example gather_starves_when_api_down :
  exists g',
    patents_cycle default_config env_down some_prompts [patent_1] (idle 5 [patent_1])
    = Blocked g'
    /\ semaphore g' = 0 /\ posts (trace g') = 5%N
    /\ processed_patents (data_progress (storage g')) = [].
Proof.
  eexists. split; [vm_compute; reflexivity|]. split; [reflexivity|].
  split; reflexivity.
Qed.

(** A gather of one coroutine is that coroutine awaited alone: the same
    result and the same generator, after two failures and a success,
    after a success, after four failures, and left waiting with one
    slot. *)
Example gather_of_one_call :
  (exists r g',
      process_batch_async default_config env_two_failures some_prompts
                          (GreenBatch [patent_1]) (idle 5 [patent_1]) = Done r g'
      /\ gather default_config env_two_failures some_prompts [GreenBatch [patent_1]]
                (idle 5 [patent_1]) = Done [r] g')
  /\ (exists r g',
      process_batch_async default_config env_interrupted some_prompts
                          (GreenBatch [patent_1]) (idle 5 [patent_1]) = Done r g'
      /\ gather default_config env_interrupted some_prompts [GreenBatch [patent_1]]
                (idle 5 [patent_1]) = Done [r] g')
  /\ (exists r g',
      process_batch_async default_config env_down some_prompts
                          (GreenBatch [patent_1]) (idle 5 [patent_1]) = Done r g'
      /\ gather default_config env_down some_prompts [GreenBatch [patent_1]]
                (idle 5 [patent_1]) = Done [r] g')
  /\ (exists g',
      process_batch_async one_slot_config env_down some_prompts
                          (GreenBatch [patent_1]) (idle 1 [patent_1]) = Blocked g'
      /\ gather one_slot_config env_down some_prompts [GreenBatch [patent_1]]
                (idle 1 [patent_1]) = Blocked g').
Proof.
  split; [|split; [|split]].
  - eexists. eexists. split; vm_compute; reflexivity.
  - eexists. eexists. split; vm_compute; reflexivity.
  - eexists. eexists. split; vm_compute; reflexivity.
  - eexists. split; vm_compute; reflexivity.
Qed.

(** The progress dict read back from the document written for it. *)
Lemma as_progress_dump (p : Progress) : as_progress (dump_progress p) = Some p.
Proof. destruct p as [pp pe [sid|] [lu|]]; reflexivity. Qed.

(** Two progress dicts with the same document are the same. *)
Lemma dump_progress_inj (p q : Progress) : dump_progress p = dump_progress q -> p = q.
Proof.
  intros H. apply (f_equal as_progress) in H. rewrite !as_progress_dump in H.
  inversion H. reflexivity.
Qed.

(** The value loaded for a kind whose file the store has written, or has
    not written yet. *)
Lemma load_persisted (st : JSONStorage) (fs : filesystem) (dt : data_type) :
  persisted st fs ->
  exists logs, _load_json (session_id st) fs dt = (dump st dt, logs)
               /\ posts (rev logs) = 0%N.
Proof.
  intros H. destruct (H dt) as [E|[E D]]; unfold _load_json; rewrite E.
  - destruct dt; eexists; (split; reflexivity).
  - rewrite D. exists []. split; reflexivity.
Qed.

(** The requests of two traces put together. *)
Lemma posts_app (a b : list event) : posts (a ++ b) = (posts a + posts b)%N.
Proof.
  induction a as [|e a IH]; [reflexivity|].
  destruct e; cbn; rewrite IH; lia.
Qed.

(** A store is read back from the files it has written. *)
Lemma JSONStorage_init_persisted (fs : filesystem) (st : JSONStorage) :
  persisted st fs ->
  exists logs,
    JSONStorage_init (session_id st) fs = Some (st, logs) /\ posts (rev logs) = 0%N.
Proof.
  intros H. unfold JSONStorage_init.
  destruct (load_persisted st fs green_classifications H) as [lg [Eg Pg]].
  destruct (load_persisted st fs tech_classifications H) as [lt [Et Pt]].
  destruct (load_persisted st fs entity_locations H) as [le [Ee Pe]].
  destruct (load_persisted st fs progress H) as [lp [Ep Pp]].
  rewrite Eg, Et, Ee, Ep. cbn [dump as_records].
  replace (match dump_progress (data_progress st) with
           | JObject [] => Some (default_progress (session_id st))
           | _ => as_progress (dump_progress (data_progress st))
           end) with (Some (data_progress st)).
  - eexists. split.
    + f_equal. f_equal. destruct st. reflexivity.
    + rewrite !rev_app_distr, !posts_app, Pg, Pt, Pe, Pp. reflexivity.
  - rewrite as_progress_dump. reflexivity.
Qed.

(** A key of the ledger is found by the membership test. *)
Lemma str_equals_processed (l : list json) (x : pystr) :
  In (JString x) l -> existsb (str_equals x) l = true.
Proof. apply str_equals_In. Qed.

(** With every key in the ledger, a run makes no request and leaves the
    store and the files as they are. *)
Lemma generate_all_async_nothing_to_do (fuel : nat) (cfg : Config) (env : Env)
  (pr : Prompts) (g : AsyncLLMGenerator) :
  should_stop g = false ->
  (forall p, In p (all_patents g) -> marked g (patentId p)) ->
  (forall e, In e (all_entities g) ->
             In (JString (normalizedName e))
                (processed_entities (data_progress (storage g)))) ->
  exists g1,
    generate_all_async (S fuel) cfg env pr g = Done tt g1
    /\ posts (trace g1) = posts (trace g) /\ stats g1 = stats g
    /\ storage g1 = storage g /\ disk g1 = disk g.
Proof.
  intros Hstop Hp He.
  unfold generate_all_async. unfold bind at 1. unfold bind at 1.
  cbn [process_patents_async]. cbn [should_stop set_semaphore]. rewrite Hstop.
  unfold get_unprocessed_patents. rewrite scan_unprocessed_none.
  2:{ intros p Hin. apply str_equals_processed. apply Hp. exact Hin. }
  unfold logger, emit, process_entities_async.
  destruct (negb (enable_location_extraction cfg)).
  - eexists. split; [reflexivity|]. cbn. tauto.
  - cbn [entities_loop]. cbn [should_stop set_trace set_semaphore]. rewrite Hstop.
    unfold get_unprocessed_entities. rewrite scan_unprocessed_none.
    2:{ intros e Hin. apply str_equals_processed. apply He. exact Hin. }
    eexists. split; [reflexivity|]. cbn. tauto.
Qed.

(** C8.  A fresh process started on the session id of a store whose files
    are on disk, and whose ledger holds the key of every patent and the
    name of every entity of the catalog, reads that store back, and its
    run returns without a single request: no counter moves, and the store,
    hence the count of every kind of record, and the files are as they
    were. *)
Theorem C8_resumed_session_makes_no_call :
  forall (cfg : Config) (env : Env) (pr : Prompts) (fuel : nat)
         (patents : list Patent) (files_of : pystr -> filesystem) (st : JSONStorage),
    session_id st <> [] ->
    persisted st (files_of (session_id st)) ->
    (forall p, In p patents ->
               In (JString (patentId p)) (processed_patents (data_progress st))) ->
    (forall e, In e (_extract_entities_from_patents patents) ->
               In (JString (normalizedName e)) (processed_entities (data_progress st))) ->
    exists g0 g1,
      AsyncLLMGenerator_init env (Some (session_id st)) patents files_of = Some g0
      /\ storage g0 = st
      /\ generate_all_async (S fuel) cfg env pr g0 = Done tt g1
      /\ posts (trace g1) = 0%N
      /\ stats g1 = zero_stats
      /\ storage g1 = st
      /\ get_stats (storage g1) = get_stats st
      /\ disk g1 = files_of (session_id st).
Proof.
  intros cfg env pr fuel patents files_of st Hne Hfiles Hp He.
  destruct (JSONStorage_init_persisted (files_of (session_id st)) st Hfiles)
    as [logs [Einit Hlogs]].
  unfold AsyncLLMGenerator_init.
  destruct (session_id st) as [|c s] eqn:Es; [congruence|].
  rewrite Einit.
  set (g0 := mkGenerator st 0 false zero_stats patents
                         (_extract_entities_from_patents patents)
                         (files_of (c :: s)) (rev logs)).
  destruct (generate_all_async_nothing_to_do fuel cfg env pr g0 eq_refl Hp He)
    as [g1 [E [P [S1 [St D]]]]].
  exists g0, g1. split; [reflexivity|]. split; [reflexivity|].
  split; [exact E|]. split; [rewrite P; exact Hlogs|].
  split; [exact S1|]. split; [exact St|]. split; [rewrite St; reflexivity|exact D].
Qed.

(** The theorem on a session that has processed its one patent and has
    no file of technical classifications or locations yet. *)
Lemma C8_witness :
  exists g0 g1,
    AsyncLLMGenerator_init env_down (Some (u "s1")) [patent_1]
                           (fun _ => files_written finished_store) = Some g0
    /\ generate_all_async 1 default_config env_down some_prompts g0 = Done tt g1
    /\ posts (trace g1) = 0%N
    /\ get_stats (storage g1) = (1, 1, 1, 0, 0).
Proof.
  destruct (C8_resumed_session_makes_no_call
              default_config env_down some_prompts 0 [patent_1]
              (fun _ => files_written finished_store) finished_store)
    as [g0 [g1 [E0 [_ [E1 [P [_ [_ [G _]]]]]]]]].
  - vm_compute. discriminate.
  - intros dt. destruct dt; [left|right|right|left]; try reflexivity;
      split; reflexivity.
  - intros p [<-|[]]. left. reflexivity.
  - intros e H. vm_compute in H. destruct H as [<-|[]]. left. reflexivity.
  - exists g0, g1. split; [exact E0|]. split; [exact E1|]. split; [exact P|].
    rewrite G. reflexivity.
Defined.

End OrchestratorFacts.
Export OrchestratorFacts.

(* ===================================================================== *)
(** * The work catalog of entities *)
(* ===================================================================== *)

Module CatalogFacts.

(** [key in entities_dict] is membership among the keys. *)
Lemma dict_has_In (key : pystr) (d : list (pystr * Entity)) :
  dict_has key d = true <-> In key (map fst d).
Proof.
  unfold dict_has. rewrite existsb_exists, in_map_iff. split.
  - intros [kv [Hin Heq]]. apply str_eqb_eq in Heq. exists kv. split; [symmetry|]; assumption.
  - intros [kv [Heq Hin]]. exists kv. split; [exact Hin|]. apply str_eqb_eq. symmetry. exact Heq.
Qed.

(** The two nested loops visit the strings of [raw_names] in order. *)
Lemma extract_entities_fold (patents : list Patent) :
  _extract_entities_from_patents patents
  = map snd (fold_left add_entity (raw_names patents) []).
Proof.
  unfold _extract_entities_from_patents, raw_names. f_equal.
  generalize (@nil (pystr * Entity)).
  induction patents as [|p patents IH]; intros d; [reflexivity|].
  cbn [fold_left flat_map]. rewrite fold_left_app, fold_left_app. apply IH.
Qed.

(** A list without repetition stays so when a new element is put at its
    end. *)
Lemma NoDup_snoc {A : Type} (l : list A) (a : A) :
  NoDup l -> ~ In a l -> NoDup (l ++ [a]).
Proof.
  intros Hnd Hnot. apply NoDup_rev in Hnd.
  rewrite <- (rev_involutive (l ++ [a])). apply NoDup_rev.
  rewrite rev_app_distr. cbn. constructor; [|exact Hnd].
  rewrite <- in_rev. exact Hnot.
Qed.

(** A string that adds no entry keeps the invariant. *)
Lemma dict_invariant_keep (raws : list pystr) (x : pystr) (d : list (pystr * Entity)) :
  dict_invariant raws d ->
  (forall k, _normalize_entity_name x = Some k -> k <> [] -> In k (map fst d)) ->
  dict_invariant (raws ++ [x]) d.
Proof.
  intros (Hnd & Hent & Hall) Hx. split; [exact Hnd|]. split.
  - intros k e Hin. destruct (Hent k e Hin) as [Hn [before [after [Hr [Hk Hb]]]]].
    split; [exact Hn|]. exists before, (after ++ [x]).
    split; [rewrite Hr, <- app_assoc; reflexivity|]. split; assumption.
  - intros y k Hin Hk Hne. apply in_app_or in Hin. destruct Hin as [Hin|[<-|[]]].
    + eapply Hall; eassumption.
    + apply Hx; assumption.
Qed.

(** A string that adds an entry keeps the invariant. *)
Lemma dict_invariant_add (raws : list pystr) (x k : pystr) (d : list (pystr * Entity)) :
  dict_invariant raws d ->
  _normalize_entity_name x = Some k -> k <> [] -> dict_has k d = false ->
  dict_invariant (raws ++ [x]) (d ++ [(k, mkEntity k x (entity_type x))]).
Proof.
  intros (Hnd & Hent & Hall) Hk Hne Hhas.
  assert (Hnot : ~ In k (map fst d)).
  { intros H. apply dict_has_In in H. congruence. }
  split; [|split].
  - rewrite map_app. cbn. apply NoDup_snoc; assumption.
  - intros k0 e Hin. apply in_app_or in Hin. destruct Hin as [Hin|[Heq|[]]].
    + destruct (Hent k0 e Hin) as [Hn [before [after [Hr [Hk0 Hb]]]]].
      split; [exact Hn|]. exists before, (after ++ [x]).
      split; [rewrite Hr, <- app_assoc; reflexivity|]. split; assumption.
    + inversion Heq. subst k0 e. cbn. split; [reflexivity|].
      exists raws, []. split; [reflexivity|]. split; [exact Hk|].
      intros y Hy Hyk. apply Hnot. eapply Hall; eassumption.
  - intros y k0 Hin Hk0 Hne0. rewrite map_app. apply in_or_app.
    apply in_app_or in Hin. destruct Hin as [Hin|[<-|[]]].
    + left. eapply Hall; eassumption.
    + right. left. cbn. congruence.
Qed.

(** The invariant holds of the dict built from any list of strings. *)
Lemma dict_invariant_fold (raws : list pystr) :
  dict_invariant raws (fold_left add_entity raws []).
Proof.
  induction raws as [|x raws IH] using rev_ind.
  - split; [constructor|]. split; [intros k e []|intros x k []].
  - rewrite fold_left_app. cbn [fold_left].
    set (d := fold_left add_entity raws []) in *.
    unfold add_entity.
    destruct (_normalize_entity_name x) as [[|c k]|] eqn:En.
    + apply dict_invariant_keep; [exact IH|]. intros k Hk Hne. congruence.
    + destruct (dict_has (c :: k) d) eqn:Eh.
      * apply dict_invariant_keep; [exact IH|]. intros k0 Hk0 _.
        rewrite En in Hk0. inversion Hk0. subst k0. apply dict_has_In. exact Eh.
      * apply dict_invariant_add; [exact IH|exact En|discriminate|exact Eh].
    + apply dict_invariant_keep; [exact IH|]. intros k Hk. congruence.
Qed.

(** The normalized names of the entities are the keys of the dict. *)
Lemma map_fst_names (d : list (pystr * Entity)) :
  (forall k e, In (k, e) d -> normalizedName e = k) ->
  map normalizedName (map snd d) = map fst d.
Proof.
  induction d as [|[k e] d IH]; intros H; [reflexivity|].
  cbn. rewrite (H k e (or_introl eq_refl)). f_equal.
  apply IH. intros k0 e0 Hin. apply H. right. exact Hin.
Qed.

(** A fetch keeps the order of the catalog and repeats nothing. *)
Lemma scan_unprocessed_NoDup {A B : Type} (f : A -> B) (processed : A -> bool)
  (limit : nat) :
  forall (all unprocessed : list A),
    NoDup (map f (unprocessed ++ all)) ->
    NoDup (map f (scan_unprocessed processed limit all unprocessed)).
Proof.
  induction all as [|y all IH]; intros unprocessed H; cbn [scan_unprocessed].
  - rewrite app_nil_r in H. exact H.
  - destruct (processed y).
    + apply IH. rewrite map_app in *. cbn in H. apply NoDup_remove_1 in H. exact H.
    + assert (H' : NoDup (map f ((unprocessed ++ [y]) ++ all))).
      { rewrite <- app_assoc. exact H. }
      destruct (limit <=? length (unprocessed ++ [y])).
      * rewrite map_app in H'. apply NoDup_app_remove_r in H'. exact H'.
      * apply IH. exact H'.
Qed.

(** C10.  The entity work list has no two items with the same normalized
    name; each item was made from the first applicant or owner string, in
    the order the patents are visited, that normalizes to its name; and
    the entities fetched in a cycle, hence the batches submitted for
    location extraction in that cycle, name each normalized name at most
    once. *)
Theorem C10_one_work_item_per_normalized_name :
  forall (patents : list Patent),
    NoDup (map normalizedName (_extract_entities_from_patents patents))
    /\ (forall e, In e (_extract_entities_from_patents patents) ->
          exists before after,
            raw_names patents = before ++ name e :: after
            /\ _normalize_entity_name (name e) = Some (normalizedName e)
            /\ forall x, In x before ->
                         _normalize_entity_name x <> Some (normalizedName e))
    /\ (forall (g : AsyncLLMGenerator) (limit : nat),
          all_entities g = _extract_entities_from_patents patents ->
          NoDup (map normalizedName (get_unprocessed_entities g limit))
          /\ NoDup (flat_map (map normalizedName)
                             (chunks 10 (get_unprocessed_entities g limit)))).
Proof.
  intros patents.
  destruct (dict_invariant_fold (raw_names patents)) as (Hnd & Hent & _).
  assert (Hnames : NoDup (map normalizedName (_extract_entities_from_patents patents))).
  { rewrite extract_entities_fold, map_fst_names; [exact Hnd|].
    intros k e Hin. apply (Hent k e Hin). }
  split; [exact Hnames|]. split.
  - intros e He. rewrite extract_entities_fold in He.
    apply in_map_iff in He. destruct He as [[k e'] [Heq Hin]]. cbn in Heq. subst e'.
    destruct (Hent k e Hin) as [Hn [before [after H]]]. subst k.
    exists before, after. exact H.
  - intros g limit Hall.
    assert (Hf : NoDup (map normalizedName (get_unprocessed_entities g limit))).
    { unfold get_unprocessed_entities. apply scan_unprocessed_NoDup.
      cbn [app]. rewrite Hall. exact Hnames. }
    split; [exact Hf|].
    rewrite flat_map_concat_map, <- concat_map, chunks_concat. exact Hf.
Qed.

(** The theorem on two copies of a patent whose applicant and owner
    normalize to the same name. *)
Lemma C10_witness :
  all_entities (idle 5 [patent_1; patent_1])
  = _extract_entities_from_patents [patent_1; patent_1]
  /\ map normalizedName (get_unprocessed_entities (idle 5 [patent_1; patent_1]) 100)
     = [u "北京氢能"]
  /\ NoDup (map normalizedName (get_unprocessed_entities (idle 5 [patent_1; patent_1]) 100)).
Proof.
  split; [reflexivity|]. split; [vm_compute; reflexivity|].
  apply (proj2 (proj2 (C10_one_work_item_per_normalized_name [patent_1; patent_1]))
               (idle 5 [patent_1; patent_1]) 100 eq_refl).
Defined.

End CatalogFacts.
Export CatalogFacts.

(* ===================================================================== *)
(** * Facts about the store across restarts *)
(* ===================================================================== *)

Module RestartFacts.

(** X1.  [_save_json] cut short after any number of its file operations
    leaves the result file of the kind it saves as it was, or holding the
    whole new document, or absent: never a part of a document.  It leaves
    the result files and the temporary files of the other kinds as they
    were, and from its fourth operation on it is the whole save. *)
Theorem save_json_cut_short_leaves_no_partial_file :
  forall (env : Env) (n : nat) (self : JSONStorage) (dt : data_type) (fs : filesystem),
    let fs' := _save_json_upto env n self dt fs in
    (fs' (File dt) = fs (File dt)
     \/ fs' (File dt) = Some (Text (dump self dt))
     \/ fs' (File dt) = None)
    /\ (forall dt', dt' <> dt ->
          fs' (File dt') = fs (File dt') /\ fs' (Temp dt') = fs (Temp dt'))
    /\ (forall m, _save_json_upto env (4 + m) self dt fs = _save_json env self dt fs).
Proof.
  intros env n self dt fs fs'. split; [apply save_json_upto_states|]. split.
  - intros dt' Hne. apply save_json_upto_other. exact Hne.
  - intros m. apply save_json_upto_all.
Qed.

(** The save of the green classifications of [finished_store] cut after
    its third operation: the file is absent, the progress file is as it
    was. *)
Lemma save_json_cut_short_leaves_no_partial_file_witness :
  _save_json_upto env_down 3 finished_store green_classifications
                  (files_written finished_store) (File green_classifications) = None
  /\ _save_json_upto env_down 3 finished_store green_classifications
                     (files_written finished_store) (File progress)
     = files_written finished_store (File progress).
Proof.
  split; [reflexivity|].
  apply (proj1 (proj2 (save_json_cut_short_leaves_no_partial_file
                         env_down 3 finished_store green_classifications
                         (files_written finished_store)))).
  discriminate.
Defined.

(** A save that [json.dump] can make keeps the files those of the store. *)
Lemma persisted_save (env : Env) (self : JSONStorage) (st : JSONStorage)
  (dt : data_type) (fs : filesystem) :
  persisted st fs ->
  session_id self = session_id st ->
  (forall dt', dt' <> dt -> dump self dt' = dump st dt') ->
  dumpable env (dump self dt) = true ->
  persisted self (_save_json env self dt fs).
Proof.
  intros H Hsid Hother Hd dt'.
  destruct (data_type_eqb dt' dt) eqn:E.
  - apply data_type_eqb_eq in E. subst dt'. left. apply save_json_file. exact Hd.
  - assert (Hne : dt' <> dt).
    { intros ->. rewrite data_type_eqb_refl in E. discriminate. }
    rewrite (save_json_other env self dt dt' fs Hne), (Hother dt' Hne), Hsid.
    apply H.
Qed.

(** A save that [json.dump] cannot make leaves the files those of the
    store before the change. *)
Lemma persisted_save_failed (env : Env) (self : JSONStorage) (st : JSONStorage)
  (dt : data_type) (fs : filesystem) :
  persisted st fs ->
  dumpable env (dump self dt) = false ->
  persisted st (_save_json env self dt fs).
Proof.
  intros H Hd dt'.
  destruct (data_type_eqb dt' dt) eqn:E.
  - apply data_type_eqb_eq in E. subst dt'.
    rewrite (proj1 (save_json_failed env self dt fs Hd)). apply H.
  - assert (Hne : dt' <> dt).
    { intros ->. rewrite data_type_eqb_refl in E. discriminate. }
    rewrite (save_json_other env self dt dt' fs Hne). apply H.
Qed.

(** A save leaves no temporary file for what [json.dump] can write. *)
Lemma tidy_save (env : Env) (self st : JSONStorage) (dt : data_type)
  (fs : filesystem) :
  tidy env st fs ->
  (forall dt', dt' <> dt -> dump self dt' = dump st dt') ->
  tidy env self (_save_json env self dt fs).
Proof.
  intros H Hother dt' Hd.
  destruct (data_type_eqb dt' dt) eqn:E.
  - apply data_type_eqb_eq in E. subst dt'. apply save_json_file. exact Hd.
  - assert (Hne : dt' <> dt).
    { intros ->. rewrite data_type_eqb_refl in E. discriminate. }
    rewrite <- (save_json_upto_all env 0 self dt fs).
    rewrite (proj2 (save_json_upto_other env (4 + 0) self dt dt' fs Hne)).
    apply H. rewrite <- (Hother dt' Hne). exact Hd.
Qed.

(** Each mutator changes the collection of one kind and saves that
    kind. *)
Lemma mutate_is_save (env : Env) (m : mutation) (st : JSONStorage) (fs : filesystem) :
  exists self' dt,
    mutate env m st fs = (self', _save_json env self' dt fs)
    /\ session_id self' = session_id st
    /\ (forall dt', dt' <> dt -> dump self' dt' = dump st dt').
Proof.
  destruct m as [dt items|ts ids|ts names]; cbn [mutate].
  - unfold append_data. eexists. exists dt. split; [reflexivity|]. split.
    + destruct dt; try reflexivity.
      destruct (contains (u "patents") (py_str env items)); [reflexivity|].
      destruct (contains (u "entities") (py_str env items)); reflexivity.
    + intros dt' Hne.
      destruct dt, dt'; try reflexivity; try (exfalso; apply Hne; reflexivity);
        destruct (contains (u "patents") (py_str env items)); try reflexivity;
        destruct (contains (u "entities") (py_str env items)); reflexivity.
  - unfold mark_processed_patents. eexists. exists progress.
    split; [reflexivity|]. split; [reflexivity|].
    intros dt' Hne. destruct dt'; try reflexivity. exfalso. apply Hne. reflexivity.
  - unfold mark_processed_entities. eexists. exists progress.
    split; [reflexivity|]. split; [reflexivity|].
    intros dt' Hne. destruct dt'; try reflexivity. exfalso. apply Hne. reflexivity.
Qed.

(** After the calls of a history the files are in step with the store,
    without a temporary file for what [json.dump] can write. *)
Lemma in_sync_mutate_all (env : Env) (history : list mutation) :
  forall (st : JSONStorage) (fs : filesystem),
    in_sync env st fs -> tidy env st fs ->
    in_sync env (fst (mutate_all env history st fs)) (snd (mutate_all env history st fs))
    /\ tidy env (fst (mutate_all env history st fs)) (snd (mutate_all env history st fs))
    /\ session_id (fst (mutate_all env history st fs)) = session_id st.
Proof.
  induction history as [|m history IH]; intros st fs H Ht.
  - split; [exact H|]. split; [exact Ht|reflexivity].
  - unfold mutate_all. cbn [fold_left fst snd].
    destruct (mutate_is_save env m st fs) as (self' & dt & E & Hsid & Hother).
    rewrite E. cbn [fst snd].
    destruct (IH self' (_save_json env self' dt fs)
                 (in_sync_save env self' st dt fs H Hsid Hother)
                 (tidy_save env self' st dt fs Ht Hother)) as (H2 & T2 & S2).
    unfold mutate_all in H2, T2, S2.
    split; [exact H2|]. split; [exact T2|]. rewrite S2. exact Hsid.
Qed.

(** X2.  [JSONStorage.__init__] in an empty directory gives the empty store
    of the session.  After any sequence of calls of [append_data],
    [mark_processed_patents] and [mark_processed_entities] made on it,
    each run to its end, the file of every kind whose collection
    [json.dump] can write holds that collection (or is missing while the
    collection is still empty), and no temporary file is left for it.
    When [json.dump] can write all four, [JSONStorage.__init__] for the
    same session id reads back from the files exactly the store held in
    memory. *)
Theorem store_is_read_back_after_any_history :
  forall (env : Env) (sid : pystr) (history : list mutation),
    let st := fst (mutate_all env history (new_store sid) (fun _ => None)) in
    let fs := snd (mutate_all env history (new_store sid) (fun _ => None)) in
    (exists logs, JSONStorage_init sid (fun _ => None) = Some (new_store sid, logs))
    /\ (forall dt,
          dumpable env (dump st dt) = true ->
          (fs (File dt) = Some (Text (dump st dt))
           \/ (fs (File dt) = None /\ dump st dt = default_doc sid dt))
          /\ fs (Temp dt) = None)
    /\ ((forall dt, dumpable env (dump st dt) = true) ->
        exists logs, JSONStorage_init sid fs = Some (st, logs)).
Proof.
  intros env sid history st fs.
  assert (H0 : in_sync env (new_store sid) (fun _ => None)).
  { intros dt _. right. split; [reflexivity|]. destruct dt; reflexivity. }
  assert (T0 : tidy env (new_store sid) (fun _ => None)).
  { intros dt _. reflexivity. }
  destruct (in_sync_mutate_all env history _ _ H0 T0) as (H & Ht & Hsid).
  fold st in H, Ht, Hsid. fold fs in H, Ht. cbn [new_store session_id] in Hsid.
  split; [exists []; reflexivity|]. split.
  - intros dt Hd. split; [|apply Ht; exact Hd].
    destruct (H dt Hd) as [E|[E D]]; [left; exact E|right].
    split; [exact E|]. rewrite <- Hsid. exact D.
  - intros Hall.
    destruct (JSONStorage_init_persisted fs st
                (proj2 (persisted_in_sync env st fs) H Hall)) as [logs [E _]].
    exists logs. rewrite Hsid in E. exact E.
Qed.

(** The theorem on a session that saved one record and marked its
    patent. *)
Lemma store_is_read_back_after_any_history_witness :
  exists logs,
    JSONStorage_init (u "s1")
      (snd (mutate_all env_down
              [AppendData green_classifications [record_1];
               MarkPatents (u "2025-01-01T00:00:00") [u "CN1"]]
              (new_store (u "s1")) (fun _ => None)))
    = Some (fst (mutate_all env_down
                   [AppendData green_classifications [record_1];
                    MarkPatents (u "2025-01-01T00:00:00") [u "CN1"]]
                   (new_store (u "s1")) (fun _ => None)), logs).
Proof.
  apply (proj2 (proj2 (store_is_read_back_after_any_history env_down (u "s1")
                         [AppendData green_classifications [record_1];
                          MarkPatents (u "2025-01-01T00:00:00") [u "CN1"]]))).
  intros dt. destruct dt; vm_compute; reflexivity.
Defined.

(** A record that holds a lone surrogate, as [json.loads] makes one from
    an escape of the model's text, is in the store and in no file: the
    store opened again does not have it. *)
Example surrogate_record_is_lost_at_restart :
  let history := [AppendData green_classifications [JObject [(u "patent_id", JString [55357%N])]]] in
  let st := fst (mutate_all env_down history (new_store (u "s1")) (fun _ => None)) in
  let fs := snd (mutate_all env_down history (new_store (u "s1")) (fun _ => None)) in
  data_green st = [JObject [(u "patent_id", JString [55357%N])]]
  /\ fs (File green_classifications) = None
  /\ fs (Temp green_classifications) = Some Garbled
  /\ exists logs, JSONStorage_init (u "s1") fs = Some (new_store (u "s1"), logs).
Proof.
  cbv zeta. split; [vm_compute; reflexivity|]. split; [vm_compute; reflexivity|].
  split; [vm_compute; reflexivity|]. eexists. vm_compute. reflexivity.
Qed.

End RestartFacts.

(* ===================================================================== *)
(** * Facts about the retries of the client *)
(* ===================================================================== *)

Module RetryFacts.

Lemma classify_fails (k : nat) (a : attempt) :
  attempt_fails a = match classify k a with Failure _ => true | Success _ => false end.
Proof.
  unfold attempt_fails, classify.
  destruct a as [elapsed status [text| |]| |]; reflexivity.
Qed.

Lemma backoff_step (cfg : Config) (k m : nat) :
  backoff cfg k (S m)
  = backoff cfg (k + 1) m ++ [(retry_delay cfg * inject_Z (Z.of_nat (k + 1)))%Q].
Proof.
  unfold backoff. cbn [seq map rev].
  replace (k + 1 + 1) with (S (k + 1)) by lia. reflexivity.
Qed.

(** What an attempt adds to the counters and to the trace once it is
    answered. *)
Lemma answered_counters (env : Env) (prompt : pystr) (g : AsyncLLMGenerator) :
  let a := llm env (length (trace g)) in
  let g1 := answered prompt a g in
  total_requests (stats g1) = (total_requests (stats g) + 1)%N
  /\ failed_requests (stats g1) = failed_requests (stats g)
  /\ retries (stats g1) = retries (stats g)
  /\ successful_requests (stats g1)
     = (successful_requests (stats g) + if decoded a then 1 else 0)%N
  /\ trace g1 = EvPost prompt :: trace g
  /\ posts (trace g1) = (posts (trace g) + 1)%N
  /\ decoded_posts env (trace g1)
     = (decoded_posts env (trace g) + if decoded a then 1 else 0)%N.
Proof.
  cbv zeta. unfold answered, responded.
  destruct (respond_counters (llm env (length (trace g))) (stats (entered prompt g)))
    as (R1 & R2 & R3 & R4 & _).
  cbn [stats set_stats trace]. rewrite R1, R2, R3, R4. cbn. tauto.
Qed.

(** An attempt whose content is returned had its body decoded. *)
Lemma classify_success_decoded (k : nat) (a : attempt) (content : pystr) :
  classify k a = Success content -> decoded a = true.
Proof.
  unfold classify, decoded.
  destruct a as [elapsed status [text| |]| |]; try discriminate.
  destruct (status =? 200)%Z; [|discriminate].
  destruct (json_loads text); [reflexivity|discriminate].
Qed.

Lemma call_llm_async_rec_counters (cfg : Config) (env : Env) (prompt : pystr) :
  forall fuel k g,
  max_retries cfg - k < fuel ->
  let o := call_llm_async_rec fuel cfg env prompt k g in
  let s := stats g in
  let s' := stats (state_of o) in
  (total_requests s' + posts (trace g)
   = total_requests s + posts (trace (state_of o)))%N
  /\ (successful_requests s' + decoded_posts env (trace g)
      = successful_requests s + decoded_posts env (trace (state_of o)))%N
  /\ match o with
     | Done (Some _) _ =>
       (total_requests s' + failed_requests s + retries s
        = total_requests s + failed_requests s' + retries s' + 1)%N
       /\ failed_requests s' = failed_requests s
       /\ (successful_requests s < successful_requests s')%N
     | Done None _ =>
       (total_requests s' + failed_requests s + retries s
        = total_requests s + failed_requests s' + retries s')%N
       /\ failed_requests s' = (failed_requests s + 1)%N
     | Blocked _ =>
       (total_requests s' + failed_requests s + retries s
        = total_requests s + failed_requests s' + retries s')%N
       /\ failed_requests s' = failed_requests s
     | Running _ => False
     end.
Proof.
  induction fuel as [|fuel IH]; intros k g Hfuel; [lia|].
  cbv zeta. rewrite call_llm_async_step.
  destruct (semaphore g) as [|n] eqn:En; [cbn; repeat split; lia|].
  cbv zeta.
  destruct (answered_counters env prompt g) as (T1 & T2 & T3 & T4 & T5 & T6 & T7).
  cbv zeta in T1, T2, T3, T4, T5, T6, T7.
  set (a := llm env (length (trace g))) in *.
  destruct (classify k a) as [content|m] eqn:Ec.
  - apply classify_success_decoded in Ec. rewrite Ec in T4, T7.
    cbn [state_of succeeded set_semaphore stats trace].
    rewrite T1, T2, T3, T4, T6, T7. repeat split; lia.
  - destruct (Nat.ltb_spec k (max_retries cfg)) as [Hlt|Hge].
    + specialize (IH (k + 1) (backing_off cfg k m (answered prompt a g))).
      cbv zeta in IH.
      assert (Hb : stats (backing_off cfg k m (answered prompt a g))
                   = incr_retries (stats (answered prompt a g))
                   /\ posts (trace (backing_off cfg k m (answered prompt a g)))
                      = posts (trace (answered prompt a g))
                   /\ decoded_posts env (trace (backing_off cfg k m (answered prompt a g)))
                      = decoded_posts env (trace (answered prompt a g))).
      { split; [reflexivity|]. split; reflexivity. }
      destruct Hb as (B1 & B2 & B3). rewrite B1, B2, B3 in IH.
      cbn [incr_retries total_requests successful_requests failed_requests retries] in IH.
      rewrite T1, T2, T3, T4, T6, T7 in IH.
      destruct (call_llm_async_rec fuel cfg env prompt (k + 1) _) as [[r|] g3|g3|g3];
        cbn [state_of set_semaphore stats trace] in *;
        (destruct IH as (I1 & I2 & I3); [lia|]);
        destruct (decoded a); repeat split; try lia; try tauto.
    + cbn [state_of given_up set_semaphore set_trace set_stats stats trace incr_failed
                    total_requests successful_requests failed_requests retries
                    posts decoded_posts].
      rewrite T1, T2, T3, T4, T6, T7. repeat split; lia.
Qed.

(** X4.  Over one call of [call_llm_async], whatever its retry count and
    the answers: [total_requests] grows by one for every request posted,
    and its growth is the sum of the growths of [failed_requests] and
    [retries], plus one when the call returns a text;
    [successful_requests] grows by one for every request answered with
    status 200 and a body that decodes, also when the completion is then
    missing and the attempt is retried or given up.  A call that returns a
    text counts no failure and at least one success, a call that returns
    [None] counts one failure, and a call left waiting on the semaphore
    none. *)
Theorem client_counters_balance :
  forall (cfg : Config) (env : Env) (prompt : pystr) (retry_count : nat)
         (g : AsyncLLMGenerator),
    let o := call_llm_async cfg env prompt retry_count g in
    let s := stats g in
    let s' := stats (state_of o) in
    (total_requests s' + posts (trace g)
     = total_requests s + posts (trace (state_of o)))%N
    /\ (successful_requests s' + decoded_posts env (trace g)
        = successful_requests s + decoded_posts env (trace (state_of o)))%N
    /\ match o with
       | Done (Some _) _ =>
         (total_requests s' + failed_requests s + retries s
          = total_requests s + failed_requests s' + retries s' + 1)%N
         /\ failed_requests s' = failed_requests s
         /\ (successful_requests s < successful_requests s')%N
       | Done None _ =>
         (total_requests s' + failed_requests s + retries s
          = total_requests s + failed_requests s' + retries s')%N
         /\ failed_requests s' = (failed_requests s + 1)%N
       | Blocked _ =>
         (total_requests s' + failed_requests s + retries s
          = total_requests s + failed_requests s' + retries s')%N
         /\ failed_requests s' = failed_requests s
       | Running _ => False
       end.
Proof.
  intros cfg env prompt k g. unfold call_llm_async.
  apply call_llm_async_rec_counters. lia.
Qed.

(** Status 200 with an empty object for a body, on the configuration of
    [config.py]: the four attempts are each counted a success, the call
    returns [None] and is counted one failure. *)
Example empty_object_counted_a_success_each_time :
  exists g',
    call_llm_async default_config env_empty_object (u "prompt") 0 (idle 5 [])
    = Done None g'
    /\ total_requests (stats g') = 4%N /\ successful_requests (stats g') = 4%N
    /\ failed_requests (stats g') = 1%N /\ retries (stats g') = 3%N.
Proof.
  eexists. split; [vm_compute; reflexivity|]. repeat split; reflexivity.
Qed.

Lemma call_llm_async_rec_backoff (cfg : Config) (env : Env) (prompt : pystr) :
  forall fuel k g,
  max_retries cfg - k < fuel ->
  let o := call_llm_async_rec fuel cfg env prompt k g in
  let g' := state_of o in
  exists m : nat,
    m <= max_retries cfg - k
    /\ retries (stats g') = (retries (stats g) + N.of_nat m)%N
    /\ sleeps (trace g') = backoff cfg k m ++ sleeps (trace g)
    /\ match o with
       | Done _ _ => posts (trace g') = (posts (trace g) + N.of_nat m + 1)%N
       | Blocked _ => posts (trace g') = (posts (trace g) + N.of_nat m)%N
       | Running _ => False
       end.
Proof.
  induction fuel as [|fuel IH]; intros k g Hfuel; [lia|].
  cbv zeta. rewrite call_llm_async_step.
  destruct (semaphore g) as [|n] eqn:En.
  { exists 0. cbn. split; [lia|]. split; [lia|]. split; [reflexivity|lia]. }
  cbv zeta.
  set (a := llm env (length (trace g))).
  assert (Ht : retries (stats (answered prompt a g)) = retries (stats g)
               /\ trace (answered prompt a g) = EvPost prompt :: trace g).
  { destruct (answered_counters env prompt g) as (_ & _ & T3 & _ & T5 & _).
    split; [exact T3|exact T5]. }
  destruct Ht as (T1 & T2).
  destruct (classify k a) as [content|m].
  - exists 0. cbn [state_of succeeded set_semaphore set_stats stats trace
                            incr_successful retries].
    rewrite T1, T2. cbn. split; [lia|]. split; [lia|]. split; [reflexivity|lia].
  - destruct (Nat.ltb_spec k (max_retries cfg)) as [Hlt|Hge].
    + specialize (IH (k + 1) (backing_off cfg k m (answered prompt a g))).
      cbv zeta in IH. destruct IH as [j (J1 & J2 & J3 & J4)]; [lia|].
      exists (S j).
      assert (Hb : retries (stats (backing_off cfg k m (answered prompt a g)))
                   = (retries (stats g) + 1)%N
                   /\ sleeps (trace (backing_off cfg k m (answered prompt a g)))
                      = (retry_delay cfg * inject_Z (Z.of_nat (k + 1)))%Q
                          :: sleeps (trace g)
                   /\ posts (trace (backing_off cfg k m (answered prompt a g)))
                      = (posts (trace g) + 1)%N).
      { cbn [backing_off set_trace set_stats stats trace incr_retries retries
                         sleeps posts].
        rewrite T1, T2. cbn [sleeps posts]. tauto. }
      destruct Hb as (B1 & B2 & B3). rewrite B1 in J2. rewrite B2 in J3. rewrite B3 in J4.
      rewrite backoff_step, <- app_assoc. cbn [app].
      destruct (call_llm_async_rec fuel cfg env prompt (k + 1) _) as [r g3|g3|g3];
        cbn [state_of set_semaphore stats trace] in *;
        (split; [lia|]); (split; [lia|]); (split; [exact J3|]); lia.
    + exists 0. cbn [state_of given_up set_semaphore set_trace set_stats stats trace
                              incr_failed retries sleeps posts].
      rewrite T1, T2. cbn. split; [lia|]. split; [lia|]. split; [reflexivity|lia].
Qed.

(** X5.  A call of [call_llm_async] entered with retry count [k] makes
    some number [m] of retries, at most [max_retries - k]; it pauses
    [retry_delay * (k + 1)], ..., [retry_delay * (k + m)] in turn and
    nothing else; it counts [m] retries; and it posts [m + 1] requests
    when it returns, [m] when it is left waiting on the semaphore. *)
Theorem client_retries_follow_the_backoff :
  forall (cfg : Config) (env : Env) (prompt : pystr) (retry_count : nat)
         (g : AsyncLLMGenerator),
    let o := call_llm_async cfg env prompt retry_count g in
    let g' := state_of o in
    exists m : nat,
      m <= max_retries cfg - retry_count
      /\ retries (stats g') = (retries (stats g) + N.of_nat m)%N
      /\ sleeps (trace g') = backoff cfg retry_count m ++ sleeps (trace g)
      /\ match o with
         | Done _ _ => posts (trace g') = (posts (trace g) + N.of_nat m + 1)%N
         | Blocked _ => posts (trace g') = (posts (trace g) + N.of_nat m)%N
         | Running _ => False
         end.
Proof.
  intros cfg env prompt k g. unfold call_llm_async.
  apply call_llm_async_rec_backoff. lia.
Qed.

Lemma call_llm_async_rec_blocks (cfg : Config) (env : Env) (prompt : pystr) :
  forall fuel k g,
    max_retries cfg - k < fuel ->
    (exists g', call_llm_async_rec fuel cfg env prompt k g = Blocked g')
    <-> (semaphore g <= max_retries cfg - k
         /\ forall j, j < semaphore g ->
                      attempt_fails (llm env (length (trace g) + 3 * j)) = true).
Proof.
  induction fuel as [|fuel IH]; intros k g Hfuel; [lia|].
  rewrite call_llm_async_step.
  destruct (semaphore g) as [|n] eqn:En.
  { split; [intros _; split; [lia|intros j Hj; lia]|intros _; eauto]. }
  cbv zeta.
  set (a := llm env (length (trace g))).
  pose proof (classify_fails k a) as Hf.
  destruct (classify k a) as [content|m].
  - split; [intros [g' E]; discriminate|].
    intros [_ H]. specialize (H 0 ltac:(lia)).
    replace (length (trace g) + 3 * 0) with (length (trace g)) in H by lia.
    fold a in H. congruence.
  - destruct (Nat.ltb_spec k (max_retries cfg)) as [Hlt|Hge].
    + specialize (IH (k + 1) (backing_off cfg k m (answered prompt a g)) ltac:(lia)).
      assert (Hs : semaphore (backing_off cfg k m (answered prompt a g)) = n).
      { cbn. rewrite En. reflexivity. }
      assert (Hl : length (trace (backing_off cfg k m (answered prompt a g)))
                   = length (trace g) + 3).
      { cbn. lia. }
      rewrite Hs, Hl in IH.
      split.
      * intros [g' E].
        destruct (call_llm_async_rec fuel cfg env prompt (k + 1) _) as [r g3|g3|g3] eqn:E3;
          try discriminate.
        destruct (proj1 IH (ex_intro _ g3 eq_refl)) as [I1 I2].
        split; [lia|]. intros [|j] Hj.
        -- replace (length (trace g) + 3 * 0) with (length (trace g)) by lia. exact Hf.
        -- replace (length (trace g) + 3 * S j) with (length (trace g) + 3 + 3 * j) by lia.
           apply I2. lia.
      * intros [H1 H2].
        destruct (proj2 IH) as [g3 E3].
        { split; [lia|]. intros j Hj.
          replace (length (trace g) + 3 + 3 * j) with (length (trace g) + 3 * S j) by lia.
          apply H2. lia. }
        rewrite E3. eauto.
    + split; [intros [g' E]; discriminate|]. intros [H _]. lia.
Qed.

(** X6.  A call of [call_llm_async] is left waiting on the semaphore for
    ever exactly when the free slots are at most [max_retries -
    retry_count] and the attempts it makes with them all fail (a failed
    attempt leaves three events, so attempt [j] is the one answered after
    [3 * j] more events): each failed attempt keeps its slot while the
    retry asks for another. *)
Theorem client_waits_for_ever_exactly_when_its_slots_run_out :
  forall (cfg : Config) (env : Env) (prompt : pystr) (retry_count : nat)
         (g : AsyncLLMGenerator),
    (exists g', call_llm_async cfg env prompt retry_count g = Blocked g')
    <-> (semaphore g <= max_retries cfg - retry_count
         /\ forall j, j < semaphore g ->
                      attempt_fails (llm env (length (trace g) + 3 * j)) = true).
Proof.
  intros cfg env prompt k g. unfold call_llm_async.
  apply call_llm_async_rec_blocks. lia.
Qed.

(** The API that is down, the configuration of [config.py] and three free
    slots: the call is left waiting. *)
Lemma client_waits_for_ever_exactly_when_its_slots_run_out_witness :
  exists g', call_llm_async default_config env_down (u "prompt") 0 (idle 3 []) = Blocked g'.
Proof.
  apply (proj2 (client_waits_for_ever_exactly_when_its_slots_run_out
                  default_config env_down (u "prompt") 0 (idle 3 []))).
  split; [cbn; lia|]. intros j _. reflexivity.
Defined.

Lemma call_llm_async_rec_gives_up (cfg : Config) (env : Env) (prompt : pystr) :
  (forall n, attempt_fails (llm env n) = true) ->
  forall fuel k g,
    max_retries cfg - k < fuel ->
    max_retries cfg - k < semaphore g ->
    exists g',
      call_llm_async_rec fuel cfg env prompt k g = Done None g'
      /\ retries (stats g') = (retries (stats g) + N.of_nat (max_retries cfg - k))%N.
Proof.
  intros Hfail. induction fuel as [|fuel IH]; intros k g Hfuel Hsem; [lia|].
  rewrite call_llm_async_step.
  destruct (semaphore g) as [|n] eqn:En; [lia|]. cbv zeta.
  pose proof (classify_fails k (llm env (length (trace g)))) as Hf. rewrite Hfail in Hf.
  set (a := llm env (length (trace g))) in *.
  assert (Ht : retries (stats (answered prompt a g)) = retries (stats g)).
  { apply (answered_counters env prompt g). }
  destruct (classify k a) as [content|m]; [discriminate|].
  destruct (Nat.ltb_spec k (max_retries cfg)) as [Hlt|Hge].
  - destruct (IH (k + 1) (backing_off cfg k m (answered prompt a g))) as [g3 [E3 R3]].
    + lia.
    + cbn. rewrite En. cbn. lia.
    + rewrite E3. eexists. split; [reflexivity|].
      cbn [set_semaphore stats]. rewrite R3.
      cbn [backing_off set_trace set_stats stats incr_retries retries]. rewrite Ht. lia.
  - eexists. split; [reflexivity|].
    cbn [given_up set_semaphore set_trace set_stats stats incr_failed retries].
    rewrite Ht. lia.
Qed.

(** The decoded requests of a trace when no body decodes, and when every
    body does. *)
Lemma decoded_posts_uniform (env : Env) (tr : list event) :
  ((forall n, decoded (llm env n) = false) -> decoded_posts env tr = 0%N)
  /\ ((forall n, decoded (llm env n) = true) -> decoded_posts env tr = posts tr).
Proof.
  induction tr as [|e tr [IH0 IH1]]; [split; reflexivity|].
  split; intros H.
  - destruct e; cbn [decoded_posts]; rewrite ?H, (IH0 H); reflexivity.
  - destruct e; cbn [decoded_posts posts]; rewrite ?H, (IH1 H); reflexivity.
Qed.

(** X7.  When every attempt fails and more than [max_retries] slots are
    free, [call_llm_async] returns [None] after [max_retries + 1]
    requests, having paused [retry_delay * 1], ..., [retry_delay *
    max_retries], counted [max_retries] retries and one failure, and with
    every slot given back.  It counts a success for each attempt whose
    body decoded: none when no body decodes (as when the API is down),
    and [max_retries + 1] when every body decodes and lacks the
    completion. *)
Theorem client_gives_up_after_max_retries :
  forall (cfg : Config) (env : Env) (prompt : pystr) (g : AsyncLLMGenerator),
    (forall n, attempt_fails (llm env n) = true) ->
    max_retries cfg < semaphore g ->
    exists g',
      call_llm_async cfg env prompt 0 g = Done None g'
      /\ posts (trace g') = (posts (trace g) + N.of_nat (max_retries cfg) + 1)%N
      /\ sleeps (trace g') = backoff cfg 0 (max_retries cfg) ++ sleeps (trace g)
      /\ retries (stats g') = (retries (stats g) + N.of_nat (max_retries cfg))%N
      /\ failed_requests (stats g') = (failed_requests (stats g) + 1)%N
      /\ (successful_requests (stats g') + decoded_posts env (trace g)
          = successful_requests (stats g) + decoded_posts env (trace g'))%N
      /\ ((forall n, decoded (llm env n) = false) ->
          successful_requests (stats g') = successful_requests (stats g))
      /\ ((forall n, decoded (llm env n) = true) ->
          successful_requests (stats g')
          = (successful_requests (stats g) + N.of_nat (max_retries cfg) + 1)%N)
      /\ total_requests (stats g')
         = (total_requests (stats g) + N.of_nat (max_retries cfg) + 1)%N
      /\ semaphore g' = semaphore g.
Proof.
  intros cfg env prompt g Hfail Hsem. unfold call_llm_async.
  destruct (call_llm_async_rec_gives_up cfg env prompt Hfail
              (S (max_retries cfg - 0)) 0 g) as [g' [E R]]; [lia|lia|].
  replace (max_retries cfg - 0) with (max_retries cfg) in * by lia.
  exists g'. split; [exact E|].
  pose proof (call_llm_async_rec_backoff cfg env prompt (S (max_retries cfg)) 0 g
                ltac:(lia)) as B.
  pose proof (call_llm_async_rec_counters cfg env prompt (S (max_retries cfg)) 0 g
                ltac:(lia)) as C.
  destruct (call_llm_async_returns cfg env prompt (S (max_retries cfg)) 0 g
              ltac:(lia) ltac:(lia)) as [r [g2 [E2 S2]]].
  cbv zeta in B, C. rewrite E in B, C, E2. cbn [state_of] in B, C.
  inversion E2. subst g2 r.
  destruct B as [m (B1 & B2 & B3 & B4)]. destruct C as (C1 & C2 & C3 & C4).
  assert (Hm : m = max_retries cfg) by lia. subst m.
  split; [exact B4|]. split; [exact B3|]. split; [exact R|].
  split; [exact C4|]. split; [exact C2|]. split; [|split; [|split; [lia|exact S2]]].
  - intros H0.
    rewrite (proj1 (decoded_posts_uniform env (trace g)) H0),
            (proj1 (decoded_posts_uniform env (trace g')) H0) in C2. lia.
  - intros H1.
    rewrite (proj2 (decoded_posts_uniform env (trace g)) H1),
            (proj2 (decoded_posts_uniform env (trace g')) H1) in C2. lia.
Qed.

(** The theorem on the API that is down, with the configuration of
    [config.py]: four requests, one failure, no success. *)
Lemma client_gives_up_after_max_retries_witness :
  exists g',
    call_llm_async default_config env_down (u "prompt") 0 (idle 5 []) = Done None g'
    /\ posts (trace g') = 4%N
    /\ sleeps (trace g') = [(3 * 3)%Q; (3 * 2)%Q; (3 * 1)%Q]
    /\ failed_requests (stats g') = 1%N
    /\ successful_requests (stats g') = 0%N.
Proof.
  destruct (client_gives_up_after_max_retries default_config env_down (u "prompt")
              (idle 5 [])) as [g' (E & P & S & _ & F & _ & S0 & _)].
  - intros n. reflexivity.
  - cbn. lia.
  - exists g'. split; [exact E|]. split; [exact P|]. split; [exact S|].
    split; [exact F|]. apply S0. intros n. reflexivity.
Defined.

End RetryFacts.

(* ===================================================================== *)
(** * Facts about the fetches and the batches *)
(* ===================================================================== *)

Module FetchFacts.

Lemma scan_unprocessed_prefix {A : Type} (processed : A -> bool) (limit : nat) :
  forall (all unprocessed : list A),
    length unprocessed < Nat.max limit 1 ->
    scan_unprocessed processed limit all unprocessed
    = unprocessed
        ++ firstn (Nat.max limit 1 - length unprocessed)
                  (filter (fun x => negb (processed x)) all).
Proof.
  induction all as [|x all IH]; intros acc Hacc; cbn [scan_unprocessed filter].
  - rewrite firstn_nil, app_nil_r. reflexivity.
  - destruct (processed x); cbn [negb]; [apply IH; exact Hacc|].
    destruct (Nat.max limit 1 - length acc) as [|d] eqn:Ed; [lia|].
    cbn [firstn].
    destruct (Nat.leb_spec limit (length (acc ++ [x]))) as [Hle|Hgt];
      rewrite length_app in *; cbn [length] in *.
    + replace d with 0 by lia. reflexivity.
    + rewrite IH by (rewrite length_app; cbn [length]; lia).
      rewrite length_app. cbn [length]. rewrite <- app_assoc. cbn [app].
      replace (Nat.max limit 1 - (length acc + 1)) with d by lia. reflexivity.
Qed.

(** X8.  [get_unprocessed_patents(limit)] returns the first [max(limit, 1)]
    patents of the catalog whose key is not in the ledger, in the order of
    the catalog, and [get_unprocessed_entities(limit)] the same of the
    entities: a limit of zero still fetches one item. *)
Theorem fetch_is_the_head_of_the_pending_work :
  forall (g : AsyncLLMGenerator) (limit : nat),
    get_unprocessed_patents g limit = firstn (Nat.max limit 1) (pending g)
    /\ get_unprocessed_entities g limit = firstn (Nat.max limit 1) (pending_entities g).
Proof.
  intros g limit. unfold get_unprocessed_patents, get_unprocessed_entities.
  rewrite !scan_unprocessed_prefix by (cbn; lia).
  cbn [length app]. rewrite Nat.sub_0_r. split; reflexivity.
Qed.

Lemma chunks_upto_shape {A : Type} (size : nat) :
  0 < size ->
  forall (fuel : nat) (items : list A),
    length items <= fuel ->
    Forall (fun c => 0 < length c <= size) (chunks_upto fuel size items)
    /\ (forall i, S i < length (chunks_upto fuel size items) ->
                  length (nth i (chunks_upto fuel size items) []) = size)
    /\ length (chunks_upto fuel size items) * size < length items + size
    /\ length items <= length (chunks_upto fuel size items) * size.
Proof.
  intros Hsize. induction fuel as [|fuel IH]; intros items Hlen.
  - destruct items; [|cbn in Hlen; lia]. cbn. split; [constructor|].
    split; [intros i Hi; lia|lia].
  - destruct items as [|x items]; cbn [chunks_upto].
    + cbn. split; [constructor|]. split; [intros i Hi; lia|lia].
    + remember (x :: items) as l eqn:El.
      assert (Hl : 0 < length l) by (subst l; cbn; lia).
      clear El x items.
      destruct (IH (skipn size l)) as (F & E & B1 & B2).
      { rewrite length_skipn. lia. }
      rewrite length_skipn in B1, B2.
      split; [|split; [|cbn [length]; split]].
      * constructor; [|exact F]. rewrite length_firstn. lia.
      * intros [|i] Hi; cbn [nth length] in *.
        -- rewrite length_firstn.
           destruct (chunks_upto fuel size (skipn size l)) eqn:Ec; [cbn in Hi; lia|].
           destruct (Nat.le_gt_cases size (length l)) as [H|H]; [lia|].
           exfalso. rewrite skipn_all2 in Ec by lia.
           destruct fuel; discriminate.
        -- apply E. lia.
      * destruct (Nat.le_gt_cases size (length l)); [lia|].
        replace (length l - size) with 0 in * by lia.
        destruct (length (chunks_upto fuel size (skipn size l))); [lia|].
        cbn [Nat.mul] in B1. lia.
      * destruct (Nat.le_gt_cases size (length l)); lia.
Qed.

(** X9.  The batches the two loops cut a fetched list into
    ([items[i:i + batch_size]] for [i] in [range(0, len(items),
    batch_size)]) give the list back when concatenated; none is empty or
    longer than [batch_size]; every batch but the last has exactly
    [batch_size] items; and their number is the length divided by
    [batch_size], rounded up. *)
Theorem chunks_partition_the_items :
  forall (A : Type) (size : positive) (items : list A),
    let batches := chunks size items in
    concat batches = items
    /\ Forall (fun b => 0 < length b <= Pos.to_nat size) batches
    /\ (forall i, S i < length batches -> length (nth i batches []) = Pos.to_nat size)
    /\ length batches * Pos.to_nat size < length items + Pos.to_nat size
    /\ length items <= length batches * Pos.to_nat size.
Proof.
  intros A size items batches. split; [apply chunks_concat|].
  apply chunks_upto_shape; [lia|apply Nat.le_refl].
Qed.

(** Five items in batches of two. *)
Lemma chunks_partition_the_items_witness :
  chunks 2 [1; 2; 3; 4; 5] = [[1; 2]; [3; 4]; [5]]
  /\ length (nth 1 (chunks 2 [1; 2; 3; 4; 5]) []) = 2.
Proof.
  split; [reflexivity|].
  apply (proj1 (proj2 (proj2 (chunks_partition_the_items nat 2 [1; 2; 3; 4; 5]))) 1).
  vm_compute. lia.
Defined.

End FetchFacts.

(* ===================================================================== *)
(** * Facts about the ends of the two loops *)
(* ===================================================================== *)

Module LoopFacts.

(** While the API is down a batch awaited alone returns nothing. *)
Lemma process_batch_async_api_down (cfg : Config) (env : Env) (pr : Prompts)
  (b : batch) (g : AsyncLLMGenerator) :
  (forall n, transport_failure (llm env n) = true) ->
  max_retries cfg < semaphore g ->
  exists g', process_batch_async cfg env pr b g = Done None g' /\ client_frame g g'.
Proof.
  intros Hdown Hsem.
  destruct (process_batch_async_returns cfg env pr b g Hsem) as [r [g1 [E F]]].
  exists g1. split; [|exact F]. rewrite E. f_equal.
  unfold process_batch_async, bind, call_llm_async in E.
  destruct (call_llm_async_all_fail cfg env (prompt_of pr b) (S (max_retries cfg - 0))
              Hdown 0 g) as [g' [E' _]]; [lia|lia|].
  rewrite E' in E. cbn in E. inversion E. reflexivity.
Qed.

(** What the [for] loop of [process_entities_async] does while the API is
    down: no location is saved, and the names of every batch are added to
    the ledger. *)
Lemma entity_batches_api_down (cfg : Config) (env : Env) (pr : Prompts) :
  (forall n, transport_failure (llm env n) = true) ->
  forall (batches : list (list Entity)) (g : AsyncLLMGenerator),
    max_retries cfg < semaphore g ->
    exists g',
      entity_batches cfg env pr batches g = Done tt g'
      /\ processed_entities (data_progress (storage g'))
         = processed_entities (data_progress (storage g))
             ++ map JString (map normalizedName (concat batches))
      /\ processed_patents (data_progress (storage g'))
         = processed_patents (data_progress (storage g))
      /\ should_stop g' = should_stop g /\ all_patents g' = all_patents g
      /\ all_entities g' = all_entities g /\ semaphore g' = semaphore g
      /\ (forall dt, records (storage g') dt = records (storage g) dt).
Proof.
  intros Hdown. induction batches as [|b batches IH]; intros g Hsem.
  - exists g. cbn. rewrite app_nil_r. tauto.
  - cbn [entity_batches]. unfold bind at 1.
    destruct (process_batch_async_api_down cfg env pr (LocationBatch b) g Hdown Hsem)
      as [g1 [E1 F1]].
    rewrite E1. destruct F1 as (Fs & Fd & Fst & Fp & Fe & Fsem).
    unfold bind at 1. cbn [ret]. unfold bind at 1.
    unfold store_mark_entities, mark_processed_entities.
    unfold bind at 1. unfold sleep, emit.
    match goal with |- exists g', entity_batches _ _ _ _ ?g3 = _ /\ _ =>
      destruct (IH g3) as [g' (E' & Le & Lp & Hst & Hap & Hae & Hsem' & Hrec)]
    end.
    { cbn. rewrite Fsem. exact Hsem. }
    exists g'. split; [exact E'|].
    cbn in Le, Lp, Hst, Hap, Hae, Hsem'.
    rewrite Le, Lp, Hst, Hap, Hae, Hsem', Fs, Fst, Fp, Fe, Fsem.
    cbn [concat]. rewrite !map_app, <- app_assoc.
    repeat split; try reflexivity.
    intros dt. rewrite Hrec. cbn. rewrite Fs. destruct dt; reflexivity.
Qed.

Lemma is_entity_processed_app (st st' : JSONStorage) (news : list pystr) :
  processed_entities (data_progress st')
  = processed_entities (data_progress st) ++ map JString news ->
  forall x, is_entity_processed st' x = is_entity_processed st x || existsb (str_eqb x) news.
Proof.
  intros E x. unfold is_entity_processed. rewrite E, existsb_app. f_equal.
  clear E. induction news as [|n news IH]; [reflexivity|]. cbn. rewrite IH. reflexivity.
Qed.

Lemma is_patent_processed_app (st st' : JSONStorage) (news : list pystr) :
  processed_patents (data_progress st')
  = processed_patents (data_progress st) ++ map JString news ->
  forall x, is_patent_processed st' x = is_patent_processed st x || existsb (str_eqb x) news.
Proof.
  intros E x. unfold is_patent_processed. rewrite E, existsb_app. f_equal.
  clear E. induction news as [|n news IH]; [reflexivity|]. cbn. rewrite IH. reflexivity.
Qed.

Lemma existsb_str_eqb_In (x : pystr) (l : list pystr) :
  existsb (str_eqb x) l = true <-> In x l.
Proof.
  rewrite existsb_exists. split.
  - intros [y [Hy E]]. apply str_eqb_eq in E. subst. exact Hy.
  - intros H. exists x. split; [exact H|apply str_eqb_refl].
Qed.

Lemma In_firstn {A : Type} (n : nat) (l : list A) (x : A) :
  In x (firstn n l) -> In x l.
Proof.
  intros H. rewrite <- (firstn_skipn n l). apply in_or_app. left. exact H.
Qed.

Lemma get_unprocessed_entities_prefix (g : AsyncLLMGenerator) (limit : nat) :
  get_unprocessed_entities g limit = firstn (Nat.max limit 1) (pending_entities g).
Proof.
  unfold get_unprocessed_entities.
  rewrite FetchFacts.scan_unprocessed_prefix by (cbn; lia).
  cbn [length app]. rewrite Nat.sub_0_r. reflexivity.
Qed.

(** While the API is down the entity loop ends: one iteration for each
    pending entity, and one more, are enough; and it ends stopped or with
    nothing pending. *)
Lemma entities_loop_completes (cfg : Config) (env : Env) (pr : Prompts) :
  (forall n, transport_failure (llm env n) = true) ->
  forall (n : nat) (g : AsyncLLMGenerator),
    max_retries cfg < semaphore g ->
    length (pending_entities g) <= n ->
    exists g',
      entities_loop (S n) cfg env pr g = Done tt g'
      /\ (should_stop g' = false -> pending_entities g' = [])
      /\ all_entities g' = all_entities g /\ all_patents g' = all_patents g
      /\ semaphore g' = semaphore g
      /\ processed_patents (data_progress (storage g'))
         = processed_patents (data_progress (storage g))
      /\ (forall x, is_entity_processed (storage g) x = true ->
                    is_entity_processed (storage g') x = true)
      /\ (forall dt, records (storage g') dt = records (storage g) dt).
Proof.
  intros Hdown. induction n as [|n IH]; intros g Hsem Hpend;
    cbn [entities_loop]; destruct (should_stop g) eqn:Hstop.
  1,3: exists g; split; [reflexivity|]; split; [congruence|tauto].
  - pose proof (get_unprocessed_entities_prefix g (10 * 10)) as Hf.
    destruct (pending_entities g) as [|e es] eqn:Ep; [|cbn in Hpend; lia].
    rewrite Hf, firstn_nil. unfold logger, emit.
    eexists. split; [reflexivity|]. split; [|cbn; tauto]. intros _.
    change (pending_entities (set_trace (EvLog INFO MsgAllEntitiesDone :: trace g) g))
      with (pending_entities g).
    exact Ep.
  - pose proof (get_unprocessed_entities_prefix g (10 * 10)) as Hf.
    destruct (get_unprocessed_entities g (10 * 10)) as [|e es] eqn:Ef.
    { unfold logger, emit. eexists. split; [reflexivity|].
      split; [|cbn; tauto]. intros _.
      change (pending_entities (set_trace (EvLog INFO MsgAllEntitiesDone :: trace g) g))
        with (pending_entities g).
      destruct (pending_entities g); [reflexivity|discriminate]. }
    unfold bind at 1. unfold logger at 1, emit at 1. unfold bind at 1.
    destruct (entity_batches_api_down cfg env pr Hdown (chunks 10 (e :: es))
                (set_trace (EvLog INFO (MsgEntitiesFetched (length (e :: es))) :: trace g) g)
                Hsem)
      as [g1 (E1 & Le & Lp & Hst & Hap & Hae & Hsem1 & Hrec)].
    rewrite E1. rewrite chunks_concat in Le.
    cbn [set_trace storage should_stop all_patents all_entities semaphore]
      in Le, Lp, Hst, Hap, Hae, Hsem1.
    pose proof (is_entity_processed_app (storage g) (storage g1) _ Le) as Hproc.
    assert (He : In e (pending_entities g)).
    { apply (In_firstn (Nat.max (10 * 10) 1)). rewrite <- Hf. left. reflexivity. }
    assert (Hlt : length (pending_entities g1) < length (pending_entities g)).
    { unfold pending_entities. rewrite Hae.
      unfold pending_entities in He. apply filter_In in He. destruct He as [Hin Hnp].
      apply (filter_length_lt _ _ _ e).
      - intros y Hy. apply negb_true_iff in Hy. apply negb_true_iff.
        rewrite Hproc in Hy. apply orb_false_iff in Hy. tauto.
      - exact Hin.
      - exact Hnp.
      - apply negb_false_iff. rewrite Hproc. apply orb_true_iff. right.
        apply existsb_str_eqb_In. apply in_map. left. reflexivity. }
    unfold bind at 1. unfold deliver_signal.
    assert (Hnext : forall g2,
               semaphore g2 = semaphore g1 -> pending_entities g2 = pending_entities g1 ->
               all_entities g2 = all_entities g1 -> all_patents g2 = all_patents g1 ->
               storage g2 = storage g1 ->
               exists g',
                 entities_loop (S n) cfg env pr g2 = Done tt g'
                 /\ (should_stop g' = false -> pending_entities g' = [])
                 /\ all_entities g' = all_entities g /\ all_patents g' = all_patents g
                 /\ semaphore g' = semaphore g
                 /\ processed_patents (data_progress (storage g'))
                    = processed_patents (data_progress (storage g))
                 /\ (forall x, is_entity_processed (storage g) x = true ->
                               is_entity_processed (storage g') x = true)
                 /\ (forall dt, records (storage g') dt = records (storage g) dt)).
    { intros g2 S2 P2 A2 B2 St2.
      destruct (IH g2) as [g' (E' & D' & A' & B' & S' & Lp' & M' & R')].
      - rewrite S2, Hsem1. exact Hsem.
      - rewrite P2. lia.
      - exists g'. split; [exact E'|]. split; [exact D'|].
        rewrite A', B', S', Lp', A2, B2, S2, St2, Hae, Hap, Hsem1, Lp.
        repeat split; try reflexivity.
        + intros x Hx. apply M'. rewrite St2, Hproc, Hx. reflexivity.
        + intros dt. rewrite R', St2, Hrec. reflexivity. }
    destruct (signal env (length (trace g1))).
    + apply Hnext; reflexivity.
    + apply Hnext; reflexivity.
Qed.

(** X10.  While the API is down (every request fails in transport or is
    answered by a status other than 200), with location extraction
    enabled and more free slots than [max_retries],
    [process_entities_async] returns; unless a signal stopped it, every
    entity of the catalog is then marked processed, although no location
    was saved for any.  It unmarks nothing, leaves the collections and the
    ledger of the patents as they were and gives every slot back. *)
Theorem entity_loop_ends_with_every_entity_marked :
  forall (cfg : Config) (env : Env) (pr : Prompts) (fuel : nat) (g : AsyncLLMGenerator),
    (forall n, transport_failure (llm env n) = true) ->
    enable_location_extraction cfg = true ->
    max_retries cfg < semaphore g ->
    length (pending_entities g) < fuel ->
    exists g',
      process_entities_async fuel cfg env pr g = Done tt g'
      /\ (should_stop g' = false ->
          forall e, In e (all_entities g) ->
                    is_entity_processed (storage g') (normalizedName e) = true)
      /\ (forall x, is_entity_processed (storage g) x = true ->
                    is_entity_processed (storage g') x = true)
      /\ (forall dt, records (storage g') dt = records (storage g) dt)
      /\ processed_patents (data_progress (storage g'))
         = processed_patents (data_progress (storage g))
      /\ semaphore g' = semaphore g.
Proof.
  intros cfg env pr fuel g Hdown Hen Hsem Hfuel.
  unfold process_entities_async. rewrite Hen. cbn [negb].
  destruct fuel as [|n]; [lia|].
  destruct (entities_loop_completes cfg env pr Hdown n g Hsem ltac:(lia))
    as [g' (E & D & A & _ & S & Lp & M & R)].
  exists g'. split; [exact E|]. split; [|tauto].
  intros Hstop e He. specialize (D Hstop).
  destruct (is_entity_processed (storage g') (normalizedName e)) eqn:Ee; [reflexivity|].
  exfalso. assert (Hin : In e (pending_entities g')).
  { unfold pending_entities. apply filter_In. rewrite A, Ee. split; [exact He|reflexivity]. }
  rewrite D in Hin. destruct Hin.
Qed.

(** The theorem on the API that answers 500: the entity of [patent_1] is
    marked although no location was obtained. *)
Lemma entity_loop_ends_with_every_entity_marked_witness :
  exists g',
    process_entities_async 2 default_config env_down some_prompts (idle 5 [patent_1])
    = Done tt g'
    /\ is_entity_processed (storage g') (u "北京氢能") = true
    /\ data_entity (storage g') = [].
Proof.
  destruct (entity_loop_ends_with_every_entity_marked
              default_config env_down some_prompts 2 (idle 5 [patent_1])
              ltac:(intros n; reflexivity)
              eq_refl ltac:(cbn; lia) ltac:(vm_compute; lia))
    as [g' (E & D & _ & R & _)].
  exists g'. split; [exact E|].
  assert (Hs : should_stop g' = false).
  { vm_compute in E. inversion E. reflexivity. }
  split; [|exact (R entity_locations)].
  apply (D Hs (mkEntity (u "北京氢能") (u "北京氢能有限公司") (u "企业"))).
  vm_compute. left. reflexivity.
Defined.

(** The keys of the tasks are keys of fetched patents. *)
Lemma all_patent_ids_fetched (cfg : Config) (patents : list Patent) (id : pystr) :
  In id (all_patent_ids (patent_tasks cfg patents)) ->
  exists p, In p patents /\ patentId p = id.
Proof.
  unfold all_patent_ids, patent_tasks. intros H.
  apply in_flat_map in H. destruct H as [[[t ids] b] [Ht Hid]]. cbn [fst snd] in Hid.
  apply in_flat_map in Ht. destruct Ht as [c [Hc Ht]].
  assert (Hids : ids = map patentId c).
  { apply in_app_or in Ht. destruct Ht as [Ht|Ht].
    - destruct (enable_green_classification cfg); [|destruct Ht].
      destruct Ht as [Ht|[]]. inversion Ht. reflexivity.
    - destruct (enable_tech_classification cfg); [|destruct Ht].
      destruct Ht as [Ht|[]]. inversion Ht. reflexivity. }
  subst ids. apply in_map_iff in Hid. destruct Hid as [p [Ep Hp]].
  exists p. split; [|exact Ep].
  rewrite <- (chunks_concat (batch_size cfg) patents).
  apply in_concat. exists c. split; assumption.
Qed.

Lemma NoDup_map_JString (l : list pystr) : NoDup l -> NoDup (map JString l).
Proof.
  intros H. induction H as [|x l Hx H IH]; [constructor|].
  cbn. constructor; [|exact IH]. intros Hin. apply in_map_iff in Hin.
  destruct Hin as [y [Ey Hy]]. inversion Ey. subst. contradiction.
Qed.

(** No more batches than items. *)
Lemma chunks_upto_length {A : Type} (size : nat) :
  0 < size ->
  forall (fuel : nat) (items : list A),
    length (chunks_upto fuel size items) <= length items.
Proof.
  intros Hsize. induction fuel as [|fuel IH]; intros items; [cbn; lia|].
  destruct items as [|x items]; [cbn; lia|].
  cbn [chunks_upto]. cbn [length].
  specialize (IH (skipn size (x :: items))). rewrite length_skipn in IH.
  cbn [length] in IH. lia.
Qed.

(** At most two tasks for each fetched patent. *)
Lemma patent_tasks_length (cfg : Config) (patents : list Patent) :
  length (patent_tasks cfg patents) <= 2 * length patents.
Proof.
  unfold patent_tasks, chunks.
  set (f := fun b : list Patent => _).
  assert (Hf : forall b, length (f b) <= 2).
  { intros b. subst f. cbv beta zeta.
    destruct (enable_green_classification cfg), (enable_tech_classification cfg);
      cbn; lia. }
  pose proof (chunks_upto_length (Pos.to_nat (batch_size cfg)) (Pos2Nat.is_pos _)
                (length patents) patents) as H.
  revert H. generalize (chunks_upto (length patents) (Pos.to_nat (batch_size cfg)) patents).
  intros l. generalize (length patents). induction l as [|b l IH]; intros n H; [cbn; lia|].
  cbn [flat_map]. rewrite length_app. cbn [length] in H. specialize (Hf b).
  destruct n as [|n]; [lia|]. specialize (IH n ltac:(lia)). lia.
Qed.

Lemma get_unprocessed_patents_prefix (g : AsyncLLMGenerator) (limit : nat) :
  get_unprocessed_patents g limit = firstn (Nat.max limit 1) (pending g).
Proof.
  unfold get_unprocessed_patents.
  rewrite FetchFacts.scan_unprocessed_prefix by (cbn; lia).
  cbn [length app]. rewrite Nat.sub_0_r. reflexivity.
Qed.

(** The patent loop ends, stopped or with nothing pending, and never
    writes a key twice into the ledger, when the calls of a cycle cannot
    starve each other of slots. *)
Lemma process_patents_async_completes (cfg : Config) (env : Env) (pr : Prompts) :
  set_order_ok env ->
  enable_green_classification cfg || enable_tech_classification cfg = true ->
  forall (n : nat) (g : AsyncLLMGenerator),
    2 * length (pending g) * S (max_retries cfg) <= semaphore g
    \/ (0 < semaphore g /\ forall n, attempt_fails (llm env n) = false) ->
    length (pending g) <= n ->
    exists g',
      process_patents_async (S n) cfg env pr g = Done tt g'
      /\ (should_stop g' = false -> pending g' = [])
      /\ all_patents g' = all_patents g /\ all_entities g' = all_entities g
      /\ semaphore g' = semaphore g
      /\ processed_entities (data_progress (storage g'))
         = processed_entities (data_progress (storage g))
      /\ (forall x, is_patent_processed (storage g) x = true ->
                    is_patent_processed (storage g') x = true)
      /\ (NoDup (processed_patents (data_progress (storage g))) ->
          NoDup (processed_patents (data_progress (storage g'))))
      /\ data_entity (storage g') = data_entity (storage g).
Proof.
  intros Hset Hen. induction n as [|n IH]; intros g Hsem Hpend;
    cbn [process_patents_async]; destruct (should_stop g) eqn:Hstop.
  1,3: exists g; split; [reflexivity|]; split; [congruence|tauto].
  - destruct (get_unprocessed_patents g _) as [|p ps] eqn:Ef.
    + unfold logger, emit. eexists. split; [reflexivity|]. split; [|cbn; tauto]. intros _.
      change (pending (set_trace (EvLog INFO MsgAllPatentsDone :: trace g) g))
        with (pending g).
      destruct (pending g); [reflexivity|cbn in Hpend; lia].
    + exfalso.
      assert (Hp : In p (get_unprocessed_patents g
                           (Pos.to_nat (batch_size cfg) * max_concurrent_requests cfg)))
        by (rewrite Ef; left; reflexivity).
      apply scan_unprocessed_In in Hp. destruct Hp as [[]|[Hin Hnp]].
      assert (Hf : In p (pending g)).
      { unfold pending. apply filter_In. split; [exact Hin|]. rewrite Hnp. reflexivity. }
      destruct (pending g); [destruct Hf|cbn in Hpend; lia].
  - destruct (get_unprocessed_patents g _) as [|p ps] eqn:Ef.
    + unfold logger, emit. eexists. split; [reflexivity|]. split; [|cbn; tauto]. intros _.
      change (pending (set_trace (EvLog INFO MsgAllPatentsDone :: trace g) g))
        with (pending g).
      unfold get_unprocessed_patents in Ef. apply scan_unprocessed_nonempty in Ef.
      destruct Ef as [_ Hall]. unfold pending.
      induction (all_patents g) as [|q l IHl]; [reflexivity|].
      cbn. rewrite (Hall q (or_introl eq_refl)). cbn. apply IHl.
      intros x Hx. apply Hall. right. exact Hx.
    + rewrite <- Ef. unfold bind at 1.
      set (limit := Pos.to_nat (batch_size cfg) * max_concurrent_requests cfg) in *.
      assert (Hcycle :
                length (patent_tasks cfg (get_unprocessed_patents g limit))
                * S (max_retries cfg) <= semaphore g
                \/ (0 < semaphore g /\ forall n, attempt_fails (llm env n) = false)).
      { destruct Hsem as [Hsem|Hsem]; [left|right; exact Hsem].
        assert (Hb : length (patent_tasks cfg (get_unprocessed_patents g limit))
                     <= 2 * length (pending g)).
        { etransitivity; [apply patent_tasks_length|].
          rewrite (get_unprocessed_patents_prefix g limit).
          rewrite length_firstn. lia. }
        eapply Nat.le_trans; [apply Nat.mul_le_mono_r; exact Hb|exact Hsem]. }
      destruct (patents_cycle_returns cfg env pr (get_unprocessed_patents g limit) g Hcycle)
        as (results & g0 & g1 & _ & E & L & Le & Hst & Hall & Hae & Hs1 & _ & _ & Dent & _).
      rewrite E. unfold bind at 1. unfold deliver_signal.
      set (news := set_order env (all_patent_ids
                                    (patent_tasks cfg (get_unprocessed_patents g limit)))) in *.
      pose proof (is_patent_processed_app (storage g) (storage g1) news L) as Hproc.
      destruct (Hset (all_patent_ids (patent_tasks cfg (get_unprocessed_patents g limit))))
        as [Hnd Hnews]. fold news in Hnd, Hnews.
      assert (Hp : In p (get_unprocessed_patents g limit))
        by (rewrite Ef; left; reflexivity).
      assert (Hlt : length (pending g1) < length (pending g)).
      { pose proof Hp as Hp'. apply scan_unprocessed_In in Hp'.
        destruct Hp' as [[]|[Hin Hnp]].
        unfold pending. rewrite Hall.
        apply (filter_length_lt _ _ _ p).
        - intros y Hy. apply negb_true_iff in Hy. apply negb_true_iff.
          rewrite Hproc in Hy. apply orb_false_iff in Hy. tauto.
        - exact Hin.
        - rewrite Hnp. reflexivity.
        - apply negb_false_iff. rewrite Hproc. apply orb_true_iff. right.
          apply existsb_str_eqb_In. apply Hnews.
          apply all_patent_ids_complete; assumption. }
      assert (Hdup : NoDup (processed_patents (data_progress (storage g))) ->
                     NoDup (processed_patents (data_progress (storage g1)))).
      { intros H. rewrite L. apply NoDup_app.
        - exact H.
        - apply NoDup_map_JString. exact Hnd.
        - intros j Hj Hj2. apply in_map_iff in Hj2. destruct Hj2 as [id [<- Hid]].
          apply Hnews in Hid. apply all_patent_ids_fetched in Hid.
          destruct Hid as [q [Hq <-]].
          apply get_unprocessed_patents_fresh in Hq. destruct Hq as [_ Hq]. apply Hq.
          exact Hj. }
      assert (Hnext : forall g2,
                 semaphore g2 = semaphore g1 -> pending g2 = pending g1 ->
                 all_entities g2 = all_entities g1 -> all_patents g2 = all_patents g1 ->
                 storage g2 = storage g1 ->
                 exists g',
                   process_patents_async (S n) cfg env pr g2 = Done tt g'
                   /\ (should_stop g' = false -> pending g' = [])
                   /\ all_patents g' = all_patents g /\ all_entities g' = all_entities g
                   /\ semaphore g' = semaphore g
                   /\ processed_entities (data_progress (storage g'))
                      = processed_entities (data_progress (storage g))
                   /\ (forall x, is_patent_processed (storage g) x = true ->
                                 is_patent_processed (storage g') x = true)
                   /\ (NoDup (processed_patents (data_progress (storage g))) ->
                       NoDup (processed_patents (data_progress (storage g'))))
                   /\ data_entity (storage g') = data_entity (storage g)).
      { intros g2 S2 P2 A2 B2 St2.
        destruct (IH g2) as [g' (E' & D' & A' & B' & S' & Le' & M' & N' & De')].
        - rewrite S2, Hs1, P2. destruct Hsem as [Hsem|Hsem]; [left; nia|right; exact Hsem].
        - rewrite P2. lia.
        - exists g'. split; [exact E'|]. split; [exact D'|].
          rewrite A', B', S', Le', De', A2, B2, S2, St2, Hae, Hall, Hs1, Le, Dent.
          repeat split; try reflexivity.
          + intros x Hx. apply M'. rewrite St2, Hproc, Hx. reflexivity.
          + intros H. apply N'. rewrite St2. apply Hdup. exact H. }
      destruct (signal env (length (trace g1))).
      * apply Hnext; reflexivity.
      * apply Hnext; reflexivity.
Qed.

(** X11.  With a classification enabled, [process_patents_async] returns
    when the calls of a cycle cannot starve each other of slots: when
    there is a slot for every attempt of two calls for each pending
    patent, or when no attempt fails.  Unless a signal stopped it, every
    patent of the catalog is then marked processed.  It unmarks nothing,
    keeps the ledger of the patents free of duplicates, leaves the ledger
    of the entities as it was and gives every slot back. *)
Theorem patent_loop_ends_with_every_patent_marked :
  forall (cfg : Config) (env : Env) (pr : Prompts) (fuel : nat) (g : AsyncLLMGenerator),
    set_order_ok env ->
    enable_green_classification cfg || enable_tech_classification cfg = true ->
    2 * length (pending g) * S (max_retries cfg) <= semaphore g
    \/ (0 < semaphore g /\ forall n, attempt_fails (llm env n) = false) ->
    length (pending g) < fuel ->
    exists g',
      process_patents_async fuel cfg env pr g = Done tt g'
      /\ (should_stop g' = false ->
          forall p, In p (all_patents g) ->
                    is_patent_processed (storage g') (patentId p) = true)
      /\ (forall x, is_patent_processed (storage g) x = true ->
                    is_patent_processed (storage g') x = true)
      /\ (NoDup (processed_patents (data_progress (storage g))) ->
          NoDup (processed_patents (data_progress (storage g'))))
      /\ processed_entities (data_progress (storage g'))
         = processed_entities (data_progress (storage g))
      /\ semaphore g' = semaphore g.
Proof.
  intros cfg env pr fuel g Hset Hen Hsem Hfuel.
  destruct fuel as [|n]; [lia|].
  destruct (process_patents_async_completes cfg env pr Hset Hen n g Hsem ltac:(lia))
    as [g' (E & D & A & _ & S & Le & M & N & _)].
  exists g'. split; [exact E|]. split; [|tauto].
  intros Hstop p Hp. specialize (D Hstop).
  destruct (is_patent_processed (storage g') (patentId p)) eqn:Ee; [reflexivity|].
  exfalso. assert (Hin : In p (pending g')).
  { unfold pending. apply filter_In. rewrite A, Ee. split; [exact Hp|reflexivity]. }
  rewrite D in Hin. destruct Hin.
Qed.

(** The sets of [env_down] keep their elements, each once. *)
Lemma set_order_ok_env_down : set_order_ok env_down.
Proof.
  intros l. split; [apply NoDup_nodup|]. intros x. apply nodup_In.
Qed.

(** The theorem on the API that is down, with eight slots for the eight
    attempts of the two calls: [patent_1] is marked although no
    classification was saved. *)
Lemma patent_loop_ends_with_every_patent_marked_witness :
  exists g',
    process_patents_async 2 default_config env_down some_prompts (idle 8 [patent_1])
    = Done tt g'
    /\ is_patent_processed (storage g') (u "CN1") = true
    /\ records (storage g') green_classifications = [].
Proof.
  destruct (patent_loop_ends_with_every_patent_marked
              default_config env_down some_prompts 2 (idle 8 [patent_1])
              set_order_ok_env_down eq_refl
              ltac:(left; vm_compute; lia) ltac:(cbn; lia))
    as [g' (E & D & _)].
  exists g'. split; [exact E|].
  assert (Hs : should_stop g' = false /\ records (storage g') green_classifications = []).
  { vm_compute in E. inversion E. split; reflexivity. }
  split; [|apply Hs]. apply (D (proj1 Hs) patent_1). left. reflexivity.
Defined.

End LoopFacts.

(* ===================================================================== *)
(** * Facts about the reading of the spreadsheets *)
(* ===================================================================== *)

Module IntakeFacts.

(** ** [strip] *)

Lemma lstrip_idem (s : pystr) : lstrip (lstrip s) = lstrip s.
Proof.
  induction s as [|c s IH]; [reflexivity|]. cbn.
  destruct (isspace c) eqn:E; [exact IH|]. cbn. rewrite E. reflexivity.
Qed.

Lemma lstrip_snoc (s : pystr) (c : N) :
  isspace c = false -> lstrip (s ++ [c]) = lstrip s ++ [c].
Proof.
  intros Hc. induction s as [|d s IH]; cbn; [rewrite Hc; reflexivity|].
  destruct (isspace d); [exact IH|reflexivity].
Qed.

Lemma lstrip_head (s : pystr) :
  match lstrip s with
  | [] => True
  | c :: _ => isspace c = false
  end.
Proof.
  induction s as [|c s IH]; cbn; [exact I|].
  destruct (isspace c) eqn:E; [exact IH|exact E].
Qed.

Lemma lstrip_last (s : pystr) (d : N) :
  lstrip s <> [] -> last (lstrip s) d = last s d.
Proof.
  induction s as [|c s IH]; cbn; [congruence|].
  destruct (isspace c) eqn:E.
  - intros H. rewrite (IH H). destruct s; [cbn in H; congruence|reflexivity].
  - intros _. reflexivity.
Qed.

Lemma last_rev_head (s : pystr) (c d : N) : last (rev (c :: s)) d = c.
Proof. cbn. apply last_last. Qed.

Lemma head_rev_last (s : pystr) (d : N) :
  s <> [] -> exists t, rev s = last s d :: t.
Proof.
  intros H. destruct (exists_last H) as [l [a ->]].
  rewrite rev_app_distr, last_last. cbn. eauto.
Qed.

Lemma strip_stripped (s : pystr) : stripped (strip s).
Proof.
  unfold strip.
  pose proof (lstrip_head s) as Hh.
  destruct (lstrip s) as [|c t] eqn:Et; [exact I|].
  pose proof (lstrip_head (rev (c :: t))) as Hr.
  assert (Hne : lstrip (rev (c :: t)) <> []).
  { cbn [rev]. rewrite lstrip_snoc by exact Hh. destruct (lstrip (rev t)); discriminate. }
  pose proof (lstrip_last (rev (c :: t)) 0%N Hne) as Hl.
  rewrite last_rev_head in Hl.
  destruct (lstrip (rev (c :: t))) as [|e w] eqn:Ew; [congruence|].
  destruct (head_rev_last (e :: w) 0%N ltac:(discriminate)) as [v Ev].
  rewrite Ev. unfold stripped. split; [rewrite Hl; exact Hh|].
  rewrite <- Ev. rewrite last_rev_head. exact Hr.
Qed.

Lemma stripped_strip (s : pystr) : stripped s -> strip s = s.
Proof.
  unfold stripped, strip. destruct s as [|c t]; [reflexivity|]. intros [Hc Hl].
  assert (E1 : lstrip (c :: t) = c :: t) by (cbn; rewrite Hc; reflexivity).
  rewrite E1.
  destruct (head_rev_last (c :: t) 0%N ltac:(discriminate)) as [v Ev].
  rewrite Ev. cbn [lstrip]. rewrite Hl. rewrite <- Ev. apply rev_involutive.
Qed.

Lemma strip_idem (s : pystr) : strip (strip s) = strip s.
Proof. apply stripped_strip, strip_stripped. Qed.

Lemma lstrip_In (s : pystr) (c : N) : In c (lstrip s) -> In c s.
Proof.
  induction s as [|d s IH]; cbn; [auto|].
  destruct (isspace d); [intros H; right; apply IH; exact H|auto].
Qed.

Lemma strip_In (s : pystr) (c : N) : In c (strip s) -> In c s.
Proof.
  unfold strip. intros H. apply in_rev in H. apply lstrip_In in H.
  apply in_rev in H. apply lstrip_In in H. exact H.
Qed.

Lemma lstrip_length (s : pystr) : length (lstrip s) <= length s.
Proof.
  induction s as [|d s IH]; cbn; [lia|]. destruct (isspace d); cbn; lia.
Qed.

Lemma strip_length (s : pystr) : length (strip s) <= length s.
Proof.
  unfold strip. rewrite length_rev.
  pose proof (lstrip_length (rev (lstrip s))). rewrite length_rev in H.
  pose proof (lstrip_length s). lia.
Qed.

(** ** [str.replace] of one character by nothing *)

Lemma replace_char_filter (c : N) (s : pystr) :
  str_replace [c] [] s = filter (fun x => negb (c =? x)%N) s.
Proof.
  unfold str_replace. induction s as [|d s IH]; [reflexivity|].
  cbn [replace_from startswith filter length Nat.sub app].
  destruct (c =? d)%N; cbn [andb negb]; rewrite IH; reflexivity.
Qed.

Lemma filter_id {A : Type} (f : A -> bool) (l : list A) :
  (forall x, In x l -> f x = true) -> filter f l = l.
Proof.
  induction l as [|a l IH]; intros H; [reflexivity|]. cbn.
  rewrite (H a (or_introl eq_refl)). f_equal. apply IH. intros x Hx. apply H. right. exact Hx.
Qed.

Lemma last_filter (f : N -> bool) (d : N) (s : pystr) :
  s <> [] -> f (last s d) = true ->
  filter f s <> [] /\ last (filter f s) d = last s d.
Proof.
  induction s as [|a s IH]; [congruence|]. intros _ Hl.
  destruct s as [|b t].
  - cbn in *. rewrite Hl. split; [discriminate|reflexivity].
  - change (last (a :: b :: t) d) with (last (b :: t) d) in *.
    destruct (IH ltac:(discriminate) Hl) as [Hne E].
    cbn [filter] in *. destruct (f a).
    + split; [discriminate|]. destruct (if f b then b :: filter f t else filter f t);
        [congruence|exact E].
    + split; [exact Hne|exact E].
Qed.

Lemma filter_keeps_ends (f : N -> bool) (s : pystr) :
  (forall c, f c = false -> isspace c = true) ->
  stripped s -> stripped (filter f s).
Proof.
  intros Hf. destruct s as [|c t]; [intros _; exact I|]. intros [Hc Hl].
  assert (Hfc : f c = true).
  { destruct (f c) eqn:E; [reflexivity|]. rewrite (Hf c E) in Hc. discriminate. }
  assert (Hfl : f (last (c :: t) 0%N) = true).
  { destruct (f (last (c :: t) 0%N)) eqn:E; [reflexivity|].
    rewrite (Hf _ E) in Hl. discriminate. }
  destruct (last_filter f 0%N (c :: t) ltac:(discriminate) Hfl) as [_ E].
  cbn [filter] in *. rewrite Hfc in *. split; [exact Hc|]. rewrite E. exact Hl.
Qed.

(** ** [_normalize_patent_number] *)

Lemma normalize_patent_number_eq (x : value) :
  _normalize_patent_number x
  = if missing x then None
    else match filter (fun c => negb (10 =? c)%N)
                      (filter (fun c => negb (32 =? c)%N) (strip (str_of x))) with
         | [] => None
         | r => Some r
         end.
Proof.
  unfold _normalize_patent_number. destruct (missing x); [reflexivity|].
  change (u " ") with [32%N]. cbv zeta. rewrite !replace_char_filter.
  destruct (filter _ (filter _ _)); reflexivity.
Qed.

Lemma despaced_stripped (s : pystr) :
  stripped s ->
  stripped (filter (fun c => negb (10 =? c)%N) (filter (fun c => negb (32 =? c)%N) s)).
Proof.
  intros H. apply filter_keeps_ends.
  - intros c Hc. apply negb_false_iff, N.eqb_eq in Hc. subst. reflexivity.
  - apply filter_keeps_ends; [|exact H].
    intros c Hc. apply negb_false_iff, N.eqb_eq in Hc. subst. reflexivity.
Qed.

Lemma stripped_nonempty_filter (f : N -> bool) (s : pystr) :
  (forall c, f c = false -> isspace c = true) ->
  stripped s -> s <> [] -> filter f s <> [].
Proof.
  intros Hf Hs Hne. destruct s as [|c t]; [congruence|]. destruct Hs as [Hc _].
  cbn. destruct (f c) eqn:E; [discriminate|]. rewrite (Hf c E) in Hc. discriminate.
Qed.

(** What [_normalize_patent_number] returns. *)
Lemma normalize_patent_number_spec :
  forall (number_str : value),
    match _normalize_patent_number number_str with
    | Some normalized =>
      missing number_str = false
      /\ normalized <> []
      /\ ~ In 32%N normalized /\ ~ In 10%N normalized
      /\ strip normalized = normalized
      /\ (forall c, In c normalized -> In c (str_of number_str))
    | None => missing number_str = true \/ strip (str_of number_str) = []
    end.
Proof.
  intros x. rewrite normalize_patent_number_eq.
  destruct (missing x); [left; reflexivity|].
  pose proof (despaced_stripped _ (strip_stripped (str_of x))) as Hs.
  set (r := filter _ (filter _ _)) in *.
  destruct r as [|c t] eqn:Er.
  - right. destruct (strip (str_of x)) as [|d w] eqn:Ew; [reflexivity|]. exfalso.
    assert (Hst : stripped (d :: w)) by (rewrite <- Ew; apply strip_stripped).
    assert (H1 : filter (fun c => negb (32 =? c)%N) (d :: w) <> []).
    { apply stripped_nonempty_filter; [|exact Hst|discriminate].
      intros c Hc. apply negb_false_iff, N.eqb_eq in Hc. subst. reflexivity. }
    assert (H2 : r <> []).
    { subst r. apply stripped_nonempty_filter; [| |exact H1].
      - intros c Hc. apply negb_false_iff, N.eqb_eq in Hc. subst. reflexivity.
      - apply filter_keeps_ends; [|exact Hst].
        intros c Hc. apply negb_false_iff, N.eqb_eq in Hc. subst. reflexivity. }
    congruence.
  - rewrite <- Er. split; [reflexivity|]. split; [rewrite Er; discriminate|].
    split; [|split; [|split]].
    + subst r. intros H. apply filter_In in H. destruct H as [H _].
      apply filter_In in H. destruct H as [_ H]. discriminate.
    + subst r. intros H. apply filter_In in H. destruct H as [_ H]. discriminate.
    + apply stripped_strip. rewrite Er. exact Hs.
    + intros e He. subst r. apply filter_In in He. destruct He as [He _].
      apply filter_In in He. destruct He as [He _]. apply strip_In. exact He.
Qed.

(** X13.  A number [_normalize_patent_number] returns is not empty, has
    no blank and no line feed, has no space at either end, and is made of
    characters of the [str] of the cell; [None] is returned only for a
    cell that is missing or false, or whose text is nothing but
    spaces. *)
Theorem normalized_patent_number_shape :
  forall (number_str : value),
    match _normalize_patent_number number_str with
    | Some normalized =>
      missing number_str = false
      /\ normalized <> []
      /\ ~ In 32%N normalized /\ ~ In 10%N normalized
      /\ strip normalized = normalized
      /\ (forall c, In c normalized -> In c (str_of number_str))
    | None => missing number_str = true \/ strip (str_of number_str) = []
    end.
Proof. exact normalize_patent_number_spec. Qed.

(** X14.  [_normalize_patent_number] is idempotent: a number it has
    returned is returned unchanged when given back to it. *)
Theorem normalize_patent_number_idempotent :
  forall (number_str : value) (normalized : pystr),
    _normalize_patent_number number_str = Some normalized ->
    _normalize_patent_number (Str normalized) = Some normalized.
Proof.
  intros x r H.
  pose proof (normalize_patent_number_spec x) as S. rewrite H in S.
  destruct S as (_ & Hne & H32 & H10 & Hstrip & _).
  rewrite normalize_patent_number_eq. cbn [missing str_of].
  destruct r as [|c t]; [congruence|]. rewrite Hstrip.
  rewrite (filter_id (fun c => negb (32 =? c)%N)).
  2:{ intros y Hy. apply negb_true_iff, N.eqb_neq. intros <-. contradiction. }
  rewrite (filter_id (fun c => negb (10 =? c)%N)).
  2:{ intros y Hy. apply negb_true_iff, N.eqb_neq. intros <-. contradiction. }
  reflexivity.
Qed.

(** The theorem on a publication number typed with blanks. *)
Lemma normalize_patent_number_idempotent_witness :
  _normalize_patent_number (Str (u " CN 1234567 A ")) = Some (u "CN1234567A")
  /\ _normalize_patent_number (Str (u "CN1234567A")) = Some (u "CN1234567A").
Proof.
  split; [reflexivity|].
  apply (normalize_patent_number_idempotent (Str (u " CN 1234567 A "))). reflexivity.
Defined.

(** ** [_split_entities] *)

Lemma re_split_nonempty (cls : N -> bool) (s : pystr) : re_split cls s <> [].
Proof.
  induction s as [|c s IH]; cbn; [discriminate|].
  destruct (cls c); [discriminate|]. destruct (re_split cls s); discriminate.
Qed.

Lemma re_split_parts (cls : N -> bool) (s : pystr) :
  Forall (fun w => forall c, In c w -> cls c = false /\ In c s) (re_split cls s).
Proof.
  induction s as [|c s IH]; cbn [re_split].
  - constructor; [intros c []|constructor].
  - destruct (cls c) eqn:Ec.
    + constructor; [intros d []|].
      eapply Forall_impl; [|exact IH]. cbn. intros w Hw d Hd.
      destruct (Hw d Hd). split; [assumption|right; assumption].
    + destruct (re_split cls s) as [|w ws]; [constructor; [|constructor]|].
      * intros d [<-|[]]. split; [exact Ec|left; reflexivity].
      * inversion IH as [|? ? Hw Hws]; subst. constructor.
        -- intros d [<-|Hd]; [split; [exact Ec|left; reflexivity]|].
           destruct (Hw d Hd). split; [assumption|right; assumption].
        -- eapply Forall_impl; [|exact Hws]. cbn. intros v Hv d Hd.
           destruct (Hv d Hd). split; [assumption|right; assumption].
Qed.

Lemma re_split_app (cls : N -> bool) (w s : pystr) :
  (forall c, In c w -> cls c = false) ->
  re_split cls (w ++ s)
  = match re_split cls s with
    | x :: xs => (w ++ x) :: xs
    | [] => [w]
    end.
Proof.
  induction w as [|c w IH]; intros H; cbn [app re_split].
  - pose proof (re_split_nonempty cls s) as Hne.
    destruct (re_split cls s); [congruence|reflexivity].
  - rewrite (H c (or_introl eq_refl)). rewrite IH by (intros d Hd; apply H; right; exact Hd).
    destruct (re_split cls s); reflexivity.
Qed.

Lemma re_split_join (cls : N -> bool) (sep : N) (names : list pystr) :
  cls sep = true ->
  names <> [] ->
  (forall n c, In n names -> In c n -> cls c = false) ->
  re_split cls (join [sep] names) = names.
Proof.
  intros Hsep. induction names as [|n names IH]; [congruence|]. intros _ H.
  destruct names as [|m names].
  - cbn [join]. rewrite <- (app_nil_r n) at 1. rewrite re_split_app.
    + cbn. rewrite app_nil_r. reflexivity.
    + intros c Hc. apply (H n c); [left; reflexivity|exact Hc].
  - change (join [sep] (n :: m :: names)) with (n ++ [sep] ++ join [sep] (m :: names)).
    rewrite re_split_app by (intros c Hc; apply (H n c); [left; reflexivity|exact Hc]).
    cbn [app re_split]. rewrite Hsep. rewrite app_nil_r. f_equal.
    apply IH; [discriminate|]. intros k c Hk Hc. apply (H k c); [right; exact Hk|exact Hc].
Qed.

(** What [_split_entities] returns. *)
Lemma split_entities_spec (entity_str : value) :
  Forall (fun e => 2 <= length e
                   /\ strip e = e
                   /\ forall c, In c e -> is_separator c = false /\ In c (str_of entity_str))
         (_split_entities entity_str).
Proof.
  unfold _split_entities. destruct (missing entity_str); [constructor|]. cbv zeta.
  apply Forall_forall. intros e He. apply in_map_iff in He. destruct He as [w [<- Hw]].
  apply filter_In in Hw. destruct Hw as [Hw Hk].
  pose proof (re_split_parts is_separator (strip (str_of entity_str))) as P.
  rewrite Forall_forall in P. specialize (P w Hw).
  split; [|split].
  - destruct (strip w); [discriminate|]. apply Nat.leb_le. exact Hk.
  - apply strip_idem.
  - intros c Hc. apply strip_In in Hc. destruct (P c Hc) as [P1 P2].
    split; [exact P1|]. apply strip_In. exact P2.
Qed.

(** X15.  Every name [_split_entities] returns has at least two
    characters, no space at either end, none of the four separators, and
    is made of characters of the [str] of the cell. *)
Theorem split_entities_shape :
  forall (entity_str : value),
    Forall (fun e => 2 <= length e
                     /\ strip e = e
                     /\ forall c, In c e -> is_separator c = false /\ In c (str_of entity_str))
           (_split_entities entity_str).
Proof. exact split_entities_spec. Qed.

Lemma stripped_join (sep : pystr) (names : list pystr) :
  names <> [] ->
  (forall n, In n names -> n <> [] /\ stripped n) ->
  stripped (join sep names) /\ join sep names <> []
  /\ hd 0%N (join sep names) = hd 0%N (hd [] names).
Proof.
  induction names as [|n names IH]; [congruence|]. intros _ H.
  destruct (H n (or_introl eq_refl)) as [Hne Hs].
  destruct names as [|m names].
  - cbn [join hd]. tauto.
  - change (join sep (n :: m :: names)) with (n ++ sep ++ join sep (m :: names)).
    destruct (IH ltac:(discriminate) (fun k Hk => H k (or_intror Hk))) as (Is & Ine & _).
    destruct n as [|c t]; [congruence|]. destruct Hs as [Hc _].
    split; [|split; [discriminate|reflexivity]].
    cbn [app]. split; [exact Hc|].
    set (rest := join sep (m :: names)) in *.
    assert (El : last (c :: t ++ sep ++ rest) 0%N = last rest 0%N).
    { destruct (exists_last Ine) as [l [a El]]. rewrite El.
      rewrite !app_assoc, app_comm_cons, last_last, last_last. reflexivity. }
    rewrite El. destruct rest; [congruence|]. destruct Is as [_ Il]. exact Il.
Qed.

(** X16.  [_split_entities] undoes the joining of names by a semicolon:
    names of at least two characters each, without a space at either end
    and without a separator, are returned as they were, in their
    order. *)
Theorem split_entities_inverts_join :
  forall (names : list pystr),
    (forall n, In n names ->
               2 <= length n /\ strip n = n /\ forall c, In c n -> is_separator c = false) ->
    _split_entities (Str (join (u ";") names)) = names.
Proof.
  intros names H. destruct names as [|n0 names0] eqn:En; [reflexivity|].
  rewrite <- En in *. assert (Hne : names <> []) by (rewrite En; discriminate).
  clear En n0 names0.
  assert (Hs : forall n, In n names -> n <> [] /\ stripped n).
  { intros n Hn. destruct (H n Hn) as (Hl & Hst & _). split.
    - destruct n; [cbn in Hl; lia|discriminate].
    - rewrite <- Hst. apply strip_stripped. }
  destruct (stripped_join (u ";") names Hne Hs) as (Js & Jne & _).
  assert (Hm : missing (Str (join (u ";") names)) = false).
  { cbn [missing]. destruct (join (u ";") names); [congruence|reflexivity]. }
  unfold _split_entities. rewrite Hm. cbn [str_of].
  cbv zeta. rewrite (stripped_strip _ Js).
  change (u ";") with [59%N]. rewrite re_split_join.
  - rewrite filter_id.
    + rewrite <- (map_id names) at 2. apply map_ext_in.
      intros n Hn. apply (H n Hn).
    + intros n Hn. destruct (H n Hn) as (Hl & Hst & _). rewrite Hst.
      destruct n as [|a [|b n]]; cbn in Hl; try lia. reflexivity.
  - reflexivity.
  - exact Hne.
  - intros n c Hn Hc. apply (H n Hn). exact Hc.
Qed.

(** The theorem on two applicants. *)
Lemma split_entities_inverts_join_witness :
  _split_entities (Str (u "北京氢能有限公司;Toyota Motor Corp"))
  = [u "北京氢能有限公司"; u "Toyota Motor Corp"].
Proof.
  apply (split_entities_inverts_join [u "北京氢能有限公司"; u "Toyota Motor Corp"]).
  intros n [<-|[<-|[]]]; (split; [cbn; lia|]); (split; [reflexivity|]);
    intros c Hc; destruct (is_separator c) eqn:E; try reflexivity;
    exfalso; unfold is_separator in E; apply existsb_eqb_In in E;
    cbn in Hc, E; repeat (destruct Hc as [<-|Hc]; [repeat (destruct E as [E|E]; [discriminate|]); exact E|]);
    exact Hc.
Defined.

(** ** [_normalize_entity_name] *)

Lemma In_firstn_str (n : nat) (l : pystr) (x : N) : In x (firstn n l) -> In x l.
Proof.
  intros H. rewrite <- (firstn_skipn n l). apply in_or_app. left. exact H.
Qed.

(** What [_normalize_entity_name] returns. *)
Lemma normalize_entity_name_spec (name_str : pystr) :
  match _normalize_entity_name name_str with
  | None => length (strip name_str) < 2
  | Some name =>
    2 <= length (strip name_str)
    /\ 2 <= length name
    /\ (name = strip name_str
        \/ (length name <= length (strip name_str)
            /\ forall c, In c name ->
                         isspace c = false /\ is_bracket c = false /\ In c name_str))
  end.
Proof.
  unfold _normalize_entity_name.
  destruct name_str as [|c0 s0] eqn:Es; [cbn; lia|]. rewrite <- Es. clear Es c0 s0.
  cbv zeta. set (name := strip name_str).
  destruct (Nat.ltb_spec (length name) 2) as [H1|H1]; [exact H1|].
  set (cut := match find (fun suffix => endswith suffix name) common_suffixes with
              | Some suffix => strip (firstn (length name - length suffix) name)
              | None => name
              end).
  assert (Hcut : length cut <= length name /\ forall c, In c cut -> In c name).
  { subst cut. destruct (find _ common_suffixes) as [suffix|]; [|split; [lia|auto]].
    split.
    - pose proof (strip_length (firstn (length name - length suffix) name)) as L.
      rewrite length_firstn in L. lia.
    - intros c Hc. apply strip_In in Hc. apply In_firstn_str in Hc. exact Hc. }
  destruct Hcut as [Hlen Hin].
  destruct (Nat.ltb_spec (length cut) 2) as [H2|H2]; [split; [exact H1|split; [exact H1|left; reflexivity]]|].
  set (r := remove_chars is_bracket (remove_chars isspace cut)).
  destruct (Nat.leb_spec 2 (length r)) as [H3|H3];
    [|split; [exact H1|split; [exact H1|left; reflexivity]]].
  split; [exact H1|]. split; [exact H3|]. right. split.
  - subst r. unfold remove_chars.
    pose proof (filter_length_le (fun c => negb (is_bracket c))
                                 (filter (fun c => negb (isspace c)) cut)) as L1.
    pose proof (filter_length_le (fun c => negb (isspace c)) cut) as L2. lia.
  - intros c Hc. subst r. unfold remove_chars in Hc.
    apply filter_In in Hc. destruct Hc as [Hc Hb].
    apply filter_In in Hc. destruct Hc as [Hc Hw].
    apply negb_true_iff in Hb, Hw. split; [exact Hw|]. split; [exact Hb|].
    apply strip_In. apply Hin. exact Hc.
Qed.

(** X17.  [_normalize_entity_name] returns [None] exactly when the name
    has fewer than two characters once stripped.  A name it returns has
    at least two characters and is either the stripped original or a
    name no longer than it, without spaces or brackets, made of
    characters of the original. *)
Theorem normalized_entity_name_shape :
  forall (name_str : pystr),
    match _normalize_entity_name name_str with
    | None => length (strip name_str) < 2
    | Some name =>
      2 <= length (strip name_str)
      /\ 2 <= length name
      /\ (name = strip name_str
          \/ (length name <= length (strip name_str)
              /\ forall c, In c name ->
                           isspace c = false /\ is_bracket c = false /\ In c name_str))
    end.
Proof. exact normalize_entity_name_spec. Qed.

(** Every string met that has a normalized name has an entry of the
    catalog under that name. *)
Lemma catalog_complete (patents : list Patent) (x k : pystr) :
  In x (raw_names patents) ->
  _normalize_entity_name x = Some k ->
  exists e, In e (_extract_entities_from_patents patents) /\ normalizedName e = k.
Proof.
  intros Hx Hk.
  destruct (dict_invariant_fold (raw_names patents)) as (_ & Hent & Hall).
  assert (Hne : k <> []).
  { pose proof (normalize_entity_name_spec x) as S. rewrite Hk in S.
    destruct S as (_ & S & _). destruct k; [cbn in S; lia|discriminate]. }
  specialize (Hall x k Hx Hk Hne). apply in_map_iff in Hall.
  destruct Hall as [[k' e] [Ek Hin]]. cbn in Ek. subst k'.
  exists e. split.
  - rewrite extract_entities_fold. apply in_map_iff. exists (k, e). split; [reflexivity|exact Hin].
  - apply (Hent k e Hin).
Qed.

(** X18.  Every name [_split_entities] reads in the applicants or owners
    cell of a patent has a normalized name of at least two characters,
    and [_extract_entities_from_patents] holds an entity under that name,
    whose type is one of the two the source gives. *)
Theorem every_split_name_is_in_the_catalog :
  forall (patents : list Patent) (p : Patent) (cell : value) (x : pystr),
    In p patents ->
    applicants p = _split_entities cell \/ currentOwners p = _split_entities cell ->
    In x (_split_entities cell) ->
    exists e,
      In e (_extract_entities_from_patents patents)
      /\ _normalize_entity_name x = Some (normalizedName e)
      /\ 2 <= length (normalizedName e)
      /\ (type e = u "企业" \/ type e = u "个人/其他").
Proof.
  intros patents p cell x Hp Hcell Hx.
  pose proof (split_entities_spec cell) as S. rewrite Forall_forall in S.
  destruct (S x Hx) as (Hl & Hs & _).
  pose proof (normalize_entity_name_spec x) as N.
  destruct (_normalize_entity_name x) as [k|] eqn:Ek; [|rewrite Hs in N; lia].
  destruct N as (_ & Hk & _).
  assert (Hraw : In x (raw_names patents)).
  { unfold raw_names. apply in_flat_map. exists p. split; [exact Hp|].
    apply in_or_app. destruct Hcell as [-> | ->]; [left|right]; exact Hx. }
  destruct (catalog_complete patents x k Hraw Ek) as [e [He Hn]].
  exists e. split; [exact He|]. split; [rewrite Hn; reflexivity|].
  split; [rewrite Hn; exact Hk|].
  destruct (dict_invariant_fold (raw_names patents)) as (_ & Hent & _).
  rewrite extract_entities_fold in He. apply in_map_iff in He.
  destruct He as [[k' e'] [Ee Hin]]. cbn in Ee. subst e'.
  clear - Hin.
  assert (G : forall raws d0,
             (forall k e, In (k, e) d0 -> type e = u "企业" \/ type e = u "个人/其他") ->
             forall k e, In (k, e) (fold_left add_entity raws d0) ->
                         type e = u "企业" \/ type e = u "个人/其他").
  { induction raws as [|r raws IH]; intros d0 H0 k2 e2 H; [eapply H0; exact H|].
    cbn [fold_left] in H. eapply IH; [|exact H].
    intros k1 e1 H1. unfold add_entity in H1.
    destruct (_normalize_entity_name r) as [[|c n]|]; try (eapply H0; exact H1).
    destruct (dict_has (c :: n) d0); [eapply H0; exact H1|].
    apply in_app_or in H1. destruct H1 as [H1|[H1|[]]]; [eapply H0; exact H1|].
    inversion H1. cbn. unfold entity_type. destruct (existsb _ _); auto. }
  eapply G; [|exact Hin]. intros ? ? [].
Qed.

(** ** [_load_patents_from_excel] *)

Lemma rows_loop (tech_code : pystr) (rows : list row) :
  forall all_patents,
    fold_left (fun all_patents r =>
                 match patent_of_row tech_code r with
                 | Some patent_data => all_patents ++ [patent_data]
                 | None => all_patents
                 end) rows all_patents
    = all_patents ++ kept_rows tech_code rows.
Proof.
  induction rows as [|r rows IH]; intros acc; cbn [fold_left kept_rows flat_map].
  - rewrite app_nil_r. reflexivity.
  - rewrite IH. fold (kept_rows tech_code rows).
    destruct (patent_of_row tech_code r); [rewrite <- app_assoc|]; reflexivity.
Qed.

Lemma load_loop (data_dir : pystr -> workbook) (mapping : list (pystr * pystr)) :
  forall (acc : list PatentData) (log : list (level * load_message)),
    fst (fold_left
           (fun state entry =>
              let '(all_patents, log) := state in
              let '(filename, tech_code) := entry in
              match data_dir filename with
              | Absent => (all_patents, log ++ [(WARNING, MsgFileMissing filename)])
              | Unreadable => (all_patents, log ++ [(ERROR, MsgFileFailed filename)])
              | Sheet rows =>
                (fold_left
                   (fun all_patents r =>
                      match patent_of_row tech_code r with
                      | Some patent_data => all_patents ++ [patent_data]
                      | None => all_patents
                      end)
                   rows all_patents,
                 log ++ [(INFO, MsgFileRead filename (length rows))])
              end)
           mapping (acc, log))
    = acc ++ flat_map (fun entry => match data_dir (fst entry) with
                                    | Sheet rows => kept_rows (snd entry) rows
                                    | _ => []
                                    end) mapping.
Proof.
  induction mapping as [|[filename code] mapping IH]; intros acc log;
    cbn [fold_left flat_map fst snd].
  - rewrite app_nil_r. reflexivity.
  - destruct (data_dir filename) as [| |rows]; rewrite IH; [reflexivity|reflexivity|].
    rewrite rows_loop, <- app_assoc. reflexivity.
Qed.

Lemma load_patents_eq (data_dir : pystr -> workbook) (mapping : list (pystr * pystr)) :
  fst (_load_patents_from_excel data_dir mapping)
  = flat_map (fun entry => match data_dir (fst entry) with
                           | Sheet rows => kept_rows (snd entry) rows
                           | _ => []
                           end) mapping.
Proof. unfold _load_patents_from_excel. rewrite load_loop. reflexivity. Qed.

Lemma text_or_none_spec (x : value) (s : pystr) :
  text_or_none x = Some s -> s <> [] /\ strip s = s /\ s = strip (str_of x).
Proof.
  unfold text_or_none. destruct (strip (str_of x)) as [|c t] eqn:E; [discriminate|].
  intros H. inversion H. subst s. split; [discriminate|]. split; [|reflexivity].
  rewrite <- E. apply strip_idem.
Qed.

(** What a row that is kept gives. *)
Lemma patent_of_row_spec (tech_code : pystr) (r : row) (pd : PatentData) :
  patent_of_row tech_code r = Some pd ->
  let p := patent pd in
  techDomainCode pd = tech_code
  /\ pubNumber pd = _normalize_patent_number (row_get r (u "公开(公告)号") PyNone)
  /\ appNumber pd = _normalize_patent_number (row_get r (u "申请号") PyNone)
  /\ (pubNumber pd = Some (patentId p)
      \/ (pubNumber pd = None /\ appNumber pd = Some (patentId p)))
  /\ patentId p <> [] /\ ~ In 32%N (patentId p) /\ ~ In 10%N (patentId p)
  /\ titleZh p <> [] /\ strip (titleZh p) = titleZh p
  /\ abstractZh p <> [] /\ strip (abstractZh p) = abstractZh p
  /\ applicants p = _split_entities (row_get r (u "申请人") PyNone)
  /\ currentOwners p = _split_entities (row_get r (u "当前权利人") PyNone).
Proof.
  unfold patent_of_row. cbv zeta.
  pose proof (normalize_patent_number_spec (row_get r (u "公开(公告)号") PyNone)) as Sp.
  pose proof (normalize_patent_number_spec (row_get r (u "申请号") PyNone)) as Sa.
  destruct (text_or_none (row_get r (u "标题 (中文)") (Str []))) as [title|] eqn:Et.
  2:{ destruct (_normalize_patent_number (row_get r (u "公开(公告)号") PyNone));
        destruct (_normalize_patent_number (row_get r (u "申请号") PyNone)); discriminate. }
  destruct (text_or_none (row_get r (u "摘要 (中文)") (Str []))) as [abstract|] eqn:Ea.
  2:{ destruct (_normalize_patent_number (row_get r (u "公开(公告)号") PyNone));
        destruct (_normalize_patent_number (row_get r (u "申请号") PyNone)); discriminate. }
  destruct (text_or_none_spec _ _ Et) as (T1 & T2 & _).
  destruct (text_or_none_spec _ _ Ea) as (A1 & A2 & _).
  destruct (_normalize_patent_number (row_get r (u "公开(公告)号") PyNone)) as [pub|];
    destruct (_normalize_patent_number (row_get r (u "申请号") PyNone)) as [app|];
    intros H; inversion H; subst pd; cbn [patent pubNumber appNumber techDomainCode
                                          patentId titleZh abstractZh applicants
                                          currentOwners];
    repeat split; try tauto; try reflexivity; try assumption;
    try (left; reflexivity); try (right; split; reflexivity).
Qed.

(** X19.  [_load_patents_from_excel] returns the patents of the rows that
    are kept, file by file in the order of the mapping and row by row; a
    missing or unreadable file gives none.  Every patent returned comes
    from a row of a file of the mapping and carries that file's domain
    code; its id is its publication number or, without one, its
    application number; the id is not empty and has no blank and no line
    feed; its title and abstract are not empty and have no space at
    either end; its applicants and owners have at least two characters
    each and no space at either end. *)
Theorem loaded_patents_are_well_formed :
  forall (data_dir : pystr -> workbook) (mapping : list (pystr * pystr)),
    fst (_load_patents_from_excel data_dir mapping)
    = flat_map (fun entry => match data_dir (fst entry) with
                             | Sheet rows => kept_rows (snd entry) rows
                             | _ => []
                             end) mapping
    /\ forall pd, In pd (fst (_load_patents_from_excel data_dir mapping)) ->
         let p := patent pd in
         (exists filename rows r,
             In (filename, techDomainCode pd) mapping
             /\ data_dir filename = Sheet rows /\ In r rows
             /\ patent_of_row (techDomainCode pd) r = Some pd)
         /\ (pubNumber pd = Some (patentId p)
             \/ (pubNumber pd = None /\ appNumber pd = Some (patentId p)))
         /\ patentId p <> [] /\ ~ In 32%N (patentId p) /\ ~ In 10%N (patentId p)
         /\ titleZh p <> [] /\ strip (titleZh p) = titleZh p
         /\ abstractZh p <> [] /\ strip (abstractZh p) = abstractZh p
         /\ Forall (fun e => 2 <= length e /\ strip e = e)
                   (applicants p ++ currentOwners p).
Proof.
  intros data_dir mapping. split; [apply load_patents_eq|].
  intros pd Hin p. rewrite load_patents_eq in Hin.
  apply in_flat_map in Hin. destruct Hin as [[filename code] [Hmap Hin]].
  cbn [fst snd] in Hin. destruct (data_dir filename) as [| |rows] eqn:Ed; try destruct Hin.
  unfold kept_rows in Hin. apply in_flat_map in Hin. destruct Hin as [r [Hr Hin]].
  destruct (patent_of_row code r) as [pd'|] eqn:Er; [|destruct Hin].
  destruct Hin as [<-|[]].
  destruct (patent_of_row_spec code r pd' Er)
    as (Hc & _ & _ & Hid & I1 & I2 & I3 & T1 & T2 & A1 & A2 & Happ & Hown).
  split.
  { exists filename, rows, r. rewrite Hc. tauto. }
  split; [exact Hid|]. repeat (split; [assumption|]).
  subst p. rewrite Happ, Hown. apply Forall_app. split;
    (eapply Forall_impl; [|apply split_entities_spec]); cbn; intros e (H1 & H2 & _);
    split; assumption.
Qed.

(** The theorem on [sample_dir]: one patent is read, from the first row
    of the one readable sheet. *)
Lemma loaded_patents_are_well_formed_witness :
  exists pd,
    fst (_load_patents_from_excel sample_dir file_mapping) = [pd]
    /\ patentId (patent pd) = u "CN1234567A"
    /\ appNumber pd = Some (u "2020101234567")
    /\ applicants (patent pd) = [u "北京氢能有限公司"; u "张三"]
    /\ currentOwners (patent pd) = []
    /\ strip (titleZh (patent pd)) = titleZh (patent pd).
Proof.
  eexists. split; [vm_compute; reflexivity|].
  split; [reflexivity|]. split; [reflexivity|]. split; [reflexivity|].
  split; [reflexivity|].
  match goal with |- strip (titleZh (patent ?pd)) = _ =>
    destruct (proj2 (loaded_patents_are_well_formed sample_dir file_mapping) pd)
      as (_ & _ & _ & _ & _ & _ & T & _)
  end.
  - vm_compute. left. reflexivity.
  - exact T.
Defined.

(** X20.  A row whose title cell is empty (a [nan] in the data frame) is
    not passed over for want of a title: when it has a number and an
    abstract, the patent is kept with the three letters [nan] as its
    title, the [str] of the cell. *)
Theorem empty_title_cell_is_read_as_nan :
  forall (tech_code : pystr) (r : row),
    row_get r (u "标题 (中文)") (Str []) = NaN ->
    (_normalize_patent_number (row_get r (u "公开(公告)号") PyNone) <> None
     \/ _normalize_patent_number (row_get r (u "申请号") PyNone) <> None) ->
    text_or_none (row_get r (u "摘要 (中文)") (Str [])) <> None ->
    exists pd,
      patent_of_row tech_code r = Some pd /\ titleZh (patent pd) = u "nan".
Proof.
  intros code r Ht Hn Ha. unfold patent_of_row. cbv zeta. rewrite Ht.
  change (text_or_none NaN) with (Some (u "nan")).
  destruct (text_or_none (row_get r (u "摘要 (中文)") (Str []))) as [abstract|];
    [|congruence].
  destruct (_normalize_patent_number (row_get r (u "公开(公告)号") PyNone));
    destruct (_normalize_patent_number (row_get r (u "申请号") PyNone));
    try (eexists; split; reflexivity).
  destruct Hn; congruence.
Qed.

(** The theorem on the first row of [sample_dir]. *)
Lemma empty_title_cell_is_read_as_nan_witness :
  exists pd,
    patent_of_row (u "H1.1") sample_row_1 = Some pd /\ titleZh (patent pd) = u "nan".
Proof.
  apply (empty_title_cell_is_read_as_nan (u "H1.1") sample_row_1).
  - reflexivity.
  - left. vm_compute. discriminate.
  - vm_compute. discriminate.
Defined.

(** The theorem on the applicants of the one patent read from
    [sample_dir]. *)
Lemma every_split_name_is_in_the_catalog_witness :
  exists e,
    In e (_extract_entities_from_patents
            (map patent (fst (_load_patents_from_excel sample_dir file_mapping))))
    /\ _normalize_entity_name (u "北京氢能有限公司") = Some (normalizedName e)
    /\ 2 <= length (normalizedName e).
Proof.
  destruct (every_split_name_is_in_the_catalog
              (map patent (fst (_load_patents_from_excel sample_dir file_mapping)))
              (mkPatent (u "CN1234567A") (u "nan") (u "本发明公开了一种电解槽") None
                        [u "北京氢能有限公司"; u "张三"] [])
              (Str (u "北京氢能有限公司; 张三;李"))
              (u "北京氢能有限公司"))
    as [e (H1 & H2 & H3 & _)].
  - vm_compute. left. reflexivity.
  - left. vm_compute. reflexivity.
  - vm_compute. left. reflexivity.
  - exists e. split; [exact H1|]. split; [exact H2|exact H3].
Defined.

End IntakeFacts.

(* ===================================================================== *)
(** * Facts about the sessions and [main] *)
(* ===================================================================== *)

Module SessionFacts.

(** ** The order of [str] *)

Lemma str_ltb_irrefl (a : pystr) : str_ltb a a = false.
Proof.
  induction a as [|x a IH]; [reflexivity|]. cbn.
  rewrite N.ltb_irrefl, N.eqb_refl, IH. reflexivity.
Qed.

Lemma str_ltb_trans (a b c : pystr) :
  str_ltb a b = true -> str_ltb b c = true -> str_ltb a c = true.
Proof.
  revert b c. induction a as [|x a IH]; intros [|y b] [|z c]; cbn; try discriminate; auto.
  intros H1 H2.
  apply orb_true_iff in H1. apply orb_true_iff in H2. apply orb_true_iff.
  destruct H1 as [H1|H1]; destruct H2 as [H2|H2].
  - left. apply N.ltb_lt in H1, H2. apply N.ltb_lt. lia.
  - apply andb_true_iff in H2. destruct H2 as [H2 _]. apply N.eqb_eq in H2. subst.
    left. exact H1.
  - apply andb_true_iff in H1. destruct H1 as [H1 _]. apply N.eqb_eq in H1. subst.
    left. exact H2.
  - apply andb_true_iff in H1, H2. destruct H1 as [H1 H1'], H2 as [H2 H2'].
    apply N.eqb_eq in H1, H2. subst. right. rewrite N.eqb_refl. cbn.
    eapply IH; eassumption.
Qed.

Lemma str_ltb_total (a b : pystr) :
  str_ltb a b = true \/ a = b \/ str_ltb b a = true.
Proof.
  revert b. induction a as [|x a IH]; intros [|y b]; cbn; auto.
  destruct (N.lt_trichotomy x y) as [H|[H|H]].
  - left. apply N.ltb_lt in H. rewrite H. reflexivity.
  - subst. rewrite N.ltb_irrefl, N.eqb_refl. cbn.
    destruct (IH b) as [H|[H|H]]; [left; exact H|right; left; congruence|right; right; exact H].
  - right. right. apply N.ltb_lt in H. rewrite H. reflexivity.
Qed.

(** [b <= a] and [c <= b] give [c <= a]. *)
Lemma str_geb_trans (a b c : pystr) :
  str_ltb a b = false -> str_ltb b c = false -> str_ltb a c = false.
Proof.
  intros H1 H2. destruct (str_ltb a c) eqn:H3; [|reflexivity]. exfalso.
  destruct (str_ltb_total a b) as [H|[H|H]].
  - congruence.
  - subst. congruence.
  - pose proof (str_ltb_trans _ _ _ H H3). congruence.
Qed.

(** ** [sorted(..., reverse=True)] *)

Lemma insert_desc_perm {A : Type} (key : A -> pystr) (x : A) (l : list A) :
  Permutation (insert_desc key x l) (x :: l).
Proof.
  induction l as [|y l IH]; cbn; [apply Permutation_refl|].
  destruct (str_ltb (key x) (key y)); [|apply Permutation_refl].
  eapply Permutation_trans; [apply perm_skip; exact IH|apply perm_swap].
Qed.

Lemma sorted_reverse_perm {A : Type} (key : A -> pystr) (l : list A) :
  Permutation (sorted_reverse key l) l.
Proof.
  induction l as [|x l IH]; cbn; [constructor|].
  eapply Permutation_trans; [apply insert_desc_perm|]. apply perm_skip. exact IH.
Qed.

Lemma insert_desc_sorted {A : Type} (key : A -> pystr) (x : A) (l : list A) :
  StronglySorted (fun a b => str_ltb (key a) (key b) = false) l ->
  StronglySorted (fun a b => str_ltb (key a) (key b) = false) (insert_desc key x l).
Proof.
  intros H. induction H as [|y l Hs IH Hy]; cbn.
  - constructor; constructor.
  - destruct (str_ltb (key x) (key y)) eqn:E.
    + constructor; [exact IH|].
      apply Forall_forall. intros z Hz.
      apply (Permutation_in _ (insert_desc_perm key x l)) in Hz.
      destruct Hz as [<-|Hz].
      * destruct (str_ltb (key y) (key x)) eqn:E2; [|reflexivity].
        pose proof (str_ltb_trans _ _ _ E E2) as C. rewrite str_ltb_irrefl in C. discriminate.
      * rewrite Forall_forall in Hy. apply Hy. exact Hz.
    + constructor; [constructor; assumption|].
      constructor; [exact E|].
      apply Forall_forall. intros z Hz. rewrite Forall_forall in Hy.
      eapply str_geb_trans; [exact E|apply Hy; exact Hz].
Qed.

Lemma sorted_reverse_sorted {A : Type} (key : A -> pystr) (l : list A) :
  StronglySorted (fun a b => str_ltb (key a) (key b) = false) (sorted_reverse key l).
Proof.
  induction l as [|x l IH]; cbn; [constructor|]. apply insert_desc_sorted. exact IH.
Qed.

(** The stable part: elements with the same key keep their order. *)
Lemma insert_desc_filter {A : Type} (key : A -> pystr) (k : pystr) (x : A) (l : list A) :
  StronglySorted (fun a b => str_ltb (key a) (key b) = false) l ->
  filter (fun a => str_eqb (key a) k) (insert_desc key x l)
  = filter (fun a => str_eqb (key a) k) (x :: l).
Proof.
  intros H. induction H as [|y l Hs IH Hy]; [reflexivity|]. cbn [insert_desc].
  destruct (str_ltb (key x) (key y)) eqn:E; [|reflexivity].
  cbn [filter] in *. rewrite IH.
  destruct (str_eqb (key x) k) eqn:Ex; [|reflexivity].
  destruct (str_eqb (key y) k) eqn:Ey; [|reflexivity].
  apply str_eqb_eq in Ex, Ey. rewrite Ex, Ey, str_ltb_irrefl in E. discriminate.
Qed.

Lemma sorted_reverse_stable {A : Type} (key : A -> pystr) (k : pystr) (l : list A) :
  filter (fun a => str_eqb (key a) k) (sorted_reverse key l)
  = filter (fun a => str_eqb (key a) k) l.
Proof.
  induction l as [|x l IH]; [reflexivity|]. cbn [sorted_reverse fold_right].
  rewrite insert_desc_filter by apply sorted_reverse_sorted.
  cbn [filter]. fold (sorted_reverse key l). rewrite IH. reflexivity.
Qed.

(** X21.  [list_available_sessions] returns the sessions by descending
    session id; they are the sessions found in the directory, each as
    often as found, and sessions with the same id keep the order in which
    they were found.  Without an output directory the list is empty. *)
Theorem sessions_are_listed_latest_first :
  forall (output_dir : directory),
    let sessions := list_available_sessions output_dir in
    StronglySorted (fun a b => str_ltb (session_key a) (session_key b) = false) sessions
    /\ match output_dir with
       | None => sessions = []
       | Some entries =>
         Permutation sessions (found_sessions entries)
         /\ forall sid,
              filter (fun s => str_eqb (session_key s) sid) sessions
              = filter (fun s => str_eqb (session_key s) sid) (found_sessions entries)
       end.
Proof.
  intros [entries|]; cbn.
  - split; [apply sorted_reverse_sorted|]. split; [apply sorted_reverse_perm|].
    intros sid. apply sorted_reverse_stable.
  - split; [constructor|reflexivity].
Qed.

(** ** The session id read off a file name *)

Lemma startswith_app_inv (p t q : pystr) :
  startswith p (t ++ q) = true ->
  (length p <= length t -> startswith p t = true)
  /\ (length t < length p ->
      firstn (length t) p = t /\ startswith (skipn (length t) p) q = true).
Proof.
  revert t. induction p as [|x p IH]; intros t H.
  - split; [reflexivity|cbn; lia].
  - destruct t as [|y t].
    + cbn [app length firstn skipn] in *. split; [cbn; lia|]. intros _. split; [reflexivity|exact H].
    + cbn [app startswith] in H. apply andb_true_iff in H. destruct H as [Hxy H].
      apply N.eqb_eq in Hxy. subst y. destruct (IH t H) as [I1 I2].
      cbn [length firstn skipn startswith]. rewrite N.eqb_refl. cbn [andb]. split.
      * intros L. apply I1. lia.
      * intros L. destruct (I2 ltac:(lia)) as [J1 J2]. rewrite J1. split; [reflexivity|exact J2].
Qed.

Lemma find_from_ge (sub s : pystr) (i : Z) :
  (0 <= i)%Z -> (find_from sub s i = -1 \/ i <= find_from sub s i)%Z.
Proof.
  revert i. induction s as [|c s IH]; intros i Hi; cbn [find_from].
  - destruct (startswith sub []); [right; lia|left; reflexivity].
  - destruct (startswith sub (c :: s)); [right; lia|].
    destruct (IH (i + 1)%Z ltac:(lia)) as [H|H]; [left; exact H|right; lia].
Qed.

Lemma find_from_none (sub s : pystr) (i : Z) :
  (0 <= i)%Z -> (find_from sub s i < 0)%Z ->
  forall pre t, s = pre ++ t -> startswith sub t = false.
Proof.
  revert i. induction s as [|c s IH]; intros i Hi H pre t E; cbn [find_from] in H.
  - destruct pre; [|discriminate]. cbn in E. subst t.
    destruct (startswith sub []); [lia|reflexivity].
  - destruct (startswith sub (c :: s)) eqn:Es; [lia|].
    destruct pre as [|d pre]; cbn in E.
    + subst t. exact Es.
    + inversion E. subst. eapply (IH (i + 1)%Z); [lia|exact H|reflexivity].
Qed.

Lemma contains_false (sub s : pystr) :
  contains sub s = false -> forall pre t, s = pre ++ t -> startswith sub t = false.
Proof.
  unfold contains, str_find. intros H. apply Z.leb_gt in H.
  apply (find_from_none sub s 0); [lia|exact H].
Qed.

Lemma replace_skip_all (old new : pystr) (s : pystr) (k : nat) :
  length s <= k -> replace_from old new k s = [].
Proof.
  revert k. induction s as [|c s IH]; intros k H; [reflexivity|].
  cbn [replace_from]. destruct k as [|k]; [cbn in H; lia|]. apply IH. cbn in H. lia.
Qed.

(** The marker does not overlap itself: no proper suffix of it is a
    prefix of it. *)
Lemma marker_border (m : nat) :
  0 < m < 14 ->
  startswith (skipn m (u "_progress.json")) (u "_progress.json") = false.
Proof.
  intros H.
  do 14 (destruct m as [|m]; [try lia; vm_compute; reflexivity|]). lia.
Qed.

Lemma strip_marker (sid : pystr) :
  contains (u "_progress.json") sid = false ->
  str_replace (u "_progress.json") [] (sid ++ u "_progress.json") = sid.
Proof.
  intros H. pose proof (contains_false _ _ H) as Hno. clear H.
  unfold str_replace. induction sid as [|c sid IH].
  - vm_compute. reflexivity.
  - cbn [app replace_from].
    assert (E : startswith (u "_progress.json") (c :: sid ++ u "_progress.json") = false).
    { destruct (startswith (u "_progress.json") (c :: sid ++ u "_progress.json")) eqn:E;
        [|reflexivity]. exfalso.
      change (c :: sid ++ u "_progress.json") with ((c :: sid) ++ u "_progress.json") in E.
      destruct (startswith_app_inv _ _ _ E) as [I1 I2].
      destruct (Nat.le_gt_cases (length (u "_progress.json")) (length (c :: sid))) as [L|L].
      - specialize (I1 L). rewrite (Hno [] (c :: sid) eq_refl) in I1. discriminate.
      - destruct (I2 L) as [_ J].
        rewrite marker_border in J; [discriminate|].
        change (length (u "_progress.json")) with 14 in L. cbn [length] in *. lia. }
    rewrite E. f_equal. apply IH.
    intros pre t Ept. apply (Hno (c :: pre) t). cbn. rewrite Ept. reflexivity.
Qed.

Lemma endswith_app (p s : pystr) : endswith p (s ++ p) = true.
Proof.
  unfold endswith. rewrite rev_app_distr.
  induction (rev p) as [|x r IH]; [reflexivity|]. cbn. rewrite N.eqb_refl. exact IH.
Qed.

Lemma found_sessions_In (entries : list (pystr * content)) (filename : pystr)
  (c : content) (session : json) :
  In (filename, c) entries ->
  endswith (u "_progress.json") filename = true ->
  session_of_file filename c = Some session ->
  In session (found_sessions entries).
Proof.
  intros Hin He Hs. unfold found_sessions. apply in_flat_map.
  exists (filename, c). split; [exact Hin|]. cbn [fst snd]. rewrite He, Hs. left. reflexivity.
Qed.

Lemma session_of_saved_store (st : JSONStorage) :
  contains (u "_progress.json") (session_id st) = false ->
  session_of_file (file_name (session_id st) (File progress)) (Text (dump st progress))
  = Some (listed_session st).
Proof.
  intros Hsid. unfold session_of_file, listed_session. cbn [file_name file_suffix]. cbv zeta.
  rewrite (strip_marker _ Hsid). cbn [dump].
  destruct (data_progress st) as [pp pe [sid|] [lu|]]; reflexivity.
Qed.

Lemma saved_session_found (entries : list (pystr * content)) (st : JSONStorage) :
  In (file_name (session_id st) (File progress), Text (dump st progress)) entries ->
  contains (u "_progress.json") (session_id st) = false ->
  In (listed_session st) (found_sessions entries).
Proof.
  intros Hin Hsid. eapply found_sessions_In; [exact Hin| |].
  - apply endswith_app.
  - apply session_of_saved_store. exact Hsid.
Qed.

(** X22.  A session whose progress file is in the output directory as its
    store wrote it is listed by [list_available_sessions], under its own
    session id and with the lengths of its two ledgers, provided the id
    does not contain the text [_progress.json]. *)
Theorem saved_session_is_listed :
  forall (entries : list (pystr * content)) (st : JSONStorage),
    In (file_name (session_id st) (File progress), Text (dump st progress)) entries ->
    contains (u "_progress.json") (session_id st) = false ->
    In (listed_session st) (list_available_sessions (Some entries))
    /\ session_key (listed_session st) = session_id st.
Proof.
  intros entries st Hin Hsid. split; [|reflexivity]. cbn [list_available_sessions].
  apply (Permutation_in _ (Permutation_sym (sorted_reverse_perm session_key _))).
  apply saved_session_found; assumption.
Qed.

(** The theorem on the files of [finished_store]. *)
Lemma saved_session_is_listed_witness :
  In (JObject [(u "session_id", JString (u "s1"));
               (u "processed_patents", JInt 1);
               (u "processed_entities", JInt 1);
               (u "last_update", JString (u "2025-01-01T00:00:00"))])
     (list_available_sessions
        (Some [(u "notes.txt", Garbled);
               (u "s1_green_classifications.json",
                Text (dump finished_store green_classifications));
               (u "s1_progress.json", Text (dump finished_store progress))])).
Proof.
  apply (saved_session_is_listed _ finished_store).
  - right. right. left. reflexivity.
  - vm_compute. reflexivity.
Defined.

(** X23.  What [main] does with its arguments.  [--new] starts a new
    session; [--session <id>] resumes that session; [--list] shows the
    sessions; without arguments [main] resumes the session listed first,
    whose id no other listed id exceeds, or starts a new one when none is
    listed; and [--session] without an id does what no argument does. *)
Theorem main_chooses_the_session :
  forall (output_dir : directory) (prog : pystr),
    (* python llm_generate_json.py --new ... *)
    (forall rest, main (prog :: u "--new" :: rest) output_dir = Generate None)
    (* python llm_generate_json.py --session <id> ... *)
    /\ (forall sid rest,
           main (prog :: u "--session" :: sid :: rest) output_dir = Generate (Some sid))
    (* python llm_generate_json.py --list ... *)
    /\ (forall rest,
           main (prog :: u "--list" :: rest) output_dir
           = ShowSessions (list_available_sessions output_dir))
    (* python llm_generate_json.py *)
    /\ (prog <> u "--new" ->
        match list_available_sessions output_dir with
        | [] => main [prog] output_dir = Generate None
        | latest :: others =>
          main [prog] output_dir = Generate (Some (session_key latest))
          /\ forall s, In s others -> str_ltb (session_key latest) (session_key s) = false
        end)
    (* a lone --session falls back to the latest session *)
    /\ (prog <> u "--new" ->
        main [prog; u "--session"] output_dir = main [prog] output_dir).
Proof.
  intros output_dir prog. split; [|split; [|split; [|split]]].
  - intros rest. unfold main. cbn [nth_error].
    change (str_eqb (u "--new") (u "--session")) with false.
    change (str_eqb (u "--new") (u "--list")) with false.
    change (str_eqb (u "--new") (u "--new")) with true. cbv iota beta.
    cbn [existsb]. change (str_eqb (u "--new") (u "--new")) with true.
    rewrite orb_true_r. reflexivity.
  - intros sid rest. unfold main. cbn [nth_error].
    change (str_eqb (u "--session") (u "--session")) with true. reflexivity.
  - intros rest. unfold main. cbn [nth_error].
    change (str_eqb (u "--list") (u "--session")) with false.
    change (str_eqb (u "--list") (u "--list")) with true. reflexivity.
  - intros Hp. unfold main. cbn [nth_error existsb].
    assert (E : str_eqb (u "--new") prog = false).
    { apply str_eqb_neq. congruence. }
    rewrite E. cbn [orb].
    pose proof (sorted_reverse_sorted session_key) as Hs.
    destruct output_dir as [entries|]; cbn [list_available_sessions]; [|reflexivity].
    specialize (Hs (found_sessions entries)).
    destruct (sorted_reverse session_key (found_sessions entries)) as [|latest others];
      [reflexivity|].
    split; [reflexivity|]. inversion Hs as [|? ? _ Hall]; subst.
    rewrite Forall_forall in Hall. exact Hall.
  - intros Hp. unfold main. cbn [nth_error existsb].
    change (str_eqb (u "--session") (u "--session")) with true. cbv iota beta.
    assert (E : str_eqb (u "--new") prog = false).
    { apply str_eqb_neq. congruence. }
    rewrite E. change (str_eqb (u "--new") (u "--session")) with false. reflexivity.
Qed.

(** Two sessions in the directory: the later one is resumed. *)
Lemma main_chooses_the_session_witness :
  main [u "llm_generate_json.py"]
       (Some [(u "20250101_120000_progress.json", Text (dump finished_store progress));
              (u "20250102_080000_progress.json", Text (dump finished_store progress));
              (u "20250102_080000_green_classifications.json", Garbled)])
  = Generate (Some (u "20250102_080000")).
Proof.
  pose proof (proj1 (proj2 (proj2 (proj2
                (main_chooses_the_session
                   (Some [(u "20250101_120000_progress.json",
                           Text (dump finished_store progress));
                          (u "20250102_080000_progress.json",
                           Text (dump finished_store progress));
                          (u "20250102_080000_green_classifications.json", Garbled)])
                   (u "llm_generate_json.py")))))) as H.
  specialize (H ltac:(vm_compute; discriminate)).
  vm_compute in H. destruct H as [H _]. vm_compute. exact H.
Defined.

End SessionFacts.

(* ===================================================================== *)
(** * Facts about the tree of technical domains *)
(* ===================================================================== *)

Module TechDomainFacts.
Import TechDomains.

(** Induction on a node, with the property known of its children. *)
Lemma node_rect_children (P : node -> Prop) :
  (forall zh en lv children,
      match children with
      | Some node_dict => Forall (fun item => P (snd item)) node_dict
      | None => True
      end -> P (Node zh en lv children)) ->
  forall n, P n.
Proof.
  intros H. fix IH 1. intros [zh en lv children]. apply H.
  destruct children as [node_dict|]; [|exact I].
  induction node_dict as [|[c d] rest IHrest]; constructor; [apply IH|exact IHrest].
Qed.

Lemma traverse_item_eq (parent : option pystr) (c : pystr) (zh en : pystr) (lv : Z)
  (children : option (list (pystr * node))) :
  traverse_item parent c (Node zh en lv children)
  = mkDomain c zh en lv parent
      :: match children with
         | Some node_dict => traverse node_dict (Some c)
         | None => []
         end.
Proof.
  cbn [traverse_item]. f_equal. destruct children as [node_dict|]; [|reflexivity].
  unfold traverse. induction node_dict as [|[c' d] rest IH]; [reflexivity|].
  cbn [flat_map fst snd]. rewrite IH. reflexivity.
Qed.

(** The domains of a node: the node itself, then domains whose parents
    are the node or come before them. *)
Lemma traverse_item_parents (n : node) :
  forall (parent : option pystr) (c : pystr),
  exists rest,
    traverse_item parent c n
    = mkDomain c (match n with Node zh _ _ _ => zh end)
               (match n with Node _ en _ _ => en end)
               (match n with Node _ _ lv _ => lv end) parent :: rest
    /\ forall before d after,
         rest = before ++ d :: after ->
         exists p, parent_code d = Some p /\ In p (c :: map code before).
Proof.
  induction n as [zh en lv children IH] using node_rect_children. intros parent c.
  rewrite traverse_item_eq. eexists. split; [reflexivity|].
  destruct children as [node_dict|]; [|intros [|? ?] ? ? E; discriminate].
  induction node_dict as [|[c1 d1] rest IHrest]; [intros [|? ?] ? ? E; discriminate|].
  inversion IH as [|? ? H1 Hrest]; subst. specialize (IHrest Hrest).
  unfold traverse in *. cbn [flat_map fst snd] in *.
  destruct (H1 (Some c) c1) as [r1 [E1 P1]]. rewrite E1.
  intros before d after E.
  destruct before as [|b before]; cbn [app] in E.
  - inversion E. subst. cbn. exists c. split; [reflexivity|left; reflexivity].
  - inversion E as [[Eb E']]. clear E.
    apply app_eq_app in E'. destruct E' as [l [[El Er]|[El Er]]].
    + destruct l as [|x l].
      * cbn [app] in Er. rewrite app_nil_r in El. subst r1.
        destruct (IHrest [] d after (eq_sym Er)) as [p [Hp Hin]].
        exists p. split; [exact Hp|]. destruct Hin as [<-|[]]. left. reflexivity.
      * cbn [app] in Er. inversion Er. subst x.
        destruct (P1 before d l El) as [p [Hp Hin]].
        exists p. split; [exact Hp|]. destruct Hin as [<-|Hin].
        -- right. left. subst b. reflexivity.
        -- right. right. exact Hin.
    + destruct (IHrest l d after Er) as [p [Hp Hin]].
      exists p. split; [exact Hp|]. destruct Hin as [<-|Hin]; [left; reflexivity|].
      right. subst before b. cbn [map code]. right. rewrite map_app.
      apply in_or_app. right. exact Hin.
Qed.

Lemma parents_first_app (a b : list domain) :
  parents_first a -> parents_first b -> parents_first (a ++ b).
Proof.
  intros Ha Hb before d after E.
  apply app_eq_app in E. destruct E as [l [[El Er]|[El Er]]].
  - destruct l as [|x l].
    + cbn [app] in Er. rewrite app_nil_r in El. subst before.
      specialize (Hb [] d after (eq_sym Er)).
      destruct (parent_code d); [destruct Hb|exact I].
    + cbn [app] in Er. inversion Er. subst x. exact (Ha before d l El).
  - specialize (Hb l d after Er). destruct (parent_code d) as [p|]; [|exact I].
    subst before. rewrite map_app. apply in_or_app. right. exact Hb.
Qed.

Lemma traverse_item_parents_first (c : pystr) (n : node) :
  parents_first (traverse_item None c n).
Proof.
  destruct (traverse_item_parents n None c) as [rest [E P]]. rewrite E.
  intros before d after E'. destruct before as [|b before]; cbn [app] in E'.
  - inversion E'. subst. exact I.
  - inversion E' as [[Eb Er]]. destruct (P before d after Er) as [p [Hp Hin]].
    rewrite Hp. subst b. exact Hin.
Qed.

Lemma roots_of_item (c : pystr) (n : node) :
  map code (filter (fun d => match parent_code d with None => true | Some _ => false end)
                   (traverse_item None c n)) = [c].
Proof.
  destruct (traverse_item_parents n None c) as [rest [E P]]. rewrite E.
  cbn [filter parent_code map code]. f_equal.
  assert (G : forall l, (forall before d after, l = before ++ d :: after ->
                                          exists p, parent_code d = Some p) ->
                        filter (fun d => match parent_code d with
                                         | None => true | Some _ => false end) l = []).
  { induction l as [|x l IHl]; intros H; [reflexivity|]. cbn [filter].
    destruct (H [] x l eq_refl) as [p Hp]. rewrite Hp. apply IHl.
    intros before d after E'. apply (H (x :: before) d after). rewrite E'. reflexivity. }
  rewrite G; [reflexivity|].
  intros before d after E'. destruct (P before d after E') as [p [Hp _]]. eauto.
Qed.

(** X25.  In the list [get_all_tech_domains] makes of a tree, every domain
    that has a parent code comes after a domain with that code, and the
    domains without a parent are the top nodes of the tree, in its
    order. *)
Theorem tech_domains_list_parents_first :
  forall (tree : list (pystr * node)),
    parents_first (all_tech_domains tree)
    /\ map code (filter (fun d => match parent_code d with
                                  | None => true
                                  | Some _ => false
                                  end) (all_tech_domains tree))
       = map fst tree.
Proof.
  intros tree. unfold all_tech_domains, traverse.
  induction tree as [|[c n] tree [IH1 IH2]]; cbn [flat_map fst snd map].
  - split; [|reflexivity]. intros [|? ?] ? ? E; discriminate.
  - split.
    + apply parents_first_app; [apply traverse_item_parents_first|exact IH1].
    + rewrite filter_app, map_app, roots_of_item, IH2. reflexivity.
Qed.

Lemma l3_lines_domains (c2 : pystr) (dict3 : list (pystr * node)) :
  forallb (leaf_level 3) dict3 = true ->
  filter nonblank (l3_lines (Some dict3)) = map domain_line (traverse dict3 (Some c2)).
Proof.
  unfold traverse. induction dict3 as [|[c3 [zh en lv ch]] dict3 IH]; [reflexivity|].
  cbn [forallb leaf_level]. intros H. apply andb_true_iff in H. destruct H as [H Hrest].
  apply andb_true_iff in H. destruct H as [Hlv Hch]. apply Z.eqb_eq in Hlv. subst lv.
  cbn [l3_lines map flat_map fst snd] in *. rewrite traverse_item_eq.
  assert (Ech : match ch with Some node_dict => traverse node_dict (Some c3) | None => [] end
                = []).
  { destruct ch as [[|? ?]|]; [reflexivity|discriminate|reflexivity]. }
  rewrite Ech. cbn [app map filter].
  change (nonblank (u "    - " ++ c3 ++ u ": " ++ zh)) with true. cbv iota.
  change (domain_line (mkDomain c3 zh en 3 (Some c2)))
    with (u "    - " ++ c3 ++ u ": " ++ zh).
  f_equal. exact (IH Hrest).
Qed.

Lemma l2_lines_domains (c1 : pystr) (dict2 : list (pystr * node)) :
  forallb (fun item2 =>
             match item2 with
             | (_, Node _ _ lv2 children2) =>
               (lv2 =? 2)%Z
               && match children2 with
                  | Some dict3 => forallb (leaf_level 3) dict3
                  | None => true
                  end
             end) dict2 = true ->
  filter nonblank (l2_lines dict2) = map domain_line (traverse dict2 (Some c1)).
Proof.
  unfold traverse, l2_lines. induction dict2 as [|[c2 [zh en lv ch]] dict2 IH]; [reflexivity|].
  cbn [forallb]. intros H. apply andb_true_iff in H. destruct H as [H Hrest].
  apply andb_true_iff in H. destruct H as [Hlv Hch]. apply Z.eqb_eq in Hlv. subst lv.
  cbn [flat_map fst snd]. rewrite traverse_item_eq.
  rewrite !filter_app, !map_app. f_equal; [|exact (IH Hrest)].
  cbn [app map filter nonblank].
  change (nonblank (u "  **" ++ c2 ++ u "** " ++ zh ++ u " (" ++ en ++ u ")")) with true.
  cbv iota. rewrite app_nil_r. cbn [app].
  change (domain_line (mkDomain c2 zh en 2 (Some c1)))
    with (u "  **" ++ c2 ++ u "** " ++ zh ++ u " (" ++ en ++ u ")").
  f_equal. destruct ch as [dict3|].
  - exact (l3_lines_domains c2 dict3 Hch).
  - reflexivity.
Qed.

Lemma l1_lines_domains (tree : list (pystr * node)) :
  three_levels tree = true ->
  filter nonblank (l1_lines tree) = map domain_line (all_tech_domains tree).
Proof.
  unfold all_tech_domains, traverse, l1_lines, three_levels.
  induction tree as [|[c1 [zh en lv ch]] tree IH]; [reflexivity|].
  cbn [forallb]. intros H. apply andb_true_iff in H. destruct H as [H Hrest].
  apply andb_true_iff in H. destruct H as [Hlv Hch]. apply Z.eqb_eq in Hlv. subst lv.
  cbn [flat_map fst snd]. rewrite traverse_item_eq.
  rewrite !filter_app, !map_app. f_equal; [|exact (IH Hrest)].
  cbn [app map filter nonblank].
  change (nonblank (u "### " ++ c1 ++ u " " ++ zh ++ u " (" ++ en ++ u ")")) with true.
  cbv iota. cbn [app].
  change (domain_line (mkDomain c1 zh en 1 None))
    with (u "### " ++ c1 ++ u " " ++ zh ++ u " (" ++ en ++ u ")").
  f_equal. destruct ch as [[|item2 dict2]|]; try reflexivity.
  exact (l2_lines_domains c1 (item2 :: dict2) Hch).
Qed.

(** X26.  For a tree of three levels, the lines of [get_tech_tree_text]
    after its title that are not empty are the lines of the domains
    [get_all_tech_domains] lists, one each and in the same order. *)
Theorem tech_tree_text_lists_every_domain :
  forall (tree : list (pystr * node)),
    three_levels tree = true ->
    filter nonblank (skipn 2 (text_lines tree))
    = map domain_line (all_tech_domains tree).
Proof.
  intros tree H. unfold text_lines. cbn [app skipn]. apply l1_lines_domains. exact H.
Qed.

(** The theorem on [TECH_TREE]: its 78 domains, each on its line. *)
Lemma tech_tree_text_lists_every_domain_witness :
  three_levels TECH_TREE = true
  /\ length get_all_tech_domains = 78
  /\ filter nonblank (skipn 2 (text_lines TECH_TREE))
     = map domain_line get_all_tech_domains.
Proof.
  assert (H : three_levels TECH_TREE = true) by (vm_compute; reflexivity).
  split; [exact H|]. split; [vm_compute; reflexivity|].
  apply (tech_tree_text_lists_every_domain TECH_TREE H).
Defined.

End TechDomainFacts.

(* ===================================================================== *)
(** * Facts about the prompts *)
(* ===================================================================== *)

Module PromptFacts.
Import PromptText.

Lemma startswith_self_app (sub b : pystr) : startswith sub (sub ++ b) = true.
Proof.
  induction sub as [|c sub IH]; [reflexivity|]. cbn. rewrite N.eqb_refl. exact IH.
Qed.

Lemma find_from_found (sub a b : pystr) (i : Z) :
  (0 <= i)%Z -> (0 <= find_from sub (a ++ sub ++ b) i)%Z.
Proof.
  revert i. induction a as [|c a IH]; intros i Hi.
  - cbn [app]. pose proof (startswith_self_app sub b) as H.
    destruct (sub ++ b) as [|c s]; cbn [find_from]; rewrite H; exact Hi.
  - cbn [app find_from]. destruct (startswith sub (c :: a ++ sub ++ b)); [exact Hi|].
    apply IH. lia.
Qed.

(** A text contains each of its parts. *)
Lemma contains_part (sub a b : pystr) : contains sub (a ++ sub ++ b) = true.
Proof.
  unfold contains, str_find. apply Z.leb_le. apply find_from_found. lia.
Qed.

Lemma join_part (sep x : pystr) (l : list pystr) :
  In x l -> exists a b, join sep l = a ++ x ++ b.
Proof.
  induction l as [|y l IH]; [intros []|]. intros [->|Hin].
  - destruct l as [|z l].
    + exists [], []. cbn. rewrite app_nil_r. reflexivity.
    + exists [], (sep ++ join sep (z :: l)). reflexivity.
  - destruct (IH Hin) as [a [b E]]. destruct l as [|z l]; [destruct Hin|].
    exists (y ++ sep ++ a), b.
    change (join sep (y :: z :: l)) with (y ++ sep ++ join sep (z :: l)).
    rewrite E, <- !app_assoc. reflexivity.
Qed.

Lemma enumerate_nth {A : Type} (l : list A) (i : nat) (x : A) :
  nth_error l i = Some x -> In (i, x) (enumerate l).
Proof.
  unfold enumerate. intros H.
  assert (G : forall n, In (n + i, x) (combine (seq n (length l)) l)).
  { revert i H. induction l as [|y l IH]; intros [|i] H n; try discriminate.
    - cbn in H. inversion H. subst. cbn [length seq combine]. left.
      rewrite Nat.add_0_r. reflexivity.
    - cbn [length seq combine]. right.
      replace (n + S i) with (S n + i) by lia. apply IH. exact H. }
  exact (G 0).
Qed.

(** X27.  The two classification prompts hold, for the patent at place
    [i] of the batch, five lines in a row: the heading with the number
    [i + 1], then its id, its title, the first 300 characters of its
    abstract followed by three dots, and its IPC class ([None] when it has
    none).  The location prompt holds, for the entity at place [i], the
    line with the number [i + 1], its name, its normalized name and its
    type. *)
Theorem prompt_names_every_item_of_the_batch :
  (forall (patents : list Patent) (i : nat) (p : Patent),
      nth_error patents i = Some p ->
      let block :=
        u "### 专利" ++ str_of_N (N.of_nat (i + 1)) ++ [10%N]
          ++ u "ID: " ++ patentId p ++ [10%N]
          ++ u "标题: " ++ titleZh p ++ [10%N]
          ++ u "摘要: " ++ firstn 300 (abstractZh p) ++ u "..." ++ [10%N]
          ++ u "IPC: " ++ match ipcMainClass p with
                          | Some ipc => ipc
                          | None => u "None"
                          end in
      contains block (build_green_classification_prompt patents) = true
      /\ contains block (build_tech_classification_prompt patents) = true)
  /\ (forall (entities : list Entity) (i : nat) (e : Entity),
         nth_error entities i = Some e ->
         contains (str_of_N (N.of_nat (i + 1)) ++ u ". " ++ name e
                     ++ u " (标准化名称: " ++ normalizedName e
                     ++ u ", 类型: " ++ type e ++ u ")")
                  (build_location_extraction_prompt entities) = true).
Proof.
  split.
  - intros patents i p Hp block.
    assert (Eb : block = patent_info i p).
    { subst block. unfold patent_info, lines. cbn [join].
      rewrite <- !app_assoc. reflexivity. }
    rewrite Eb. clear Eb block.
    assert (Hinfo : In (patent_info i p) (patents_info patents)).
    { unfold patents_info. apply in_map_iff. exists (i, p).
      split; [reflexivity|apply enumerate_nth; exact Hp]. }
    destruct (join_part [10%N] _ _ Hinfo) as [a [b E]].
    unfold build_green_classification_prompt, build_tech_classification_prompt.
    rewrite E. split.
    + replace (green_head ++ (a ++ patent_info i p ++ b) ++ green_middle
                 ++ categories_text ++ green_tail)
        with ((green_head ++ a) ++ patent_info i p
                ++ (b ++ green_middle ++ categories_text ++ green_tail))
        by (rewrite <- !app_assoc; reflexivity).
      apply contains_part.
    + replace (tech_head ++ (a ++ patent_info i p ++ b) ++ tech_middle
                 ++ TechDomains.get_tech_tree_text ++ tech_tail)
        with ((tech_head ++ a) ++ patent_info i p
                ++ (b ++ tech_middle ++ TechDomains.get_tech_tree_text ++ tech_tail))
        by (rewrite <- !app_assoc; reflexivity).
      apply contains_part.
  - intros entities i e He.
    change (str_of_N (N.of_nat (i + 1)) ++ u ". " ++ name e
              ++ u " (标准化名称: " ++ normalizedName e
              ++ u ", 类型: " ++ type e ++ u ")")
      with (entity_info i e).
    assert (Hinfo : In (entity_info i e) (entities_info entities)).
    { unfold entities_info. apply in_map_iff. exists (i, e).
      split; [reflexivity|apply enumerate_nth; exact He]. }
    destruct (join_part [10%N] _ _ Hinfo) as [a [b E]].
    unfold build_location_extraction_prompt. rewrite E.
    replace (location_head ++ (a ++ entity_info i e ++ b) ++ location_tail)
      with ((location_head ++ a) ++ entity_info i e ++ (b ++ location_tail))
      by (rewrite <- !app_assoc; reflexivity).
    apply contains_part.
Qed.

(** The theorem on the batch of [patent_1], which has no IPC class, and
    on the batch of its entity. *)
Lemma prompt_names_every_item_of_the_batch_witness :
  contains (u "### 专利" ++ str_of_N (N.of_nat (0 + 1)) ++ [10%N]
              ++ u "ID: " ++ patentId patent_1 ++ [10%N]
              ++ u "标题: " ++ titleZh patent_1 ++ [10%N]
              ++ u "摘要: " ++ firstn 300 (abstractZh patent_1) ++ u "..." ++ [10%N]
              ++ u "IPC: " ++ u "None")
           (build_green_classification_prompt [patent_1]) = true
  /\ u "### 专利" ++ str_of_N (N.of_nat (0 + 1)) ++ [10%N]
       ++ u "ID: " ++ patentId patent_1 ++ [10%N]
       ++ u "标题: " ++ titleZh patent_1 ++ [10%N]
       ++ u "摘要: " ++ firstn 300 (abstractZh patent_1) ++ u "..." ++ [10%N]
       ++ u "IPC: " ++ u "None"
     = lines [u "### 专利1"; u "ID: CN1"; u "标题: 一种电解槽";
              u "摘要: 本发明公开了一种电解槽..."; u "IPC: None"]
  /\ contains (u "1. 北京氢能有限公司 (标准化名称: 北京氢能, 类型: 企业)")
              (build_location_extraction_prompt
                 [mkEntity (u "北京氢能") (u "北京氢能有限公司") (u "企业")]) = true.
Proof.
  split; [|split].
  - apply (proj1 prompt_names_every_item_of_the_batch [patent_1] 0 patent_1).
    reflexivity.
  - vm_compute. reflexivity.
  - assert (E : u "1. 北京氢能有限公司 (标准化名称: 北京氢能, 类型: 企业)"
                = str_of_N (N.of_nat (0 + 1)) ++ u ". "
                    ++ name (mkEntity (u "北京氢能") (u "北京氢能有限公司") (u "企业"))
                    ++ u " (标准化名称: "
                    ++ normalizedName (mkEntity (u "北京氢能") (u "北京氢能有限公司")
                                                (u "企业"))
                    ++ u ", 类型: "
                    ++ type (mkEntity (u "北京氢能") (u "北京氢能有限公司") (u "企业"))
                    ++ u ")") by (vm_compute; reflexivity).
    rewrite E.
    apply (proj2 prompt_names_every_item_of_the_batch
                 [mkEntity (u "北京氢能") (u "北京氢能有限公司") (u "企业")] 0
                 (mkEntity (u "北京氢能") (u "北京氢能有限公司") (u "企业"))).
    reflexivity.
Defined.

(** X28.  Whatever the batch, the prompt of the domain classification
    holds the line of every domain [get_all_tech_domains] lists, so every
    code the importer knows is offered to the model. *)
Theorem tech_prompt_offers_every_domain :
  forall (patents : list Patent) (d : TechDomains.domain),
    In d TechDomains.get_all_tech_domains ->
    contains (TechDomains.domain_line d) (build_tech_classification_prompt patents) = true.
Proof.
  intros patents d Hd.
  assert (Hl : In (TechDomains.domain_line d) (TechDomains.text_lines TechDomains.TECH_TREE)).
  { unfold TechDomains.text_lines. right. right.
    assert (Hf : In (TechDomains.domain_line d)
                    (filter TechDomains.nonblank
                            (TechDomains.l1_lines TechDomains.TECH_TREE))).
    { rewrite TechDomainFacts.l1_lines_domains by (vm_compute; reflexivity).
      apply in_map. exact Hd. }
    apply filter_In in Hf. apply Hf. }
  destruct (join_part [10%N] _ _ Hl) as [a [b E]].
  unfold build_tech_classification_prompt, TechDomains.get_tech_tree_text,
    TechDomains.tech_tree_text. rewrite E.
  replace (tech_head ++ join [10%N] (patents_info patents) ++ tech_middle
             ++ (a ++ TechDomains.domain_line d ++ b) ++ tech_tail)
    with ((tech_head ++ join [10%N] (patents_info patents) ++ tech_middle ++ a)
            ++ TechDomains.domain_line d ++ (b ++ tech_tail))
    by (rewrite <- !app_assoc; reflexivity).
  apply contains_part.
Qed.

(** The theorem on the domain H1.1.2. *)
Lemma tech_prompt_offers_every_domain_witness :
  contains (TechDomains.domain_line
              (TechDomains.mkDomain (u "H1.1.2") (u "质子交换膜电解(PEMEL)")
                                    (u "Proton Exchange Membrane Electrolysis (PEMEL)") 3
                                    (Some (u "H1.1"))))
           (build_tech_classification_prompt [patent_1]) = true.
Proof.
  apply (tech_prompt_offers_every_domain
           [patent_1]
           (TechDomains.mkDomain (u "H1.1.2") (u "质子交换膜电解(PEMEL)")
                                 (u "Proton Exchange Membrane Electrolysis (PEMEL)") 3
                                 (Some (u "H1.1")))).
  vm_compute. right. right. right. left. reflexivity.
Defined.

End PromptFacts.

(* ===================================================================== *)
(** * Facts about a whole run *)
(* ===================================================================== *)

Module RunFacts.
Import LoopFacts.

(** X3.  When the files of a session hold what its store holds, and
    [mark_processed_patents] has returned having written the progress
    file, a store opened again on the files answers
    [is_patent_processed] with true for the keys marked and as before for
    every other key, and [is_entity_processed] as before.  When
    [json.dump] could not write the progress dict (a key or the session id
    holds a lone surrogate), the store opened again is the store before
    the call: the marks are lost with the process.  The same holds of
    [mark_processed_entities], with the two ledgers exchanged. *)
Theorem marked_keys_are_found_after_a_restart :
  forall (env : Env) (timestamp : pystr) (keys : list pystr) (st : JSONStorage)
         (fs : filesystem),
    persisted st fs ->
    (let saved := mark_processed_patents env timestamp keys st fs in
     (dumpable env (dump (fst saved) progress) = true ->
      exists st' logs,
        JSONStorage_init (session_id st) (snd saved) = Some (st', logs)
        /\ (forall x, is_patent_processed st' x
                      = is_patent_processed st x || existsb (str_eqb x) keys)
        /\ (forall x, is_entity_processed st' x = is_entity_processed st x))
     /\ (dumpable env (dump (fst saved) progress) = false ->
         exists logs, JSONStorage_init (session_id st) (snd saved) = Some (st, logs)))
    /\ (let saved := mark_processed_entities env timestamp keys st fs in
        (dumpable env (dump (fst saved) progress) = true ->
         exists st' logs,
           JSONStorage_init (session_id st) (snd saved) = Some (st', logs)
           /\ (forall x, is_entity_processed st' x
                         = is_entity_processed st x || existsb (str_eqb x) keys)
           /\ (forall x, is_patent_processed st' x = is_patent_processed st x))
        /\ (dumpable env (dump (fst saved) progress) = false ->
            exists logs, JSONStorage_init (session_id st) (snd saved) = Some (st, logs))).
Proof.
  intros env ts keys st fs H. split; cbv zeta; split.
  - intros Hd. unfold mark_processed_patents in *. cbn [fst snd] in *.
    match goal with |- context [_save_json env ?self progress fs] =>
      assert (H' : persisted self (_save_json env self progress fs))
    end.
    { apply (RestartFacts.persisted_save env _ st); [exact H|reflexivity| |exact Hd].
      intros dt' Hne. destruct dt'; try reflexivity. exfalso. apply Hne. reflexivity. }
    destruct (JSONStorage_init_persisted _ _ H') as [logs [E _]].
    eexists. exists logs. split; [exact E|]. split.
    + intros x. apply is_patent_processed_app. reflexivity.
    + intros x. reflexivity.
  - intros Hd. unfold mark_processed_patents in *. cbn [fst snd] in *.
    destruct (JSONStorage_init_persisted _ _
                (RestartFacts.persisted_save_failed env _ st progress fs H Hd))
      as [logs [E _]].
    exists logs. exact E.
  - intros Hd. unfold mark_processed_entities in *. cbn [fst snd] in *.
    match goal with |- context [_save_json env ?self progress fs] =>
      assert (H' : persisted self (_save_json env self progress fs))
    end.
    { apply (RestartFacts.persisted_save env _ st); [exact H|reflexivity| |exact Hd].
      intros dt' Hne. destruct dt'; try reflexivity. exfalso. apply Hne. reflexivity. }
    destruct (JSONStorage_init_persisted _ _ H') as [logs [E _]].
    eexists. exists logs. split; [exact E|]. split.
    + intros x. apply is_entity_processed_app. reflexivity.
    + intros x. reflexivity.
  - intros Hd. unfold mark_processed_entities in *. cbn [fst snd] in *.
    destruct (JSONStorage_init_persisted _ _
                (RestartFacts.persisted_save_failed env _ st progress fs H Hd))
      as [logs [E _]].
    exists logs. exact E.
Qed.

(** The theorem on the store of a finished session, marking a second
    patent. *)
Lemma marked_keys_are_found_after_a_restart_witness :
  exists st' logs,
    JSONStorage_init (u "s1")
                     (snd (mark_processed_patents env_down (u "2025-01-02T00:00:00")
                                                  [u "CN2"] finished_store
                                                  (files_written finished_store)))
    = Some (st', logs)
    /\ is_patent_processed st' (u "CN1") = true
    /\ is_patent_processed st' (u "CN2") = true
    /\ is_patent_processed st' (u "CN3") = false.
Proof.
  destruct (proj1 (proj1 (marked_keys_are_found_after_a_restart
                     env_down (u "2025-01-02T00:00:00") [u "CN2"] finished_store
                     (files_written finished_store)
                     ltac:(intros dt; destruct dt; [left|right|right|left];
                           try reflexivity; split; reflexivity)))
                  ltac:(vm_compute; reflexivity))
    as [st' [logs (E & P & _)]].
  exists st', logs. split; [exact E|]. rewrite !P. repeat split; reflexivity.
Defined.

(** A key that holds a lone surrogate: the progress file is not written,
    and the store opened again has none of the keys of the call. *)
Example marks_lost_with_a_surrogate_key :
  exists logs,
    JSONStorage_init (u "s1")
      (snd (mark_processed_patents env_down (u "2025-01-02T00:00:00")
              [u "CN2"; [55357%N]] finished_store (files_written finished_store)))
    = Some (finished_store, logs)
    /\ is_patent_processed finished_store (u "CN2") = false.
Proof.
  eexists. split; [vm_compute; reflexivity|reflexivity].
Qed.

(** X12.  While the API is down, with a classification enabled, more
    slots than [max_retries] and a slot for every attempt of two calls
    for each pending patent, [generate_all_async] returns; unless a
    signal stopped it, every patent of the catalog is then marked
    processed, and every entity too when location extraction is enabled,
    although nothing was obtained for any; the semaphore it made has all
    its slots free. *)
Theorem run_ends_with_all_work_marked :
  forall (cfg : Config) (env : Env) (pr : Prompts) (fuel : nat) (g : AsyncLLMGenerator),
    (forall n, transport_failure (llm env n) = true) ->
    set_order_ok env ->
    enable_green_classification cfg || enable_tech_classification cfg = true ->
    max_retries cfg < max_concurrent_requests cfg ->
    2 * length (pending g) * S (max_retries cfg) <= max_concurrent_requests cfg ->
    length (pending g) < fuel ->
    length (pending_entities g) < fuel ->
    exists g',
      generate_all_async fuel cfg env pr g = Done tt g'
      /\ (should_stop g' = false ->
          (forall p, In p (all_patents g) ->
                     is_patent_processed (storage g') (patentId p) = true)
          /\ (enable_location_extraction cfg = true ->
              forall e, In e (all_entities g) ->
                        is_entity_processed (storage g') (normalizedName e) = true))
      /\ data_entity (storage g') = data_entity (storage g)
      /\ semaphore g' = max_concurrent_requests cfg.
Proof.
  intros cfg env pr fuel g Hdown Hset Hen Hslots Hall Hp He.
  unfold generate_all_async. unfold bind at 1. unfold bind at 1.
  set (g0 := set_semaphore (max_concurrent_requests cfg) g).
  destruct fuel as [|n]; [lia|].
  destruct (process_patents_async_completes cfg env pr Hset Hen n g0)
    as [g1 (E1 & D1 & A1 & B1 & S1 & Le1 & M1 & _ & De1)];
    [left; exact Hall|exact (proj1 (Nat.lt_succ_r _ _) Hp)|].
  rewrite E1.
  assert (Hpe : pending_entities g1 = pending_entities g).
  { unfold pending_entities, is_entity_processed. rewrite B1, Le1. reflexivity. }
  unfold process_entities_async.
  destruct (enable_location_extraction cfg) eqn:Eloc; cbn [negb].
  - destruct (entities_loop_completes cfg env pr Hdown n g1)
      as [g2 (E2 & D2 & A2 & B2 & S2 & Lp2 & M2 & R2)].
    + rewrite S1. exact Hslots.
    + rewrite Hpe. lia.
    + exists g2. split; [exact E2|].
      split; [|split; [exact (eq_trans (R2 entity_locations) De1)
                      |rewrite S2, S1; reflexivity]].
      intros Hstop.
      assert (Hstop1 : should_stop g1 = false).
      { destruct (should_stop g1) eqn:Es; [|reflexivity].
        destruct n; cbn [entities_loop] in E2; rewrite Es in E2; inversion E2; subst;
          congruence. }
      split.
      * intros p Hin. specialize (D1 Hstop1).
        unfold is_patent_processed. rewrite Lp2.
        destruct (is_patent_processed (storage g1) (patentId p)) eqn:Ee; [exact Ee|].
        exfalso. assert (Hin' : In p (pending g1)).
        { unfold pending. apply filter_In. rewrite A1, Ee. split; [exact Hin|reflexivity]. }
        rewrite D1 in Hin'. destruct Hin'.
      * intros _ e Hin. specialize (D2 Hstop).
        destruct (is_entity_processed (storage g2) (normalizedName e)) eqn:Ee; [reflexivity|].
        exfalso. assert (Hin' : In e (pending_entities g2)).
        { unfold pending_entities. apply filter_In. rewrite A2, B1, Ee.
          split; [exact Hin|reflexivity]. }
        rewrite D2 in Hin'. destruct Hin'.
  - exists g1. split; [reflexivity|]. split; [|split; [exact De1|exact S1]].
    intros Hstop. split; [|discriminate].
    intros p Hin. specialize (D1 Hstop).
    destruct (is_patent_processed (storage g1) (patentId p)) eqn:Ee; [reflexivity|].
    exfalso. assert (Hin' : In p (pending g1)).
    { unfold pending. apply filter_In. rewrite A1, Ee. split; [exact Hin|reflexivity]. }
    rewrite D1 in Hin'. destruct Hin'.
Qed.

(** The theorem on the API that answers 500, with eight slots: the run
    ends with [patent_1] and its entity marked, and no location saved. *)
Lemma run_ends_with_all_work_marked_witness :
  exists g',
    generate_all_async 2 eight_slot_config env_down some_prompts (idle 0 [patent_1])
    = Done tt g'
    /\ is_patent_processed (storage g') (u "CN1") = true
    /\ is_entity_processed (storage g') (u "北京氢能") = true
    /\ data_entity (storage g') = [].
Proof.
  destruct (run_ends_with_all_work_marked
              eight_slot_config env_down some_prompts 2 (idle 0 [patent_1])
              ltac:(intros n; reflexivity)
              set_order_ok_env_down eq_refl ltac:(cbn; lia) ltac:(vm_compute; lia)
              ltac:(cbn; lia) ltac:(vm_compute; lia))
    as [g' (E & D & R & _)].
  exists g'. split; [exact E|].
  assert (Hs : should_stop g' = false).
  { vm_compute in E. inversion E. reflexivity. }
  destruct (D Hs) as [Dp De]. split; [|split; [|exact R]].
  - apply (Dp patent_1). left. reflexivity.
  - apply (De eq_refl (mkEntity (u "北京氢能") (u "北京氢能有限公司") (u "企业"))).
    vm_compute. left. reflexivity.
Defined.

(** The session listed first has the greatest id. *)
Lemma first_session_is_greatest (entries : list (pystr * content)) (sid : pystr)
  (x : json) :
  In x (found_sessions entries) ->
  session_key x = sid ->
  (forall s, In s (found_sessions entries) -> str_ltb sid (session_key s) = false) ->
  exists latest others,
    list_available_sessions (Some entries) = latest :: others
    /\ session_key latest = sid.
Proof.
  intros Hx Hk Hmax. cbn [list_available_sessions].
  pose proof (SessionFacts.sorted_reverse_sorted session_key (found_sessions entries)) as Hs.
  pose proof (SessionFacts.sorted_reverse_perm session_key (found_sessions entries)) as Hp.
  destruct (sorted_reverse session_key (found_sessions entries)) as [|latest others].
  - apply Permutation_nil in Hp. rewrite Hp in Hx. destruct Hx.
  - exists latest, others. split; [reflexivity|].
    assert (H1 : str_ltb sid (session_key latest) = false).
    { apply Hmax. apply (Permutation_in _ Hp). left. reflexivity. }
    assert (H2 : str_ltb (session_key latest) sid = false).
    { apply (Permutation_in _ (Permutation_sym Hp)) in Hx.
      destruct Hx as [<-|Hx]; [rewrite Hk; apply SessionFacts.str_ltb_irrefl|].
      inversion Hs as [|? ? _ Hall]; subst. rewrite Forall_forall in Hall.
      apply Hall. exact Hx. }
    destruct (SessionFacts.str_ltb_total (session_key latest) sid) as [H|[H|H]];
      congruence.
Qed.

(** X24.  Started without arguments, [main] resumes the saved session
    whose id no other session of the directory exceeds, and the generator
    made for that id has the saved store: its pending patents are the
    patents of the catalog that the saved ledger does not hold. *)
Theorem latest_saved_session_is_resumed :
  forall (env : Env) (patents : list Patent) (files_of : pystr -> filesystem)
         (entries : list (pystr * content)) (prog : pystr) (st : JSONStorage),
    prog <> u "--new" ->
    session_id st <> [] ->
    contains (u "_progress.json") (session_id st) = false ->
    persisted st (files_of (session_id st)) ->
    In (file_name (session_id st) (File progress), Text (dump st progress)) entries ->
    (forall s, In s (found_sessions entries) ->
               str_ltb (session_id st) (session_key s) = false) ->
    main [prog] (Some entries) = Generate (Some (session_id st))
    /\ exists g0,
         AsyncLLMGenerator_init env (Some (session_id st)) patents files_of = Some g0
         /\ storage g0 = st
         /\ pending g0
            = filter (fun p => negb (is_patent_processed st (patentId p))) patents.
Proof.
  intros env patents files_of entries prog st Hprog Hne Hsid Hfiles Hin Hmax. split.
  - destruct (first_session_is_greatest entries (session_id st) (listed_session st))
      as [latest [others [El Ek]]].
    + apply SessionFacts.saved_session_found; assumption.
    + reflexivity.
    + exact Hmax.
    + unfold main. cbn [nth_error existsb].
      assert (E : str_eqb (u "--new") prog = false).
      { apply str_eqb_neq. congruence. }
      rewrite E. cbn [orb]. rewrite El, Ek. reflexivity.
  - destruct (JSONStorage_init_persisted (files_of (session_id st)) st Hfiles)
      as [logs [Einit _]].
    unfold AsyncLLMGenerator_init.
    destruct (session_id st) as [|c s] eqn:Es; [congruence|].
    rewrite Einit. eexists. split; [reflexivity|]. split; reflexivity.
Qed.

(** The theorem on the files of [finished_store]: nothing is pending. *)
Lemma latest_saved_session_is_resumed_witness :
  main [u "llm_generate_json.py"]
       (Some [(u "s1_progress.json", Text (dump finished_store progress))])
  = Generate (Some (u "s1"))
  /\ exists g0,
       AsyncLLMGenerator_init env_down (Some (u "s1")) [patent_1]
                              (fun _ => files_written finished_store) = Some g0
       /\ pending g0 = [].
Proof.
  destruct (latest_saved_session_is_resumed
              env_down [patent_1] (fun _ => files_written finished_store)
              [(u "s1_progress.json", Text (dump finished_store progress))]
              (u "llm_generate_json.py") finished_store)
    as [Hm [g0 (E & _ & P)]].
  - vm_compute. discriminate.
  - vm_compute. discriminate.
  - vm_compute. reflexivity.
  - intros dt. destruct dt; [left|right|right|left]; try reflexivity; split; reflexivity.
  - left. reflexivity.
  - intros s H. vm_compute in H. destruct H as [<-|[]]. vm_compute. reflexivity.
  - split; [exact Hm|]. exists g0. split; [exact E|]. rewrite P. reflexivity.
Defined.

End RunFacts.
